(* ===== verification/_CoqProject ===== *)
-Q . S2P
Prelude.v
Bytes.v
Utf8.v
Console.v
BlockCache.v
Layout.v
DiskLib.v
Bitmap.v
DiskInode.v
FileData.v
DirEntry.v
Efs.v
FsInv.v
Vfs.v
VfsSpec.v
VfsDir.v
EfsSpec.v
BlockFile.v
FsModel.v
Packer.v
Address.v
FrameAlloc.v
PageTable.v
UserBuf.v
MemorySet.v
MemSpec.v
ForkSpec.v
AddrSpace.v
Loader.v
Context.v
Asm.v
Pid.v
Kernel.v
Task.v
Spaces.v
Virtio.v
Manager.v
Processor.v
OsFile.v
UserMem.v
Syscall.v
FileSpec.v
ProcSpec.v
ReapSpec.v
Trap.v
MemType.v
KernelSpace.v
Boot.v
ProcTable.v
KernelInv.v
KernelRefine.v
KernelSpec.v
KernelDemo.v
FileDemo.v
BootDemo.v
ProcDemo.v
ReapDemo.v
