(* ===== verification/Prelude.v ===== *)
(** * rCore: a verification of the kernel, its file system and its packer

    The program is the teaching kernel rCore for RISC-V ([src/os]), the file system
    easy-fs it mounts ([src/easy-fs]) and the host program that packs a disk image
    ([src/easy-fs-fuse]).  This library translates them to functions of Rocq and proves what they do.

    ** The parts and how they interact

    User programs trap into the kernel ([trap.S], [trap/mod.rs]); the handler runs system
    calls ([syscall/]), which work on the current process ([task/]), its address space
    ([mm/]) and its files ([fs/]).  Files are inodes of easy-fs, which keeps its
    structures in blocks behind a cache of 16 blocks, over a block device: the
    virtio disk in the kernel ([drivers/block]), a host file in the packer.  The processor goes from process to
    process by [__switch] ([switch.S]), as the stride scheduler says.

    ** How the code is modelled

    A Rust function is a Rocq function of the same name.  What can fail returns a [res];
    what has state is in the monad [M S A], [S → res (S * A)].  The faults keep apart the ways Rust
    code stops.  [usize], [u64], [u32] and [u8] are integers with the wrap-around of a release
    build written out ([wrap64], [wrap32], [wrap8]).  Values that Rust drops
    at the end of a scope, such as a [FrameTracker], are given back where the source drops
    them.

    easy-fs is written as programs over cached blocks ([BlockCache.prog]): a tree in which
    a closure under a block's lock may use the cache again.  A program runs on the cache
    manager over a device ([Cache.crun]) and on a plain map of blocks ([Disk.arun]).
    The state of the kernel is the record [Kernel.kernel].  An [Arc] is a handle into a
    table, so that aliases see each other's changes, and a [RefCell] has its borrow flag.
    The control flow of [__switch] is the type [kthread]: where a kernel thread goes on.

    ** Files of this library

    Shared: Prelude (faults, monads, loops, machine integers, tactics), Bytes (integers and
    arrays in raw memory), Utf8, Console ([console.rs], [logging.rs], [lang_items.rs], [sbi.rs]).

    easy-fs: BlockCache ([block_cache.rs], [block_dev.rs]); Layout, DirEntry and DiskInode
    ([layout.rs]); Bitmap ([bitmap.rs]); Efs ([efs.rs]); Vfs ([vfs.rs]); with DiskLib, FileData,
    FsInv, VfsSpec, VfsDir and EfsSpec for the proofs, and FsModel for the abstract file system.
    Packer and BlockFile are [easy-fs-fuse/src/main.rs].

    Memory: Address ([address.rs], [config.rs]), FrameAlloc ([frame_allocator.rs]),
    PageTable and UserBuf ([page_table.rs]), MemorySet ([memory_set.rs]); MemSpec, ForkSpec,
    AddrSpace and Loader for the proofs; KernelSpace for the kernel's own address space.

    Processes: Context and Asm ([trap/context.rs], [task/context.rs], [switch.S], [trap.S]), Pid
    ([pid.rs]), Kernel (the state; [sync/up.rs]), Task ([task.rs]), Manager ([manager.rs]), Processor
    ([processor.rs], [task/mod.rs], [timer.rs]), Virtio ([drivers/block]), OsFile ([fs/]), Syscall
    ([syscall/]), Trap ([trap/mod.rs], [main.rs]); Spaces for all address spaces together,
    UserMem and FileSpec for files, ProcSpec and ReapSpec for calls on processes, Boot for start-up, MemType for the
    shape of memory; ProcTable, KernelInv, KernelRefine and KernelSpec for the
    process table.  KernelDemo, FileDemo, BootDemo, ProcDemo and ReapDemo have concrete machines on which the theorems
    are applied.

    ** What the theorems show

    - The file system.  [cache_transparent]: every program on the cache has the result it has on a
      plain disk.  [easy_fs_correct]: any sequence of calls on a formatted device answers as the
      abstract file system does; [easy_fs_remount]: also after the device was unplugged.
      Under these, what inodes, bitmaps, entries and names do.  [pack_image] and [efs_test_passes] are
      about the packer.
    - Memory.  [map_inserts], [unmap_deletes], [token_translates]: a page table in memory is a finite map.
      [insert_framed_area_maps], [remove_framed_area_unmaps], [from_existed_user_copies] and
      [from_elf_loads]: mapping, unmapping, copying and loading, down to the bytes.
      [byte_buffer_covers]: buffers of the user.  [kernel_space_identity]: the kernel maps itself.
      [memory_keeps_shape]: no step changes which pages there are or their size.
    - Traps and switches.  [trap_roundtrip] and [switch_there_and_back] run the assembly.
    - Scheduling.  [fetch_is_first_min], [stride_live] (every task gets its turn within a bound),
      [stride_shares] (shares follow priorities), [huge_priority_starves] (when they do not).
    - Processes.  [kernel_refines_table]: every step of the kernel is at most one step of an abstract process
      table, of the kind its cause says (a dispatch may be followed by a suspension); [process_tree]: its invariant; [scheduler_finds_task]; [init_exit_panics];
      [sys_fork_splits], [sys_spawn_starts], [sys_exec_replaces], [sys_exit_frees] and [sys_waitpid_reaps]:
      the life of a process, with the memory of all processes.
    - Files of processes.  [sys_write_writes], [sys_read_reads], [read_all_whole_file]: from the pages of
      the user through the page table and the cache to the bytes of the file.
    - Start-up.  [boots_to_user]: from power-on to the first instruction of the initial process.

    ** Parameters

    Code that is not part of the repository is an argument: the block device ([BlockDevice], with the laws
    [BlockDeviceOk] of an array of blocks; [BlockFile] satisfies them), the crate [virtio_drivers]
    ([Virtio.VirtIOBlk], [VirtIOBlkOk]), and in [Kernel.Platform] the linker's symbols, the ELF
    reader [xmas_elf], [sstatus], the readings of the clock and the console, the layout of
    [TaskInfo], and the text of a cause.

    ** Bounds and fuel

    Loops over lists are structural.  Loops with a measure get it as fuel: the number of pages of a
    buffer plus two in [translated_byte_buffer], of a segment plus one in [copy_data], the number of control
    blocks plus one in [drop_task] (each call removes one), the blocks of a file in [DiskInode].  The
    theorems show that these return, so the fuel suffices.  The length of a user's string and of a
    file that [read_all] reads has no bound; they get [loop_fuel] iterations, and the theorems that need
    them ask for no more than that.  [MAX_PID], 2^24, keeps kernel stacks above the
    kernel's other pages; [kernel_tables], 71, is the number of frames the kernel's own page table needs.
    Page numbers are below 2^44, and the segments of a program below 2^38.

    ** Not modelled

    - [heap_allocator.rs]: heap values are values of Rocq and allocation does not fail.
    - [entry.asm], [linker.ld], [build.rs], [switch.rs], [clear_bss] and [logging::init]: no state of the
      model depends on them.
    - Messages of [info!] and [debug!] in the kernel (off unless set at build time), the [println!] in
      [PageTable::map] and the text of panic messages.  [Debug] output of addresses.
    - [KernelStack::push_on_top], which nothing calls.
    - The borrow flags of cells other than control blocks: each is taken and released within one
      call.
    - The command line of the packer and the host's directories, which are inputs of it.
    - What the hardware does to the mode bits of [sstatus] when a trap is taken and at [sret].
    - Stores of a user program reach the bytes of physical memory; the kernel's heap and the contents of its stacks are values
      of the model, so a store through a stale mapping ([insert_framed_area_conflict]) does not corrupt them there.
    - A failure of the block driver's initialisation, [VirtIOBlk::new(..).unwrap()]: the device is taken to be present.
    - Interrupts inside the kernel: [sstatus.SIE] is off there, and a trap would only panic. *)

From stdpp Require Export base tactics list list_numbers option gmap.
From coqutil Require Export Byte Word.LittleEndianList.

Open Scope Z_scope.

(** ** Faults

    A Rust computation of this program either returns or stops.  The ways it
    stops are kept apart: an index or slice out of range, [unwrap] of [None],
    a failed [assert!], an explicit [panic!] or [expect], a division by zero,
    a spin lock or [RefCell] taken twice, a read of an enum with an invalid
    discriminant.  [OutOfFuel] is the model's own: a loop that was given too
    few iterations.  Every theorem that says a loop returns excludes it. *)
Inductive fault :=
  | OutOfBounds
  | UnwrapNone
  | AssertFailed
  | Panicked
  | DivByZero
  | Deadlock
  | AlreadyBorrowed
  | BadDiscriminant
  | OutOfFuel.

#[export] Instance fault_eq_dec : EqDecision fault.
Proof. solve_decision. Defined.

Inductive res (A : Type) :=
  | Ok (a : A)
  | Err (e : fault).
Arguments Ok {A} a.
Arguments Err {A} e.

#[export] Instance res_ret : MRet res := @Ok.
#[export] Instance res_bind : MBind res := λ A B f m,
  match m with Ok a => f a | Err e => Err e end.
#[export] Instance res_throw : MThrow fault res := λ A e, Err e.

#[export] Instance res_eq_dec {A} `{EqDecision A} : EqDecision (res A).
Proof. solve_decision. Defined.

(** State passing with faults; a fault discards the state, as a panic stops
    the machine. *)
Definition M (S A : Type) : Type := S → res (S * A).

#[export] Instance M_ret {S} : MRet (M S) := λ A a s, Ok (s, a).
#[export] Instance M_bind {S} : MBind (M S) := λ A B f m s,
  match m s with Ok (s', a) => f a s' | Err e => Err e end.
#[export] Instance M_throw {S} : MThrow fault (M S) := λ A e s, Err e.

Definition get {S} : M S S := λ s, Ok (s, s).
Definition put {S} (s : S) : M S unit := λ _, Ok (s, tt).
Definition gets {S A} (f : S → A) : M S A := λ s, Ok (s, f s).
Definition modify {S} (f : S → S) : M S unit := λ s, Ok (f s, tt).

(** ** Rust primitives, for any monad that can fault *)
Section prims.
Context {T : Type → Type} `{MRet T, MBind T, MThrow fault T}.

(** [o.unwrap()] *)
Definition unwrap {A} (o : option A) : T A :=
  match o with Some a => mret a | None => mthrow UnwrapNone end.

(** [assert!(b)] *)
Definition assert_ (b : bool) : T unit :=
  if b then mret tt else mthrow AssertFailed.

(** [l[i]] for a slice, array or [Vec] *)
Definition index {A} (l : list A) (i : Z) : T A :=
  if 0 <=? i
  then match l !! Z.to_nat i with Some a => mret a | None => mthrow OutOfBounds end
  else mthrow OutOfBounds.

(** [l[i] = a] *)
Definition set_index {A} (l : list A) (i : Z) (a : A) : T (list A) :=
  if (0 <=? i) && (i <? Z.of_nat (length l))
  then mret (<[Z.to_nat i := a]> l) else mthrow OutOfBounds.

(** [&l[i..j]] *)
Definition slice {A} (l : list A) (i j : Z) : T (list A) :=
  if (0 <=? i) && (i <=? j) && (j <=? Z.of_nat (length l))
  then mret (take (Z.to_nat (j - i)) (drop (Z.to_nat i) l))
  else mthrow OutOfBounds.

(** [l[i..j].copy_from_slice(src)]: panics when the lengths differ *)
Definition copy_into {A} (l : list A) (i j : Z) (src : list A) : T (list A) :=
  if (0 <=? i) && (i <=? j) && (j <=? Z.of_nat (length l))
  then if Z.of_nat (length src) =? j - i
       then mret (take (Z.to_nat i) l ++ src ++ drop (Z.to_nat j) l)
       else mthrow Panicked
  else mthrow OutOfBounds.

(** [a / b] on unsigned integers *)
Definition checked_div (a b : Z) : T Z :=
  if b =? 0 then mthrow DivByZero else mret (a / b).

(** [while cond { body }], at most [fuel] iterations *)
Fixpoint while_ {S} (fuel : nat) (cond : S → bool) (body : S → T S) (s : S) : T S :=
  if cond s then
    match fuel with
    | O => mthrow OutOfFuel
    | S n => s' ← body s; while_ n cond body s'
    end
  else mret s.

(** [for x in l { s = f(s, x) }] *)
Fixpoint for_ {A S} (l : list A) (f : S → A → T S) (s : S) : T S :=
  match l with
  | [] => mret s
  | x :: l' => s' ← f s x; for_ l' f s'
  end.

(** [for x in l { if let Some(r) = f(x) { return Some(r) } } None] *)
Fixpoint for_find {A B} (l : list A) (f : A → T (option B)) : T (option B) :=
  match l with
  | [] => mret None
  | x :: l' => r ← f x; match r with Some b => mret (Some b) | None => for_find l' f end
  end.
End prims.

(** ** Machine integers: the kernel and the packer are built in release mode,
    where [+], [-], [*] on [u8], [u32] and [usize] wrap around. *)
Definition wrap8 (z : Z) : Z := z mod 2 ^ 8.
Definition wrap32 (z : Z) : Z := z mod 2 ^ 32.
Definition wrap64 (z : Z) : Z := z mod 2 ^ 64.
Definition is_u32 (z : Z) : Prop := 0 ≤ z < 2 ^ 32.
Definition is_u64 (z : Z) : Prop := 0 ≤ z < 2 ^ 64.
(** [z as isize] *)
Definition to_isize (z : Z) : Z := if z <? 2 ^ 63 then z else z - 2 ^ 64.

Lemma wrap32_small z : is_u32 z → wrap32 z = z.
Proof. unfold is_u32, wrap32. intros. by apply Z.mod_small. Qed.
Lemma wrap64_small z : is_u64 z → wrap64 z = z.
Proof. unfold is_u64, wrap64. intros. by apply Z.mod_small. Qed.
Lemma wrap32_range z : is_u32 (wrap32 z).
Proof. apply Z.mod_pos_bound. lia. Qed.
Lemma wrap64_range z : is_u64 (wrap64 z).
Proof. apply Z.mod_pos_bound. lia. Qed.

(** [lo..hi] as the list of its values *)
Definition range (lo hi : Z) : list Z := seqZ lo (hi - lo).

(** Position of the first element that satisfies [p], with the element:
    [iter().enumerate().find(|(_, x)| p(x))]. *)
Fixpoint find_idx {A} (p : A → bool) (l : list A) : option (nat * A) :=
  match l with
  | [] => None
  | x :: l' => if p x then Some (0%nat, x)
               else match find_idx p l' with Some (i, y) => Some (S i, y) | None => None end
  end.

(** [vec.remove(i)] *)
Definition remove_nth {A} (i : nat) (l : list A) : list A := take i l ++ drop (S i) l.

(** ** Weakest preconditions

    [wp m s Q]: from [s], the computation [m] returns (it does not fault and
    does not run out of fuel) and its result and final state satisfy [Q]. *)
Definition wp {S A} (m : M S A) (s : S) (Q : A → S → Prop) : Prop :=
  match m s with Ok (s', a) => Q a s' | Err _ => False end.

Definition wpr {A} (m : res A) (Q : A → Prop) : Prop :=
  match m with Ok a => Q a | Err _ => False end.

Section wp_rules.
Context {S : Type}.
Implicit Types s : S.

Lemma wp_ret {A} (a : A) s Q : Q a s → wp (mret a) s Q.
Proof. done. Qed.

Lemma wp_bind {A B} (m : M S A) (f : A → M S B) s Q :
  wp m s (λ a s', wp (f a) s' Q) → wp (m ≫= f) s Q.
Proof.
  unfold wp, mbind, M_bind. by destruct (m s) as [[s' a]|e].
Qed.

Lemma wp_bind_inv {A B} (m : M S A) (f : A → M S B) s Q :
  wp (m ≫= f) s Q → wp m s (λ a s', wp (f a) s' Q).
Proof.
  unfold wp, mbind, M_bind. by destruct (m s) as [[s' a]|e].
Qed.

Lemma wp_mono {A} (m : M S A) s (Q Q' : A → S → Prop) :
  wp m s Q → (∀ a s', Q a s' → Q' a s') → wp m s Q'.
Proof. unfold wp. destruct (m s) as [[s' a]|e]; naive_solver. Qed.

Lemma wp_ok {A} (m : M S A) s (Q : A → S → Prop) :
  wp m s Q ↔ ∃ a s', m s = Ok (s', a) ∧ Q a s'.
Proof. unfold wp. destruct (m s) as [[s' a]|e]; naive_solver. Qed.

Lemma wp_eq {A} (m : M S A) s s' a (Q : A → S → Prop) :
  m s = Ok (s', a) → Q a s' → wp m s Q.
Proof. unfold wp. by intros ->. Qed.

(** Total correctness of [while_]: an invariant and a decreasing measure. *)
Lemma wp_while {X} (I : X → S → Prop) (meas : X → nat)
    (cond : X → bool) (body : X → M S X) fuel x s :
  (∀ x s, I x s → cond x = true →
     wp (body x) s (λ x' s', I x' s' ∧ (meas x' < meas x)%nat)) →
  I x s → (meas x ≤ fuel)%nat →
  wp (while_ fuel cond body x) s (λ x' s', I x' s' ∧ cond x' = false).
Proof.
  intros Hstep. revert x s. induction fuel as [|fuel IH]; intros x s HI Hm; simpl.
  - destruct (cond x) eqn:Hc; [|by apply wp_ret].
    pose proof (Hstep x s HI Hc) as (x' & s' & _ & _ & ?)%wp_ok. lia.
  - destruct (cond x) eqn:Hc; [|by apply wp_ret].
    apply wp_bind. eapply wp_mono; [by apply Hstep|].
    intros x' s' [HI' Hm']. apply IH; [done|lia].
Qed.

Lemma wp_for {A X} (I : list A → X → S → Prop) (f : X → A → M S X) l x s :
  (∀ pre a post x s, l = pre ++ a :: post → I pre x s →
     wp (f x a) s (λ x' s', I (pre ++ [a]) x' s')) →
  I [] x s → wp (for_ l f x) s (I l).
Proof.
  intros Hstep HI. change (I l) with (I ([] ++ l)).
  assert (l = [] ++ l) as Hl by done. revert HI Hl.
  generalize (@nil A) as pre. generalize l at 2 3 4 as k.
  intros k. revert x s. induction k as [|a k IH]; intros x s pre HI Hl; simpl.
  - apply wp_ret. by rewrite app_nil_r.
  - apply wp_bind. eapply wp_mono; [by apply (Hstep pre a k)|].
    intros x' s' HI'. rewrite cons_middle, app_assoc. apply IH; [done|].
    by rewrite <-app_assoc.
Qed.
End wp_rules.

Lemma bind_ok {S A B} (m : M S A) (k : A → M S B) s s' a :
  m s = Ok (s', a) → (m ≫= k) s = k a s'.
Proof. unfold mbind, M_bind. by intros ->. Qed.

Lemma bind_err {S A B} (m : M S A) (k : A → M S B) s e :
  m s = Err e → (m ≫= k) s = Err e.
Proof. unfold mbind, M_bind. by intros ->. Qed.

Lemma bind_ok_inv {S A B} (m : M S A) (k : A → M S B) s s' b :
  (m ≫= k) s = Ok (s', b) → ∃ s1 a, m s = Ok (s1, a) ∧ k a s1 = Ok (s', b).
Proof. unfold mbind, M_bind. destruct (m s) as [[s1 a]|]; [eauto|done]. Qed.

(** Running a computation on a part of the state. *)
Definition zoom {S T A} (part : S → T) (set : T → S → S) (m : M T A) : M S A := λ s,
  match m (part s) with Ok (t, a) => Ok (set t s, a) | Err e => Err e end.

Lemma zoom_ok {S T A} (part : S → T) (set : T → S → S) (m : M T A) s t a :
  m (part s) = Ok (t, a) → zoom part set m s = Ok (set t s, a).
Proof. unfold zoom. by intros ->. Qed.

Lemma zoom_inv {S T A} (part : S → T) (set : T → S → S) (m : M T A) s s' a :
  zoom part set m s = Ok (s', a) → ∃ t, m (part s) = Ok (t, a) ∧ s' = set t s.
Proof. unfold zoom. destruct (m (part s)) as [[t b]|]; [|done]. intros [= <- <-]. eauto. Qed.

(** Runs a computation symbolically: [run H] makes the step that [H : m s = Ok _] describes. *)
Ltac run H := erewrite bind_ok by exact H; cbn iota beta.

(** Takes a finished run apart, step by step. *)
Ltac inv_run := repeat match goal with
  | H : mbind _ _ _ = Ok _ |- _ => apply bind_ok_inv in H as (? & ? & ? & H)
  | H : mret _ _ = Ok _ |- _ => injection H as <- <-
  | H : zoom _ _ _ _ = Ok _ |- _ => apply zoom_inv in H as (? & ? & ->)
  | p : (_ * _)%type |- _ => destruct p
  end.

(** ** Equations of the primitives *)
Section prim_lemmas.
Context {S : Type}.

Lemma index_ok {A} (l : list A) (i : Z) (a : A) (s : S) :
  0 ≤ i → l !! Z.to_nat i = Some a → index (T:=M S) l i s = Ok (s, a).
Proof.
  intros Hi Hl. unfold index. rewrite (proj2 (Z.leb_le 0 i)) by done. by rewrite Hl.
Qed.

Lemma set_index_ok {A} (l : list A) (i : Z) (a : A) (s : S) :
  0 ≤ i < Z.of_nat (length l) →
  set_index (T:=M S) l i a s = Ok (s, <[Z.to_nat i := a]> l).
Proof.
  intros Hi. unfold set_index.
  rewrite (proj2 (Z.leb_le 0 i)), (proj2 (Z.ltb_lt _ _)) by lia. done.
Qed.

Lemma slice_ok {A} (l : list A) (i j : Z) (s : S) :
  0 ≤ i ≤ j → j ≤ Z.of_nat (length l) →
  slice (T:=M S) l i j s = Ok (s, take (Z.to_nat (j - i)) (drop (Z.to_nat i) l)).
Proof.
  intros. unfold slice. rewrite !(proj2 (Z.leb_le _ _)) by lia. done.
Qed.

Lemma copy_into_ok {A} (l src : list A) (i j : Z) (s : S) :
  0 ≤ i ≤ j → j ≤ Z.of_nat (length l) → Z.of_nat (length src) = j - i →
  copy_into (T:=M S) l i j src s =
    Ok (s, take (Z.to_nat i) l ++ src ++ drop (Z.to_nat j) l).
Proof.
  intros. unfold copy_into. rewrite !(proj2 (Z.leb_le _ _)) by lia. simpl.
  by rewrite (proj2 (Z.eqb_eq _ _)).
Qed.

Lemma unwrap_some {A} (a : A) (s : S) : unwrap (T:=M S) (Some a) s = Ok (s, a).
Proof. done. Qed.

Lemma assert_true (b : bool) (s : S) : b = true → assert_ (T:=M S) b s = Ok (s, tt).
Proof. by intros ->. Qed.
End prim_lemmas.

Lemma find_idx_Some {A} (p : A → bool) l i x :
  find_idx p l = Some (i, x) ↔
  l !! i = Some x ∧ p x = true ∧ ∀ j y, (j < i)%nat → l !! j = Some y → p y = false.
Proof.
  revert i. induction l as [|a l IH]; intros i; simpl; [naive_solver|].
  destruct (p a) eqn:Ha.
  - split.
    + intros [= <- <-]. split_and!; [done..|]. lia.
    + intros (Hi & Hp & Hmin). destruct i as [|i]; [simpl in Hi; congruence|].
      rewrite (Hmin 0%nat a) in Ha; [done|lia|done].
  - destruct (find_idx p l) as [[k y]|] eqn:Hf.
    + split.
      * intros [= <- <-]. destruct (proj1 (IH k) eq_refl) as (Hk & Hp & Hmin).
        split_and!; [done..|]. intros [|j] z ?; simpl; [congruence|].
        apply Hmin. lia.
      * intros (Hi & Hp & Hmin). destruct i as [|i]; simpl in Hi; [congruence|].
        assert (Some (k, y) = Some (i, x)) as [= -> ->]; [|done].
        apply IH. split_and!; [done..|]. intros j z ??. apply (Hmin (S j) z); [lia|done].
    + split; [done|]. intros (Hi & Hp & Hmin). destruct i as [|i]; simpl in Hi; [congruence|].
      assert (None = Some (i, x)); [|done].
      apply IH. split_and!; [done..|]. intros j z ??. apply (Hmin (S j) z); [lia|done].
Qed.

Lemma find_idx_None {A} (p : A → bool) l :
  find_idx p l = None ↔ ∀ x, x ∈ l → p x = false.
Proof.
  induction l as [|a l IH]; simpl.
  { split; [intros _ x Hx; by apply elem_of_nil in Hx|done]. }
  destruct (p a) eqn:Ha; [|destruct (find_idx p l) as [[n a0]|] eqn:Hf].
  - split; [done|]. intros H. rewrite (H a) in Ha; [done|by left].
  - split; [done|]. intros H. assert (Some (n, a0) = None); [|done].
    apply IH. intros x Hx. apply H. by right.
  - split; [|done]. intros _ x [->|Hx]%elem_of_cons; [done|]. by apply IH.
Qed.

Lemma length_remove_nth {A} i (l : list A) :
  (i < length l)%nat → length (remove_nth i l) = (length l - 1)%nat.
Proof. intros. unfold remove_nth. rewrite length_app, length_take, length_drop. lia. Qed.

Lemma elem_of_range lo hi x : x ∈ range lo hi ↔ lo ≤ x < hi.
Proof. unfold range. rewrite elem_of_seqZ. lia. Qed.

Lemma range_nil lo hi : hi ≤ lo → range lo hi = [].
Proof. intros. unfold range. apply seqZ_nil. lia. Qed.

Lemma range_cons lo hi : lo < hi → range lo hi = lo :: range (lo + 1) hi.
Proof.
  intros. unfold range. rewrite seqZ_cons by lia. repeat f_equal; lia.
Qed.

(** The element of [0..n] after [pre] is the number of elements before it. *)
Lemma range_nth n pre j post :
  range 0 n = pre ++ j :: post → Z.of_nat (length pre) < n ∧ j = Z.of_nat (length pre).
Proof.
  intros Hl. unfold range in Hl.
  assert (seqZ 0 (n - 0) !! length pre = Some j) as Hj.
  { rewrite Hl, lookup_app_r by lia. by rewrite Nat.sub_diag. }
  apply lookup_seqZ in Hj. lia.
Qed.

Lemma filter_ext_in {A} (P Q : A → Prop) `{∀ x, Decision (P x), ∀ x, Decision (Q x)} (l : list A) :
  (∀ x, x ∈ l → P x ↔ Q x) → filter P l = filter Q l.
Proof.
  induction l as [|x l IH]; intros Hl; [done|]. rewrite !filter_cons.
  rewrite IH by (intros; apply Hl; by right). pose proof (Hl x ltac:(left)) as Hx.
  repeat case_decide; naive_solver.
Qed.

Lemma eq_comm {A} (x y : A) : x = y ↔ y = x.
Proof. done. Qed.

(** One more element satisfies [Q] than [P]. *)
Lemma filter_count {A} (k : A) (P Q : A → Prop) `{∀ x, Decision (P x), ∀ x, Decision (Q x)} (l : list A) :
  NoDup l → k ∈ l → ¬ P k → (∀ x, x ∈ l → Q x ↔ x = k ∨ P x) →
  length (filter Q l) = S (length (filter P l)).
Proof.
  intros Hnd Hk HP HQ. change (S (length (filter P l))) with (length (k :: filter P l)).
  apply Permutation_length, NoDup_Permutation.
  - by apply NoDup_filter.
  - apply NoDup_cons. split; [|by apply NoDup_filter]. rewrite list_elem_of_filter. tauto.
  - intros x. rewrite elem_of_cons, !list_elem_of_filter. naive_solver.
Qed.

Lemma filter_all {A} (P : A → Prop) `{∀ x, Decision (P x)} (l : list A) :
  (∀ x, x ∈ l → P x) → filter P l = l.
Proof.
  induction l as [|x l IH]; intros Hl; [done|]. rewrite filter_cons, decide_True by (apply Hl; left).
  f_equal. apply IH. intros. apply Hl. by right.
Qed.

(** A map given by a function on a range. *)
Lemma lookup_range_map {A} (f : Z → A) lo hi i :
  lo ≤ i < hi → (list_to_map ((λ i, (i, f i)) <$> range lo hi) : gmap Z A) !! i = Some (f i).
Proof.
  intros Hi. apply elem_of_list_to_map_1.
  - replace (((λ i, (i, f i)) <$> range lo hi).*1) with (range lo hi); [apply NoDup_seqZ|].
    rewrite <-list_fmap_compose. symmetry. apply list_fmap_id.
  - apply list_elem_of_fmap. exists i. by rewrite elem_of_range.
Qed.

Lemma map_Forall_range_map {A} (P : A → Prop) (f : Z → A) lo hi :
  (∀ i, P (f i)) → map_Forall (λ _, P) (list_to_map ((λ i, (i, f i)) <$> range lo hi) : gmap Z A).
Proof.
  intros Hf i b Hb%elem_of_list_to_map_2. apply list_elem_of_fmap in Hb as (j & [= -> ->] & _). done.
Qed.

Lemma elem_of_concat_fmap {A B} (f : A → list B) (l : list A) y :
  y ∈ concat (f <$> l) ↔ ∃ x, x ∈ l ∧ y ∈ f x.
Proof.
  induction l as [|x l IH]; simpl.
  - split; [intros Hy; by apply elem_of_nil in Hy|]. intros (x & Hx & _). by apply elem_of_nil in Hx.
  - rewrite elem_of_app, IH. setoid_rewrite elem_of_cons. naive_solver.
Qed.

(** Where an element of a concatenation without duplicates is. *)
Lemma NoDup_concat_lookup {A} (ls : list (list A)) : ∀ i j l1 l2 p q x,
  NoDup (concat ls) → ls !! i = Some l1 → l1 !! p = Some x → ls !! j = Some l2 → l2 !! q = Some x → i = j ∧ p = q.
Proof.
  induction ls as [|l ls IH]; intros i j l1 l2 p q x Hnd H1 Hp H2 Hq; [done|]. cbn in Hnd. apply NoDup_app in Hnd as (Hl & Hd & Hnd).
  assert (∀ i l' n, ls !! i = Some l' → l' !! n = Some x → x ∈ concat ls) as Hin.
  { intros i' l' n Hi Hn. apply list_elem_of_In, in_concat. exists l'. split; apply list_elem_of_In; by eapply list_elem_of_lookup_2. }
  destruct i as [|i], j as [|j]; simplify_eq/=.
  - split; [done|]. exact (NoDup_lookup l1 p q x Hl Hp Hq).
  - exfalso. apply (Hd x); [by eapply list_elem_of_lookup_2|eauto].
  - exfalso. apply (Hd x); [by eapply list_elem_of_lookup_2|eauto].
  - destruct (IH i j l1 l2 p q x) as [-> ->]; done.
Qed.

Lemma range_split lo mid hi : lo ≤ mid ≤ hi → range lo hi = range lo mid ++ range mid hi.
Proof.
  intros H. unfold range. replace (hi - lo) with ((mid - lo) + (hi - mid)) by lia.
  rewrite seqZ_app by lia. repeat f_equal. lia.
Qed.
