(* ===== verification/Bytes.v ===== *)
(** * Little-endian integers and arrays in raw memory

    Both halves of the program read structures straight out of byte arrays:
    easy-fs casts cached blocks to [[u64; 64]], [[u32; 128]], [SuperBlock] and
    [DiskInode], and the kernel casts a physical page to 512 page table
    entries.  This file has the arrays of [w]-byte unsigned integers such a
    cast reads ([le_words]) and the bytes they occupy ([le_bytes]). *)

From S2P Require Import Prelude.

#[export] Instance byte_eq_decision : EqDecision Init.Byte.byte := Byte.byte_eq_dec.

(** [n] consecutive [w]-byte little-endian integers at the front of [bs]. *)
Fixpoint le_words (w n : nat) (bs : list byte) : list Z :=
  match n with
  | O => []
  | S n => le_combine (take w bs) :: le_words w n (drop w bs)
  end.

(** The bytes of an array of [w]-byte integers. *)
Fixpoint le_bytes (w : nat) (ws : list Z) : list byte :=
  match ws with
  | [] => []
  | x :: ws => le_split w x ++ le_bytes w ws
  end.

Definition fits (w : nat) (z : Z) : Prop := 0 ≤ z < 2 ^ (8 * Z.of_nat w).

Lemma replicate_repeat {A} n (x : A) : replicate n x = repeat x n.
Proof. induction n; simpl; congruence. Qed.

Section words.
Implicit Types (w n : nat) (bs : list byte) (ws : list Z).

Lemma length_le_words w n bs : length (le_words w n bs) = n.
Proof. revert bs. induction n as [|n IH]; intros bs; simpl; [done|by rewrite IH]. Qed.

Lemma length_le_bytes w ws : length (le_bytes w ws) = (w * length ws)%nat.
Proof.
  induction ws as [|x ws IH]; simpl; [lia|].
  rewrite length_app, IH, length_le_split. lia.
Qed.

Lemma le_combine_fits w bs : (length bs ≤ w)%nat → fits w (le_combine bs).
Proof.
  intros Hl. unfold fits. pose proof (le_combine_bound bs) as [? Hb].
  split; [done|]. eapply Z.lt_le_trans; [done|]. apply Z.pow_le_mono_r; lia.
Qed.

Lemma le_words_fit w n bs : Forall (fits w) (le_words w n bs).
Proof.
  revert bs. induction n as [|n IH]; intros bs; simpl; constructor; [|done].
  apply le_combine_fits. rewrite length_take. lia.
Qed.

Lemma le_split_combine_fits w z : fits w z → le_combine (le_split w z) = z.
Proof.
  intros Hz. rewrite le_combine_split. apply Z.mod_small. unfold fits in Hz.
  by rewrite (Z.mul_comm (Z.of_nat w) 8).
Qed.

(** Reading back what was written. *)
Lemma le_words_bytes w ws rest :
  Forall (fits w) ws → le_words w (length ws) (le_bytes w ws ++ rest) = ws.
Proof.
  induction 1 as [|x ws Hx Hws IH]; simpl; [done|].
  rewrite <-app_assoc.
  rewrite take_app_length' by (by rewrite length_le_split).
  rewrite drop_app_length' by (by rewrite length_le_split).
  by rewrite le_split_combine_fits, IH.
Qed.

(** Words that do not fit are cut. *)
Lemma le_words_bytes_mod w ws rest :
  le_words w (length ws) (le_bytes w ws ++ rest) = (λ z, z mod 2 ^ (8 * Z.of_nat w)) <$> ws.
Proof.
  induction ws as [|x ws IH]; simpl; [done|]. rewrite <-app_assoc.
  rewrite take_app_length' by (by rewrite length_le_split). rewrite drop_app_length' by (by rewrite length_le_split).
  rewrite IH, le_combine_split. by rewrite (Z.mul_comm (Z.of_nat w) 8).
Qed.

(** Writing back what was read. *)
Lemma le_bytes_words w n bs :
  length bs = (w * n)%nat → le_bytes w (le_words w n bs) = bs.
Proof.
  revert bs. induction n as [|n IH]; intros bs Hl; simpl.
  - symmetry. apply nil_length_inv. lia.
  - rewrite IH by (rewrite length_drop; lia).
    assert (length (take w bs) = w) as Ht by (rewrite length_take; nia).
    rewrite <-Ht at 1. rewrite split_le_combine. apply take_drop.
Qed.

Lemma le_words_app w n1 n2 bs :
  le_words w (n1 + n2) bs = le_words w n1 bs ++ le_words w n2 (drop (w * n1) bs).
Proof.
  revert bs. induction n1 as [|n1 IH]; intros bs; simpl.
  - by rewrite Nat.mul_0_r, drop_0.
  - rewrite IH, drop_drop, Nat.mul_succ_r, (Nat.add_comm (w * n1)). done.
Qed.

Lemma le_bytes_app w ws1 ws2 : le_bytes w (ws1 ++ ws2) = le_bytes w ws1 ++ le_bytes w ws2.
Proof. induction ws1 as [|x ws1 IH]; simpl; [done|]. by rewrite IH, app_assoc. Qed.

(** Only the bytes of the array matter. *)
Lemma le_words_take w n m bs :
  (w * n ≤ m)%nat → le_words w n (take m bs) = le_words w n bs.
Proof.
  revert m bs. induction n as [|n IH]; intros m bs Hm; simpl; [done|].
  rewrite take_take, Nat.min_l by lia. f_equal.
  replace m with (w + (m - w))%nat by lia.
  rewrite <-take_drop_commute. apply IH. lia.
Qed.

Lemma le_words_zero w n : le_words w n (replicate (w * n) Byte.x00) = replicate n 0.
Proof.
  induction n as [|n IH]; simpl; [done|].
  rewrite take_replicate, drop_replicate.
  replace (w `min` (w * S n))%nat with w by lia.
  replace (w * S n - w)%nat with (w * n)%nat by lia. rewrite IH. f_equal.
  rewrite replicate_repeat. apply le_combine_0.
Qed.
End words.

#[global] Opaque le_words le_bytes le_split le_combine.
