(* ===== verification/Utf8.v ===== *)
(** * Strings: UTF-8

    A [&str] is the list of its bytes.  [utf8_valid] is the check of
    [core::str::from_utf8], [chars] the iterator of code points, [encode_utf8] what
    [String::push] appends.  Strings are exactly the encodings of lists of Unicode
    scalar values ([chars_encode], [encode_chars]). *)

From S2P Require Import Prelude.

Local Ltac Zify.zify_post_hook ::= Z.to_euclidean_division_equations.

(** ** Validity *)
Definition in_range (lo hi : Z) (b : byte) : bool := (lo <=? byte.unsigned b) && (byte.unsigned b <=? hi).
Definition is_cont (b : byte) : bool := in_range 0x80 0xbf b.

Fixpoint utf8_valid (bs : list byte) : bool :=
  match bs with
  | [] => true
  | b :: bs1 =>
      if in_range 0 0x7f b then utf8_valid bs1
      else match bs1 with
      | [] => false
      | c1 :: bs2 =>
          if in_range 0xc2 0xdf b then is_cont c1 && utf8_valid bs2
          else match bs2 with
          | [] => false
          | c2 :: bs3 =>
              if in_range 0xe0 0xef b then
                (if in_range 0xe0 0xe0 b then in_range 0xa0 0xbf c1
                 else if in_range 0xed 0xed b then in_range 0x80 0x9f c1 else is_cont c1) &&
                is_cont c2 && utf8_valid bs3
              else match bs3 with
              | [] => false
              | c3 :: bs4 =>
                  in_range 0xf0 0xf4 b &&
                  (if in_range 0xf0 0xf0 b then in_range 0x90 0xbf c1
                   else if in_range 0xf4 0xf4 b then in_range 0x80 0x8f c1 else is_cont c1) &&
                  is_cont c2 && is_cont c3 && utf8_valid bs4
              end
          end
      end
  end.

(** ** Code points *)

(** [char]: a Unicode scalar value *)
Definition scalar (c : Z) : Prop := 0 ≤ c < 0xd800 ∨ 0xe000 ≤ c < 0x110000.

Definition tail_bits (b : byte) : Z := Z.land (byte.unsigned b) 0x3f.

(** [str::chars], on valid strings *)
Fixpoint chars (bs : list byte) : list Z :=
  match bs with
  | [] => []
  | x :: bs1 =>
      let x := byte.unsigned x in
      if x <? 0x80 then x :: chars bs1
      else match bs1 with
      | [] => []
      | y :: bs2 =>
          if x <? 0xe0 then Z.lor (Z.shiftl (Z.land x 0x1f) 6) (tail_bits y) :: chars bs2
          else match bs2 with
          | [] => []
          | z :: bs3 =>
              let y_z := Z.lor (Z.shiftl (tail_bits y) 6) (tail_bits z) in
              if x <? 0xf0 then Z.lor (Z.shiftl (Z.land x 0x1f) 12) y_z :: chars bs3
              else match bs3 with
              | [] => []
              | w :: bs4 => Z.lor (Z.shiftl (Z.land x 7) 18) (Z.lor (Z.shiftl y_z 6) (tail_bits w)) :: chars bs4
              end
          end
      end
  end.

(** [char::encode_utf8] *)
Definition encode_utf8 (c : Z) : list byte :=
  let tail n := byte.of_Z (Z.lor (Z.land (Z.shiftr c n) 0x3f) 0x80) in
  if c <? 0x80 then [byte.of_Z c]
  else if c <? 0x800 then [byte.of_Z (Z.lor (Z.land (Z.shiftr c 6) 0x1f) 0xc0); tail 0]
  else if c <? 0x10000 then [byte.of_Z (Z.lor (Z.land (Z.shiftr c 12) 0x0f) 0xe0); tail 6; tail 0]
  else [byte.of_Z (Z.lor (Z.land (Z.shiftr c 18) 0x07) 0xf0); tail 12; tail 6; tail 0].

(** The string of the characters [cs]. *)
Definition string_of (cs : list Z) : list byte := concat (encode_utf8 <$> cs).

(** ** Bits as arithmetic *)
Lemma lor_low a b n : 0 ≤ n → 0 ≤ b < 2 ^ n → Z.lor (Z.shiftl a n) b = a * 2 ^ n + b.
Proof.
  intros Hn Hb. rewrite <-Z.shiftl_mul_pow2 by done. pose proof (Z.add_lor_land (Z.shiftl a n) b) as Hadd.
  assert (Z.land (Z.shiftl a n) b = 0) as Hz; [|lia].
  apply Z.bits_inj'. intros i Hi. rewrite Z.land_spec, Z.bits_0.
  destruct (Z.ltb_spec i n); [by rewrite Z.shiftl_spec_low|].
  rewrite <-(Z.mod_small b (2 ^ n)), Z.mod_pow2_bits_high by lia. apply andb_false_r.
Qed.

Lemma land_ones_mod a n m : 0 ≤ n → m = Z.ones n → Z.land a m = a mod 2 ^ n.
Proof. intros ? ->. by rewrite Z.land_ones. Qed.

Lemma tail_bits_mod b : tail_bits b = byte.unsigned b mod 64.
Proof. by apply (land_ones_mod _ 6). Qed.

(** The bytes of a character, in numbers. *)
Definition encoded (c : Z) : list Z :=
  if c <? 0x80 then [c]
  else if c <? 0x800 then [0xc0 + c / 64; 0x80 + c mod 64]
  else if c <? 0x10000 then [0xe0 + c / 4096; 0x80 + c / 64 mod 64; 0x80 + c mod 64]
  else [0xf0 + c / 262144; 0x80 + c / 4096 mod 64; 0x80 + c / 64 mod 64; 0x80 + c mod 64].

Lemma tag_bits c n m t u : 0 ≤ n → m = Z.ones n → u = Z.shiftl t n → Z.lor (Z.land c m) u = u + c mod 2 ^ n.
Proof.
  intros ? ? ->. rewrite (land_ones_mod c n) by done. rewrite Z.lor_comm, lor_low, Z.shiftl_mul_pow2; [done..|].
  apply Z.mod_pos_bound. lia.
Qed.

Lemma encode_encoded c : scalar c → encode_utf8 c = byte.of_Z <$> encoded c.
Proof.
  intros Hc. assert (0 ≤ c < 0x110000) by (unfold scalar in Hc; lia). clear Hc. unfold encode_utf8, encoded. rewrite Z.shiftr_0_r.
  rewrite !(tag_bits _ 6 0x3f 2 0x80), (tag_bits _ 5 0x1f 6 0xc0), (tag_bits _ 4 0xf 14 0xe0), (tag_bits _ 3 7 30 0xf0) by done.
  rewrite !Z.shiftr_div_pow2 by lia.
  destruct (Z.ltb_spec c 0x80); [done|]. destruct (Z.ltb_spec c 0x800); [|destruct (Z.ltb_spec c 0x10000)];
    cbn [fmap list_fmap]; repeat f_equal; lia.
Qed.

(** The character of its bytes, in numbers. *)
Definition decoded (x y z w : Z) : Z :=
  if x <? 0x80 then x else if x <? 0xe0 then x mod 32 * 64 + y mod 64
  else if x <? 0xf0 then x mod 32 * 4096 + (y mod 64 * 64 + z mod 64)
  else x mod 8 * 262144 + ((y mod 64 * 64 + z mod 64) * 64 + w mod 64).

Lemma chars_cons x bs1 :
  chars (x :: bs1) =
    let u := byte.unsigned in
    if u x <? 0x80 then u x :: chars bs1 else
    match bs1 with
    | [] => []
    | y :: bs2 =>
        if u x <? 0xe0 then decoded (u x) (u y) 0 0 :: chars bs2 else
        match bs2 with
        | [] => []
        | z :: bs3 =>
            if u x <? 0xf0 then decoded (u x) (u y) (u z) 0 :: chars bs3 else
            match bs3 with [] => [] | w :: bs4 => decoded (u x) (u y) (u z) (u w) :: chars bs4 end
        end
    end.
Proof.
  cbn [chars]. rewrite (land_ones_mod _ 5), (land_ones_mod _ 3) by done. unfold decoded.
  destruct (byte.unsigned x <? 0x80); [done|]. destruct bs1 as [|y bs2]; [done|]. rewrite !tail_bits_mod.
  destruct (byte.unsigned x <? 0xe0); [rewrite lor_low by lia; done|]. destruct bs2 as [|z bs3]; [done|]. rewrite tail_bits_mod.
  rewrite !(lor_low (byte.unsigned y mod 64)) by lia.
  destruct (byte.unsigned x <? 0xf0); [rewrite lor_low by lia; done|]. destruct bs3 as [|w bs4]; [done|]. rewrite tail_bits_mod.
  rewrite (lor_low _ (byte.unsigned w mod 64)), lor_low by lia. done.
Qed.

(** ** Strings are the encodings of their characters *)
Lemma unsigned_of_Z z : 0 ≤ z < 256 → byte.unsigned (byte.of_Z z) = z.
Proof. intros Hz. rewrite byte.unsigned_of_Z. unfold byte.wrap. by rewrite Z.mod_small. Qed.

Lemma encoded_range c : scalar c → Forall (λ z, 0 ≤ z < 256) (encoded c).
Proof.
  unfold scalar, encoded. intros Hc. destruct (Z.ltb_spec c 0x80); [|destruct (Z.ltb_spec c 0x800); [|destruct (Z.ltb_spec c 0x10000)]];
    repeat (apply Forall_cons; split; [lia|]); by apply Forall_nil.
Qed.

Lemma in_range_true lo hi b : in_range lo hi b = true ↔ lo ≤ byte.unsigned b ≤ hi.
Proof. unfold in_range. rewrite andb_true_iff, !Z.leb_le. done. Qed.

Lemma in_range_false lo hi b : in_range lo hi b = false ↔ ¬ (lo ≤ byte.unsigned b ≤ hi).
Proof. rewrite <-in_range_true. by destruct (in_range lo hi b). Qed.

(** Decides the tests on the bytes, by cases where their values leave both open. *)
Local Ltac ranges :=
  repeat match goal with
  | |- context [in_range ?lo ?hi ?b] =>
      first [rewrite (proj2 (in_range_true lo hi b)) by lia | rewrite (proj2 (in_range_false lo hi b)) by lia
        | let E := fresh "E" in destruct (in_range lo hi b) eqn:E;
          [apply in_range_true in E|apply in_range_false in E]]
  | |- context [?a <? ?b] => first [rewrite (proj2 (Z.ltb_lt a b)) by lia | rewrite (proj2 (Z.ltb_ge a b)) by lia]
  end.

Lemma encode_cons c rest :
  scalar c → utf8_valid (encode_utf8 c ++ rest) = utf8_valid rest ∧ chars (encode_utf8 c ++ rest) = c :: chars rest.
Proof.
  intros Hc. rewrite encode_encoded by done. pose proof (encoded_range c Hc) as Hr. unfold encoded, scalar in *.
  destruct (Z.ltb_spec c 0x80); [|destruct (Z.ltb_spec c 0x800); [|destruct (Z.ltb_spec c 0x10000)]];
    cbn [fmap list_fmap app]; rewrite chars_cons; cbv zeta; cbn [utf8_valid]; unfold is_cont, decoded;
    repeat (apply Forall_cons in Hr as [?%unsigned_of_Z Hr]); clear Hr;
    repeat match goal with H : byte.unsigned (byte.of_Z ?v) = _ |- _ => set (byte.of_Z v) in *; clearbody b end;
    ranges; (split; [done|f_equal; lia]).
Qed.

Lemma valid_split bs : utf8_valid bs = true → bs ≠ [] → ∃ c rest, scalar c ∧ bs = encode_utf8 c ++ rest ∧ utf8_valid rest = true.
Proof.
  destruct bs as [|x bs1]; [done|]. intros Hv _. pose proof (byte.unsigned_range x).
  assert (∀ c rest, scalar c → encoded c = byte.unsigned <$> take (length (encoded c)) (x :: bs1) →
    rest = drop (length (encoded c)) (x :: bs1) → utf8_valid rest = true →
    ∃ c rest, scalar c ∧ x :: bs1 = encode_utf8 c ++ rest ∧ utf8_valid rest = true) as Hgoal.
  { intros c rest Hc He -> Hrest. exists c, (drop (length (encoded c)) (x :: bs1)). split; [done|]. split; [|done].
    rewrite encode_encoded by done. rewrite He at 1. rewrite <-list_fmap_compose.
    rewrite (list_fmap_ext _ id), list_fmap_id; [by rewrite take_drop|]. intros i b _. apply byte.of_Z_unsigned. }
  cbn [utf8_valid] in Hv. unfold is_cont in Hv.
  destruct (in_range 0 0x7f x) eqn:E1; [apply in_range_true in E1|apply in_range_false in E1].
  { assert (encoded (byte.unsigned x) = [byte.unsigned x]) as He by (unfold encoded; ranges; done).
    apply (Hgoal (byte.unsigned x) bs1); rewrite ?He; try done. unfold scalar. lia. }
  destruct bs1 as [|y bs2]; [done|]. pose proof (byte.unsigned_range y).
  destruct (in_range 0xc2 0xdf x) eqn:E2; [apply in_range_true in E2|apply in_range_false in E2].
  { apply andb_true_iff in Hv as [Hy%in_range_true Hv].
    set (c := (byte.unsigned x - 0xc0) * 64 + (byte.unsigned y - 0x80)).
    assert (encoded c = [byte.unsigned x; byte.unsigned y]) as He by (unfold encoded, c; ranges; repeat f_equal; lia).
    apply (Hgoal c bs2); rewrite ?He; try done. unfold scalar, c. lia. }
  destruct bs2 as [|z bs3]; [done|]. pose proof (byte.unsigned_range z).
  destruct (in_range 0xe0 0xef x) eqn:E3; [apply in_range_true in E3|apply in_range_false in E3].
  { apply andb_true_iff in Hv as [[Hy Hz%in_range_true]%andb_true_iff Hv].
    set (c := (byte.unsigned x - 0xe0) * 4096 + (byte.unsigned y - 0x80) * 64 + (byte.unsigned z - 0x80)).
    assert (0x80 ≤ byte.unsigned y ≤ 0xbf ∧ (byte.unsigned x = 0xe0 → 0xa0 ≤ byte.unsigned y) ∧
      (byte.unsigned x = 0xed → byte.unsigned y ≤ 0x9f)) as Hy'.
    { destruct (in_range 0xe0 0xe0 x) eqn:E4; [apply in_range_true in E4|apply in_range_false in E4];
        [apply in_range_true in Hy; lia|].
      destruct (in_range 0xed 0xed x) eqn:E5; [apply in_range_true in E5|apply in_range_false in E5]; apply in_range_true in Hy; lia. }
    assert (encoded c = [byte.unsigned x; byte.unsigned y; byte.unsigned z]) as He
      by (unfold encoded, c; ranges; repeat f_equal; lia).
    apply (Hgoal c bs3); rewrite ?He; try done. unfold scalar, c. lia. }
  destruct bs3 as [|w bs4]; [done|]. pose proof (byte.unsigned_range w).
  apply andb_true_iff in Hv as [[[[Hx%in_range_true Hy]%andb_true_iff Hz%in_range_true]%andb_true_iff Hw%in_range_true]%andb_true_iff Hv].
  set (c := (byte.unsigned x - 0xf0) * 262144 + (byte.unsigned y - 0x80) * 4096 + (byte.unsigned z - 0x80) * 64 + (byte.unsigned w - 0x80)).
  assert (0x80 ≤ byte.unsigned y ≤ 0xbf ∧ (byte.unsigned x = 0xf0 → 0x90 ≤ byte.unsigned y) ∧
    (byte.unsigned x = 0xf4 → byte.unsigned y ≤ 0x8f)) as Hy'.
  { destruct (in_range 0xf0 0xf0 x) eqn:E4; [apply in_range_true in E4|apply in_range_false in E4];
      [apply in_range_true in Hy; lia|].
    destruct (in_range 0xf4 0xf4 x) eqn:E5; [apply in_range_true in E5|apply in_range_false in E5]; apply in_range_true in Hy; lia. }
  assert (encoded c = [byte.unsigned x; byte.unsigned y; byte.unsigned z; byte.unsigned w]) as He
    by (unfold encoded, c; ranges; repeat f_equal; lia).
  apply (Hgoal c bs4); rewrite ?He; try done. unfold scalar, c. lia.
Qed.

Lemma string_of_cons c cs : string_of (c :: cs) = encode_utf8 c ++ string_of cs.
Proof. done. Qed.

(** The encoding of characters is a string, with these characters. *)
Lemma chars_encode cs : Forall scalar cs → utf8_valid (string_of cs) = true ∧ chars (string_of cs) = cs.
Proof.
  induction 1 as [|c cs Hc _ [IHv IHc]]; [done|]. rewrite string_of_cons.
  destruct (encode_cons c (string_of cs) Hc) as [-> ->]. by rewrite IHc.
Qed.

(** A string is the encoding of its characters. *)
Lemma encode_chars bs : utf8_valid bs = true → Forall scalar (chars bs) ∧ string_of (chars bs) = bs.
Proof.
  remember (length bs) as n eqn:Hn. assert (length bs ≤ n)%nat as Hl by lia. clear Hn. revert bs Hl.
  induction n as [|n IH]; intros bs Hl Hv; [by destruct bs; [|simpl in Hl; lia]|].
  destruct (decide (bs = [])) as [->|Hne]; [done|]. destruct (valid_split bs Hv Hne) as (c & rest & Hc & -> & Hr).
  destruct (encode_cons c rest Hc) as [_ ->]. assert (0 < length (encode_utf8 c))%nat as He.
  { unfold encode_utf8. destruct (c <? 0x80), (c <? 0x800), (c <? 0x10000); simpl; lia. }
  rewrite length_app in Hl. destruct (IH rest) as [Hf Hs]; [lia|done|]. split; [by apply Forall_cons|].
  by rewrite string_of_cons, Hs.
Qed.

Lemma utf8_app bs1 bs2 : utf8_valid bs1 = true → utf8_valid (bs1 ++ bs2) = utf8_valid bs2 ∧ chars (bs1 ++ bs2) = chars bs1 ++ chars bs2.
Proof.
  intros [Hf <-]%encode_chars. induction Hf as [|c cs Hc _ [IHv IHc]]; [done|]. rewrite string_of_cons, <-app_assoc.
  destruct (encode_cons c (string_of cs ++ bs2) Hc) as [-> ->]. destruct (encode_cons c (string_of cs) Hc) as [_ ->].
  by rewrite IHc.
Qed.

(** ASCII *)
Definition ascii (bs : list byte) : Prop := Forall (λ b, byte.unsigned b ≤ 127) bs.

Lemma chars_ascii bs : ascii bs → utf8_valid bs = true ∧ chars bs = byte.unsigned <$> bs.
Proof.
  induction 1 as [|b bs Hb _ [IHv IHc]]; [done|]. pose proof (byte.unsigned_range b). rewrite chars_cons. cbn [utf8_valid fmap list_fmap].
  rewrite (proj2 (in_range_true _ _ _)), (proj2 (Z.ltb_lt _ _)) by lia. by rewrite IHc.
Qed.
