(* ===== verification/Console.v ===== *)
(** * The console and the log ([os/src/console.rs], [logging.rs], [lang_items.rs], [sbi.rs])

    What the kernel prints goes to the SBI firmware, one call per character: the
    machine sees the sequence of calls.  [format_args!] is the concatenation of its
    pieces; the few formats the kernel uses are written out. *)

From Stdlib Require Import String.
From S2P Require Import Prelude Bytes Utf8.

Definition str (s : string) : list byte := String.list_byte_of_string s.

(** ** SBI *)
Definition SBI_SET_TIMER : Z := 0.
Definition SBI_CONSOLE_PUTCHAR : Z := 1.
Definition SBI_CONSOLE_GETCHAR : Z := 2.
Definition SBI_SHUTDOWN : Z := 8.

(** general sbi call: the registers x17, x10, x11, x12 at the [ecall] *)
Record sbi_call := mkSbi { which : Z; arg0 : Z; arg1 : Z; arg2 : Z }.

Definition set_timer (timer : Z) : sbi_call := mkSbi SBI_SET_TIMER timer 0 0.
Definition console_putchar (c : Z) : sbi_call := mkSbi SBI_CONSOLE_PUTCHAR c 0 0.
Definition shutdown : sbi_call := mkSbi SBI_SHUTDOWN 0 0 0.

(** ** Formats *)

(** The digits of [n] in base [b], at least one; 64 of them are enough for a [usize]. *)
Definition digit (d : Z) : byte := byte.of_Z (if d <? 10 then 0x30 + d else 0x61 + (d - 10)).

Fixpoint digits (fuel : nat) (b n : Z) : list byte :=
  match fuel with
  | O => []
  | S fuel => (if n <? b then [] else digits fuel b (n / b)) ++ [digit (n mod b)]
  end.

(** [{}] and [{:#x}] of an unsigned number *)
Definition fmt_dec (n : Z) : list byte := digits 64 10 n.
Definition fmt_hex (n : Z) : list byte := str "0x" ++ digits 64 16 n.

(** [{:>n}] *)
Definition pad_left (n : nat) (s : list byte) : list byte := replicate (n - length s) Byte.x20 ++ s.

Definition newline : list byte := [Byte.x0a].

(** ** [Stdout] *)
Definition write_str (s : list byte) : list sbi_call := console_putchar <$> chars s.

Definition print (args : list byte) : list sbi_call := write_str args.

(** [println!] *)
Definition println (args : list byte) : list sbi_call := print (args ++ newline).

(** ** Colours *)
Inductive ANSICON :=
  | Reset | Bold | Underline | Blink | Reverse
  | FgBlack | FgRed | FgGreen | FgYellow | FgBlue | FgMagenta | FgCyan | FgWhite | FgDefault
  | FgLightGray | FgLightRed | FgLightGreen | FgLightYellow | FgLightBlue | FgLightMagenta | FgLightCyan | FgLightWhite
  | BgBlack | BgRed | BgGreen | BgYellow | BgBlue | BgMagenta | BgCyan | BgWhite | BgDefault
  | BgLightGray | BgLightRed | BgLightGreen | BgLightYellow | BgLightBlue | BgLightMagenta | BgLightCyan | BgLightWhite.

(** [From<ANSICON> for u8] *)
Definition ansicon_code (con : ANSICON) : Z :=
  match con with
  | Reset => 0 | Bold => 1 | Underline => 4 | Blink => 5 | Reverse => 7
  | FgBlack => 30 | FgRed => 31 | FgGreen => 32 | FgYellow => 33 | FgBlue => 34 | FgMagenta => 35 | FgCyan => 36
  | FgWhite => 37 | FgDefault => 39
  | FgLightGray => 90 | FgLightRed => 91 | FgLightGreen => 92 | FgLightYellow => 93 | FgLightBlue => 94
  | FgLightMagenta => 95 | FgLightCyan => 96 | FgLightWhite => 97
  | BgBlack => 40 | BgRed => 41 | BgGreen => 42 | BgYellow => 43 | BgBlue => 44 | BgMagenta => 45 | BgCyan => 46
  | BgWhite => 47 | BgDefault => 49
  | BgLightGray => 100 | BgLightRed => 101 | BgLightGreen => 102 | BgLightYellow => 103 | BgLightBlue => 104
  | BgLightMagenta => 105 | BgLightCyan => 106 | BgLightWhite => 107
  end.

(** The escape sequence that selects [code]. *)
Definition escape (code : Z) : list byte := Byte.x1b :: str "[" ++ fmt_dec code ++ str "m".

(** [colorize!] with a foreground colour, and with a background colour, too *)
Definition colorize (content : list byte) (fg : Z) : list byte := escape fg ++ content ++ escape 0.
Definition colorize2 (content : list byte) (fg bg : Z) : list byte := escape fg ++ escape bg ++ content ++ escape 0.

Definition print_colorized (args : list byte) (fg bg : Z) : list sbi_call := write_str (colorize2 args fg bg).

(** [println_colorized!] *)
Definition println_colorized (args : list byte) (fg bg : ANSICON) : list sbi_call :=
  print_colorized (args ++ newline) (ansicon_code fg) (ansicon_code bg).

(** ** The logger *)
Inductive Level := Error | Warn | Info | Debug | Trace.
Inductive LevelFilter := Off | Upto (l : Level).

Definition level_color (l : Level) : Z :=
  match l with Error => 31 | Warn => 93 | Info => 34 | Debug => 32 | Trace => 90 end.

Section log.
(** [Display] of a level, in the crate [log] *)
Context (level_name : Level → list byte).

(** [SimpleLogger::log] *)
Definition log (l : Level) (args : list byte) : list sbi_call :=
  println (escape (level_color l) ++ str "[" ++ pad_left 5 (level_name l) ++ str "] " ++ args ++ escape 0).
End log.

(** [logging::init]: the level for the value of [LOG] at compile time *)
Definition max_level (env : option (list byte)) : LevelFilter :=
  match env with
  | Some s =>
      if bool_decide (s = str "ERROR") then Upto Error
      else if bool_decide (s = str "WARN") then Upto Warn
      else if bool_decide (s = str "INFO") then Upto Info
      else if bool_decide (s = str "DEBUG") then Upto Debug
      else if bool_decide (s = str "TRACE") then Upto Trace
      else Off
  | None => Off
  end.

(** ** The panic handler: the message in red, then [shutdown] *)
Record location := mkLocation { loc_file : list byte; loc_line : Z }.

Definition panic (loc : option location) (message : list byte) : list sbi_call :=
  match loc with
  | Some l =>
      println_colorized (str "[kernel] Panicked at " ++ loc_file l ++ str ":" ++ fmt_dec (loc_line l) ++ str " " ++ message)
        FgRed BgDefault
  | None => println_colorized (str "[kernel] Panicked: " ++ message) FgRed BgDefault
  end ++ [shutdown].

(** ** What is printed *)

(** The number that digits stand for. *)
Definition digit_value (d : byte) : Z := let v := byte.unsigned d in if v <? 0x3a then v - 0x30 else v - 0x61 + 10.
Definition numeral_value (b : Z) (ds : list byte) : Z := foldl (λ n d, n * b + digit_value d) 0 ds.

Lemma digit_value_digit d : 0 ≤ d < 16 → digit_value (digit d) = d.
Proof.
  intros Hd. unfold digit_value, digit. destruct (Z.ltb_spec d 10); rewrite unsigned_of_Z by lia;
    [rewrite (proj2 (Z.ltb_lt _ _)) by lia|rewrite (proj2 (Z.ltb_ge _ _)) by lia]; lia.
Qed.

Lemma digits_value fuel b n :
  2 ≤ b ≤ 16 → 0 ≤ n < b ^ Z.of_nat fuel → numeral_value b (digits fuel b n) = n.
Proof.
  intros Hb. revert n. induction fuel as [|fuel IH]; intros n Hn; [change (b ^ Z.of_nat 0) with 1 in Hn; unfold numeral_value; cbn; lia|]. cbn [digits].
  unfold numeral_value. rewrite foldl_app. cbn [foldl]. fold (numeral_value b (if n <? b then [] else digits fuel b (n / b))).
  rewrite digit_value_digit by (pose proof (Z.mod_pos_bound n b ltac:(lia)); lia).
  destruct (Z.ltb_spec n b) as [Hlt|Hge].
  - rewrite Z.mod_small by lia. unfold numeral_value. cbn. lia.
  - rewrite IH; [pose proof (Z.div_mod n b ltac:(lia)); lia|]. rewrite Nat2Z.inj_succ, Z.pow_succ_r in Hn by lia.
    split; [apply Z.div_pos; lia|]. apply Z.div_lt_upper_bound; lia.
Qed.

Lemma digits_ascii fuel b n : 2 ≤ b ≤ 16 → ascii (digits fuel b n).
Proof.
  intros Hb. revert n. induction fuel as [|fuel IH]; intros n; cbn [digits]; [by apply Forall_nil|]. apply Forall_app. split.
  - destruct (n <? b); [by apply Forall_nil|apply IH].
  - apply Forall_singleton. unfold digit. pose proof (Z.mod_pos_bound n b ltac:(lia)). destruct (Z.ltb_spec (n mod b) 10); rewrite unsigned_of_Z; lia.
Qed.

Lemma write_str_app s1 s2 : utf8_valid s1 = true → write_str (s1 ++ s2) = write_str s1 ++ write_str s2.
Proof. intros Hv. unfold write_str. destruct (utf8_app s1 s2 Hv) as [_ ->]. apply fmap_app. Qed.
