(* ===== verification/BlockCache.v ===== *)
(** * The block cache of easy-fs ([easy-fs/src/block_cache.rs], [block_dev.rs])

    - [BlockDevice]: the trait, as a class with the contract its users rely on;
      [BlockFile] is the implementation of [easy-fs-fuse/src/main.rs].
    - [prog]: programs over cached blocks.  [PRead] and [PModify] are
      [get_block_cache(id).lock().read(off, f)] and [.modify(off, f)]: the
      [Arc] and the lock live while the closure [f] runs, and [f] may use the
      cache again.  [PSync] is [block_cache_sync_all()], [PWithFs] holds the
      file system's mutex.  All of easy-fs is written as [prog].
    - [Cache]: the cache manager itself, a queue of at most 16 shared blocks
      over a device, and [crun], which runs a program on it.
    - [Disk]: the abstract store a user of easy-fs has in mind, a finite map
      from block numbers to blocks, and [arun].
    - [Refine]: for every program the cache is transparent: [crun] gives the
      result of [arun], the same value or the same fault. *)

From S2P Require Import Prelude.

Notation block := (list byte).

Definition BLOCK_SZ : Z := 512.

(** Use a block cache of 16 blocks *)
Definition BLOCK_CACHE_SIZE : nat := 16.

(** ** The device *)
Class BlockDevice (D : Type) := {
  read_block : D → Z → res block;
  write_block : D → Z → block → res D;
}.

(** What the cache needs of a device: it is a finite array of 512-byte blocks,
    a block written is the block read back, other blocks keep their contents,
    and reading a block that does not exist stops the machine. *)
Class BlockDeviceOk (D : Type) `{BlockDevice D} := {
  blocks : D → gmap Z block;
  absent : fault;
  blocks_length : ∀ d i b, blocks d !! i = Some b → length b = 512%nat;
  read_block_spec : ∀ d i,
    read_block d i = match blocks d !! i with Some b => Ok b | None => Err absent end;
  write_block_spec : ∀ d i b,
    is_Some (blocks d !! i) → length b = 512%nat →
    ∃ d', write_block d i b = Ok d' ∧ blocks d' = <[i := b]> (blocks d);
}.

(** ** Typed views of raw bytes

    [read<T>] and [modify<T>] cast a pointer into the cached bytes to [&T].
    A [Pod] type gives the size of [T], how bytes are read as a [T] ([None]
    where that would be an invalid enum value) and the bytes of a [T];
    trailing padding is not part of [enc] and keeps its bytes. *)
Class Pod (T : Type) := {
  pod_size : nat;
  load : list byte → option T;
  enc : T → list byte;
}.
Arguments pod_size T {_}.

(** [core::mem::size_of::<T>()] *)
Definition size_of (T : Type) `{Pod T} : Z := Z.of_nat (pod_size T).

(** Write [e] over the front of [bs], keeping the length of [bs]. *)
Definition overlay (bs e : list byte) : list byte :=
  take (length bs) (e ++ drop (length e) bs).

Section view.
Context {T : Type} `{Pod T}.

Definition view_bytes (off : Z) (b : block) : list byte :=
  take (pod_size T) (drop (Z.to_nat off) b).

(** [BlockCache::get_ref]: the assertion, then the cast. *)
Definition get_ref (off : Z) (b : block) : res T :=
  if (0 <=? off) && (off + size_of T <=? BLOCK_SZ) then
    match load (view_bytes off b) with
    | Some t => Ok t
    | None => Err BadDiscriminant
    end
  else Err AssertFailed.

(** The block after the closure of [modify] has left [t] behind the [&mut T]. *)
Definition put_back (off : Z) (b : block) (t : T) : block :=
  take (Z.to_nat off) b ++ overlay (view_bytes off b) (enc t)
    ++ drop (Z.to_nat off + pod_size T) b.

Lemma get_ref_inv off b t :
  get_ref off b = Ok t → 0 ≤ off ∧ off + size_of T ≤ 512 ∧ load (view_bytes off b) = Some t.
Proof.
  unfold get_ref, BLOCK_SZ. destruct (_ && _) eqn:Hb; [|done].
  apply andb_true_iff in Hb as [?%Z.leb_le ?%Z.leb_le].
  destruct (load _); [|done]. by intros [= ->].
Qed.

Lemma length_view_bytes off b :
  0 ≤ off → off + size_of T ≤ 512 → length b = 512%nat →
  length (view_bytes off b) = pod_size T.
Proof.
  unfold view_bytes, size_of. intros. rewrite length_take, length_drop. lia.
Qed.

Lemma length_put_back off b t :
  0 ≤ off → off + size_of T ≤ 512 → length b = 512%nat →
  length (put_back off b t) = 512%nat.
Proof.
  intros H1 H2 Hb. unfold put_back, overlay.
  rewrite !length_app, length_take, length_drop, length_take, length_app, length_drop.
  rewrite length_view_bytes by done. unfold size_of in H2. lia.
Qed.
End view.

(** ** Programs over cached blocks *)
Inductive prog : Type → Type :=
  | PRet {A : Type} (a : A) : prog A
  | PBind {A B : Type} (p : prog A) (k : A → prog B) : prog B
  | PFault {A : Type} (e : fault) : prog A
  | PRead {T A : Type} (P : Pod T) (bid off : Z) (f : T → prog A) : prog A
  | PModify {T A : Type} (P : Pod T) (bid off : Z) (f : T → prog (T * A)) : prog A
  | PSync : prog unit
  | PWithFs {A : Type} (p : prog A) : prog A.

#[export] Instance prog_ret : MRet prog := @PRet.
#[export] Instance prog_bind : MBind prog := λ A B k p, PBind p k.
#[export] Instance prog_throw : MThrow fault prog := @PFault.

Definition read_cache {T A} `{P : Pod T} (bid off : Z) (f : T → prog A) : prog A :=
  PRead P bid off f.
Definition modify_cache {T A} `{P : Pod T} (bid off : Z) (f : T → prog (T * A)) : prog A :=
  PModify P bid off f.
Definition block_cache_sync_all : prog unit := PSync.
Definition with_fs {A} (p : prog A) : prog A := PWithFs p.

(** ** The cache manager *)
Module Cache.

Record BlockCache := mkBlockCache {
  cache : block;
  block_id : Z;
  modified : bool;
}.

(** [Arc<Mutex<BlockCache>>]: the cache, the strong count, the lock bit. *)
Record arc := mkArc { inner : BlockCache; strong : nat; locked : bool }.

Section manager.
Context {D : Type} `{BlockDevice D}.

(** [BLOCK_CACHE_MANAGER]'s queue, the device, and the mutex of the file
    system that uses them. *)
Record state := mkState { queue : list (Z * arc); dev : D; efs_locked : bool }.

(** [BlockCache::new]: load a block from the device. *)
Definition new (bid : Z) : M state BlockCache := λ s,
  match read_block (dev s) bid with
  | Ok b => Ok (s, mkBlockCache b bid false)
  | Err e => Err e
  end.

(** [BlockCache::sync], also run when a cache is dropped. *)
Definition sync (c : BlockCache) : M state BlockCache := λ s,
  if modified c then
    match write_block (dev s) (block_id c) (cache c) with
    | Ok d => Ok (mkState (queue s) d (efs_locked s),
                  mkBlockCache (cache c) (block_id c) false)
    | Err e => Err e
    end
  else Ok (s, c).

Definition set_queue (q : list (Z * arc)) : M state unit := λ s,
  Ok (mkState q (dev s) (efs_locked s), tt).

Definition on_entry (bid : Z) (g : arc → arc) (q : list (Z * arc)) : list (Z * arc) :=
  (λ pr, if pr.1 =? bid then (pr.1, g pr.2) else pr) <$> q.

Definition incr (a : arc) : arc := mkArc (inner a) (S (strong a)) (locked a).
Definition decr (a : arc) : arc := mkArc (inner a) (pred (strong a)) (locked a).

(** The substitution step of [get_block_cache]: when the queue is full, drop
    the first entry that has no user besides the queue. *)
Definition make_room : M state unit :=
  q ← gets queue;
  if bool_decide (length q = BLOCK_CACHE_SIZE) then
    match find_idx (λ pr, bool_decide (strong pr.2 = 1%nat)) q with
    | Some (idx, pr) =>
        set_queue (remove_nth idx q);;
        sync (inner pr.2);;
        mret tt
    | None => mthrow Panicked
    end
  else mret tt.

(** [BlockCacheManager::get_block_cache].  The handle returned is the entry
    of [bid]; its strong count is one higher until the caller drops it. *)
Definition get_block_cache (bid : Z) : M state unit :=
  q ← gets queue;
  match find_idx (λ pr, pr.1 =? bid) q with
  | Some _ => set_queue (on_entry bid incr q)
  | None =>
      make_room;;
      c ← new bid;
      q' ← gets queue;
      set_queue (q' ++ [(bid, mkArc c 2 false)])
  end.

Definition assoc (bid : Z) (q : list (Z * arc)) : option arc :=
  snd <$> (snd <$> find_idx (λ pr, pr.1 =? bid) q).

(** [.lock()]: a spin lock; taken twice by the one thread it never returns. *)
Definition lock (bid : Z) : M state BlockCache :=
  q ← gets queue;
  a ← unwrap (assoc bid q);
  if locked a then mthrow Deadlock
  else set_queue (on_entry bid (λ a, mkArc (inner a) (strong a) true) q);;
       mret (inner a).

(** The guard and the [Arc] go out of scope; [g] is what the closure did to
    the cache behind the lock: the bytes it left there and the [modified] flag
    [get_mut] raised.  Nothing reads either while the lock is held. *)
Definition release (bid : Z) (g : BlockCache → BlockCache) : M state unit :=
  q ← gets queue;
  set_queue (on_entry bid (λ a, decr (mkArc (g (inner a)) (strong a) false)) q).

(** One step of [block_cache_sync_all]'s loop: lock, sync, unlock. *)
Definition sync_entry (pr : Z * arc) : M state (Z * arc) :=
  if locked pr.2 then mthrow Deadlock
  else c ← sync (inner pr.2); mret (pr.1, mkArc c (strong pr.2) (locked pr.2)).

Fixpoint sync_entries (q : list (Z * arc)) : M state (list (Z * arc)) :=
  match q with
  | [] => mret []
  | pr :: q' => pr' ← sync_entry pr; q'' ← sync_entries q'; mret (pr' :: q'')
  end.

Definition block_cache_sync_all : M state unit :=
  q ← gets queue; q' ← sync_entries q; set_queue q'.

(** Running a program on the cache. *)
Fixpoint crun {A} (p : prog A) : M state A :=
  match p in prog A return M state A with
  | PRet a => mret a
  | PBind p k => a ← crun p; crun (k a)
  | PFault e => mthrow e
  | PRead P bid off f =>
      get_block_cache bid;;
      c ← lock bid;
      t ← (λ s, match get_ref off (cache c) with Ok t => Ok (s, t) | Err e => Err e end);
      a ← crun (f t);
      release bid (λ c, c);;
      mret a
  | PModify P bid off f =>
      get_block_cache bid;;
      c ← lock bid;
      t ← (λ s, match get_ref off (cache c) with Ok t => Ok (s, t) | Err e => Err e end);
      r ← crun (f t);
      release bid (λ c, mkBlockCache (put_back off (cache c) r.1) (block_id c) true);;
      mret r.2
  | PSync => block_cache_sync_all
  | PWithFs p => λ s,
      if efs_locked s then Err Deadlock
      else match crun p (mkState (queue s) (dev s) true) with
           | Ok (s', a) => Ok (mkState (queue s') (dev s') false, a)
           | Err e => Err e
           end
  end.
End manager.
Arguments state D : clear implicits.
End Cache.

(** ** The abstract disk *)
Module Disk.

(** The contents of every block, the blocks whose lock is held (innermost
    first), and whether the file system's mutex is held. *)
Record state := mkState { disk : gmap Z block; held : list Z; efs_held : bool }.

Section run.
Context (absent : fault).

(** Take the block [bid]: it must not be held already, fewer than 16 blocks
    may be held, and it must exist. *)
Definition acquire (bid : Z) : M state block := λ s,
  if bool_decide (bid ∈ held s) then Err Deadlock
  else if bool_decide (BLOCK_CACHE_SIZE ≤ length (held s))%nat then Err Panicked
  else match disk s !! bid with
       | Some b => Ok (mkState (disk s) (bid :: held s) (efs_held s), b)
       | None => Err absent
       end.

Definition unhold : M state unit := λ s,
  Ok (mkState (disk s) (tail (held s)) (efs_held s), tt).

Definition write (bid : Z) (b : block) : M state unit := λ s,
  Ok (mkState (<[bid := b]> (disk s)) (held s) (efs_held s), tt).

Fixpoint arun {A} (p : prog A) : M state A :=
  match p in prog A return M state A with
  | PRet a => mret a
  | PBind p k => a ← arun p; arun (k a)
  | PFault e => mthrow e
  | PRead P bid off f =>
      b ← acquire bid;
      t ← (λ s, match get_ref off b with Ok t => Ok (s, t) | Err e => Err e end);
      a ← arun (f t);
      unhold;;
      mret a
  | PModify P bid off f =>
      b ← acquire bid;
      t ← (λ s, match get_ref off b with Ok t => Ok (s, t) | Err e => Err e end);
      r ← arun (f t);
      write bid (put_back off b r.1);;
      unhold;;
      mret r.2
  | PSync => λ s, if bool_decide (held s = []) then Ok (s, tt) else Err Deadlock
  | PWithFs p => λ s,
      if efs_held s then Err Deadlock
      else match arun p (mkState (disk s) (held s) true) with
           | Ok (s', a) => Ok (mkState (disk s') (held s') false, a)
           | Err e => Err e
           end
  end.

(** A program gives back every lock it takes, never creates or destroys a
    block, and leaves the blocks its caller holds alone. *)
Lemma arun_frame {A} (p : prog A) s s' a :
  arun p s = Ok (s', a) →
  held s' = held s ∧ efs_held s' = efs_held s ∧
  (∀ i, i ∈ held s → disk s' !! i = disk s !! i) ∧
  (∀ i, is_Some (disk s' !! i) ↔ is_Some (disk s !! i)).
Proof.
  revert s s' a. induction p as [| A B p IHp k IHk | |T A P bid off f IH|T A P bid off f IH| |A p IH];
    intros s s' v; simpl; unfold mbind, M_bind.
  - by intros [= <- _].
  - destruct (arun p s) as [[s1 a1]|] eqn:H1; [|done]. intros H2.
    apply IHp in H1 as (H1a & H1b & H1c & H1d). apply IHk in H2 as (H2a & H2b & H2c & H2d).
    split_and!; [congruence|congruence| |intros i; rewrite H2d; apply H1d].
    intros i Hi. rewrite H2c by (by rewrite H1a). by apply H1c.
  - done.
  - destruct (acquire bid s) as [[s1 b]|] eqn:Ha; [|done].
    destruct (get_ref off b) as [t|]; [|done].
    destruct (arun (f t) s1) as [[s2 a2]|] eqn:H2; [|done].
    apply IH in H2 as (H2a & H2b & H2c & H2d). unfold acquire in Ha.
    repeat case_bool_decide; try done. destruct (disk s !! bid) eqn:Hb; [|done]. simplify_eq/=.
    intros [= <- _]. simpl. rewrite H2a. split_and!; [done..| |done].
    intros i Hi. apply H2c. by right.
  - destruct (acquire bid s) as [[s1 b]|] eqn:Ha; [|done].
    destruct (get_ref off b) as [t|]; [|done].
    destruct (arun (f t) s1) as [[s2 [t2 a2]]|] eqn:H2; [|done].
    apply IH in H2 as (H2a & H2b & H2c & H2d). unfold acquire in Ha.
    repeat case_bool_decide; try done. destruct (disk s !! bid) eqn:Hb; [|done]. simplify_eq/=.
    intros [= <- _]. simpl. rewrite H2a. split_and!; [done..| |].
    + intros i Hi. rewrite lookup_insert_ne by congruence. apply H2c. by right.
    + intros i. rewrite <-H2d. destruct (decide (bid = i)) as [->|].
      * rewrite lookup_insert_eq, H2d, Hb. split; eauto.
      * by rewrite lookup_insert_ne.
  - by case_bool_decide; intros [= <- _].
  - destruct (efs_held s) eqn:He; [done|].
    destruct (arun p _) as [[s1 a1]|] eqn:H1; [|done].
    apply IH in H1 as (H1a & H1b & H1c & H1d). by intros [= <- _].
Qed.
End run.
End Disk.

(** ** Refinement *)
Module Refine.
Import Cache.

Section assoc.
Implicit Types q : list (Z * arc).

Lemma assoc_nil i : assoc i [] = None.
Proof. done. Qed.

Lemma assoc_cons i j a q : assoc i ((j, a) :: q) = if j =? i then Some a else assoc i q.
Proof.
  unfold assoc. simpl. destruct (j =? i); [done|].
  by destruct (find_idx _ q) as [[??]|].
Qed.

Lemma assoc_Some_in i a q : assoc i q = Some a → (i, a) ∈ q.
Proof.
  induction q as [|[j b] q IH]; [done|]. rewrite assoc_cons.
  destruct (Z.eqb_spec j i) as [->|]; intros H; [simplify_eq; by left|right; auto].
Qed.

Lemma assoc_in i a q : NoDup q.*1 → (i, a) ∈ q → assoc i q = Some a.
Proof.
  induction q as [|[j b] q IH]; [by intros _ ?%elem_of_nil|].
  rewrite fmap_cons, NoDup_cons. intros [Hj Hnd] Hin. rewrite assoc_cons.
  apply elem_of_cons in Hin as [[= -> ->]|Hin]; [by rewrite Z.eqb_refl|].
  destruct (Z.eqb_spec j i) as [->|]; [|auto].
  exfalso. apply Hj. apply list_elem_of_fmap. by exists (i, a).
Qed.

Lemma assoc_None i q : assoc i q = None ↔ i ∉ q.*1.
Proof.
  induction q as [|[j b] q IH]; [split; [intros _; apply not_elem_of_nil|done]|].
  rewrite assoc_cons, fmap_cons, not_elem_of_cons.
  destruct (Z.eqb_spec j i) as [->|]; [naive_solver|]. rewrite IH. naive_solver.
Qed.

Lemma assoc_app i q1 q2 :
  assoc i (q1 ++ q2) = match assoc i q1 with Some a => Some a | None => assoc i q2 end.
Proof.
  induction q1 as [|[j b] q1 IH]; [done|]. rewrite <-app_comm_cons, !assoc_cons.
  by destruct (j =? i).
Qed.

Lemma assoc_on_entry i j g q :
  assoc i (on_entry j g q) = if i =? j then g <$> assoc i q else assoc i q.
Proof.
  induction q as [|[k b] q IH]; [by destruct (i =? j)|].
  unfold on_entry in *. rewrite fmap_cons. simpl.
  destruct (Z.eqb_spec k j) as [->|Hkj]; rewrite !assoc_cons, IH.
  - destruct (Z.eqb_spec j i), (Z.eqb_spec i j); done || congruence.
  - destruct (Z.eqb_spec k i), (Z.eqb_spec i j); done || congruence.
Qed.

Lemma on_entry_keys j g q : (on_entry j g q).*1 = q.*1.
Proof.
  unfold on_entry. rewrite <-list_fmap_compose. apply list_fmap_ext.
  intros ? [k b] _. simpl. by destruct (k =? j).
Qed.

Lemma on_entry_length j g q : length (on_entry j g q) = length q.
Proof. apply length_fmap. Qed.

Lemma find_idx_assoc i q :
  find_idx (λ pr, pr.1 =? i) q = None ↔ assoc i q = None.
Proof. unfold assoc. destruct (find_idx _ q) as [[??]|]; naive_solver. Qed.

Lemma assoc_remove_nth i n j a q :
  NoDup q.*1 → q !! n = Some (j, a) →
  assoc i (remove_nth n q) = if i =? j then None else assoc i q.
Proof.
  intros Hnd Hn. unfold remove_nth.
  rewrite <-(take_drop_middle q n (j, a) Hn) in Hnd |- * at 3.
  rewrite fmap_app, fmap_cons, NoDup_app, NoDup_cons in Hnd.
  destruct Hnd as (_ & Hdisj & Hj & _).
  rewrite !assoc_app, assoc_cons.
  destruct (Z.eqb_spec i j) as [->|Hne].
  - rewrite (proj2 (assoc_None j (take n q))); [by apply assoc_None|].
    intros Hin. apply (Hdisj j Hin). by left.
  - destruct (assoc i (take n q)); [done|].
    destruct (Z.eqb_spec j i); congruence.
Qed.
End assoc.

Section refine.
Context {D : Type} `{BlockDeviceOk D}.
Implicit Types (q : list (Z * arc)) (d : D) (dk : gmap Z block) (pin lk : list Z).

(** One queue entry is sound: it is filed under its own id, counts its
    users, is locked when one of them holds it, and is dirty whenever it
    differs from the device. *)
Record entry_ok d pin lk (i : Z) (e : arc) : Prop := {
  eo_id : block_id (inner e) = i;
  eo_strong : strong e = if bool_decide (i ∈ pin) then 2%nat else 1%nat;
  eo_locked : locked e = bool_decide (i ∈ lk);
  eo_len : length (cache (inner e)) = 512%nat;
  eo_dev : is_Some (blocks d !! i);
  eo_clean : modified (inner e) = false → blocks d !! i = Some (cache (inner e));
}.

Record Rg q d dk pin lk : Prop := {
  Rg_nodup : NoDup q.*1;
  Rg_len : (length q ≤ BLOCK_CACHE_SIZE)%nat;
  Rg_entry : ∀ i e, assoc i q = Some e → entry_ok d pin lk i e;
  Rg_pin : ∀ i, i ∈ pin → is_Some (assoc i q);
  Rg_disk : ∀ i, dk !! i = match assoc i q with
                           | Some e => Some (cache (inner e))
                           | None => blocks d !! i
                           end;
}.

(** The relation between a cache manager with its device and the disk. *)
Record R (cs : Cache.state D) (a : Disk.state) : Prop := {
  R_rg : Rg (queue cs) (dev cs) (Disk.disk a) (Disk.held a) (Disk.held a);
  R_held : NoDup (Disk.held a);
  R_efs : efs_locked cs = Disk.efs_held a;
}.

Lemma bool_decide_elem_ne (i j : Z) (l : list Z) :
  i ≠ j → bool_decide (i ∈ j :: l) = bool_decide (i ∈ l).
Proof. intros. apply bool_decide_ext. rewrite elem_of_cons. naive_solver. Qed.

(** Updating one entry in place. *)
Lemma Rg_on_entry q d dk pin lk bid g e pin' lk' :
  Rg q d dk pin lk → assoc bid q = Some e →
  entry_ok d pin' lk' bid (g e) →
  (∀ i, i ≠ bid → (i ∈ pin' ↔ i ∈ pin) ∧ (i ∈ lk' ↔ i ∈ lk)) →
  Rg (on_entry bid g q) d (<[bid := cache (inner (g e))]> dk) pin' lk'.
Proof.
  intros [Hnd Hlen Hent Hpin Hdisk] He Hok Hother. split.
  - by rewrite on_entry_keys.
  - by rewrite on_entry_length.
  - intros i e'. rewrite assoc_on_entry. destruct (Z.eqb_spec i bid) as [->|Hne].
    + rewrite He. by intros [= <-].
    + intros [? Hs Hl ???]%Hent. destruct (Hother i Hne) as [Hp Hk].
      split; try done.
      * rewrite Hs. by rewrite (bool_decide_ext _ _ Hp).
      * rewrite Hl. by rewrite (bool_decide_ext _ _ Hk).
  - intros i Hi. rewrite assoc_on_entry. destruct (Z.eqb_spec i bid) as [->|Hne].
    + rewrite He. eauto.
    + apply Hpin. by apply Hother.
  - intros i. rewrite assoc_on_entry. destruct (Z.eqb_spec i bid) as [->|Hne].
    + by rewrite lookup_insert_eq, He.
    + by rewrite lookup_insert_ne.
Qed.

Lemma Rg_same_disk q d dk pin lk bid e :
  Rg q d dk pin lk → assoc bid q = Some e → <[bid := cache (inner e)]> dk = dk.
Proof. intros HR He. apply insert_id. by rewrite (Rg_disk _ _ _ _ _ HR), He. Qed.

Lemma Rg_assoc_disk q d dk pin lk bid e :
  Rg q d dk pin lk → assoc bid q = Some e → dk !! bid = Some (cache (inner e)).
Proof. intros HR He. by rewrite (Rg_disk _ _ _ _ _ HR), He. Qed.

(** Evicting an entry nobody uses writes it back if it is dirty. *)
Lemma Rg_evict q d dk pin lk idx pr b :
  Rg q d dk pin lk → (∀ i, i ∈ lk → i ∈ pin) → q !! idx = Some pr → pr.1 ∉ pin →
  ∃ d' c', sync (inner pr.2) (mkState (remove_nth idx q) d b) =
             Ok (mkState (remove_nth idx q) d' b, c')
    ∧ Rg (remove_nth idx q) d' dk pin lk.
Proof.
  intros HR Hlk Hidx Hpin. destruct pr as [j e]. simpl in *.
  pose proof HR as [Hnd Hlen Hent Hp Hdisk].
  assert (assoc j q = Some e) as Hj.
  { apply assoc_in; [done|]. by apply list_elem_of_lookup_2 in Hidx. }
  pose proof (Hent j e Hj) as [Hid _ _ Hl Hdev Hclean].
  assert (∀ d', blocks d' !! j = Some (cache (inner e)) →
            (∀ i, i ≠ j → blocks d' !! i = blocks d !! i) →
            Rg (remove_nth idx q) d' dk pin lk) as Hfin.
  { intros d' Hd'j Hd'. split.
    - unfold remove_nth. rewrite <-(take_drop_middle q idx _ Hidx) in Hnd.
      rewrite fmap_app in *. rewrite fmap_cons in Hnd.
      apply NoDup_app in Hnd as (? & Hdj & [? ?]%NoDup_cons).
      apply NoDup_app. split_and!; [done| |done]. intros x Hx ?.
      apply (Hdj x Hx). by right.
    - rewrite length_remove_nth; [lia|]. by apply lookup_lt_Some in Hidx.
    - intros i e'. rewrite (assoc_remove_nth i idx j e) by done.
      destruct (Z.eqb_spec i j) as [->|Hne]; [done|]. intros [??????]%Hent.
      split; try done; by rewrite Hd'.
    - intros i Hi. rewrite (assoc_remove_nth i idx j e) by done.
      destruct (Z.eqb_spec i j) as [->|Hne]; [done|]. by apply Hp.
    - intros i. rewrite (assoc_remove_nth i idx j e) by done.
      destruct (Z.eqb_spec i j) as [->|Hne].
      + by rewrite Hdisk, Hj, Hd'j.
      + rewrite Hdisk. destruct (assoc i q); [done|]. by rewrite Hd'. }
  unfold sync. simpl. destruct (modified (inner e)) eqn:Hm.
  - rewrite Hid. destruct (write_block_spec d j (cache (inner e)) Hdev Hl) as (d' & -> & Hd').
    eexists d', _. split; [done|]. apply Hfin.
    + by rewrite Hd', lookup_insert_eq.
    + intros i ?. by rewrite Hd', lookup_insert_ne.
  - eexists d, _. split; [done|]. apply Hfin; [by apply Hclean|done].
Qed.

(** Loading a block that is not cached. *)
Lemma Rg_push q d dk pin lk bid b :
  Rg q d dk pin lk → (length q < BLOCK_CACHE_SIZE)%nat → assoc bid q = None →
  bid ∉ lk → dk !! bid = Some b →
  Rg (q ++ [(bid, mkArc (mkBlockCache b bid false) 2 false)]) d dk (bid :: pin) lk.
Proof.
  intros [Hnd Hlen Hent Hp Hdisk] Hlt Hnone Hlk Hb.
  assert (blocks d !! bid = Some b) as Hdb by (by rewrite Hdisk, Hnone in Hb).
  assert (∀ i, assoc i (q ++ [(bid, mkArc (mkBlockCache b bid false) 2 false)])
    = if i =? bid then Some (mkArc (mkBlockCache b bid false) 2 false) else assoc i q) as Ha.
  { intros i. rewrite assoc_app, assoc_cons, assoc_nil.
    destruct (Z.eqb_spec i bid) as [->|Hne]; [by rewrite Hnone, Z.eqb_refl|].
    destruct (assoc i q); [done|]. destruct (Z.eqb_spec bid i); congruence. }
  split.
  - rewrite fmap_app. apply NoDup_app. split_and!; [done| |apply NoDup_singleton].
    intros x Hx ->%list_elem_of_singleton. by apply assoc_None in Hnone.
  - rewrite length_app. simpl. lia.
  - intros i e. rewrite Ha. destruct (Z.eqb_spec i bid) as [->|Hne].
    + intros [= <-]. split; simpl; [done| | |by apply blocks_length with d bid| |done].
      * by rewrite bool_decide_true by (by left).
      * by rewrite bool_decide_false.
      * by rewrite Hdb.
    + intros [? Hs ????]%Hent. split; try done. by rewrite bool_decide_elem_ne.
  - intros i Hi. rewrite Ha. destruct (Z.eqb_spec i bid) as [->|Hne]; [eauto|].
    apply Hp. apply elem_of_cons in Hi as [->|?]; done.
  - intros i. rewrite Ha. destruct (Z.eqb_spec i bid) as [->|Hne]; [done|]. apply Hdisk.
Qed.

(** All queued blocks are in use exactly when sixteen blocks are pinned. *)
Lemma Rg_pinned_le q d dk pin lk :
  Rg q d dk pin lk → NoDup pin → (length pin ≤ length q)%nat.
Proof.
  intros HR Hnd. rewrite <-(length_fmap fst q). apply submseteq_length.
  apply NoDup_submseteq; [done|]. intros i Hi.
  destruct (Rg_pin _ _ _ _ _ HR i Hi) as [e He].
  destruct (decide (i ∈ q.*1)) as [|Hn]; [done|].
  apply assoc_None in Hn. congruence.
Qed.

Lemma Rg_strong q d dk pin lk i e :
  Rg q d dk pin lk → (i, e) ∈ q → bool_decide (strong e = 1%nat) = bool_decide (i ∉ pin).
Proof.
  intros HR Hin. apply (assoc_in _ _ _ (Rg_nodup _ _ _ _ _ HR)) in Hin.
  rewrite (eo_strong _ _ _ _ _ (Rg_entry _ _ _ _ _ HR _ _ Hin)).
  destruct (decide (i ∈ pin)).
  - rewrite (bool_decide_true (i ∈ pin)), (bool_decide_false (i ∉ pin)) by tauto. done.
  - rewrite (bool_decide_false (i ∈ pin)), (bool_decide_true (i ∉ pin)) by tauto. done.
Qed.

Lemma Rg_all_pinned q d dk pin lk :
  Rg q d dk pin lk → NoDup pin →
  find_idx (λ pr : Z * arc, bool_decide (strong pr.2 = 1%nat)) q = None →
  (length q ≤ length pin)%nat.
Proof.
  intros HR Hnd Hnone. rewrite <-(length_fmap fst q). apply submseteq_length.
  apply NoDup_submseteq; [by apply (Rg_nodup _ _ _ _ _ HR)|].
  intros i ([j e] & -> & Hin)%list_elem_of_fmap. simpl.
  apply (proj1 (find_idx_None _ _) Hnone) in Hin as Hs. simpl in Hs.
  rewrite (Rg_strong _ _ _ _ _ _ _ HR Hin) in Hs.
  apply bool_decide_eq_false in Hs. destruct (decide (j ∈ pin)); tauto.
Qed.

(** Making room never loses contents. *)
Lemma make_room_ok q d l dk held :
  Rg q d dk held held → NoDup held → (length held < BLOCK_CACHE_SIZE)%nat →
  ∃ q' d', make_room (mkState q d l) = Ok (mkState q' d' l, tt) ∧
    Rg q' d' dk held held ∧ (length q' < BLOCK_CACHE_SIZE)%nat ∧
    ∀ i, assoc i q = None → assoc i q' = None.
Proof.
  intros HR Hnd Hlen. unfold make_room, mbind, M_bind, gets. simpl.
  case_bool_decide as Hfull.
  2:{ exists q, d. split_and!; try done. pose proof (Rg_len _ _ _ _ _ HR). lia. }
  destruct (find_idx _ q) as [[idx [j e]]|] eqn:Hs.
  2:{ apply (Rg_all_pinned _ _ _ _ _ HR Hnd) in Hs. lia. }
  apply find_idx_Some in Hs as (Hidx & Hs & _). simpl in Hs.
  rewrite (Rg_strong _ _ _ _ _ _ _ HR) in Hs by (by eapply list_elem_of_lookup_2).
  apply bool_decide_eq_true in Hs.
  destruct (Rg_evict _ _ _ _ _ idx (j, e) l HR ltac:(done) Hidx Hs) as (d' & c' & Hsync & HR').
  exists (remove_nth idx q), d'. unfold set_queue. simpl in *. rewrite Hsync.
  split_and!; [done..| |].
  - rewrite length_remove_nth by (by eapply lookup_lt_Some). unfold BLOCK_CACHE_SIZE in *. lia.
  - intros i Hi. rewrite (assoc_remove_nth _ _ j e);
      [by destruct (_ =? _)|apply (Rg_nodup _ _ _ _ _ HR)|done].
Qed.

(** [get_block_cache] on a block nobody holds pins it and changes no contents. *)
Lemma get_block_cache_ok cs dk held bid b :
  Rg (queue cs) (dev cs) dk held held → NoDup held → bid ∉ held →
  (length held < BLOCK_CACHE_SIZE)%nat → dk !! bid = Some b →
  ∃ q d, get_block_cache bid cs = Ok (mkState q d (efs_locked cs), tt)
    ∧ Rg q d dk (bid :: held) held.
Proof.
  intros HR Hnd Hbid Hlen Hb. destruct cs as [q d l]. simpl in *.
  unfold get_block_cache, mbind, M_bind, gets. simpl.
  destruct (find_idx (λ pr, pr.1 =? bid) q) as [[n pr]|] eqn:Hf.
  - assert (∃ e, assoc bid q = Some e) as [e He].
    { unfold assoc. rewrite Hf. eauto. }
    eexists _, _. split; [done|].
    rewrite <-(Rg_same_disk _ _ _ _ _ _ _ HR He).
    change (cache (inner e)) with (cache (inner (incr e))).
    eapply Rg_on_entry; [done..| |].
    + destruct (Rg_entry _ _ _ _ _ HR _ _ He) as [? Hs ????].
      rewrite bool_decide_false in Hs by done.
      split; simpl; try done. by rewrite Hs, bool_decide_true by (by left).
    + intros i ?. rewrite elem_of_cons. naive_solver.
  - apply find_idx_assoc in Hf.
    destruct (make_room_ok q d l dk held) as (q' & d' & -> & HR' & Hlt & Hn); [done..|].
    specialize (Hn _ Hf). unfold new. simpl. rewrite read_block_spec.
    assert (blocks d' !! bid = Some b) as -> by (by rewrite (Rg_disk _ _ _ _ _ HR'), Hn in Hb).
    eexists _, _. split; [done|]. by apply Rg_push.
Qed.

(** Sixteen blocks in use: the manager gives up. *)
Lemma get_block_cache_full cs dk held bid :
  Rg (queue cs) (dev cs) dk held held → NoDup held → bid ∉ held →
  (BLOCK_CACHE_SIZE ≤ length held)%nat → get_block_cache bid cs = Err Panicked.
Proof.
  intros HR Hnd Hbid Hlen. destruct cs as [q d l]. simpl in *.
  pose proof (Rg_pinned_le _ _ _ _ _ HR Hnd). pose proof (Rg_len _ _ _ _ _ HR).
  assert (held ≡ₚ q.*1) as Hperm.
  { apply submseteq_length_Permutation; [|rewrite length_fmap; lia].
    apply NoDup_submseteq; [done|]. intros i Hi.
    destruct (Rg_pin _ _ _ _ _ HR i Hi) as [e He].
    destruct (decide (i ∈ q.*1)) as [|Hn]; [done|]. apply assoc_None in Hn. congruence. }
  unfold get_block_cache, mbind, M_bind, gets. simpl.
  rewrite (proj2 (find_idx_assoc bid q)) by (apply assoc_None; by rewrite <-Hperm).
  unfold make_room, mbind, M_bind, gets. simpl.
  rewrite bool_decide_true by lia.
  rewrite (proj2 (find_idx_None _ q)); [done|].
  intros [j e] Hin. simpl. rewrite (Rg_strong _ _ _ _ _ _ _ HR Hin).
  apply bool_decide_eq_false. rewrite Hperm. intros Hj. apply Hj.
  apply list_elem_of_fmap. by exists (j, e).
Qed.

(** A block that does not exist: the device's fault, after any write-back. *)
Lemma get_block_cache_absent cs dk held bid :
  Rg (queue cs) (dev cs) dk held held → NoDup held → bid ∉ held →
  (length held < BLOCK_CACHE_SIZE)%nat → dk !! bid = None →
  get_block_cache bid cs = Err absent.
Proof.
  intros HR Hnd Hbid Hlen Hb. destruct cs as [q d l]. simpl in *.
  assert (assoc bid q = None) as Hnone.
  { destruct (assoc bid q) eqn:He; [|done].
    rewrite (Rg_disk _ _ _ _ _ HR), He in Hb. done. }
  unfold get_block_cache, mbind, M_bind, gets. simpl.
  rewrite (proj2 (find_idx_assoc bid q)) by done.
  destruct (make_room_ok q d l dk held) as (q' & d' & -> & HR' & Hlt & Hn); [done..|].
  specialize (Hn _ Hnone). unfold new. simpl. rewrite read_block_spec.
  rewrite (Rg_disk _ _ _ _ _ HR'), Hn in Hb. by rewrite Hb.
Qed.

(** Getting and locking a block is [Disk.acquire]. *)
Lemma acquire_sim cs a bid :
  R cs a →
  match Disk.acquire absent bid a with
  | Ok (a', b) => ∃ cs' c, (get_block_cache bid;; lock bid) cs = Ok (cs', c) ∧
                    cache c = b ∧ R cs' a'
  | Err e => (get_block_cache bid;; lock bid) cs = Err e
  end.
Proof.
  intros [HR Hnd Hefs]. destruct a as [dk held l]. simpl in *.
  unfold Disk.acquire. simpl.
  case_bool_decide as Hh; [|case_bool_decide as Hlen; [|destruct (dk !! bid) as [b|] eqn:Hb]].
  - destruct (Rg_pin _ _ _ _ _ HR bid Hh) as [e He].
    pose proof (Rg_entry _ _ _ _ _ HR _ _ He) as [_ _ Hl _ _ _].
    unfold mbind, M_bind, get_block_cache, lock, gets, mbind, M_bind. simpl.
    destruct (find_idx (λ pr, pr.1 =? bid) (queue cs)) as [[n pr]|] eqn:Hf.
    2:{ apply find_idx_assoc in Hf. congruence. }
    simpl. rewrite assoc_on_entry, Z.eqb_refl, He. simpl.
    by rewrite Hl, bool_decide_true.
  - unfold mbind, M_bind. by rewrite (get_block_cache_full _ dk held).
  - destruct (get_block_cache_ok cs dk held bid b) as (q & d & Hget & HR'); [done..|lia|done|].
    unfold mbind, M_bind. rewrite Hget. unfold lock, mbind, M_bind, gets. simpl.
    destruct (Rg_pin _ _ _ _ _ HR' bid) as [e He]; [by left|]. rewrite He. simpl.
    pose proof (Rg_entry _ _ _ _ _ HR' _ _ He) as [Hid Hs Hl Hlen' Hdev Hclean].
    rewrite Hl, bool_decide_false by done. eexists _, _. split; [done|].
    pose proof (Rg_assoc_disk _ _ _ _ _ _ _ HR' He) as Hbe.
    rewrite Hb in Hbe. simplify_eq. split; [done|].
    split; simpl; [|by apply NoDup_cons|done].
    rewrite <-(Rg_same_disk _ _ _ _ _ _ _ HR' He) at 1.
    change (cache (inner e)) with
      (cache (inner ((λ a, mkArc (inner a) (strong a) true) e))).
    eapply Rg_on_entry; [done..| |].
    + split; simpl; try done. by rewrite bool_decide_true by (by left).
    + intros i ?. rewrite elem_of_cons. naive_solver.
  - unfold mbind, M_bind. rewrite (get_block_cache_absent _ dk held); [done..|lia|done].
Qed.

(** Dropping the guard and the handle, having left [b'] in the block. *)
Lemma release_sim cs a bid h g b :
  R cs a → Disk.held a = bid :: h → Disk.disk a !! bid = Some b →
  (∀ c, cache c = b → block_id (g c) = block_id c ∧ length (cache (g c)) = 512%nat ∧
        (modified (g c) = false → modified c = false ∧ cache (g c) = cache c)) →
  ∃ cs' c, release bid g cs = Ok (cs', tt) ∧ cache c = b ∧
    R cs' (Disk.mkState (<[bid := cache (g c)]> (Disk.disk a)) h (Disk.efs_held a)).
Proof.
  intros [HR Hnd Hefs] Hh Hb Hg.
  destruct (Rg_pin _ _ _ _ _ HR bid) as [e He]; [rewrite Hh; by left|].
  assert (cache (inner e) = b) as Hc.
  { pose proof (Rg_assoc_disk _ _ _ _ _ _ _ HR He) as Hbe. congruence. }
  destruct (Hg _ Hc) as (Hg1 & Hg2 & Hg3).
  rewrite Hh in Hnd. apply NoDup_cons in Hnd as [Hnh Hnd].
  eexists _, (inner e). split; [done|]. split; [done|]. split; simpl; [|done..].
  change (cache (g (inner e))) with
    (cache (inner ((λ a, decr (mkArc (g (inner a)) (strong a) false)) e))).
  eapply Rg_on_entry; [done..| |].
  - destruct (Rg_entry _ _ _ _ _ HR _ _ He) as [Hid Hs Hl Hlen Hdev Hclean].
    rewrite Hh in Hs. rewrite bool_decide_true in Hs by (by left).
    split; simpl; [congruence| | |done|done|].
    + by rewrite Hs, bool_decide_false.
    + by rewrite bool_decide_false.
    + intros [Hm ->]%Hg3. by apply Hclean.
  - intros i ?. rewrite Hh, elem_of_cons. naive_solver.
Qed.

(** [sync_entries] writes every dirty entry back and touches nothing else. *)
Lemma sync_entries_ok q (cs : Cache.state D) pin :
  NoDup q.*1 → (∀ i e, (i, e) ∈ q → entry_ok (dev cs) pin [] i e) →
  ∃ d, sync_entries q cs = Ok (mkState (queue cs) d (efs_locked cs),
         (λ pr : Z * arc, (pr.1, mkArc (mkBlockCache (cache (inner pr.2)) (block_id (inner pr.2)) false)
                                   (strong pr.2) (locked pr.2))) <$> q)
    ∧ ∀ i, blocks d !! i = match assoc i q with
                           | Some e => Some (cache (inner e))
                           | None => blocks (dev cs) !! i
                           end.
Proof.
  revert cs. induction q as [|[j e] q IH]; intros cs Hnd Hent.
  { exists (dev cs). destruct cs. split; [done|]. intros i. done. }
  rewrite fmap_cons in Hnd. apply NoDup_cons in Hnd as [Hj Hnd]. simpl in Hj.
  destruct (Hent j e) as [Hid Hs Hl Hlen Hdev Hclean]; [by left|].
  assert (∃ d1, sync (inner e) cs = Ok (mkState (queue cs) d1 (efs_locked cs),
            mkBlockCache (cache (inner e)) (block_id (inner e)) false) ∧
          blocks d1 = <[j := cache (inner e)]> (blocks (dev cs))) as (d1 & Hsync & Hd1).
  { unfold sync. destruct (modified (inner e)) eqn:Hm.
    - rewrite Hid. destruct (write_block_spec (dev cs) j (cache (inner e)) Hdev Hlen)
        as (d' & -> & Hd'). eauto.
    - exists (dev cs). destruct cs. split; [by destruct (inner e); simplify_eq/=|].
      symmetry. by apply insert_id, Hclean. }
  destruct (IH (mkState (queue cs) d1 (efs_locked cs)) Hnd) as (d & Heq & Hd).
  { intros i e' Hin. assert (i ≠ j) as Hne.
    { intros ->. apply Hj. apply list_elem_of_fmap. by exists (j, e'). }
    destruct (Hent i e') as [????? Hc]; [by right|].
    split; try done; simpl; rewrite Hd1, lookup_insert_ne; done. }
  exists d. simpl. unfold sync_entry, mbind, M_bind. simpl.
  rewrite Hl, bool_decide_false by apply not_elem_of_nil.
  rewrite Hsync. simpl. rewrite Heq. split; [done|].
  intros i. rewrite Hd, assoc_cons. simpl. destruct (Z.eqb_spec j i) as [->|Hne].
  - rewrite (proj2 (assoc_None i q)) by done. by rewrite Hd1, lookup_insert_eq.
  - destruct (assoc i q); [done|]. by rewrite Hd1, lookup_insert_ne.
Qed.

Lemma sync_entries_deadlock q (cs : Cache.state D) pin lk i e :
  NoDup q.*1 → (∀ i e, (i, e) ∈ q → entry_ok (dev cs) pin lk i e) →
  (i, e) ∈ q → i ∈ lk → sync_entries q cs = Err Deadlock.
Proof.
  revert cs. induction q as [|[j f] q IH]; intros cs Hnd Hent Hin Hi.
  { by apply elem_of_nil in Hin. }
  rewrite fmap_cons in Hnd. apply NoDup_cons in Hnd as [Hj Hnd]. simpl in Hj.
  destruct (Hent j f) as [Hid Hs Hl Hlen Hdev Hclean]; [by left|].
  simpl. unfold sync_entry, mbind, M_bind. simpl. rewrite Hl.
  case_bool_decide as Hjl; [done|].
  apply elem_of_cons in Hin as [[= -> ->]|Hin]; [done|].
  unfold sync. destruct (modified (inner f)) eqn:Hm.
  - rewrite Hid. destruct (write_block_spec (dev cs) j (cache (inner f)) Hdev Hlen)
      as (d' & -> & Hd'). simpl. rewrite IH; [done|done| |done|done].
    intros i' e' Hin'. assert (i' ≠ j) as Hne.
    { intros ->. apply Hj. apply list_elem_of_fmap. by exists (j, e'). }
    destruct (Hent i' e') as [????? Hc]; [by right|].
    split; try done; simpl; rewrite Hd', lookup_insert_ne; done.
  - simpl. rewrite IH; [done|done| |done|done]. intros ???. apply Hent. by right.
Qed.

Lemma sync_all_sim cs a :
  R cs a →
  if bool_decide (Disk.held a = [])
  then ∃ cs', block_cache_sync_all cs = Ok (cs', tt) ∧ R cs' a ∧ blocks (dev cs') = Disk.disk a
  else block_cache_sync_all cs = Err Deadlock.
Proof.
  intros [HR Hnd Hefs]. pose proof HR as [Hqnd Hqlen Hent Hpin Hdisk].
  assert (∀ i e, (i, e) ∈ queue cs → entry_ok (dev cs) (Disk.held a) (Disk.held a) i e) as Hent'.
  { intros i e Hin. apply Hent. by apply assoc_in. }
  unfold block_cache_sync_all, mbind, M_bind, gets. case_bool_decide as Hh.
  2:{ destruct (Disk.held a) as [|i h] eqn:Hheq; [done|].
      destruct (Hpin i) as [e He]; [by left|].
      rewrite (sync_entries_deadlock _ _ (i :: h) (i :: h) i e); [done|done|done| |by left].
      by apply assoc_Some_in. }
  rewrite Hh in *. destruct (sync_entries_ok (queue cs) cs [] Hqnd Hent') as (d & -> & Hd).
  eexists. split; [done|].
  assert (blocks d = Disk.disk a) as Hbd.
  { apply map_eq. intros i. by rewrite Hd, Hdisk. }
  split; [|done]. split; simpl; [|by rewrite Hh; apply NoDup_nil|done]. rewrite Hh.
  set (clean := λ pr : Z * arc, _).
  assert (∀ i q, assoc i (clean <$> q) = (λ e, (clean (i, e)).2) <$> assoc i q) as Hcl.
  { intros i q'. induction q' as [|[j e] q' IH]; [done|]. rewrite fmap_cons.
    change (clean (j, e)) with (j, (clean (j, e)).2). rewrite !assoc_cons, IH. by destruct (Z.eqb_spec j i) as [->|]. }
  split.
  - by rewrite <-list_fmap_compose.
  - by rewrite length_fmap.
  - intros i e. rewrite Hcl. destruct (assoc i (queue cs)) as [e'|] eqn:He; [|done].
    intros [= <-]. destruct (Hent i e' He) as [????? ?]. split; simpl; try done.
    + rewrite Hbd, Hdisk, He. eauto.
    + intros _. by rewrite Hbd, Hdisk, He.
  - intros i ?%elem_of_nil. done.
  - intros i. rewrite Hcl. rewrite Hdisk, Hd. by destruct (assoc i (queue cs)).
Qed.

(** Every program runs on the cache as it runs on the disk. *)
Lemma crun_sim {A} (p : prog A) cs a :
  R cs a →
  match Disk.arun absent p a with
  | Ok (a', v) => ∃ cs', crun p cs = Ok (cs', v) ∧ R cs' a'
  | Err e => crun p cs = Err e
  end.
Proof.
  revert cs a. induction p as [A v|A B p IHp k IHk|A e|T A P bid off f IH|T A P bid off f IH| |A p IH];
    intros cs a HR.
  - exists cs. done.
  - simpl. unfold mbind, M_bind. specialize (IHp cs a HR).
    destruct (Disk.arun absent p a) as [[a1 v1]|e]; [|by rewrite IHp].
    destruct IHp as (cs1 & -> & HR1). by apply IHk.
  - done.
  - pose proof (acquire_sim cs a bid HR) as Hacq. simpl. unfold mbind, M_bind in Hacq |- *.
    destruct (Disk.acquire absent bid a) as [[a1 b]|e] eqn:Ha.
    2:{ by destruct (get_block_cache bid cs) as [[cs1 []]|e1]; simplify_eq/=; [rewrite Hacq|]. }
    destruct Hacq as (cs2 & c & Hget & Hc & HR2).
    destruct (get_block_cache bid cs) as [[cs1 []]|e1]; [|done]. simpl in Hget. rewrite Hget, Hc.
    destruct (get_ref off b) as [t|e] eqn:Ht; [|done].
    specialize (IH t cs2 a1 HR2).
    destruct (Disk.arun absent (f t) a1) as [[a3 v]|e] eqn:Hrun; [|by rewrite IH].
    destruct IH as (cs3 & -> & HR3). apply Disk.arun_frame in Hrun as (Hh & He & Hd & _).
    unfold Disk.acquire in Ha. repeat case_bool_decide; try done.
    destruct (Disk.disk a !! bid) eqn:Hb; [|done]. simplify_eq/=.
    rewrite <-Hd in Hb by (by left).
    destruct (release_sim cs3 a3 bid (Disk.held a) (λ c, c) (cache c) HR3 Hh Hb)
      as (cs4 & c' & [= <-] & Hc' & HR4).
    { intros c' Hc'. split_and!; [done| |done]. destruct HR3 as [HR3 _ _].
      destruct (Rg_pin _ _ _ _ _ HR3 bid) as [e He3]; [rewrite Hh; by left|].
      destruct (Rg_entry _ _ _ _ _ HR3 _ _ He3) as [_ _ _ Hl _ _].
      pose proof (Rg_assoc_disk _ _ _ _ _ _ _ HR3 He3). congruence. }
    eexists. split; [done|]. rewrite Hc', insert_id in HR4 by done.
    rewrite Hh. simpl. done.
  - pose proof (acquire_sim cs a bid HR) as Hacq. simpl. unfold mbind, M_bind in Hacq |- *.
    destruct (Disk.acquire absent bid a) as [[a1 b]|e] eqn:Ha.
    2:{ by destruct (get_block_cache bid cs) as [[cs1 []]|e1]; simplify_eq/=; [rewrite Hacq|]. }
    destruct Hacq as (cs2 & c & Hget & Hc & HR2).
    destruct (get_block_cache bid cs) as [[cs1 []]|e1]; [|done]. simpl in Hget. rewrite Hget, Hc.
    destruct (get_ref off b) as [t|e] eqn:Ht; [|done].
    unfold Disk.acquire in Ha. repeat case_bool_decide; try done.
    destruct (Disk.disk a !! bid) eqn:Hb; [|done]. simplify_eq/=.
    specialize (IH t cs2 _ HR2).
    destruct (Disk.arun absent (f t) _) as [[a3 [t' v]]|e] eqn:Hrun; [|by rewrite IH].
    destruct IH as (cs3 & -> & HR3). apply Disk.arun_frame in Hrun as (Hh & He & Hd & _).
    simpl in *. rewrite <-Hd in Hb by (by left).
    destruct (release_sim cs3 a3 bid (Disk.held a)
      (λ c, mkBlockCache (put_back off (cache c) t') (block_id c) true) (cache c) HR3 Hh Hb)
      as (cs4 & c' & [= <-] & Hc' & HR4).
    { intros c' Hc'. apply get_ref_inv in Ht as (Ho1 & Ho2 & _).
      pose proof HR3 as [HR3' _ _].
      destruct (Rg_pin _ _ _ _ _ HR3' bid) as [e He3]; [rewrite Hh; by left|].
      destruct (Rg_entry _ _ _ _ _ HR3' _ _ He3) as [_ _ _ Hl _ _].
      pose proof (Rg_assoc_disk _ _ _ _ _ _ _ HR3' He3).
      simpl. split_and!; [done| |done]. apply length_put_back; [done..|]. congruence. }
    eexists. split; [done|]. rewrite Hh. simpl. simpl in HR4. by rewrite Hc' in HR4.
  - pose proof (sync_all_sim cs a HR) as Hs. simpl. case_bool_decide; [|done].
    destruct Hs as (cs' & -> & HR' & _). eauto.
  - simpl. destruct HR as [HR Hnd Hefs]. rewrite Hefs. destruct (Disk.efs_held a) eqn:He; [done|].
    specialize (IH (mkState (queue cs) (dev cs) true)
                   (Disk.mkState (Disk.disk a) (Disk.held a) true) ltac:(by split)).
    destruct (Disk.arun absent p _) as [[a1 v]|e]; [|by rewrite IH].
    destruct IH as (cs1 & -> & HR1). eexists. split; [done|]. by destruct HR1.
Qed.

(** A fresh manager over [d], and the disk it stands for. *)
Definition fresh (d : D) : Cache.state D := mkState [] d false.
Definition disk_of (d : D) : Disk.state := Disk.mkState (blocks d) [] false.

Lemma R_fresh d : R (fresh d) (disk_of d).
Proof.
  split; simpl; [|apply NoDup_nil_2|done].
  split; simpl; [apply NoDup_nil_2|unfold BLOCK_CACHE_SIZE; lia|done| |done].
  intros i ?%elem_of_nil. done.
Qed.

(** C8: the block cache is transparent.  Every program over cached blocks,
    started with an empty cache over a device, returns what it returns on
    the plain disk, value for value and fault for fault, whatever was
    evicted, written back or reloaded on the way; and afterwards cache and
    device together still represent the resulting disk. *)
Theorem cache_transparent {A} (p : prog A) (d : D) :
  match Disk.arun absent p (disk_of d) with
  | Ok (a', v) => ∃ cs', crun p (fresh d) = Ok (cs', v) ∧ R cs' a'
  | Err e => crun p (fresh d) = Err e
  end.
Proof. apply crun_sim, R_fresh. Qed.

(** [block_cache_sync_all] makes the work durable.  When a program ends
    with it, the device itself, without the cache, holds the disk the
    program produced. *)
Theorem cache_sync_durable {A} (p : prog A) (d : D) :
  match Disk.arun absent (v ← p; BlockCache.block_cache_sync_all;; mret v) (disk_of d) with
  | Ok (a', v) => ∃ cs', crun (v ← p; BlockCache.block_cache_sync_all;; mret v) (fresh d) = Ok (cs', v)
                    ∧ blocks (dev cs') = Disk.disk a'
  | Err e => crun (v ← p; BlockCache.block_cache_sync_all;; mret v) (fresh d) = Err e
  end.
Proof.
  pose proof (crun_sim p (fresh d) (disk_of d) (R_fresh d)) as Hp.
  simpl. unfold mbind, M_bind. simpl.
  destruct (Disk.arun absent p (disk_of d)) as [[a v]|e]; [|by rewrite Hp].
  destruct Hp as (cs & -> & HR). pose proof (sync_all_sim cs a HR) as Hs.
  case_bool_decide; [|by rewrite Hs]. destruct Hs as (cs' & -> & _ & Hdev).
  exists cs'. by split.
Qed.

(** The invariant of the cache manager.  After any program the queue
    holds at most 16 blocks, none of them twice, every entry is filed under
    its own block number, has no user left and is unlocked, and an entry
    that is not marked modified equals the device's block. *)
Theorem cache_invariant {A} (p : prog A) (d : D) :
  match crun p (fresh d) with
  | Ok (cs', _) =>
      (length (queue cs') ≤ BLOCK_CACHE_SIZE)%nat ∧ NoDup (queue cs').*1 ∧
      ∀ i e, (i, e) ∈ queue cs' →
        block_id (inner e) = i ∧ strong e = 1%nat ∧ locked e = false ∧
        (modified (inner e) = false → blocks (dev cs') !! i = Some (cache (inner e)))
  | Err _ => True
  end.
Proof.
  pose proof (crun_sim p (fresh d) (disk_of d) (R_fresh d)) as Hp.
  destruct (Disk.arun absent p (disk_of d)) as [[a v]|e] eqn:Ha; [|by rewrite Hp].
  destruct Hp as (cs & -> & [HR _ _]). apply Disk.arun_frame in Ha as (Hh & _).
  rewrite Hh in HR. destruct HR as [Hnd Hlen Hent _ _]. split_and!; [done..|].
  intros i e Hin. destruct (Hent i e) as [? Hs Hl ?? Hc]; [by apply assoc_in|].
  rewrite bool_decide_false in Hs, Hl by apply not_elem_of_nil. done.
Qed.
End refine.
End Refine.
