(* ===== verification/Layout.v ===== *)
(** * On-disk structures of easy-fs ([easy-fs/src/layout.rs], [bitmap.rs])

    The typed views of a block: [BitmapBlock], [IndirectBlock], [DataBlock],
    [SuperBlock], [DiskInode] (all [#[repr(C)]] or arrays, little-endian), with
    the laws of reading back what was stored ([PodOk]), and directory entries
    with their names.  The operations of [DiskInode] are in DiskInode.v. *)

From S2P Require Import Prelude Bytes BlockCache.

Definition EFS_MAGIC : Z := 0x3b800001.
Definition INODE_DIRECT_COUNT : Z := 28.
Definition NAME_LENGTH_LIMIT : Z := 27.
Definition INODE_INDIRECT1_COUNT : Z := BLOCK_SZ / 4.
Definition INODE_INDIRECT2_COUNT : Z := INODE_INDIRECT1_COUNT * INODE_INDIRECT1_COUNT.
Definition DIRECT_BOUND : Z := INODE_DIRECT_COUNT.
Definition INDIRECT1_BOUND : Z := DIRECT_BOUND + INODE_INDIRECT1_COUNT.
Definition INDIRECT2_BOUND : Z := INDIRECT1_BOUND + INODE_INDIRECT2_COUNT.
Definition DIRENT_SZ : Z := 32.

(** ** Views *)

(** [[u64; 64]] *)
Record BitmapBlock := mkBitmapBlock { bits64 : list Z }.
(** [[u32; BLOCK_SZ / 4]] *)
Record IndirectBlock := mkIndirectBlock { ids : list Z }.
(** [[u8; BLOCK_SZ]] *)
Record DataBlock := mkDataBlock { data : list byte }.

Record SuperBlock := mkSuperBlock {
  magic : Z;
  total_blocks : Z;
  inode_bitmap_blocks : Z;
  inode_area_blocks : Z;
  data_bitmap_blocks : Z;
  data_area_blocks : Z;
}.

Inductive DiskInodeType := File | Directory.

#[export] Instance DiskInodeType_eq_dec : EqDecision DiskInodeType.
Proof. solve_decision. Defined.

Record DiskInode := mkDiskInode {
  size : Z;
  direct : list Z;
  indirect1 : Z;
  indirect2 : Z;
  type_ : DiskInodeType;
}.

(** [SuperBlock::initialize] *)
Definition super_initialize (total ib ia db da : Z) : SuperBlock :=
  mkSuperBlock EFS_MAGIC total ib ia db da.

(** [SuperBlock::is_valid] *)
Definition is_valid (sb : SuperBlock) : bool := magic sb =? EFS_MAGIC.

(** [DiskInode::initialize] *)
Definition initialize (ty : DiskInodeType) (d : DiskInode) : DiskInode :=
  mkDiskInode 0 ((λ _, 0) <$> direct d) 0 0 ty.

Definition is_dir (d : DiskInode) : bool := bool_decide (type_ d = Directory).
Definition is_file (d : DiskInode) : bool := bool_decide (type_ d = File).

(** The discriminants of [DiskInodeType]. *)
Definition type_byte (t : DiskInodeType) : byte :=
  match t with File => Byte.x00 | Directory => Byte.x01 end.
Definition type_of_byte (b : byte) : option DiskInodeType :=
  match b with Byte.x00 => Some File | Byte.x01 => Some Directory | _ => None end.

#[export] Instance BitmapBlock_pod : Pod BitmapBlock := {|
  pod_size := 512;
  load bs := Some (mkBitmapBlock (le_words 8 64 bs));
  enc b := le_bytes 8 (bits64 b);
|}.

#[export] Instance IndirectBlock_pod : Pod IndirectBlock := {|
  pod_size := 512;
  load bs := Some (mkIndirectBlock (le_words 4 128 bs));
  enc b := le_bytes 4 (ids b);
|}.

#[export] Instance DataBlock_pod : Pod DataBlock := {|
  pod_size := 512;
  load bs := Some (mkDataBlock bs);
  enc b := data b;
|}.

#[export] Instance SuperBlock_pod : Pod SuperBlock := {|
  pod_size := 24;
  load bs := match le_words 4 6 bs with
             | [m; t; ib; ia; db; da] => Some (mkSuperBlock m t ib ia db da)
             | _ => None
             end;
  enc s := le_bytes 4 [magic s; total_blocks s; inode_bitmap_blocks s;
                       inode_area_blocks s; data_bitmap_blocks s; data_area_blocks s];
|}.

(** 31 [u32] fields ([size], [direct], [indirect1], [indirect2]), one byte of
    [type_], three bytes of padding. *)
Definition inode_words (d : DiskInode) : list Z :=
  size d :: direct d ++ [indirect1 d; indirect2 d].

#[export] Instance DiskInode_pod : Pod DiskInode := {|
  pod_size := 128;
  load bs :=
    match bs !! 124%nat ≫= type_of_byte with
    | Some ty =>
        let ws := le_words 4 31 bs in
        Some (mkDiskInode (ws !!! 0%nat) (take 28 (drop 1 ws)) (ws !!! 29%nat) (ws !!! 30%nat) ty)
    | None => None
    end;
  enc d := le_bytes 4 (inode_words d) ++ [type_byte (type_ d)];
|}.

(** ** Laws of the views

    [valid]: the values a [T] can have.  What was stored is read back. *)
Class PodOk (T : Type) `{Pod T} := {
  valid : T → Prop;
  load_overlay : ∀ bs t, valid t → length bs = pod_size T → load (overlay bs (enc t)) = Some t;
  load_valid : ∀ bs t, length bs = pod_size T → load bs = Some t → valid t;
}.

Lemma overlay_short bs e :
  (length e ≤ length bs)%nat → overlay bs e = e ++ drop (length e) bs.
Proof.
  intros. unfold overlay. apply take_ge. rewrite length_app, length_drop. lia.
Qed.

Lemma overlay_full bs e : length e = length bs → overlay bs e = e.
Proof. intros. rewrite overlay_short, drop_ge, app_nil_r by lia. done. Qed.

Lemma length_overlay bs e : length (overlay bs e) = length bs.
Proof. unfold overlay. rewrite length_take, length_app, length_drop. lia. Qed.

Definition fits_block (w n : nat) (ws : list Z) : Prop := length ws = n ∧ Forall (fits w) ws.

#[export] Instance BitmapBlock_pod_ok : PodOk BitmapBlock.
Proof.
  refine {| valid b := fits_block 8 64 (bits64 b) |}.
  - intros bs [ws] [Hl Hf] Hbs. simpl in *.
    rewrite overlay_full by (rewrite length_le_bytes, Hl; done).
    rewrite <-(app_nil_r (le_bytes 8 ws)), <-Hl, le_words_bytes by done. done.
  - intros bs t _ [= <-]. split; [apply length_le_words|apply le_words_fit].
Defined.

#[export] Instance IndirectBlock_pod_ok : PodOk IndirectBlock.
Proof.
  refine {| valid b := fits_block 4 128 (ids b) |}.
  - intros bs [ws] [Hl Hf] Hbs. simpl in *.
    rewrite overlay_full by (rewrite length_le_bytes, Hl; done).
    rewrite <-(app_nil_r (le_bytes 4 ws)), <-Hl, le_words_bytes by done. done.
  - intros bs t _ [= <-]. split; [apply length_le_words|apply le_words_fit].
Defined.

#[export] Instance DataBlock_pod_ok : PodOk DataBlock.
Proof.
  refine {| valid b := length (data b) = 512%nat |}.
  - intros bs [ws] Hl Hbs. simpl in *. by rewrite overlay_full by lia.
  - intros bs t Hl [= <-]. done.
Defined.

Definition super_words (s : SuperBlock) : list Z :=
  [magic s; total_blocks s; inode_bitmap_blocks s; inode_area_blocks s;
   data_bitmap_blocks s; data_area_blocks s].

#[export] Instance SuperBlock_pod_ok : PodOk SuperBlock.
Proof.
  refine {| valid s := Forall is_u32 (super_words s) |}.
  - intros bs s Hs Hbs.
    assert (load (overlay bs (enc s)) =
      match le_words 4 6 (overlay bs (le_bytes 4 (super_words s))) with
      | [m; t; ib; ia; db; da] => Some (mkSuperBlock m t ib ia db da) | _ => None end) as -> by done.
    rewrite overlay_full by done. rewrite <-(app_nil_r (le_bytes 4 _)).
    change 6%nat with (length (super_words s)). rewrite le_words_bytes by done. by destruct s.
  - intros bs t _ Ht. simpl in Ht. pose proof (le_words_fit 4 6 bs) as Hf.
    destruct (le_words 4 6 bs) as [|m [|tb [|ib [|ia [|db [|da [|??]]]]]]]; try done.
    by simplify_eq.
Defined.

Definition inode_valid (d : DiskInode) : Prop :=
  is_u32 (size d) ∧ fits_block 4 28 (direct d) ∧ is_u32 (indirect1 d) ∧ is_u32 (indirect2 d).

Lemma type_of_type_byte t : type_of_byte (type_byte t) = Some t.
Proof. by destruct t. Qed.

Lemma inode_words_fit d : inode_valid d → fits_block 4 31 (inode_words d).
Proof.
  intros (Hs & [Hl Hf] & H1 & H2). unfold inode_words. split.
  - simpl. rewrite length_app, Hl. done.
  - constructor; [done|]. apply Forall_app. split; [done|].
    by apply Forall_cons; split; [|apply Forall_singleton].
Qed.

Lemma inode_of_words d :
  length (direct d) = 28%nat →
  mkDiskInode (inode_words d !!! 0%nat) (take 28 (drop 1 (inode_words d)))
    (inode_words d !!! 29%nat) (inode_words d !!! 30%nat) (type_ d) = d.
Proof.
  destruct d as [sz dr i1 i2 ty]. unfold inode_words. cbn [direct size indirect1 indirect2 type_].
  intros Hl. do 28 (destruct dr as [|? dr]; [done|]). by destruct dr.
Qed.

#[export] Instance DiskInode_pod_ok : PodOk DiskInode.
Proof.
  refine {| valid := inode_valid |}.
  - intros bs d Hd Hbs. apply inode_words_fit in Hd as Hw. destruct Hw as [Hwl Hwf]. simpl.
    assert (length (le_bytes 4 (inode_words d)) = 124%nat) as Hld by (rewrite length_le_bytes, Hwl; done).
    rewrite overlay_short by (rewrite length_app, Hld; simpl in *; lia).
    rewrite <-app_assoc, lookup_app_r, Hld by lia. simpl. rewrite type_of_type_byte.
    rewrite <-Hwl, le_words_bytes by done.
    rewrite inode_of_words; [done|]. apply Hd.
  - intros bs t Hbs. simpl. destruct (bs !! 124%nat ≫= type_of_byte) as [ty|]; [|done].
    intros [= <-]. pose proof (le_words_fit 4 31 bs) as Hf. pose proof (length_le_words 4 31 bs) as Hl.
    assert (∀ k, (k < 31)%nat → is_u32 (le_words 4 31 bs !!! k)) as Hk.
    { intros k Hk. destruct (lookup_lt_is_Some_2 (le_words 4 31 bs) k) as [x Hx]; [lia|].
      rewrite (list_lookup_total_correct _ _ _ Hx). by apply (Forall_lookup_1 _ _ _ _ Hf Hx). }
    split_and!; simpl; [by apply Hk; lia| |by apply Hk; lia|by apply Hk; lia].
    split; [rewrite length_take, length_drop; lia|]. by apply Forall_take, Forall_drop.
Defined.
