(* ===== verification/DiskLib.v ===== *)
(** * Reasoning about programs on the abstract disk

    Equations for [Disk.arun]: a block that is present and not locked is read
    or modified as its typed view, and the closure runs with the block held.
    The whole-block views ([IndirectBlock], [BitmapBlock], [DataBlock]) get
    lemmas of their own. *)

From S2P Require Import Prelude Bytes BlockCache Layout.

(** Every block of the disk is 512 bytes. *)
Definition disk_ok (d : gmap Z block) : Prop := map_Forall (λ _ b, length b = 512%nat) d.

(** [bid] can be taken: nobody holds it and a cache slot is left. *)
Definition free (s : Disk.state) (bid : Z) : Prop :=
  bid ∉ Disk.held s ∧ (length (Disk.held s) < BLOCK_CACHE_SIZE)%nat.

Definition hold (bid : Z) (s : Disk.state) : Disk.state :=
  Disk.mkState (Disk.disk s) (bid :: Disk.held s) (Disk.efs_held s).

Definition upd (bid : Z) (b : block) (s : Disk.state) : Disk.state :=
  Disk.mkState (<[bid := b]> (Disk.disk s)) (Disk.held s) (Disk.efs_held s).

Definition set_disk (d : gmap Z block) (s : Disk.state) : Disk.state :=
  Disk.mkState d (Disk.held s) (Disk.efs_held s).

Lemma set_disk_id s : set_disk (Disk.disk s) s = s.
Proof. by destruct s. Qed.

Lemma disk_ok_insert d bid b :
  disk_ok d → length b = 512%nat → disk_ok (<[bid := b]> d).
Proof. intros Hd Hb. by apply map_Forall_insert_2. Qed.

Lemma disk_ok_lookup d bid b : disk_ok d → d !! bid = Some b → length b = 512%nat.
Proof. intros Hd Hb. apply (Hd _ _ Hb). Qed.

Create HintDb disk discriminated.
#[export] Hint Resolve disk_ok_insert disk_ok_lookup : disk.

Section views.
Context {T : Type} `{PodOk T}.

Lemma get_ref_ok off b t :
  0 ≤ off → off + size_of T ≤ 512 → load (view_bytes off b) = Some t → get_ref off b = Ok t.
Proof.
  intros H1 H2 Hl. unfold get_ref, BLOCK_SZ.
  rewrite !(proj2 (Z.leb_le _ _)) by done. simpl. by rewrite Hl.
Qed.

(** The view just stored is the view read. *)
Lemma get_ref_put_back off b t :
  0 ≤ off → off + size_of T ≤ 512 → length b = 512%nat → valid t →
  get_ref off (put_back off b t) = Ok t.
Proof.
  intros H1 H2 Hb Hv. apply get_ref_ok; [done..|].
  unfold view_bytes at 1, put_back.
  rewrite drop_app_length' by (rewrite length_take; unfold size_of in *; lia).
  rewrite take_app_length' by (rewrite length_overlay, length_view_bytes; done).
  apply load_overlay; [done|]. by apply length_view_bytes.
Qed.

(** Bytes outside the stored view keep their values. *)
Lemma put_back_outside off b t (i : nat) :
  0 ≤ off → off + size_of T ≤ 512 → length b = 512%nat →
  (Z.of_nat i < off ∨ off + size_of T ≤ Z.of_nat i) → put_back off b t !! i = b !! i.
Proof.
  intros H1 H2 Hb Hi. unfold put_back, size_of in *. destruct Hi as [Hi|Hi].
  - rewrite lookup_app_l by (rewrite length_take; lia). rewrite lookup_take_lt by lia. done.
  - rewrite lookup_app_r by (rewrite length_take; lia).
    rewrite lookup_app_r; rewrite length_overlay, length_view_bytes by (unfold size_of; lia).
    + rewrite lookup_drop, length_take. f_equal. lia.
    + rewrite length_take. lia.
Qed.
End views.

(** A view of [T'] that does not overlap the stored view is unchanged. *)
Lemma get_ref_put_back_ne {T T'} `{PodOk T} `{Pod T'} off off' b (t : T) :
  0 ≤ off → off + size_of T ≤ 512 → length b = 512%nat → 0 ≤ off' →
  (off' + size_of T' ≤ off ∨ off + size_of T ≤ off') →
  get_ref (T:=T') off' (put_back off b t) = get_ref off' b.
Proof.
  intros H1' H2' Hb Hoff Hdisj. unfold get_ref. destruct (_ && _) eqn:Hc; [|done].
  apply andb_true_iff in Hc as [_ Hc%Z.leb_le]. unfold BLOCK_SZ in Hc.
  replace (view_bytes (T:=T') off' (put_back off b t)) with (view_bytes (T:=T') off' b); [done|].
  unfold view_bytes, size_of in *.
  apply list_eq_same_length with (pod_size T').
  - rewrite length_take, length_drop, length_put_back by done. lia.
  - rewrite length_take, length_drop. lia.
  - intros i x y Hi. rewrite !lookup_take_lt, !lookup_drop by done.
    rewrite put_back_outside by (try done; unfold size_of; lia). congruence.
Qed.

Section run.
Context (fl : fault).
Notation run p := (Disk.arun fl p).

Lemma acquire_ok s bid b :
  free s bid → Disk.disk s !! bid = Some b → Disk.acquire fl bid s = Ok (hold bid s, b).
Proof.
  intros [Hn Hl] Hb. unfold Disk.acquire. rewrite bool_decide_false by done.
  rewrite bool_decide_false by lia. by rewrite Hb.
Qed.

Lemma run_bind {A B} (p : prog A) (k : A → prog B) s :
  run (p ≫= k) s = match run p s with Ok (s', a) => run (k a) s' | Err e => Err e end.
Proof. done. Qed.

Lemma run_bind_ok {A B} (p : prog A) (k : A → prog B) s s' a :
  run p s = Ok (s', a) → run (p ≫= k) s = run (k a) s'.
Proof. intros Hp. rewrite run_bind. by rewrite Hp. Qed.

Lemma run_ret {A} (a : A) s : run (mret a) s = Ok (s, a).
Proof. done. Qed.

Lemma run_throw {A} (e : fault) s : run (mthrow e : prog A) s = Err e.
Proof. done. Qed.

Lemma run_bind_err {A B} (p : prog A) (k : A → prog B) s e :
  run p s = Err e → run (p ≫= k) s = Err e.
Proof. intros Hp. rewrite run_bind. by rewrite Hp. Qed.

Lemma run_index {A} (l : list A) i a s :
  0 ≤ i → l !! Z.to_nat i = Some a → run (index l i) s = Ok (s, a).
Proof.
  intros Hi Hl. unfold index. rewrite (proj2 (Z.leb_le 0 i)) by done. by rewrite Hl.
Qed.

Lemma run_set_index {A} (l : list A) i a s :
  0 ≤ i < Z.of_nat (length l) → run (set_index l i a) s = Ok (s, <[Z.to_nat i := a]> l).
Proof.
  intros Hi. unfold set_index.
  rewrite (proj2 (Z.leb_le 0 i)), (proj2 (Z.ltb_lt _ _)) by lia. done.
Qed.

Lemma run_slice {A} (l : list A) i j s :
  0 ≤ i ≤ j → j ≤ Z.of_nat (length l) →
  run (slice l i j) s = Ok (s, take (Z.to_nat (j - i)) (drop (Z.to_nat i) l)).
Proof.
  intros. unfold slice. rewrite !(proj2 (Z.leb_le _ _)) by lia. done.
Qed.

Lemma run_copy_into {A} (l src : list A) i j s :
  0 ≤ i ≤ j → j ≤ Z.of_nat (length l) → Z.of_nat (length src) = j - i →
  run (copy_into l i j src) s = Ok (s, take (Z.to_nat i) l ++ src ++ drop (Z.to_nat j) l).
Proof.
  intros. unfold copy_into. rewrite !(proj2 (Z.leb_le _ _)) by lia. simpl.
  by rewrite (proj2 (Z.eqb_eq _ _)).
Qed.

Lemma run_assert (b : bool) s : b = true → run (assert_ b) s = Ok (s, tt).
Proof. by intros ->. Qed.

Lemma run_assert_false (b : bool) s : b = false → run (assert_ b) s = Err AssertFailed.
Proof. by intros ->. Qed.

Lemma run_unwrap {A} (a : A) s : run (unwrap (Some a)) s = Ok (s, a).
Proof. done. Qed.

(** [read]: the closure runs with the block held. *)
Lemma run_read {T A} `{Pod T} bid off (f : T → prog A) s b t d' e' a :
  free s bid → Disk.disk s !! bid = Some b → get_ref off b = Ok t →
  run (f t) (hold bid s) = Ok (Disk.mkState d' (bid :: Disk.held s) e', a) →
  run (read_cache bid off f) s = Ok (Disk.mkState d' (Disk.held s) e', a).
Proof.
  intros Hf Hb Ht Hr. simpl. unfold mbind, M_bind.
  by rewrite (acquire_ok _ _ b), Ht, Hr.
Qed.

Lemma run_modify {T A} `{Pod T} bid off (f : T → prog (T * A)) s b t d' e' t' a :
  free s bid → Disk.disk s !! bid = Some b → get_ref off b = Ok t →
  run (f t) (hold bid s) = Ok (Disk.mkState d' (bid :: Disk.held s) e', (t', a)) →
  run (modify_cache bid off f) s =
    Ok (Disk.mkState (<[bid := put_back off b t']> d') (Disk.held s) e', a).
Proof.
  intros Hf Hb Ht Hr. simpl. unfold mbind, M_bind.
  by rewrite (acquire_ok _ _ b), Ht, Hr.
Qed.

Lemma run_read_err {T A} `{Pod T} bid off (f : T → prog A) s b t e :
  free s bid → Disk.disk s !! bid = Some b → get_ref off b = Ok t →
  run (f t) (hold bid s) = Err e → run (read_cache bid off f) s = Err e.
Proof.
  intros Hf Hb Ht Hr. simpl. unfold mbind, M_bind.
  by rewrite (acquire_ok _ _ b), Ht, Hr.
Qed.

Lemma run_modify_err {T A} `{Pod T} bid off (f : T → prog (T * A)) s b t e :
  free s bid → Disk.disk s !! bid = Some b → get_ref off b = Ok t →
  run (f t) (hold bid s) = Err e → run (modify_cache bid off f) s = Err e.
Proof.
  intros Hf Hb Ht Hr. simpl. unfold mbind, M_bind.
  by rewrite (acquire_ok _ _ b), Ht, Hr.
Qed.

(** A block the device does not have. *)
Lemma run_read_absent {T A} `{Pod T} bid off (f : T → prog A) s :
  free s bid → Disk.disk s !! bid = None → run (read_cache bid off f) s = Err fl.
Proof.
  intros [Hn Hl] Hb. simpl. unfold mbind, M_bind, Disk.acquire.
  rewrite bool_decide_false by done. rewrite bool_decide_false by lia. by rewrite Hb.
Qed.

Lemma run_modify_absent {T A} `{Pod T} bid off (f : T → prog (T * A)) s :
  free s bid → Disk.disk s !! bid = None → run (modify_cache bid off f) s = Err fl.
Proof.
  intros [Hn Hl] Hb. simpl. unfold mbind, M_bind, Disk.acquire.
  rewrite bool_decide_false by done. rewrite bool_decide_false by lia. by rewrite Hb.
Qed.

(** Closures that do not use the cache themselves. *)
Lemma run_read_pure {T A} `{Pod T} bid off (f : T → prog A) s b t a :
  free s bid → Disk.disk s !! bid = Some b → get_ref off b = Ok t →
  run (f t) (hold bid s) = Ok (hold bid s, a) →
  run (read_cache bid off f) s = Ok (s, a).
Proof.
  intros Hf Hb Ht Hr. by erewrite run_read by done; destruct s.
Qed.

Lemma run_modify_pure {T A} `{Pod T} bid off (f : T → prog (T * A)) s b t t' a :
  free s bid → Disk.disk s !! bid = Some b → get_ref off b = Ok t →
  run (f t) (hold bid s) = Ok (hold bid s, (t', a)) →
  run (modify_cache bid off f) s = Ok (upd bid (put_back off b t') s, a).
Proof.
  intros Hf Hb Ht Hr. by erewrite run_modify by done; destruct s.
Qed.

Lemma run_with_fs {A} (p : prog A) s d' a :
  Disk.efs_held s = false →
  run p (Disk.mkState (Disk.disk s) (Disk.held s) true) = Ok (Disk.mkState d' (Disk.held s) true, a) →
  run (with_fs p) s = Ok (Disk.mkState d' (Disk.held s) false, a).
Proof. intros He Hp. simpl. by rewrite He, Hp. Qed.

Lemma run_sync s : Disk.held s = [] → run block_cache_sync_all s = Ok (s, tt).
Proof. intros Hh. simpl. by rewrite bool_decide_true. Qed.
End run.

(** ** Whole-block views *)

(** The block [b] as an array of 128 block numbers, and back. *)
Definition words32 (b : block) : list Z := le_words 4 128 b.
Definition words64 (b : block) : list Z := le_words 8 64 b.

Lemma get_ref_whole {T} `{Pod T} b t :
  pod_size T = 512%nat → length b = 512%nat → load b = Some t → get_ref 0 b = Ok t.
Proof.
  intros Hp Hb Hl. apply get_ref_ok; [done|unfold size_of; lia|].
  unfold view_bytes. rewrite Hp, drop_0, take_ge by lia. done.
Qed.

Lemma put_back_whole {T} `{Pod T} b (t : T) :
  pod_size T = 512%nat → length b = 512%nat → length (enc t) = 512%nat → put_back 0 b t = enc t.
Proof.
  intros Hp Hb He. unfold put_back, view_bytes. rewrite Hp. change (Z.to_nat 0) with 0%nat.
  rewrite take_0, drop_0, (take_ge b), overlay_full, drop_ge, app_nil_r by lia. done.
Qed.

Lemma get_ref_indirect b :
  length b = 512%nat → get_ref 0 b = Ok (mkIndirectBlock (words32 b)).
Proof. intros. by apply get_ref_whole. Qed.
Lemma get_ref_bitmap b :
  length b = 512%nat → get_ref 0 b = Ok (mkBitmapBlock (words64 b)).
Proof. intros. by apply get_ref_whole. Qed.
Lemma get_ref_data b :
  length b = 512%nat → get_ref 0 b = Ok (mkDataBlock b).
Proof. intros. by apply get_ref_whole. Qed.

Lemma put_back_indirect b ws :
  length b = 512%nat → length ws = 128%nat → put_back 0 b (mkIndirectBlock ws) = le_bytes 4 ws.
Proof.
  intros. rewrite put_back_whole; [done..|]. simpl. rewrite length_le_bytes. lia.
Qed.
Lemma put_back_bitmap b ws :
  length b = 512%nat → length ws = 64%nat → put_back 0 b (mkBitmapBlock ws) = le_bytes 8 ws.
Proof.
  intros. rewrite put_back_whole; [done..|]. simpl. rewrite length_le_bytes. lia.
Qed.
Lemma put_back_data b b' :
  length b = 512%nat → length b' = 512%nat → put_back 0 b (mkDataBlock b') = b'.
Proof. intros. by rewrite put_back_whole. Qed.

Lemma words32_bytes ws : fits_block 4 128 ws → words32 (le_bytes 4 ws) = ws.
Proof.
  intros [Hl Hf]. unfold words32. rewrite <-Hl, <-(app_nil_r (le_bytes 4 ws)). by apply le_words_bytes.
Qed.
Lemma words64_bytes ws : fits_block 8 64 ws → words64 (le_bytes 8 ws) = ws.
Proof.
  intros [Hl Hf]. unfold words64. rewrite <-Hl, <-(app_nil_r (le_bytes 8 ws)). by apply le_words_bytes.
Qed.
Lemma words32_fit b : fits_block 4 128 (words32 b).
Proof. split; [apply length_le_words|apply le_words_fit]. Qed.
Lemma words64_fit b : fits_block 8 64 (words64 b).
Proof. split; [apply length_le_words|apply le_words_fit]. Qed.
Lemma bytes_words32 b : length b = 512%nat → le_bytes 4 (words32 b) = b.
Proof. intros. by apply le_bytes_words. Qed.
Lemma bytes_words64 b : length b = 512%nat → le_bytes 8 (words64 b) = b.
Proof. intros. by apply le_bytes_words. Qed.

(** ** Loops on the abstract disk *)
Section loops.
Context (fl : fault).
Notation run p := (Disk.arun fl p).

Lemma run_while {X} (I : X → Disk.state → Prop) (meas : X → nat)
    (cond : X → bool) (body : X → prog X) fuel x s :
  (∀ x s, I x s → cond x = true →
     ∃ x' s', run (body x) s = Ok (s', x') ∧ I x' s' ∧ (meas x' < meas x)%nat) →
  I x s → (meas x ≤ fuel)%nat →
  ∃ x' s', run (while_ fuel cond body x) s = Ok (s', x') ∧ I x' s' ∧ cond x' = false.
Proof.
  intros Hstep. revert x s. induction fuel as [|fuel IH]; intros x s HI Hm; cbn [while_];
    destruct (cond x) eqn:Hc; try (exists x, s; by rewrite run_ret).
  - destruct (Hstep x s HI Hc) as (x' & s' & _ & _ & ?). lia.
  - destruct (Hstep x s HI Hc) as (x' & s' & Hr & HI' & Hm').
    destruct (IH x' s' HI') as (x2 & s2 & Hr2 & ?); [lia|].
    exists x2, s2. by erewrite run_bind_ok by exact Hr.
Qed.

Lemma run_for {A X} (I : list A → X → Disk.state → Prop) (f : X → A → prog X) l x s :
  (∀ pre a post x s, l = pre ++ a :: post → I pre x s →
     ∃ x' s', run (f x a) s = Ok (s', x') ∧ I (pre ++ [a]) x' s') →
  I [] x s → ∃ x' s', run (for_ l f x) s = Ok (s', x') ∧ I l x' s'.
Proof.
  intros Hstep HI. revert HI. assert (l = [] ++ l) as Hl by done. revert Hl.
  generalize (@nil A) as pre. generalize l at 2 3 as k.
  intros k. revert x s. induction k as [|a k IH]; intros x s pre Hl HI; cbn [for_].
  - exists x, s. rewrite app_nil_r in Hl. by subst.
  - destruct (Hstep pre a k x s Hl HI) as (x' & s' & Hr & HI').
    destruct (IH x' s' (pre ++ [a])) as (x2 & s2 & Hr2 & HI2); [by rewrite <-app_assoc|done|].
    exists x2, s2. by erewrite run_bind_ok by exact Hr.
Qed.

(** A loop that only collects: [f] pushes [g a] for each [a]. *)
Lemma run_for_push {A B} (f : list B → A → prog (list B)) (g : A → list B) l v s :
  (∀ a v, a ∈ l → run (f v a) s = Ok (s, v ++ g a)) →
  run (for_ l f v) s = Ok (s, v ++ concat (map g l)).
Proof.
  revert v. induction l as [|a l IH]; intros v Hf; cbn [for_ map concat].
  - by rewrite run_ret, app_nil_r.
  - erewrite run_bind_ok by (apply Hf; left). rewrite IH by (intros; apply Hf; by right).
    by rewrite <-app_assoc.
Qed.
End loops.

(** Reading or rewriting an index block. *)
Lemma run_read_indirect {A} fl bid (f : IndirectBlock → prog A) s blk a :
  free s bid → Disk.disk s !! bid = Some blk → length blk = 512%nat →
  Disk.arun fl (f (mkIndirectBlock (words32 blk))) (hold bid s) = Ok (hold bid s, a) →
  Disk.arun fl (read_cache bid 0 f) s = Ok (s, a).
Proof. intros. eapply run_read_pure; [done..| |done]. by apply get_ref_indirect. Qed.

Lemma run_modify_indirect {A} fl bid (f : IndirectBlock → prog (IndirectBlock * A)) s blk ws' a :
  free s bid → Disk.disk s !! bid = Some blk → length blk = 512%nat → length ws' = 128%nat →
  Disk.arun fl (f (mkIndirectBlock (words32 blk))) (hold bid s) =
    Ok (hold bid s, (mkIndirectBlock ws', a)) →
  Disk.arun fl (modify_cache bid 0 f) s = Ok (upd bid (le_bytes 4 ws') s, a).
Proof.
  intros Hf Hb Hl Hw Hr. rewrite <-(put_back_indirect blk ws') by done.
  eapply run_modify_pure; [done..| |done]. by apply get_ref_indirect.
Qed.
