(* ===== verification/Bitmap.v ===== *)
(** * Allocation bitmaps ([easy-fs/src/bitmap.rs])

    A bitmap is a run of blocks, each an array of 64 words of 64 bits; bit [i]
    says whether object [i] is allocated.  [alloc] takes the first clear bit,
    [dealloc] clears a bit that must be set.  The theorems state both against
    the abstract bit vector [bit_at]. *)

From S2P Require Import Prelude Bytes BlockCache Layout DiskLib.

(** Number of bits in a block *)
Definition BLOCK_BITS : Z := BLOCK_SZ * 8.

Record Bitmap := mkBitmap { start_block_id : Z; blocks : Z }.

(** Decompose bits into (block_pos, bits64_pos, inner_pos) *)
Definition decomposition (bit : Z) : Z * Z * Z :=
  let block_pos := bit / BLOCK_BITS in
  let bit := bit mod BLOCK_BITS in
  (block_pos, bit / 64, bit mod 64).

(** [u64::trailing_ones] *)
Fixpoint pos_ones (p : positive) : nat :=
  match p with xI q => S (pos_ones q) | xO _ => 0 | xH => 1 end.
Definition trailing_ones (z : Z) : Z :=
  match z with Zpos p => Z.of_nat (pos_ones p) | _ => 0 end.

Definition U64_MAX : Z := 2 ^ 64 - 1.

(** The closure of [alloc] on one block. *)
Definition alloc_in_block (block_id : Z) (bitmap_block : BitmapBlock) : prog (BitmapBlock * option Z) :=
  match find_idx (λ w, negb (w =? U64_MAX)) (bits64 bitmap_block) with
  | Some (bits64_pos, w) =>
      let bits64_pos := Z.of_nat bits64_pos in
      let inner_pos := trailing_ones w in
      ws ← set_index (bits64 bitmap_block) bits64_pos (Z.lor w (wrap64 (Z.shiftl 1 inner_pos)));
      mret (mkBitmapBlock ws, Some (wrap64 (block_id * BLOCK_BITS + bits64_pos * 64 + inner_pos)))
  | None => mret (bitmap_block, None)
  end.

(** Allocate a new block from a block device *)
Definition alloc (bm : Bitmap) : prog (option Z) :=
  for_find (range 0 (blocks bm)) (λ block_id,
    modify_cache (wrap64 (block_id + start_block_id bm)) 0 (alloc_in_block block_id)).

(** Deallocate a block *)
Definition dealloc (bm : Bitmap) (bit : Z) : prog unit :=
  let '(block_pos, bits64_pos, inner_pos) := decomposition bit in
  modify_cache (wrap64 (block_pos + start_block_id bm)) 0 (λ bitmap_block : BitmapBlock,
    w ← index (bits64 bitmap_block) bits64_pos;
    assert_ (0 <? Z.land w (wrap64 (Z.shiftl 1 inner_pos)));;
    ws ← set_index (bits64 bitmap_block) bits64_pos (wrap64 (w - wrap64 (Z.shiftl 1 inner_pos)));
    mret (mkBitmapBlock ws, tt)).

(** Get the max number of allocatable blocks *)
Definition maximum (bm : Bitmap) : Z := wrap64 (blocks bm * BLOCK_BITS).

(** ** Bits of a word *)

Lemma pos_ones_testbit p i :
  (i < pos_ones p)%nat → Z.testbit (Zpos p) (Z.of_nat i) = true.
Proof.
  revert i. induction p as [p IH|p IH|]; intros i Hi; simpl in Hi; [|lia|].
  - destruct i as [|i]; [done|]. rewrite Nat2Z.inj_succ, Pos2Z.inj_xI.
    rewrite Z.testbit_odd_succ by lia. apply IH. lia.
  - by replace i with 0%nat by lia.
Qed.

Lemma pos_ones_clear p : Z.testbit (Zpos p) (Z.of_nat (pos_ones p)) = false.
Proof.
  induction p as [p IH|p IH|]; simpl pos_ones; [|done|done].
  rewrite Nat2Z.inj_succ, Pos2Z.inj_xI. by rewrite Z.testbit_odd_succ by lia.
Qed.

Lemma trailing_ones_nonneg w : 0 ≤ trailing_ones w.
Proof. destruct w; simpl; lia. Qed.

Lemma trailing_ones_set w i : 0 ≤ i < trailing_ones w → Z.testbit w i = true.
Proof.
  destruct w as [|p|p]; simpl; [lia| |lia]. intros Hi.
  rewrite <-(Z2Nat.id i) by lia. apply pos_ones_testbit. lia.
Qed.

Lemma trailing_ones_clear w : 0 ≤ w → Z.testbit w (trailing_ones w) = false.
Proof. destruct w as [|p|p]; simpl; [done|intros _; apply pos_ones_clear|lia]. Qed.

(** A 64-bit word other than all ones has a clear bit among its 64. *)
Lemma trailing_ones_lt w : 0 ≤ w < 2 ^ 64 → w ≠ U64_MAX → trailing_ones w < 64.
Proof.
  intros Hw Hne. destruct (Z.lt_ge_cases (trailing_ones w) 64) as [|Hge]; [done|].
  exfalso. apply Hne. change U64_MAX with (Z.ones 64). apply Z.bits_inj'. intros i Hi.
  destruct (Z.lt_ge_cases i 64).
  - rewrite trailing_ones_set, Z.ones_spec_low by lia. done.
  - rewrite Z.ones_spec_high by lia.
    destruct (decide (w = 0)) as [->|]; [by rewrite Z.bits_0|].
    apply Z.bits_above_log2; [lia|]. apply Z.log2_lt_pow2; [lia|].
    eapply Z.lt_le_trans; [apply Hw|]. by apply Z.pow_le_mono_r.
Qed.

Lemma shiftl_1 i : 0 ≤ i < 64 → wrap64 (Z.shiftl 1 i) = 2 ^ i.
Proof.
  intros. rewrite Z.shiftl_1_l. apply wrap64_small. split; [lia|]. apply Z.pow_lt_mono_r; lia.
Qed.

Lemma testbit_setbit w i j : 0 ≤ i → Z.testbit (Z.lor w (2 ^ i)) j = (i =? j) || Z.testbit w j.
Proof.
  intros. rewrite Z.lor_spec, Z.pow2_bits_eqb by done. by rewrite orb_comm.
Qed.

Lemma testbit_sub_bit w i j :
  0 ≤ i → Z.testbit w i = true → Z.testbit (w - 2 ^ i) j = negb (i =? j) && Z.testbit w j.
Proof.
  intros Hi Hw. rewrite Z.sub_nocarry_ldiff.
  - rewrite Z.ldiff_spec, Z.pow2_bits_eqb by done. by rewrite andb_comm.
  - apply Z.bits_inj'. intros k Hk. rewrite Z.ldiff_spec, Z.pow2_bits_eqb, Z.bits_0 by done.
    destruct (Z.eqb_spec i k) as [->|]; [by rewrite Hw|done].
Qed.

Lemma lor_u64 a b : is_u64 a → is_u64 b → is_u64 (Z.lor a b).
Proof.
  intros Ha Hb. split; [apply Z.lor_nonneg; unfold is_u64 in *; lia|].
  destruct (decide (Z.lor a b = 0)) as [->|Hne]; [lia|].
  assert (0 ≤ Z.lor a b) by (apply Z.lor_nonneg; unfold is_u64 in *; lia).
  apply Z.log2_lt_pow2; [lia|]. rewrite Z.log2_lor by (unfold is_u64 in *; lia).
  assert (∀ x, is_u64 x → Z.log2 x < 64) as Hlog.
  { intros x [? ?]. destruct (decide (x = 0)) as [->|]; [done|]. apply Z.log2_lt_pow2; lia. }
  apply Z.max_lub_lt; auto.
Qed.

Lemma land_bit_pos w i : 0 ≤ i → 0 <? Z.land w (2 ^ i) = Z.testbit w i.
Proof.
  intros Hi. destruct (Z.testbit w i) eqn:Hb.
  - replace (Z.land w (2 ^ i)) with (2 ^ i); [apply Z.ltb_lt; lia|].
    apply Z.bits_inj'. intros k Hk. rewrite Z.land_spec, Z.pow2_bits_eqb by done.
    destruct (Z.eqb_spec i k) as [->|]; [by rewrite Hb|by rewrite andb_false_r].
  - replace (Z.land w (2 ^ i)) with 0; [done|].
    apply Z.bits_inj'. intros k Hk. rewrite Z.land_spec, Z.pow2_bits_eqb, Z.bits_0 by done.
    destruct (Z.eqb_spec i k) as [->|]; [by rewrite Hb|by rewrite andb_false_r].
Qed.

(** ** The abstract bit vector *)

(** Bit [j] of an array of words. *)
Definition wbit (ws : list Z) (j : Z) : bool :=
  Z.testbit (ws !!! Z.to_nat (j / 64)) (j mod 64).

(** Bit [i] of the bitmap on disk [d]. *)
Definition bit_at (d : gmap Z block) (bm : Bitmap) (i : Z) : bool :=
  match d !! (i / BLOCK_BITS + start_block_id bm) with
  | Some b => wbit (words64 b) (i mod BLOCK_BITS)
  | None => false
  end.

(** The bitmap's blocks exist, can be taken, and its numbers fit in a [usize]. *)
Record bitmap_ok (s : Disk.state) (bm : Bitmap) : Prop := {
  bm_start : 0 ≤ start_block_id bm < 2 ^ 32;
  bm_blocks : 0 ≤ blocks bm < 2 ^ 32;
  bm_disk : disk_ok (Disk.disk s);
  bm_block : ∀ k, 0 ≤ k < blocks bm →
    free s (k + start_block_id bm) ∧ is_Some (Disk.disk s !! (k + start_block_id bm));
}.

Lemma bitmap_ok_max s bm : bitmap_ok s bm → maximum bm = blocks bm * BLOCK_BITS.
Proof.
  intros [? ? ? ?]. unfold maximum, BLOCK_BITS, BLOCK_SZ. apply wrap64_small. unfold is_u64. lia.
Qed.

Section words.
Implicit Types ws : list Z.

Lemma wbit_insert ws n w j :
  (n < length ws)%nat → 0 ≤ j →
  wbit (<[n := w]> ws) j =
    if Z.of_nat n =? j / 64 then Z.testbit w (j mod 64) else wbit ws j.
Proof.
  intros Hn Hj. unfold wbit. destruct (Z.eqb_spec (Z.of_nat n) (j / 64)) as [He|Hne].
  - rewrite <-He, Nat2Z.id. by rewrite list_lookup_total_insert_eq.
  - rewrite list_lookup_total_insert_ne; [done|]. pose proof (Z.div_pos j 64). lia.
Qed.

Lemma wbit_lookup ws n w j :
  ws !! n = Some w → Z.of_nat n = j / 64 → wbit ws j = Z.testbit w (j mod 64).
Proof.
  intros Hw He. unfold wbit. rewrite <-He, Nat2Z.id. by rewrite (list_lookup_total_correct _ _ _ Hw).
Qed.

Lemma testbit_max i : 0 ≤ i < 64 → Z.testbit U64_MAX i = true.
Proof. intros. change U64_MAX with (Z.ones 64). by apply Z.ones_spec_low. Qed.

Lemma fits_block_insert w n ws i x :
  fits_block w n ws → fits w x → fits_block w n (<[i := x]> ws).
Proof.
  intros [Hl Hf] Hx. split; [by rewrite length_insert|]. by apply Forall_insert.
Qed.

(** The first clear bit of an array of words that is not all ones. *)
Lemma first_clear ws n w :
  fits_block 8 64 ws → find_idx (λ w, negb (w =? U64_MAX)) ws = Some (n, w) →
  let i := Z.of_nat n * 64 + trailing_ones w in
  0 ≤ i < 4096 ∧ 0 ≤ trailing_ones w < 64 ∧ (n < 64)%nat ∧ ws !! n = Some w ∧ is_u64 w ∧
  wbit ws i = false ∧ (∀ j, 0 ≤ j < i → wbit ws j = true).
Proof.
  intros [Hl Hf] (Hn & Hw & Hmin)%find_idx_Some i.
  apply negb_true_iff, Z.eqb_neq in Hw.
  assert (is_u64 w) as Hw64 by apply (Forall_lookup_1 _ _ _ _ Hf Hn).
  pose proof (trailing_ones_lt w Hw64 Hw). pose proof (trailing_ones_nonneg w).
  apply lookup_lt_Some in Hn as Hlt. rewrite Hl in Hlt.
  assert (i / 64 = Z.of_nat n) as Hdiv.
  { unfold i. rewrite Z.div_add_l, Z.div_small by lia. lia. }
  assert (i mod 64 = trailing_ones w) as Hmod.
  { unfold i. rewrite Z.add_comm, Z.mod_add, Z.mod_small by lia. done. }
  split_and!; try (unfold i; lia); try done; try apply Hw64.
  - rewrite (wbit_lookup ws n w) by done. rewrite Hmod. apply trailing_ones_clear, Hw64.
  - intros j Hj. pose proof (Z.div_pos j 64 ltac:(lia) ltac:(lia)).
    pose proof (Z.mod_pos_bound j 64 ltac:(lia)).
    pose proof (Z.div_mod j 64 ltac:(lia)).
    destruct (lookup_lt_is_Some_2 ws (Z.to_nat (j / 64))) as [v Hv]; [lia|].
    rewrite (wbit_lookup ws _ v j Hv) by lia.
    destruct (decide (j / 64 = Z.of_nat n)) as [He|Hne].
    + rewrite He, Nat2Z.id in Hv. replace v with w by congruence.
      apply trailing_ones_set. lia.
    + apply (Hmin (Z.to_nat (j / 64)) v) in Hv; [|lia].
      apply negb_false_iff, Z.eqb_eq in Hv as ->. by apply testbit_max.
Qed.

Lemma no_clear ws :
  fits_block 8 64 ws → find_idx (λ w, negb (w =? U64_MAX)) ws = None →
  ∀ j, 0 ≤ j < 4096 → wbit ws j = true.
Proof.
  intros [Hl Hf] Hnone j Hj.
  pose proof (Z.div_pos j 64 ltac:(lia) ltac:(lia)). pose proof (Z.mod_pos_bound j 64 ltac:(lia)).
  destruct (lookup_lt_is_Some_2 ws (Z.to_nat (j / 64))) as [v Hv].
  { rewrite Hl. pose proof (Z.div_lt_upper_bound j 64 64). lia. }
  rewrite (wbit_lookup ws _ v j Hv) by lia.
  apply list_elem_of_lookup_2 in Hv. apply (proj1 (find_idx_None _ _) Hnone) in Hv.
  apply negb_false_iff, Z.eqb_eq in Hv as ->. by apply testbit_max.
Qed.
End words.

Lemma bit_at_insert d bm k b' j :
  0 ≤ j →
  bit_at (<[k + start_block_id bm := b']> d) bm j =
    if k =? j / BLOCK_BITS then wbit (words64 b') (j mod BLOCK_BITS) else bit_at d bm j.
Proof.
  intros Hj. unfold bit_at. destruct (Z.eqb_spec k (j / BLOCK_BITS)) as [->|Hne].
  - by rewrite lookup_insert_eq.
  - by rewrite lookup_insert_ne by lia.
Qed.

Lemma bit_at_block d bm k b i :
  d !! (k + start_block_id bm) = Some b → 0 ≤ i < BLOCK_BITS →
  bit_at d bm (k * BLOCK_BITS + i) = wbit (words64 b) i.
Proof.
  intros Hb Hi. unfold bit_at, BLOCK_BITS, BLOCK_SZ in *.
  rewrite Z.div_add_l, Z.div_small, Z.add_0_r by lia.
  rewrite Hb, Z.add_comm, Z.mod_add, Z.mod_small by lia. done.
Qed.

Lemma split_bit j : j = j / BLOCK_BITS * BLOCK_BITS + j mod BLOCK_BITS ∧ 0 ≤ j mod BLOCK_BITS < BLOCK_BITS.
Proof.
  unfold BLOCK_BITS, BLOCK_SZ. pose proof (Z.div_mod j (512 * 8) ltac:(lia)).
  pose proof (Z.mod_pos_bound j (512 * 8) ltac:(lia)). lia.
Qed.

Section spec.
Context (fl : fault).
Notation run p := (Disk.arun fl p).

(** What [alloc] answers on the bit vector [f] of [n] bits: the first clear
    bit, if there is one. *)
Definition first_free (f : Z → bool) (n : Z) (r : option Z) : Prop :=
  match r with
  | Some i => 0 ≤ i < n ∧ f i = false ∧ ∀ j, 0 ≤ j < i → f j = true
  | None => ∀ j, 0 ≤ j < n → f j = true
  end.

Lemma run_alloc_block s k a b :
  free s a → 0 ≤ a < 2 ^ 64 → Disk.disk s !! a = Some b → length b = 512%nat → 0 ≤ k < 2 ^ 32 →
  (run (modify_cache (wrap64 a) 0 (alloc_in_block k)) s = Ok (s, None) ∧
     first_free (wbit (words64 b)) BLOCK_BITS None) ∨
  (∃ i b', run (modify_cache (wrap64 a) 0 (alloc_in_block k)) s =
             Ok (upd a b' s, Some (k * BLOCK_BITS + i)) ∧
     first_free (wbit (words64 b)) BLOCK_BITS (Some i) ∧ length b' = 512%nat ∧
     ∀ j, 0 ≤ j < BLOCK_BITS → wbit (words64 b') j = (i =? j) || wbit (words64 b) j).
Proof.
  intros Hfree Ha Hb Hlb Hk. rewrite wrap64_small by done.
  pose proof (words64_fit b) as Hfit. pose proof (get_ref_bitmap b Hlb) as Href.
  destruct (find_idx (λ w, negb (w =? U64_MAX)) (words64 b)) as [[n w]|] eqn:Hfind.
  - right. destruct (first_clear _ _ _ Hfit Hfind) as (Hi & Ht & Hn & Hw & Hw64 & Hclear & Hset).
    set (i := Z.of_nat n * 64 + trailing_ones w) in *.
    set (ws' := <[n := Z.lor w (2 ^ trailing_ones w)]> (words64 b)).
    assert (fits_block 8 64 ws') as Hfit'.
    { apply fits_block_insert; [done|]. apply lor_u64; [done|]. split; [lia|].
      apply Z.pow_lt_mono_r; lia. }
    exists i, (le_bytes 8 ws'). split_and!.
    + rewrite <-(put_back_bitmap b ws') by (done || apply Hfit').
      eapply run_modify_pure; [done..|]. unfold alloc_in_block. cbn [bits64]. rewrite Hfind.
      rewrite shiftl_1 by lia. destruct Hfit as [Hl _].
      erewrite run_bind_ok by (apply run_set_index; lia). rewrite run_ret.
      rewrite Nat2Z.id. unfold i. rewrite wrap64_small, Z.add_assoc; [done|].
      unfold is_u64, BLOCK_BITS, BLOCK_SZ. lia.
    + unfold first_free, BLOCK_BITS, BLOCK_SZ. split_and!; [lia|lia|done|done].
    + rewrite length_le_bytes. destruct Hfit' as [-> _]. done.
    + intros j Hj. rewrite words64_bytes by done. unfold ws'.
      rewrite wbit_insert by (destruct Hfit; lia).
      destruct (Z.eqb_spec (Z.of_nat n) (j / 64)) as [He|Hne].
      * rewrite testbit_setbit by lia. rewrite (wbit_lookup _ n w j) by done.
        f_equal. pose proof (Z.div_mod j 64 ltac:(lia)).
        destruct (Z.eqb_spec (trailing_ones w) (j mod 64)), (Z.eqb_spec i j); unfold i in *; lia.
      * destruct (Z.eqb_spec i j) as [<-|]; [|done]. exfalso. apply Hne. unfold i.
        rewrite Z.div_add_l, Z.div_small by lia. lia.
  - left. split.
    + rewrite <-(set_disk_id s) at 2.
      assert (set_disk (Disk.disk s) s = upd a (put_back 0 b (mkBitmapBlock (words64 b))) s) as ->.
      { rewrite put_back_bitmap by (done || apply Hfit). rewrite bytes_words64 by done.
        unfold upd, set_disk. by rewrite insert_id. }
      eapply run_modify_pure; [done..|]. unfold alloc_in_block. cbn [bits64]. by rewrite Hfind.
    + unfold first_free. by apply no_clear.
Qed.

Lemma alloc_loop s bm lo :
  bitmap_ok s bm → 0 ≤ lo ≤ blocks bm →
  (∀ j, 0 ≤ j < lo * BLOCK_BITS → bit_at (Disk.disk s) bm j = true) →
  ∃ s' r, run (for_find (range lo (blocks bm)) (λ block_id,
                modify_cache (wrap64 (block_id + start_block_id bm)) 0 (alloc_in_block block_id))) s
            = Ok (s', r) ∧
    first_free (bit_at (Disk.disk s) bm) (blocks bm * BLOCK_BITS) r ∧
    match r with
    | None => s' = s
    | Some i => (∃ b', length b' = 512%nat ∧ s' = upd (i / BLOCK_BITS + start_block_id bm) b' s) ∧
        ∀ j, 0 ≤ j < blocks bm * BLOCK_BITS →
          bit_at (Disk.disk s') bm j = (i =? j) || bit_at (Disk.disk s) bm j
    end.
Proof.
  intros Hok. remember (Z.to_nat (blocks bm - lo)) as m eqn:Hm.
  revert lo Hm. induction m as [|m IH]; intros lo Hm Hlo Hprev.
  { rewrite range_nil by lia. exists s, None. split_and!; [done| |done].
    replace (blocks bm) with lo by lia. done. }
  pose proof Hok as [Hst Hbl Hd Hblk].
  rewrite range_cons by lia. cbn [for_find].
  destruct (Hblk lo ltac:(lia)) as [Hfree [b Hb]].
  pose proof (disk_ok_lookup _ _ _ Hd Hb) as Hlb.
  destruct (run_alloc_block s lo (lo + start_block_id bm) b) as [[Hr Hall]|(i & b' & Hr & Hff & Hlb' & Hbits)];
    [done|lia|done..|lia| |].
  - rewrite (run_bind_ok _ _ _ _ _ _ Hr). apply IH; [lia|lia|].
    intros j Hj. destruct (split_bit j) as [Hsplit Hmod].
    destruct (Z.lt_ge_cases j (lo * BLOCK_BITS)); [apply Hprev; lia|].
    assert (j / BLOCK_BITS = lo) as Hq.
    { unfold BLOCK_BITS, BLOCK_SZ in *. symmetry. apply Z.div_unique with (j - lo * 4096); lia. }
    rewrite Hsplit, Hq, (bit_at_block _ _ _ b) by done. apply Hall. lia.
  - rewrite (run_bind_ok _ _ _ _ _ _ Hr). eexists _, (Some (lo * BLOCK_BITS + i)).
    destruct Hff as (Hi & Hclear & Hset). split; [done|].
    assert ((lo * BLOCK_BITS + i) / BLOCK_BITS = lo) as Hq.
    { unfold BLOCK_BITS, BLOCK_SZ in *. rewrite Z.div_add_l, Z.div_small by lia. lia. }
    split; [split_and!|split].
    + unfold BLOCK_BITS, BLOCK_SZ in *. lia.
    + unfold BLOCK_BITS, BLOCK_SZ in *. nia.
    + by rewrite (bit_at_block _ _ _ b).
    + intros j Hj. destruct (split_bit j) as [Hsplit Hmod].
      destruct (Z.lt_ge_cases j (lo * BLOCK_BITS)); [apply Hprev; lia|].
      replace j with (lo * BLOCK_BITS + (j - lo * BLOCK_BITS)) by lia.
      rewrite (bit_at_block _ _ _ b) by (done || lia). apply Hset. lia.
    + rewrite Hq. eauto.
    + intros j Hj. cbn. rewrite bit_at_insert by lia. destruct (split_bit j) as [Hsplit Hmod].
      destruct (Z.eqb_spec lo (j / BLOCK_BITS)) as [He|Hne].
      * rewrite Hbits by done. unfold bit_at. rewrite <-He, Hb. f_equal.
        destruct (Z.eqb_spec i (j mod BLOCK_BITS)), (Z.eqb_spec (lo * BLOCK_BITS + i) j); lia.
      * destruct (Z.eqb_spec (lo * BLOCK_BITS + i) j) as [<-|]; [|done]. by rewrite Hq in Hne.
Qed.

Lemma alloc_ok s bm :
  bitmap_ok s bm →
  ∃ s' r, run (alloc bm) s = Ok (s', r) ∧
    first_free (bit_at (Disk.disk s) bm) (maximum bm) r ∧
    match r with
    | None => s' = s
    | Some i => (∃ b', length b' = 512%nat ∧ s' = upd (i / BLOCK_BITS + start_block_id bm) b' s) ∧
        ∀ j, 0 ≤ j < maximum bm →
          bit_at (Disk.disk s') bm j = (i =? j) || bit_at (Disk.disk s) bm j
    end.
Proof.
  intros Hok. rewrite (bitmap_ok_max s) by done. apply alloc_loop; [done| |].
  - destruct Hok. lia.
  - intros j Hj. unfold BLOCK_BITS, BLOCK_SZ in *. lia.
Qed.

(** The closure of [dealloc]: the block after clearing bit [i] of it. *)
Lemma run_dealloc_block s bm i b :
  bitmap_ok s bm → 0 ≤ i < maximum bm →
  Disk.disk s !! (i / BLOCK_BITS + start_block_id bm) = Some b →
  if bit_at (Disk.disk s) bm i
  then ∃ b', run (dealloc bm i) s = Ok (upd (i / BLOCK_BITS + start_block_id bm) b' s, tt) ∧
         length b' = 512%nat ∧
         ∀ j, 0 ≤ j < BLOCK_BITS → wbit (words64 b') j =
           negb (i mod BLOCK_BITS =? j) && wbit (words64 b) j
  else run (dealloc bm i) s = Err AssertFailed.
Proof.
  intros Hok Hi Hb. pose proof Hok as [Hst Hbl Hd Hblk].
  rewrite (bitmap_ok_max s) in Hi by done.
  set (a := i / BLOCK_BITS + start_block_id bm) in *.
  pose proof (disk_ok_lookup _ _ _ Hd Hb) as Hlb.
  destruct (split_bit i) as [Hsplit Hmod].
  assert (0 ≤ i / BLOCK_BITS < blocks bm) as Hblock.
  { unfold BLOCK_BITS, BLOCK_SZ in *. split; [apply Z.div_pos; lia|apply Z.div_lt_upper_bound; lia]. }
  destruct (Hblk _ Hblock) as [Hfree _]. fold a in Hfree.
  pose proof (words64_fit b) as Hfit. destruct Hfit as [Hl Hf].
  set (r := i mod BLOCK_BITS) in *.
  assert (0 ≤ r / 64 < 64) as Hr64.
  { unfold BLOCK_BITS, BLOCK_SZ in *. split; [apply Z.div_pos; lia|apply Z.div_lt_upper_bound; lia]. }
  pose proof (Z.mod_pos_bound r 64 ltac:(lia)) as Hrm.
  destruct (lookup_lt_is_Some_2 (words64 b) (Z.to_nat (r / 64))) as [w Hw]; [lia|].
  assert (is_u64 w) as Hw64 by apply (Forall_lookup_1 _ _ _ _ Hf Hw).
  assert (bit_at (Disk.disk s) bm i = Z.testbit w (r mod 64)) as Hbit.
  { unfold bit_at. fold a. rewrite Hb. fold r. apply (wbit_lookup _ (Z.to_nat (r / 64))); [done|lia]. }
  rewrite Hbit. unfold dealloc, decomposition. fold r.
  change (i / BLOCK_BITS + start_block_id bm) with a.
  rewrite (wrap64_small a) by (unfold is_u64, a; lia).
  rewrite shiftl_1 by lia.
  destruct (Z.testbit w (r mod 64)) eqn:Htb.
  - set (ws' := <[Z.to_nat (r / 64) := w - 2 ^ (r mod 64)]> (words64 b)).
    assert (2 ^ (r mod 64) ≤ w) as Hge.
    { destruct (Z.le_gt_cases (2 ^ (r mod 64)) w) as [|Hlt]; [done|].
      rewrite Z.testbit_true in Htb by lia. rewrite Z.div_small in Htb by (destruct Hw64; lia). done. }
    assert (is_u64 (w - 2 ^ (r mod 64))) as Hw'.
    { destruct Hw64. split; [lia|]. pose proof (Z.pow_pos_nonneg 2 (r mod 64)). lia. }
    assert (fits_block 8 64 ws') as Hfit' by (by apply fits_block_insert).
    exists (le_bytes 8 ws'). split_and!.
    + rewrite <-(put_back_bitmap b ws') by (done || apply Hfit').
      eapply run_modify_pure; [done|done|by apply get_ref_bitmap|].
      cbn [bits64]. erewrite run_bind_ok by (apply run_index; [lia|done]).
      erewrite run_bind_ok by (apply run_assert; by rewrite land_bit_pos by lia).
      erewrite run_bind_ok by (apply run_set_index; lia).
      by rewrite wrap64_small.
    + rewrite length_le_bytes. by destruct Hfit' as [-> _].
    + intros j Hj. rewrite words64_bytes by done. unfold ws'.
      rewrite wbit_insert by lia. rewrite Z2Nat.id by lia.
      destruct (Z.eqb_spec (r / 64) (j / 64)) as [He|Hne].
      * rewrite testbit_sub_bit by (lia || done).
        rewrite (wbit_lookup _ (Z.to_nat (r / 64)) w j) by (done || lia). f_equal. f_equal.
        pose proof (Z.div_mod j 64 ltac:(lia)). pose proof (Z.div_mod r 64 ltac:(lia)).
        destruct (Z.eqb_spec (r mod 64) (j mod 64)), (Z.eqb_spec r j); (done || lia || congruence).
      * destruct (Z.eqb_spec r j) as [<-|]; done.
  - eapply run_modify_err; [done|done|by apply get_ref_bitmap|]. cbn [bits64].
    erewrite run_bind_ok by (apply run_index; [lia|done]).
    apply run_bind_err, run_assert_false. by rewrite land_bit_pos by lia.
Qed.

Lemma dealloc_ok s bm i :
  bitmap_ok s bm → 0 ≤ i < maximum bm →
  if bit_at (Disk.disk s) bm i
  then ∃ b', run (dealloc bm i) s = Ok (upd (i / BLOCK_BITS + start_block_id bm) b' s, tt) ∧
         length b' = 512%nat ∧
         ∀ j, 0 ≤ j < maximum bm →
           bit_at (Disk.disk (upd (i / BLOCK_BITS + start_block_id bm) b' s)) bm j =
             negb (i =? j) && bit_at (Disk.disk s) bm j
  else run (dealloc bm i) s = Err AssertFailed.
Proof.
  intros Hok Hi. assert (∃ b, Disk.disk s !! (i / BLOCK_BITS + start_block_id bm) = Some b) as [b Hb].
  { pose proof (bitmap_ok_max _ _ Hok) as Hmax. destruct Hok as [_ _ _ Hblk].
    destruct (Hblk (i / BLOCK_BITS)) as [_ [b Hb]]; [|eauto].
    unfold BLOCK_BITS, BLOCK_SZ in *. split; [apply Z.div_pos; lia|apply Z.div_lt_upper_bound; lia]. }
  pose proof (run_dealloc_block s bm i b Hok Hi Hb) as Hr.
  destruct (bit_at (Disk.disk s) bm i); [|done].
  destruct Hr as (b' & Hr & Hlb' & Hbits). exists b'. split_and!; [done..|].
  intros j Hj. cbn. rewrite bit_at_insert by lia. destruct (split_bit j) as [Hsj Hmj].
  destruct (split_bit i) as [Hsi Hmi].
  destruct (Z.eqb_spec (i / BLOCK_BITS) (j / BLOCK_BITS)) as [He|Hne].
  - rewrite Hbits by done. unfold bit_at. rewrite <-He, Hb. f_equal. f_equal.
    destruct (Z.eqb_spec (i mod BLOCK_BITS) (j mod BLOCK_BITS)), (Z.eqb_spec i j); (done || lia || congruence).
  - destruct (Z.eqb_spec i j) as [<-|]; done.
Qed.

(** [Bitmap::alloc] takes the first clear bit and sets exactly that bit;
    it answers [None] only when every bit is set, and then changes nothing. *)
Theorem alloc_first_free s bm (Hok : bitmap_ok s bm) :
  ∃ s' r, run (alloc bm) s = Ok (s', r) ∧
    match r with
    | Some i => 0 ≤ i < maximum bm ∧ bit_at (Disk.disk s) bm i = false ∧
        (∀ j, 0 ≤ j < i → bit_at (Disk.disk s) bm j = true) ∧
        (∀ j, 0 ≤ j < maximum bm →
           bit_at (Disk.disk s') bm j = (i =? j) || bit_at (Disk.disk s) bm j) ∧
        (∀ k, k ≠ i / BLOCK_BITS + start_block_id bm → Disk.disk s' !! k = Disk.disk s !! k)
    | None => s' = s ∧ ∀ j, 0 ≤ j < maximum bm → bit_at (Disk.disk s) bm j = true
    end.
Proof.
  destruct (alloc_ok s bm Hok) as (s' & r & Hr & Hff & Hs'). exists s', r. split; [done|].
  destruct r as [i|]; [|done]. destruct Hff as (? & ? & ?), Hs' as [(b' & _ & ->) ?].
  do 4 (split; [done|]). intros k Hk. cbn. by rewrite lookup_insert_ne.
Qed.

(** [Bitmap::dealloc] clears exactly the given bit when it is set, and
    stops on its assertion (a double free) when it is not. *)
Theorem dealloc_clears s bm i (Hok : bitmap_ok s bm) (Hi : 0 ≤ i < maximum bm) :
  if bit_at (Disk.disk s) bm i
  then ∃ s', run (dealloc bm i) s = Ok (s', tt) ∧
         (∀ j, 0 ≤ j < maximum bm →
            bit_at (Disk.disk s') bm j = negb (i =? j) && bit_at (Disk.disk s) bm j) ∧
         (∀ k, k ≠ i / BLOCK_BITS + start_block_id bm → Disk.disk s' !! k = Disk.disk s !! k)
  else run (dealloc bm i) s = Err AssertFailed.
Proof.
  pose proof (dealloc_ok s bm i Hok Hi) as Hd. destruct (bit_at (Disk.disk s) bm i); [|done].
  destruct Hd as (b' & Hr & _ & Hbits). eexists. split; [exact Hr|]. split; [exact Hbits|].
  intros k Hk. cbn. by rewrite lookup_insert_ne.
Qed.
End spec.

(** A one-block bitmap at block 5 with its first three bits set. *)
Definition demo_bitmap : Bitmap := mkBitmap 5 1.
Definition demo_state : Disk.state :=
  Disk.mkState {[5 := le_bytes 8 (7 :: replicate 63 0)]} [] false.

Lemma demo_bitmap_ok : bitmap_ok demo_state demo_bitmap.
Proof.
  split; [done|done| |].
  - apply map_Forall_singleton. vm_compute. done.
  - intros k Hk. replace k with 0 by (cbn in Hk; lia). split.
    + split; [apply not_elem_of_nil|unfold BLOCK_CACHE_SIZE; cbn; lia].
    + eexists. reflexivity.
Qed.

Lemma alloc_first_free_witness :
  ∃ s' r, Disk.arun Panicked (alloc demo_bitmap) demo_state = Ok (s', r) ∧ r = Some 3.
Proof.
  destruct (alloc_first_free Panicked demo_state demo_bitmap demo_bitmap_ok) as (s' & r & Hr & _).
  exists s', r. split; [exact Hr|].
  assert (match Disk.arun Panicked (alloc demo_bitmap) demo_state with
          | Ok (_, r) => r | Err _ => None end = Some 3) as H by (vm_compute; reflexivity).
  rewrite Hr in H. exact H.
Defined.

Lemma dealloc_clears_witness :
  bit_at (Disk.disk demo_state) demo_bitmap 2 = true ∧
  ∃ s', Disk.arun Panicked (dealloc demo_bitmap 2) demo_state = Ok (s', tt) ∧
    bit_at (Disk.disk s') demo_bitmap 2 = false.
Proof.
  assert (0 ≤ 2 < maximum demo_bitmap) as Hi by (vm_compute; split; congruence).
  assert (bit_at (Disk.disk demo_state) demo_bitmap 2 = true) as Hb by (vm_compute; reflexivity).
  split; [exact Hb|].
  pose proof (dealloc_clears Panicked demo_state demo_bitmap 2 demo_bitmap_ok Hi) as H.
  rewrite Hb in H. destruct H as (s' & Hr & Hbits & _). exists s'. split; [exact Hr|].
  rewrite Hbits by exact Hi. reflexivity.
Defined.
