(* ===== verification/DiskInode.v ===== *)
(** * Files as trees of blocks ([DiskInode] in [easy-fs/src/layout.rs])

    An inode names up to 28 data blocks directly, 128 more through one index
    block ([indirect1]) and 128 * 128 more through a two-level index
    ([indirect2]).  The operations are those of the source; the arithmetic on
    [u32] and [usize] wraps where the source's could.

    The blocks of an inode, data and index blocks alike, form one list in the
    order in which they were allocated; [slot] says where the [p]-th of them is
    recorded and [rep] that an inode records the list [L].  Growing appends to
    the list, clearing returns it, [get_block_id] looks it up, and the bytes of
    a file are the concatenation of its data blocks ([file_bytes]). *)

From S2P Require Import Prelude Bytes BlockCache Layout DiskLib.

Local Ltac Zify.zify_post_hook ::= Z.to_euclidean_division_equations.

(** ** Operations *)

(** [DiskInode::_data_blocks] *)
Definition data_blocks_of (sz : Z) : Z := wrap32 (wrap32 (sz + BLOCK_SZ) - 1) / BLOCK_SZ.

(** Get the number of data blocks corresponding to size *)
Definition data_blocks (d : DiskInode) : Z := data_blocks_of (size d).

(** Get the number of data blocks required for the given size of data *)
Definition total_blocks (sz : Z) : Z :=
  let data_blocks := data_blocks_of sz in
  let total := data_blocks in
  let total := if INODE_DIRECT_COUNT <? data_blocks then total + 1 else total in
  let total :=
    if INDIRECT1_BOUND <? data_blocks
    then total + 1 +
      (data_blocks - INDIRECT1_BOUND + INODE_INDIRECT1_COUNT - 1) / INODE_INDIRECT1_COUNT
    else total in
  wrap32 total.

(** Get the number of data blocks that have to be allocated given the new size of data *)
Definition blocks_num_needed (d : DiskInode) (new_size : Z) : prog Z :=
  assert_ (size d <=? new_size);;
  mret (wrap32 (total_blocks new_size - total_blocks (size d))).

(** Get id of block given inner id *)
Definition get_block_id (d : DiskInode) (inner_id : Z) : prog Z :=
  if inner_id <? INODE_DIRECT_COUNT then index (direct d) inner_id
  else if inner_id <? INDIRECT1_BOUND then
    read_cache (indirect1 d) 0 (λ ib : IndirectBlock,
      index (ids ib) (inner_id - INODE_DIRECT_COUNT))
  else
    let last := inner_id - INDIRECT1_BOUND in
    i1 ← read_cache (indirect2 d) 0 (λ ib : IndirectBlock,
           index (ids ib) (last / INODE_INDIRECT1_COUNT));
    read_cache i1 0 (λ ib : IndirectBlock,
      index (ids ib) (last mod INODE_INDIRECT1_COUNT)).

(** [new_blocks.next().unwrap()] on a [vec::IntoIter]. *)
Definition next (it : list Z) : prog (Z * list Z) :=
  match it with
  | x :: it' => mret (x, it')
  | [] => mthrow UnwrapNone
  end.

(** [while current_blocks < bound { arr[current_blocks] = new_blocks.next().unwrap(); .. }],
    the loop that fills [direct] and the first-level index block. *)
Definition fill (fuel : nat) (bound : Z) : Z * list Z * list Z → prog (Z * list Z * list Z) :=
  while_ fuel (λ '(current_blocks, arr, new_blocks), current_blocks <? bound)
    (λ '(current_blocks, arr, new_blocks),
       '(b, new_blocks') ← next new_blocks;
       arr' ← set_index arr current_blocks b;
       mret (current_blocks + 1, arr', new_blocks')).

(** One turn of the loop that fills the two-level index, at [(a0, b0)]. *)
Definition fill2_body (st : Z * Z * list Z * list Z) : prog (Z * Z * list Z * list Z) :=
  let '(a0, b0, indirect2, new_blocks) := st in
  '(indirect2, new_blocks) ←
    (if b0 =? 0 then
       '(b, new_blocks') ← next new_blocks;
       indirect2' ← set_index indirect2 a0 b;
       mret (indirect2', new_blocks')
     else mret (indirect2, new_blocks));
  i1 ← index indirect2 a0;
  new_blocks ← modify_cache i1 0 (λ ib : IndirectBlock,
    '(b, new_blocks') ← next new_blocks;
    ids' ← set_index (ids ib) b0 b;
    mret (mkIndirectBlock ids', new_blocks'));
  let b0 := b0 + 1 in
  if b0 =? INODE_INDIRECT1_COUNT
  then mret (a0 + 1, 0, indirect2, new_blocks)
  else mret (a0, b0, indirect2, new_blocks).

Definition fill2 (fuel : nat) (a1 b1 : Z) :
    Z * Z * list Z * list Z → prog (Z * Z * list Z * list Z) :=
  while_ fuel (λ '(a0, b0, _, _), (a0 <? a1) || ((a0 =? a1) && (b0 <? b1))) fill2_body.

Definition with_direct (dr : list Z) (d : DiskInode) : DiskInode :=
  mkDiskInode (size d) dr (indirect1 d) (indirect2 d) (type_ d).
Definition with_indirect1 (i : Z) (d : DiskInode) : DiskInode :=
  mkDiskInode (size d) (direct d) i (indirect2 d) (type_ d).
Definition with_indirect2 (i : Z) (d : DiskInode) : DiskInode :=
  mkDiskInode (size d) (direct d) (indirect1 d) i (type_ d).
Definition with_size (sz : Z) (d : DiskInode) : DiskInode :=
  mkDiskInode sz (direct d) (indirect1 d) (indirect2 d) (type_ d).

(** Inncrease the size of current disk inode *)
Definition increase_size (new_size : Z) (new_blocks : list Z) (d : DiskInode) : prog DiskInode :=
  let current_blocks := data_blocks d in
  let d := with_size new_size d in
  let total_blocks := data_blocks d in
  (* fill direct *)
  '(current_blocks, dr, new_blocks) ←
    fill (Z.to_nat INODE_DIRECT_COUNT) (Z.min total_blocks INODE_DIRECT_COUNT)
      (current_blocks, direct d, new_blocks);
  let d := with_direct dr d in
  (* alloc indirect1 *)
  if total_blocks <=? INODE_DIRECT_COUNT then mret d else
  '(d, new_blocks) ←
    (if current_blocks =? INODE_DIRECT_COUNT then
       '(b, new_blocks) ← next new_blocks; mret (with_indirect1 b d, new_blocks)
     else mret (d, new_blocks));
  let current_blocks := wrap32 (current_blocks - INODE_DIRECT_COUNT) in
  let total_blocks := total_blocks - INODE_DIRECT_COUNT in
  (* fill indirect1 *)
  '(current_blocks, new_blocks) ←
    modify_cache (indirect1 d) 0 (λ ib : IndirectBlock,
      '(current_blocks, ids', new_blocks) ←
        fill (Z.to_nat INODE_INDIRECT1_COUNT) (Z.min total_blocks INODE_INDIRECT1_COUNT)
          (current_blocks, ids ib, new_blocks);
      mret (mkIndirectBlock ids', (current_blocks, new_blocks)));
  (* alloc indirect2 *)
  if total_blocks <=? INODE_INDIRECT1_COUNT then mret d else
  '(d, new_blocks) ←
    (if current_blocks =? INODE_INDIRECT1_COUNT then
       '(b, new_blocks) ← next new_blocks; mret (with_indirect2 b d, new_blocks)
     else mret (d, new_blocks));
  let current_blocks := wrap32 (current_blocks - INODE_INDIRECT1_COUNT) in
  let total_blocks := total_blocks - INODE_INDIRECT1_COUNT in
  (* fill indirect2 from (a0, b0) -> (a1, b1) *)
  let a0 := current_blocks / INODE_INDIRECT1_COUNT in
  let b0 := current_blocks mod INODE_INDIRECT1_COUNT in
  let a1 := total_blocks / INODE_INDIRECT1_COUNT in
  let b1 := total_blocks mod INODE_INDIRECT1_COUNT in
  (* alloc low-level indirect1 *)
  modify_cache (indirect2 d) 0 (λ ib : IndirectBlock,
    '(_, _, ids', _) ← fill2 (Z.to_nat (total_blocks - current_blocks)) a1 b1
                         (a0, b0, ids ib, new_blocks);
    mret (mkIndirectBlock ids', tt));;
  mret d.

(** [for j in 0..n { v.push(arr[j]) }] *)
Definition push_range (n : Z) (arr : list Z) (v : list Z) : prog (list Z) :=
  for_ (range 0 n) (λ v j, x ← index arr j; mret (v ++ [x])) v.

(** Push one second-level index block and [n] of its entries. *)
Definition push_sub (n : Z) (indirect2 : list Z) (v : list Z) (i : Z) : prog (list Z) :=
  x ← index indirect2 i;
  modify_cache x 0 (λ ib : IndirectBlock,
    v ← push_range n (ids ib) (v ++ [x]);
    mret (ib, v)).

(** Clear size to zero and return blocks that should be deallocated
    and clear the block contents to zero later *)
Definition clear_size (d : DiskInode) : prog (DiskInode * list Z) :=
  let data_blocks := data_blocks d in
  let d := with_size 0 d in
  (* direct *)
  '(dr, v) ← for_ (range 0 (Z.min data_blocks INODE_DIRECT_COUNT))
    (λ '(dr, v) current_blocks,
       x ← index dr current_blocks;
       dr' ← set_index dr current_blocks 0;
       mret (dr', v ++ [x])) (direct d, []);
  let d := with_direct dr d in
  (* indirect1 block *)
  if data_blocks <=? INODE_DIRECT_COUNT then mret (d, v) else
  let v := v ++ [indirect1 d] in
  let data_blocks := data_blocks - INODE_DIRECT_COUNT in
  (* indirect1 *)
  v ← modify_cache (indirect1 d) 0 (λ ib : IndirectBlock,
        v ← push_range (Z.min data_blocks INODE_INDIRECT1_COUNT) (ids ib) v;
        mret (ib, v));
  let d := with_indirect1 0 d in
  (* indirect2 block *)
  if data_blocks <=? INODE_INDIRECT1_COUNT then mret (d, v) else
  let v := v ++ [indirect2 d] in
  let data_blocks := data_blocks - INODE_INDIRECT1_COUNT in
  (* indirect2 *)
  assert_ (data_blocks <=? INODE_INDIRECT2_COUNT);;
  let a1 := data_blocks / INODE_INDIRECT1_COUNT in
  let b1 := data_blocks mod INODE_INDIRECT1_COUNT in
  v ← modify_cache (indirect2 d) 0 (λ ib : IndirectBlock,
        (* full indirect1 blocks *)
        v ← for_ (range 0 a1) (push_sub INODE_INDIRECT1_COUNT (ids ib)) v;
        (* last indirect1 block *)
        v ← (if 0 <? b1 then push_sub b1 (ids ib) v a1 else mret v);
        mret (ib, v));
  mret (with_indirect2 0 d, v).

(** The loop of [read_at]; [end_] is the end of what is read. *)
Fixpoint read_loop (fuel : nat) (d : DiskInode) (end_ start start_block read_size : Z)
    (buf : list byte) : prog (Z * list byte) :=
  match fuel with
  | O => mthrow OutOfFuel
  | S fuel =>
      (* calculate end of current block *)
      let end_current_block := Z.min ((start / BLOCK_SZ + 1) * BLOCK_SZ) end_ in
      (* read and update read size *)
      let block_read_size := end_current_block - start in
      _ ← slice buf read_size (read_size + block_read_size);
      bid ← get_block_id d (wrap32 start_block);
      buf' ← read_cache bid 0 (λ data_block : DataBlock,
        src ← slice (data data_block) (start mod BLOCK_SZ) (start mod BLOCK_SZ + block_read_size);
        copy_into buf read_size (read_size + block_read_size) src);
      let read_size := read_size + block_read_size in
      (* move to next block *)
      if end_current_block =? end_ then mret (read_size, buf')
      else read_loop fuel d end_ end_current_block (start_block + 1) read_size buf'
  end.

(** Read data from current disk inode: the count and the buffer afterwards *)
Definition read_at (d : DiskInode) (offset : Z) (buf : list byte) : prog (Z * list byte) :=
  let start := offset in
  let end_ := Z.min (wrap64 (offset + Z.of_nat (length buf))) (size d) in
  if end_ <=? start then mret (0, buf) else
  read_loop (S (Z.to_nat (end_ / BLOCK_SZ - start / BLOCK_SZ))) d end_ start (start / BLOCK_SZ) 0 buf.

(** The loop of [write_at]. *)
Fixpoint write_loop (fuel : nat) (d : DiskInode) (end_ start start_block write_size : Z)
    (buf : list byte) : prog Z :=
  match fuel with
  | O => mthrow OutOfFuel
  | S fuel =>
      (* calculate end of current block *)
      let end_current_block := Z.min ((start / BLOCK_SZ + 1) * BLOCK_SZ) end_ in
      (* write and update write size *)
      let block_write_size := end_current_block - start in
      bid ← get_block_id d (wrap32 start_block);
      modify_cache bid 0 (λ data_block : DataBlock,
        src ← slice buf write_size (write_size + block_write_size);
        dst ← copy_into (data data_block) (start mod BLOCK_SZ)
                (start mod BLOCK_SZ + block_write_size) src;
        mret (mkDataBlock dst, tt));;
      let write_size := write_size + block_write_size in
      (* move to next block *)
      if end_current_block =? end_ then mret write_size
      else write_loop fuel d end_ end_current_block (start_block + 1) write_size buf
  end.

(** Write data into current disk inode; size must be adjusted properly beforehand *)
Definition write_at (d : DiskInode) (offset : Z) (buf : list byte) : prog Z :=
  let start := offset in
  let end_ := Z.min (wrap64 (offset + Z.of_nat (length buf))) (size d) in
  assert_ (start <=? end_);;
  write_loop (S (Z.to_nat (end_ / BLOCK_SZ - start / BLOCK_SZ))) d end_ start (start / BLOCK_SZ) 0 buf.

(** ** The list of blocks of an inode *)

(** What a block is to its inode: the data block at a position of [direct], of
    the first-level index or of a second-level index, or an index block. *)
Inductive role :=
  | Direct (i : Z)
  | Ind1
  | Ind1E (i : Z)
  | Ind2
  | Ind2E (a : Z)
  | SubE (a b : Z).

Definition role_ok (r : role) : Prop :=
  match r with
  | Direct i => 0 ≤ i < 28
  | Ind1E i | Ind2E i => 0 ≤ i < 128
  | SubE a b => 0 ≤ a < 128 ∧ 0 ≤ b < 128
  | _ => True
  end.

Definition is_index (r : role) : bool :=
  match r with Ind1 | Ind2 | Ind2E _ => true | _ => false end.

(** Position of a block in the order of allocation. *)
Definition role_pos (r : role) : Z :=
  match r with
  | Direct i => i
  | Ind1 => 28
  | Ind1E i => 29 + i
  | Ind2 => 157
  | Ind2E a => 158 + 129 * a
  | SubE a b => 159 + 129 * a + b
  end.

(** Entry [i] of the index block [b]. *)
Definition entry (d : gmap Z block) (b i : Z) : option Z :=
  blk ← d !! b; words32 blk !! Z.to_nat i.

(** Where the inode records the block of role [r]. *)
Definition slot (d : gmap Z block) (di : DiskInode) (r : role) : option Z :=
  match r with
  | Direct i => direct di !! Z.to_nat i
  | Ind1 => Some (indirect1 di)
  | Ind1E i => entry d (indirect1 di) i
  | Ind2 => Some (indirect2 di)
  | Ind2E a => entry d (indirect2 di) a
  | SubE a b => i1 ← entry d (indirect2 di) a; entry d i1 b
  end.

(** The inode [di] on the disk [d] records the blocks [L]. *)
Definition rep (d : gmap Z block) (di : DiskInode) (L : list Z) : Prop :=
  ∀ r x, role_ok r → L !! Z.to_nat (role_pos r) = Some x → slot d di r = Some x.

(** Data blocks of a file of [sz] bytes, and blocks of all kinds for [n] data blocks. *)
Definition nblocks (sz : Z) : Z := (sz + 511) / 512.
Definition tb (n : Z) : Z :=
  n + (if 28 <? n then 1 else 0) + (if 156 <? n then 1 + (n - 156 + 127) / 128 else 0).

(** The role of data block [k] of a file. *)
Definition data_role (k : Z) : role :=
  if k <? 28 then Direct k else if k <? 156 then Ind1E (k - 28)
  else SubE ((k - 156) / 128) ((k - 156) mod 128).

(** Largest file the index tree can hold. *)
Definition MAX_SIZE : Z := 512 * 16540.

Lemma role_pos_nonneg r : role_ok r → 0 ≤ role_pos r.
Proof. destruct r; simpl; lia. Qed.

Lemma role_pos_inj r r' : role_ok r → role_ok r' → role_pos r = role_pos r' → r = r'.
Proof. destruct r, r'; simpl; intros; try lia; f_equal; lia. Qed.

Lemma data_role_ok k : 0 ≤ k < 16540 → role_ok (data_role k) ∧ is_index (data_role k) = false.
Proof.
  intros. unfold data_role. repeat case_match; simpl; split; try done; try lia.
Qed.

Lemma data_role_inj k k' : 0 ≤ k → 0 ≤ k' → data_role k = data_role k' → k = k'.
Proof. unfold data_role. intros. repeat case_match; simplify_eq; lia. Qed.

Lemma data_role_pos k n : 0 ≤ k < n → role_pos (data_role k) < tb n.
Proof.
  intros. unfold data_role, tb. repeat case_match; simpl; lia.
Qed.

Lemma data_blocks_of_nblocks sz : 0 ≤ sz ≤ MAX_SIZE → data_blocks_of sz = nblocks sz.
Proof.
  unfold MAX_SIZE, data_blocks_of, nblocks, BLOCK_SZ. intros.
  rewrite !wrap32_small; [f_equal; lia| |]; unfold is_u32; rewrite ?wrap32_small; unfold is_u32; lia.
Qed.

Lemma nblocks_mono a b : a ≤ b → nblocks a ≤ nblocks b.
Proof. intros. unfold nblocks. apply Z.div_le_mono; lia. Qed.

Lemma nblocks_range sz : 0 ≤ sz ≤ MAX_SIZE → 0 ≤ nblocks sz ≤ 16540.
Proof. unfold nblocks, MAX_SIZE. lia. Qed.

(** Arithmetic on [tb]. *)
Local Ltac tb_lia := unfold tb in *; repeat case_match; lia.

Lemma tb_mono n m : 0 ≤ n ≤ m → tb n ≤ tb m.
Proof. intros. tb_lia. Qed.

Lemma tb_range n : 0 ≤ n ≤ 16540 → 0 ≤ tb n ≤ 16670.
Proof. intros. tb_lia. Qed.

Lemma total_blocks_tb sz : 0 ≤ sz ≤ MAX_SIZE → total_blocks sz = tb (nblocks sz).
Proof.
  intros Hsz. pose proof (nblocks_range _ Hsz). pose proof (tb_range (nblocks sz)).
  unfold total_blocks. rewrite data_blocks_of_nblocks by done.
  rewrite <-(wrap32_small (tb _)) by (unfold is_u32; lia). f_equal. unfold tb.
  change INODE_DIRECT_COUNT with 28. change INDIRECT1_BOUND with 156.
  change INODE_INDIRECT1_COUNT with 128. repeat case_match; lia.
Qed.

(** Writing one entry of an index block. *)
Definition upd_entry (b j x : Z) (d : gmap Z block) : gmap Z block :=
  match d !! b with
  | Some blk => <[b := le_bytes 4 (<[Z.to_nat j := x]> (words32 blk))]> d
  | None => d
  end.

Lemma fits_insert ws j x :
  fits_block 4 128 ws → is_u32 x → fits_block 4 128 (<[j := x]> ws).
Proof.
  intros [Hl Hf] Hx. split; [by rewrite length_insert|]. by apply Forall_insert.
Qed.

Lemma length_words_bytes ws : fits_block 4 128 ws → length (le_bytes 4 ws) = 512%nat.
Proof. intros [Hl _]. rewrite length_le_bytes. lia. Qed.

Lemma entry_insert d b b' ws i :
  fits_block 4 128 ws →
  entry (<[b := le_bytes 4 ws]> d) b' i = if decide (b' = b) then ws !! Z.to_nat i else entry d b' i.
Proof.
  intros Hf. unfold entry. case_decide as Hb.
  - subst. rewrite lookup_insert_eq. simpl. by rewrite words32_bytes.
  - by rewrite lookup_insert_ne.
Qed.

Lemma entry_upd d b j x b' i :
  is_Some (d !! b) → is_u32 x → 0 ≤ j < 128 → 0 ≤ i →
  entry (upd_entry b j x d) b' i = if decide (b' = b ∧ i = j) then Some x else entry d b' i.
Proof.
  intros [blk Hb] Hx Hj Hi. unfold upd_entry. rewrite Hb.
  rewrite entry_insert by (apply fits_insert; [apply words32_fit|done]).
  pose proof (proj1 (words32_fit blk)) as Hl.
  repeat case_decide; try naive_solver.
  - destruct_and!; subst. rewrite list_lookup_insert_eq; [done|]. lia.
  - subst. rewrite list_lookup_insert_ne by (intros ?; lia). unfold entry. by rewrite Hb.
Qed.

Lemma disk_ok_upd d b j x : disk_ok d → is_u32 x → disk_ok (upd_entry b j x d).
Proof.
  intros Hd Hx. unfold upd_entry. destruct (d !! b) eqn:Hb; [|done].
  apply disk_ok_insert; [done|]. apply length_words_bytes, fits_insert; [apply words32_fit|done].
Qed.

Lemma upd_entry_ne d b j x b' : b' ≠ b → upd_entry b j x d !! b' = d !! b'.
Proof. intros. unfold upd_entry. case_match; [|done]. by rewrite lookup_insert_ne. Qed.

Lemma upd_entry_is_Some d b j x b' : is_Some (upd_entry b j x d !! b') ↔ is_Some (d !! b').
Proof.
  unfold upd_entry. destruct (d !! b) eqn:Hb; [|done]. rewrite lookup_insert_is_Some'.
  split; [intros [->|?]|]; eauto.
Qed.

Lemma upd_entry_bytes d b j x ws :
  fits_block 4 128 ws →
  upd_entry b j x (<[b := le_bytes 4 ws]> d) = <[b := le_bytes 4 (<[Z.to_nat j := x]> ws)]> d.
Proof.
  intros Hf. unfold upd_entry. rewrite lookup_insert_eq.
  by rewrite words32_bytes, insert_insert_eq.
Qed.

(** Entry [j] of an index block. *)
Definition child (r : role) (j : Z) : role :=
  match r with Ind1 => Ind1E j | Ind2 => Ind2E j | Ind2E a => SubE a j | _ => r end.

Lemma rep_lookup d di L r :
  rep d di L → role_ok r → role_pos r < Z.of_nat (length L) →
  ∃ z, L !! Z.to_nat (role_pos r) = Some z ∧ slot d di r = Some z.
Proof.
  intros Hrep Hr Hp. destruct (lookup_lt_is_Some_2 L (Z.to_nat (role_pos r))) as [z Hz].
  { pose proof (role_pos_nonneg _ Hr). lia. }
  exists z. split; [done|]. by apply Hrep.
Qed.

Section entry_append.
Context (d : gmap Z block) (di : DiskInode) (L : list Z) (r0 : role) (j b x : Z).
Context (Hrep : rep d di L) (Hnd : NoDup L).
Context (Hi0 : is_index r0 = true) (Hr0 : role_ok r0) (Hj : 0 ≤ j < 128).
Context (Hb : L !! Z.to_nat (role_pos r0) = Some b).
Context (Hlen : role_pos (child r0 j) = Z.of_nat (length L)).
Context (Hdb : is_Some (d !! b)) (Hx : is_u32 x).

Lemma entry_frame r1 i b1 :
  is_index r1 = true → role_ok r1 → 0 ≤ i → L !! Z.to_nat (role_pos r1) = Some b1 →
  role_pos (child r1 i) < Z.of_nat (length L) →
  entry (upd_entry b j x d) b1 i = entry d b1 i.
Proof.
  intros Hi1 Hr1 Hi Hb1 Hlt. rewrite entry_upd by done. case_decide as Hc; [|done].
  destruct Hc as [-> ->]. exfalso.
  assert (r1 = r0) as ->; [|lia]. apply role_pos_inj; [done..|].
  pose proof (role_pos_nonneg _ Hr0). pose proof (role_pos_nonneg _ Hr1).
  pose proof (NoDup_lookup _ _ _ _ Hnd Hb Hb1). lia.
Qed.

Lemma slot_frame r :
  role_ok r → role_pos r < Z.of_nat (length L) → slot (upd_entry b j x d) di r = slot d di r.
Proof.
  intros Hr Hp. destruct r as [i| |i| |a|a c]; simpl in *; try done.
  - destruct (rep_lookup d di L Ind1) as (z & Hz & [= <-]); [done..|simpl; lia|].
    apply (entry_frame Ind1); done || (simpl; lia).
  - destruct (rep_lookup d di L Ind2) as (z & Hz & [= <-]); [done..|simpl; lia|].
    apply (entry_frame Ind2); done || (simpl; lia).
  - destruct (rep_lookup d di L Ind2) as (z & Hz & [= <-]); [done..|simpl; lia|].
    destruct (rep_lookup d di L (Ind2E a)) as (y & Hy & Hy'); [done|simpl; lia|simpl; lia|].
    rewrite (entry_frame Ind2); [|done|done|lia|done|simpl; lia]. simpl in Hy'. rewrite Hy'. simpl.
    apply (entry_frame (Ind2E a)); [done|simpl; lia|lia|done|simpl; lia].
Qed.

End entry_append.

(** Writing the next entry of an index block records one more block. *)
Lemma rep_entry d di L r0 j b x :
  rep d di L → NoDup L → is_index r0 = true → role_ok r0 → 0 ≤ j < 128 →
  L !! Z.to_nat (role_pos r0) = Some b → role_pos (child r0 j) = Z.of_nat (length L) →
  is_Some (d !! b) → is_u32 x → rep (upd_entry b j x d) di (L ++ [x]).
Proof.
  intros Hrep Hnd Hi0 Hr0 Hj Hb Hlen Hdb Hx r y Hr Hy. pose proof (role_pos_nonneg _ Hr).
  apply lookup_app_Some in Hy as [Hy|[Hl Hy]].
  { pose proof (lookup_lt_Some _ _ _ Hy).
    rewrite (slot_frame d di L r0) by (done || lia). by apply Hrep. }
  assert (role_pos r = Z.of_nat (length L)) as Hp.
  { apply lookup_lt_Some in Hy. simpl in Hy. lia. }
  replace (_ - _)%nat with 0%nat in Hy by lia. injection Hy as <-.
  assert (r = child r0 j) as ->.
  { apply role_pos_inj; [done| |lia]. destruct r0; simpl in *; done || lia. }
  pose proof (Hrep _ _ Hr0 Hb) as Hs. destruct r0 as [| | | |a|]; simpl in *; try done.
  - injection Hs as <-. rewrite entry_upd by (done || lia). by rewrite decide_True.
  - injection Hs as <-. rewrite entry_upd by (done || lia). by rewrite decide_True.
  - destruct (rep_lookup d di L Ind2) as (z & Hz & [= <-]); [done..|simpl; lia|].
    rewrite (entry_frame d L (Ind2E a) j b x) with (r1 := Ind2) by (done || (simpl; lia)).
    rewrite Hs. simpl. rewrite entry_upd by (done || lia). by rewrite decide_True.
Qed.

(** Filling a range of [direct], or of the first-level index, records a range of blocks. *)
Lemma lookup_inserts_app {A} (L xs arr : list A) (off p : nat) y :
  (L ++ xs) !! (off + p)%nat = Some y → (off ≤ length L)%nat →
  (length L - off + length xs ≤ length arr)%nat →
  (∀ z, (p < length L - off)%nat → L !! (off + p)%nat = Some z → arr !! p = Some z) →
  list_inserts (length L - off) xs arr !! p = Some y.
Proof.
  intros Hy Ho Hl Harr. apply lookup_app_Some in Hy as [Hy|[Hge Hy]].
  - pose proof (lookup_lt_Some _ _ _ Hy). rewrite list_lookup_inserts_lt by lia.
    apply Harr; [lia|done].
  - pose proof (lookup_lt_Some _ _ _ Hy). rewrite list_lookup_inserts by lia.
    rewrite <-Hy. f_equal. lia.
Qed.

Lemma rep_direct d di L xs :
  rep d di L → (length L + length xs ≤ 28)%nat → length (direct di) = 28%nat →
  rep d (with_direct (list_inserts (length L) xs (direct di)) di) (L ++ xs).
Proof.
  intros Hrep Hl Hd r y Hr Hy. pose proof (lookup_lt_Some _ _ _ Hy) as Hlt.
  rewrite length_app in Hlt. destruct r as [i| |i| |a|a c]; simpl in *; try lia.
  replace (length L) with (length L - 0)%nat by lia.
  apply lookup_inserts_app; [done|lia|lia|]. intros z Hz HL.
  by apply (Hrep (Direct i)).
Qed.

Lemma rep_ind1 d di L xs blk :
  rep d di L → (29 ≤ length L)%nat → (length L + length xs ≤ 157)%nat → Forall is_u32 xs →
  d !! indirect1 di = Some blk →
  rep (<[indirect1 di := le_bytes 4 (list_inserts (length L - 29) xs (words32 blk))]> d) di (L ++ xs).
Proof.
  intros Hrep Hl1 Hl Hxs Hd r y Hr Hy. pose proof (lookup_lt_Some _ _ _ Hy) as Hlt.
  pose proof (words32_fit blk) as [Hw Hf].
  rewrite length_app in Hlt. destruct r as [i| |i| |a|a c]; simpl in *; try lia.
  - rewrite lookup_app_l in Hy by lia. by apply (Hrep (Direct i)).
  - rewrite lookup_app_l in Hy by lia. by apply (Hrep Ind1).
  - rewrite entry_insert, decide_True; [|done|].
    + apply lookup_inserts_app; [rewrite <-Hy; f_equal; lia|lia|lia|]. intros z Hz HL.
      pose proof (Hrep (Ind1E i) z Hr) as Hs. unfold slot, entry in Hs. rewrite Hd in Hs.
      apply Hs. rewrite <-HL. simpl. f_equal. lia.
    + split; [by rewrite length_inserts|]. apply Forall_lookup_2. intros k z Hk.
      apply list_lookup_inserts_Some in Hk as [[_ Hk]|(_ & _ & Hk)];
        [by apply (Forall_lookup_1 _ _ _ _ Hf Hk)|by apply (Forall_lookup_1 _ _ _ _ Hxs Hk)].
Qed.

Lemma rep_alloc1 d di L b :
  rep d di L → length L = 28%nat → rep d (with_indirect1 b di) (L ++ [b]).
Proof.
  intros Hrep Hl r y Hr Hy. pose proof (lookup_lt_Some _ _ _ Hy) as Hlt.
  rewrite length_app in Hlt. destruct r as [i| |i| |a|a c]; simpl in *; try lia.
  - rewrite lookup_app_l in Hy by lia. by apply (Hrep (Direct i)).
  - rewrite lookup_app_r in Hy by lia. by rewrite Hl in Hy.
Qed.

Lemma rep_alloc2 d di L b :
  rep d di L → length L = 157%nat → rep d (with_indirect2 b di) (L ++ [b]).
Proof.
  intros Hrep Hl r y Hr Hy. pose proof (lookup_lt_Some _ _ _ Hy) as Hlt.
  rewrite length_app in Hlt. destruct r as [i| |i| |a|a c]; simpl in *; try lia.
  - rewrite lookup_app_l in Hy by lia. by apply (Hrep (Direct i)).
  - rewrite lookup_app_l in Hy by lia. by apply (Hrep Ind1).
  - rewrite lookup_app_l in Hy by lia. by apply (Hrep (Ind1E i)).
  - rewrite lookup_app_r in Hy by lia. by rewrite Hl in Hy.
Qed.

Lemma rep_size d di L sz : rep d di L → rep d (with_size sz di) L.
Proof. intros Hrep r x Hr Hx. specialize (Hrep r x Hr Hx). by destruct r. Qed.

(** [b] is an index block among the blocks [L], and a change of the disk that only
    rewrites such blocks. *)
Definition index_block (L : list Z) (b : Z) : Prop :=
  ∃ r, role_ok r ∧ is_index r = true ∧ L !! Z.to_nat (role_pos r) = Some b.

Definition frame (L : list Z) (d d' : gmap Z block) : Prop :=
  (∀ b, ¬ index_block L b → d' !! b = d !! b) ∧ (∀ b, is_Some (d' !! b) ↔ is_Some (d !! b)).

Lemma frame_refl L d : frame L d d.
Proof. done. Qed.
Lemma frame_trans L d1 d2 d3 : frame L d1 d2 → frame L d2 d3 → frame L d1 d3.
Proof.
  intros [H1 H2] [H3 H4]. split; [intros b Hb; rewrite H3 by done; by apply H1|].
  intros b. by rewrite H4.
Qed.
Lemma frame_insert L d b v : index_block L b → is_Some (d !! b) → frame L d (<[b := v]> d).
Proof.
  intros Hi Hb. split; intros b'.
  - intros Hn. rewrite lookup_insert_ne by naive_solver. done.
  - rewrite lookup_insert_is_Some'. naive_solver.
Qed.
Lemma frame_upd L d b j x : index_block L b → frame L d (upd_entry b j x d).
Proof.
  intros Hi. split; intros b'; [|apply upd_entry_is_Some].
  intros Hn. apply upd_entry_ne. naive_solver.
Qed.

Lemma upd_entry_insert_ne d b j x b' v :
  b ≠ b' → upd_entry b j x (<[b' := v]> d) = <[b' := v]> (upd_entry b j x d).
Proof.
  intros. unfold upd_entry. rewrite lookup_insert_ne by done. case_match; [|done].
  by rewrite insert_insert_ne.
Qed.

(** The blocks [L] are distinct block numbers of the device that nobody holds,
    and [n] more cache entries can be taken. *)
Definition blocks_ok (n : nat) (s : Disk.state) (L : list Z) : Prop :=
  NoDup L ∧ Forall (λ x, is_u32 x ∧ x ∉ Disk.held s ∧ is_Some (Disk.disk s !! x)) L ∧
  (length (Disk.held s) + n ≤ BLOCK_CACHE_SIZE)%nat.

(** What is recorded depends on the index blocks only. *)
Lemma rep_ext d d' di L :
  (∀ b, index_block L b → d' !! b = d !! b) → rep d di L → rep d' di L.
Proof.
  intros Hfr Hrep r x Hr Hx. pose proof (Hrep _ _ Hr Hx) as Hs. pose proof (lookup_lt_Some _ _ _ Hx).
  assert (∀ r1 b i, is_index r1 = true → role_ok r1 → L !! Z.to_nat (role_pos r1) = Some b →
    entry d' b i = entry d b i) as He.
  { intros r1 b i Hi1 Hr1 Hb. unfold entry. rewrite Hfr; [done|]. by exists r1. }
  destruct r as [i| |i| |a|a b]; cbn [slot role_ok role_pos] in *; try done.
  - destruct (rep_lookup _ _ _ Ind1 Hrep) as (z & Hz & [= <-]); [done|simpl; lia|]. by rewrite (He Ind1).
  - destruct (rep_lookup _ _ _ Ind2 Hrep) as (z & Hz & [= <-]); [done|simpl; lia|]. by rewrite (He Ind2).
  - destruct (rep_lookup _ _ _ Ind2 Hrep) as (z & Hz & [= <-]); [done|simpl; lia|].
    destruct (rep_lookup _ _ _ (Ind2E a) Hrep) as (y & Hy & Hy'); [simpl; lia..|].
    rewrite (He Ind2) by done. cbn [slot] in Hy'. rewrite Hy' in *. simpl in *.
    rewrite (He (Ind2E a)); [done..|simpl; lia|done].
Qed.

(** ** The loops that fill *)
Section fill.
Context (fl : fault).
Notation run p := (Disk.arun fl p).

Lemma run_fill fuel bound cur arr nb s :
  0 ≤ cur → bound ≤ Z.of_nat (length arr) → (Z.to_nat (bound - cur) ≤ length nb)%nat →
  (Z.to_nat (bound - cur) ≤ fuel)%nat →
  run (fill fuel bound (cur, arr, nb)) s =
    Ok (s, (Z.max cur bound,
            list_inserts (Z.to_nat cur) (take (Z.to_nat (bound - cur)) nb) arr,
            drop (Z.to_nat (bound - cur)) nb)).
Proof.
  unfold fill. revert cur arr nb. induction fuel as [|fuel IH]; intros cur arr nb Hc Ha Hn Hf;
    cbn [while_]; destruct (Z.ltb_spec cur bound); try lia.
  1, 3: rewrite run_ret; replace (Z.to_nat (bound - cur)) with 0%nat by lia;
    rewrite Z.max_l by lia; by rewrite take_0, drop_0.
  destruct nb as [|b nb]; simpl in Hn; [lia|].
  erewrite run_bind_ok; [|erewrite run_bind_ok by apply run_ret; cbn iota beta;
    erewrite run_bind_ok by (apply run_set_index; lia); apply run_ret].
  rewrite IH; [|lia|by rewrite length_insert|lia|lia].
  replace (Z.to_nat (bound - cur)) with (S (Z.to_nat (bound - (cur + 1)))) by lia.
  replace (Z.to_nat (cur + 1)) with (S (Z.to_nat cur)) by lia.
  rewrite !Z.max_r by lia. simpl. by rewrite list_insert_inserts_lt by lia.
Qed.
End fill.

(** The loop over the two-level index.  [ws] is the second-level index block
    [i2], which the closure holds and writes back at its end. *)
Section fill2.
Context (fl : fault) (di : DiskInode) (LF : list Z) (s0 : Disk.state).
Notation i2 := (indirect2 di).
Notation run p := (Disk.arun fl p).
Context (Hok : blocks_ok 2 s0 LF) (Hi2 : LF !! 157%nat = Some i2).
Context (a1 b1 : Z) (Hb1 : 0 ≤ b1 < 128) (Ha1 : 0 ≤ a1) (Hc1 : 128 * a1 + b1 ≤ 16384).
Context (HLF : Z.of_nat (length LF) = tb (156 + 128 * a1 + b1)) (Hpos : 0 < 128 * a1 + b1).

(** What holds between two assignments: [Lc] blocks are recorded, [nb] are left. *)
Definition fill2_at (Lc ws nb : list Z) (s : Disk.state) : Prop :=
  LF = Lc ++ nb ∧ fits_block 4 128 ws ∧ disk_ok (Disk.disk s) ∧
  rep (<[i2 := le_bytes 4 ws]> (Disk.disk s)) di Lc ∧
  frame LF (Disk.disk s0) (Disk.disk s) ∧
  Disk.held s = i2 :: Disk.held s0 ∧ Disk.efs_held s = Disk.efs_held s0.

Definition fill2_inv (st : Z * Z * list Z * list Z) (s : Disk.state) : Prop :=
  let '(a0, b0, ws, nb) := st in
  0 ≤ a0 ∧ 0 ≤ b0 < 128 ∧ 128 * a0 + b0 ≤ 128 * a1 + b1 ∧
  ∃ Lc, fill2_at Lc ws nb s ∧
    Z.of_nat (length Lc) = 158 + 129 * a0 + (if b0 =? 0 then 0 else 1 + b0).

Lemma LF_lookup p x : LF !! p = Some x → is_u32 x ∧ x ∉ Disk.held s0 ∧ is_Some (Disk.disk s0 !! x).
Proof. destruct Hok as (_ & Hf & _). apply (Forall_lookup_1 _ _ _ _ Hf). Qed.

Lemma fill2_next Lc ws nb s :
  fill2_at Lc ws nb s → Z.of_nat (length Lc) < tb (156 + 128 * a1 + b1) →
  ∃ x nb', nb = x :: nb' ∧ is_u32 x ∧ LF = (Lc ++ [x]) ++ nb' ∧ NoDup Lc.
Proof.
  intros (HL & _) Hlt. destruct nb as [|x nb'].
  { rewrite app_nil_r in HL. subst. lia. }
  exists x, nb'. split_and!; [done| | |].
  - apply (LF_lookup (length Lc)). rewrite HL, lookup_app_r by lia. by rewrite Nat.sub_diag.
  - by rewrite <-app_assoc.
  - destruct Hok as (Hnd & _). rewrite HL in Hnd. by apply NoDup_app in Hnd as [? _].
Qed.

Lemma in_LF Lc nb p x : LF = Lc ++ nb → Lc !! p = Some x → LF !! p = Some x.
Proof. intros -> Hp. by apply lookup_app_l_Some. Qed.

Lemma fill2_alloc Lc ws x nb s a0 :
  fill2_at Lc ws (x :: nb) s → Z.of_nat (length Lc) = 158 + 129 * a0 → 0 ≤ a0 < 128 →
  fill2_at (Lc ++ [x]) (<[Z.to_nat a0 := x]> ws) nb s.
Proof.
  intros Hat Hl Ha. pose proof Hat as (HL & Hf & Hd & Hrep & Hfr & Hh & He).
  destruct (LF_lookup (length Lc) x) as [Hx _].
  { rewrite HL, lookup_app_r by lia. by rewrite Nat.sub_diag. }
  split; [by rewrite <-app_assoc|]. split; [by apply fits_insert|].
  split; [done|]. split; [|done]. rewrite <-upd_entry_bytes by done.
  apply (rep_entry _ _ _ Ind2); try done.
  - destruct Hok as (Hnd & _). rewrite HL in Hnd. by apply NoDup_app in Hnd as [? _].
  - change (Z.to_nat (role_pos Ind2)) with 157%nat. rewrite HL, lookup_app_l in Hi2 by lia. done.
  - rewrite lookup_insert_eq. eauto.
Qed.

Lemma fill2_write Lc ws x nb s a0 b0 :
  fill2_at Lc ws (x :: nb) s → Z.of_nat (length Lc) = 159 + 129 * a0 + b0 →
  0 ≤ a0 < 128 → 0 ≤ b0 < 128 →
  ∃ i1 d', ws !! Z.to_nat a0 = Some i1 ∧
    run (modify_cache i1 0 (λ ib : IndirectBlock,
      '(b, new_blocks') ← next (x :: nb);
      ids' ← set_index (ids ib) b0 b;
      mret (mkIndirectBlock ids', new_blocks'))) s = Ok (set_disk d' s, nb) ∧
    fill2_at (Lc ++ [x]) ws nb (set_disk d' s).
Proof.
  intros Hat Hl Ha Hb. pose proof Hat as (HL & Hf & Hd & Hrep & Hfr & Hh & He).
  assert (is_u32 x) as Hx.
  { apply (LF_lookup (length Lc)). rewrite HL, lookup_app_r by lia. by rewrite Nat.sub_diag. }
  pose proof Hok as (Hnd & _ & Hroom).
  destruct (rep_lookup _ _ _ (Ind2E a0) Hrep) as (i1 & Hi1 & Hs); [simpl; lia..|].
  unfold slot in Hs. rewrite entry_insert, decide_True in Hs by done.
  assert (LF !! Z.to_nat (role_pos (Ind2E a0)) = Some i1) as Hi1' by by eapply in_LF.
  destruct (LF_lookup _ _ Hi1') as (Hu1 & Hh1 & Hd1).
  assert (i1 ≠ i2) as Hne.
  { intros ->. pose proof (NoDup_lookup _ _ _ _ Hnd Hi2 Hi1'). simpl in *. lia. }
  apply Hfr in Hd1 as [blk Hblk]. assert (length blk = 512%nat) as Hbl by eauto with disk.
  exists i1, (upd_entry i1 b0 x (Disk.disk s)). split; [done|]. split.
  - pose proof (proj1 (words32_fit blk)) as Hw.
    erewrite (run_modify_indirect _ _ _ _ blk (<[Z.to_nat b0 := x]> (words32 blk))).
    + unfold upd, set_disk, upd_entry. by rewrite Hblk.
    + split; rewrite Hh; [by apply not_elem_of_cons|]. simpl. unfold BLOCK_CACHE_SIZE in *. lia.
    + done.
    + done.
    + by rewrite length_insert.
    + erewrite run_bind_ok by apply run_ret. cbn iota beta.
      erewrite run_bind_ok by (apply run_set_index; simpl; lia). apply run_ret.
  - split; [by rewrite <-app_assoc|]. split; [done|]. split; [by apply disk_ok_upd|].
    split; [|split; [|done]].
    + simpl. rewrite <-upd_entry_insert_ne by done. apply (rep_entry _ _ _ (Ind2E a0)); try done.
      * rewrite HL in Hnd. by apply NoDup_app in Hnd as [? _].
      * rewrite lookup_insert_ne by done. eauto.
    + eapply frame_trans; [done|]. apply frame_upd. exists (Ind2E a0). by split_and!.
Qed.

Definition fill2_left (st : Z * Z * list Z * list Z) : nat :=
  let '(a0, b0, _, _) := st in Z.to_nat (128 * a1 + b1 - (128 * a0 + b0)).

Lemma fill2_step st s :
  fill2_inv st s → (let '(a0, b0, _, _) := st in (a0 <? a1) || ((a0 =? a1) && (b0 <? b1))) = true →
  ∃ st' s', run (fill2_body st) s = Ok (s', st') ∧ fill2_inv st' s' ∧
    (fill2_left st' < fill2_left st)%nat.
Proof.
  destruct st as [[[a0 b0] ws] nb]. intros (Ha & Hb & Hc & Lc & Hat & Hl) Hcond.
  assert (128 * a0 + b0 < 128 * a1 + b1) as Hlt by lia. clear Hcond.
  assert (159 + 129 * a0 + b0 < tb (156 + 128 * a1 + b1)) as Htb.
  { tb_lia. }
  (* after the optional allocation of a second-level block *)
  assert (∃ ws2 nb2 L2, run (if b0 =? 0 then
       '(b, new_blocks') ← next nb;
       indirect2' ← set_index ws a0 b;
       mret (indirect2', new_blocks')
     else mret (ws, nb)) s = Ok (s, (ws2, nb2)) ∧ fill2_at L2 ws2 nb2 s ∧
     Z.of_nat (length L2) = 159 + 129 * a0 + b0) as (ws2 & nb2 & L2 & Hr & Hat2 & Hl2).
  { destruct (Z.eqb_spec b0 0) as [->|Hb0].
    - destruct (fill2_next _ _ _ _ Hat) as (x & nb2 & -> & Hx & HL & Hnd); [lia|].
      exists (<[Z.to_nat a0 := x]> ws), nb2, (Lc ++ [x]). split_and!.
      + pose proof Hat as (_ & [Hw _] & _). erewrite run_bind_ok by apply run_ret. cbn iota beta.
        erewrite run_bind_ok by (apply run_set_index; lia). apply run_ret.
      + apply fill2_alloc; [done|lia..].
      + rewrite length_app. simpl. lia.
    - exists ws, nb, Lc. split_and!; [apply run_ret|done|lia]. }
  destruct (fill2_next _ _ _ _ Hat2) as (x & nb3 & -> & Hx & HL & Hnd); [lia|].
  destruct (fill2_write _ _ _ _ _ a0 b0 Hat2 Hl2) as (i1 & d' & Hi1 & Hm & Hat3); [lia..|].
  set (st' := if b0 + 1 =? 128 then (a0 + 1, 0, ws2, nb3) else (a0, b0 + 1, ws2, nb3)).
  exists st', (set_disk d' s). split_and!.
  - unfold fill2_body. erewrite run_bind_ok by exact Hr. cbn iota beta.
    erewrite run_bind_ok by (apply run_index; [lia|done]).
    erewrite run_bind_ok by exact Hm. change INODE_INDIRECT1_COUNT with 128. unfold st'.
    by destruct (b0 + 1 =? 128).
  - unfold st'. destruct (Z.eqb_spec (b0 + 1) 128); split_and!; try lia; exists (L2 ++ [x]).
    all: split; [done|]; rewrite length_app; simpl; repeat case_match; lia.
  - unfold st', fill2_left. destruct (Z.eqb_spec (b0 + 1) 128); lia.
Qed.

Lemma run_fill2 fuel a0 b0 ws nb s :
  fill2_inv (a0, b0, ws, nb) s → (fill2_left (a0, b0, ws, nb) ≤ fuel)%nat →
  ∃ ws' s', run (fill2 fuel a1 b1 (a0, b0, ws, nb)) s = Ok (s', (a1, b1, ws', [])) ∧
    fill2_at LF ws' [] s'.
Proof.
  intros HI Hfuel. destruct (run_while fl fill2_inv fill2_left
    (λ '(a0, b0, _, _), (a0 <? a1) || ((a0 =? a1) && (b0 <? b1))) fill2_body fuel (a0, b0, ws, nb) s)
    as ([[[a b] ws'] nb'] & s' & Hr & (Ha & Hb & Hc & Lc & Hat & Hl) & Hcond).
  - intros [[[a b] w] n] s'. apply (fill2_step (a, b, w, n)).
  - done.
  - done.
  - assert (a = a1 ∧ b = b1) as [-> ->] by lia. pose proof Hat as (HL & _).
    assert (length Lc = length LF) as Hlen.
    { rewrite <-(Nat2Z.id (length Lc)), Hl, <-(Nat2Z.id (length LF)), HLF. f_equal.
      tb_lia. }
    assert (nb' = []) as ->.
    { apply length_zero_iff_nil. rewrite HL, length_app in Hlen. lia. }
    rewrite app_nil_r in HL. exists ws', s'. split; [done|]. by rewrite HL at 1.
Qed.
End fill2.

(** ** [increase_size]

    Stage by stage: [grow_at Lc nb di s] says that the blocks [Lc] are recorded and
    [nb] are still to be. *)
Section increase.
Context (fl : fault) (LF : list Z) (s0 : Disk.state) (sz : Z) (ty : DiskInodeType) (n0 n1 : Z).
Notation run p := (Disk.arun fl p).
Context (Hok : blocks_ok 2 s0 LF) (Hn : 0 ≤ n0 ≤ n1) (Hn1 : n1 ≤ 16540).
Context (HLF : Z.of_nat (length LF) = tb n1).

Definition grow_at (Lc nb : list Z) (di : DiskInode) (s : Disk.state) : Prop :=
  LF = Lc ++ nb ∧ rep (Disk.disk s) di Lc ∧ inode_valid di ∧ disk_ok (Disk.disk s) ∧
  frame LF (Disk.disk s0) (Disk.disk s) ∧
  Disk.held s = Disk.held s0 ∧ Disk.efs_held s = Disk.efs_held s0 ∧ size di = sz ∧ type_ di = ty.

Lemma LF_u32 : Forall is_u32 LF.
Proof. destruct Hok as (_ & Hf & _). eapply Forall_impl; [exact Hf|]. naive_solver. Qed.

Lemma nb_u32 Lc nb : LF = Lc ++ nb → Forall is_u32 nb.
Proof. intros HL. pose proof LF_u32 as Hf. rewrite HL in Hf. by apply Forall_app in Hf as [_ ?]. Qed.

Lemma nb_length Lc nb : LF = Lc ++ nb → Z.of_nat (length nb) = tb n1 - Z.of_nat (length Lc).
Proof. intros HL. rewrite <-HLF, HL, length_app. lia. Qed.

Lemma list_inserts_nil {A} i (l : list A) : list_inserts i [] l = l.
Proof. done. Qed.

Lemma Forall_list_inserts (P : Z → Prop) i xs l :
  Forall P xs → Forall P l → Forall P (list_inserts i xs l).
Proof.
  intros Hxs Hl. apply Forall_lookup_2. intros k z Hk.
  apply list_lookup_inserts_Some in Hk as [[_ Hk]|(_ & _ & Hk)];
    [exact (Forall_lookup_1 _ _ _ _ Hl Hk)|exact (Forall_lookup_1 _ _ _ _ Hxs Hk)].
Qed.

Lemma grow_direct L nb di s :
  grow_at L nb di s → Z.of_nat (length L) = tb n0 →
  ∃ dr nb' L', run (fill 28 (Z.min n1 28) (n0, direct di, nb)) s =
      Ok (s, (Z.max n0 (Z.min n1 28), dr, nb')) ∧
    grow_at L' nb' (with_direct dr di) s ∧ Z.of_nat (length L') = Z.max (tb n0) (Z.min n1 28).
Proof.
  intros (HL & Hrep & (Hsz & [Hdl Hdf] & H1 & H2) & Hd & Hfr & Hh & He & Hs & Ht) Hl.
  pose proof (nb_length _ _ HL) as Hnb. pose proof (nb_u32 _ _ HL) as Hu.
  set (k := Z.to_nat (Z.min n1 28 - n0)).
  assert (k ≤ length nb)%nat as Hk.
  { unfold k. rewrite Hl in Hnb. pose proof (tb_mono n0 n1). tb_lia. }
  exists (list_inserts (Z.to_nat n0) (take k nb) (direct di)), (drop k nb), (L ++ take k nb).
  split_and!.
  - apply run_fill; lia.
  - split; [by rewrite <-app_assoc, take_drop|]. split; [|split; [|done]].
    + destruct (decide (n0 ≤ 28)) as [Hc|Hc].
      * replace (Z.to_nat n0) with (length L) by (tb_lia).
        apply rep_direct; [done| |done]. rewrite length_take.
        unfold k in *. tb_lia.
      * replace k with 0%nat by lia. rewrite take_0, app_nil_r, list_inserts_nil. by destruct di.
    + split_and!; [done|split|done|done]; simpl; [by rewrite length_inserts|].
      apply Forall_list_inserts; [|done]. by apply Forall_take.
  - rewrite length_app, length_take. unfold k in *. tb_lia.
Qed.

(** [nb] has a next block, a block number. *)
Lemma grow_next L nb di s :
  grow_at L nb di s → Z.of_nat (length L) < tb n1 →
  ∃ x nb', nb = x :: nb' ∧ is_u32 x ∧ LF = (L ++ [x]) ++ nb'.
Proof.
  intros (HL & _) Hlt. pose proof (nb_length _ _ HL). pose proof (nb_u32 _ _ HL) as Hu.
  destruct nb as [|x nb']; [simpl in *; lia|]. exists x, nb'. split; [done|].
  split; [by inv Hu|]. by rewrite <-app_assoc.
Qed.

Lemma grow_alloc1 L nb di s :
  28 < n1 → grow_at L nb di s → Z.of_nat (length L) = Z.max (tb n0) 28 →
  ∃ di' nb' L', run (if Z.max n0 28 =? 28 then
       '(b, new_blocks) ← next nb; mret (with_indirect1 b di, new_blocks)
     else mret (di, nb)) s = Ok (s, (di', nb')) ∧
    grow_at L' nb' di' s ∧ Z.of_nat (length L') = Z.max (tb n0) 29.
Proof.
  intros H28 Hg Hl. destruct (Z.eqb_spec (Z.max n0 28) 28) as [Hc|Hc].
  - destruct (grow_next _ _ _ _ Hg) as (x & nb' & -> & Hx & HL').
    { tb_lia. }
    exists (with_indirect1 x di), nb', (L ++ [x]). split; [by erewrite run_bind_ok by apply run_ret|].
    destruct Hg as (HL & Hrep & (Hsz & Hdf & H1 & H2) & Hrest). split.
    + split; [done|]. split; [|done]. apply rep_alloc1; [done|].
      tb_lia.
    + rewrite length_app. simpl. tb_lia.
  - exists di, nb, L. split; [apply run_ret|]. split; [done|].
    tb_lia.
Qed.

(** The block that an index role names can be taken. *)
Lemma index_free r b s d n :
  blocks_ok (S n) s0 LF → LF !! Z.to_nat (role_pos r) = Some b → frame LF (Disk.disk s0) d →
  disk_ok d → d = Disk.disk s → Disk.held s = Disk.held s0 →
  free s b ∧ ∃ blk, Disk.disk s !! b = Some blk ∧ length blk = 512%nat.
Proof.
  intros (_ & Hf & Hroom) Hb [_ Hfr] Hd -> Hh.
  destruct (Forall_lookup_1 _ _ _ _ Hf Hb) as (Hu & Hnh & Hbd).
  split; [split; rewrite Hh; [done|lia]|]. apply Hfr in Hbd as [blk Hblk].
  exists blk. split; [done|]. eauto with disk.
Qed.

Lemma grow_ind1 L nb di s cur :
  28 < n1 → grow_at L nb di s → Z.of_nat (length L) = Z.max (tb n0) 29 → cur = Z.max n0 28 - 28 →
  ∃ nb' d' L', run (modify_cache (indirect1 di) 0 (λ ib : IndirectBlock,
      '(current_blocks, ids', new_blocks) ←
        fill 128 (Z.min (n1 - 28) 128) (cur, ids ib, nb);
      mret (mkIndirectBlock ids', (current_blocks, new_blocks)))) s =
      Ok (set_disk d' s, (Z.max cur (Z.min (n1 - 28) 128), nb')) ∧
    grow_at L' nb' di (set_disk d' s) ∧
    Z.of_nat (length L') = Z.max (tb n0) (29 + Z.min (n1 - 28) 128).
Proof.
  intros H28 Hg Hl Hcur. pose proof Hg as (HL & Hrep & Hv & Hd & Hfr & Hh & Hrest).
  destruct (rep_lookup _ _ _ Ind1 Hrep) as (i1 & Hi1 & [= <-]); [done|simpl; lia|].
  destruct (index_free Ind1 (indirect1 di) s (Disk.disk s) 1) as (Hfree & blk & Hblk & Hbl); try done.
  { rewrite HL. by apply lookup_app_l_Some. }
  pose proof (nb_length _ _ HL) as Hnb. pose proof (nb_u32 _ _ HL) as Hu.
  pose proof (words32_fit blk) as [Hwl Hwf].
  set (k := Z.to_nat (Z.min (n1 - 28) 128 - cur)).
  assert (k ≤ length nb)%nat as Hk.
  { unfold k. rewrite Hl in Hnb. tb_lia. }
  set (ws := list_inserts (Z.to_nat cur) (take k nb) (words32 blk)).
  exists (drop k nb), (<[indirect1 di := le_bytes 4 ws]> (Disk.disk s)), (L ++ take k nb). split_and!.
  - erewrite (run_modify_indirect _ _ _ _ blk ws); [reflexivity|done..|by unfold ws; rewrite length_inserts|].
    erewrite run_bind_ok by (apply run_fill; [lia|simpl; lia|lia|lia]). apply run_ret.
  - split; [by rewrite <-app_assoc, take_drop|]. split; [|split; [done|split; [|split; [|done]]]].
    + simpl. unfold ws. destruct (decide (n0 ≤ 156)) as [Hc|Hc].
      * replace (Z.to_nat cur) with (length L - 29)%nat by (tb_lia).
        apply rep_ind1; try done; [lia| |by apply Forall_take].
        rewrite length_take. unfold k in *. tb_lia.
      * replace k with 0%nat by lia. rewrite take_0, app_nil_r, list_inserts_nil.
        by rewrite bytes_words32, insert_id.
    + apply disk_ok_insert; [done|]. apply length_words_bytes. split; unfold ws.
      * by rewrite length_inserts.
      * apply Forall_list_inserts; [by apply Forall_take|done].
    + eapply frame_trans; [done|]. apply frame_insert; [|eauto].
      exists Ind1. split_and!; [done..|]. rewrite HL. by apply lookup_app_l_Some.
  - rewrite length_app, length_take. unfold k in *. tb_lia.
Qed.

Lemma grow_alloc2 L nb di s :
  156 < n1 → grow_at L nb di s → Z.of_nat (length L) = Z.max (tb n0) 157 →
  ∃ di' nb' L', run (if Z.max (n0 - 28) 128 =? 128 then
       '(b, new_blocks) ← next nb; mret (with_indirect2 b di, new_blocks)
     else mret (di, nb)) s = Ok (s, (di', nb')) ∧
    grow_at L' nb' di' s ∧ Z.of_nat (length L') = Z.max (tb n0) 158.
Proof.
  intros H156 Hg Hl. destruct (Z.eqb_spec (Z.max (n0 - 28) 128) 128) as [Hc|Hc].
  - destruct (grow_next _ _ _ _ Hg) as (x & nb' & -> & Hx & HL').
    { tb_lia. }
    exists (with_indirect2 x di), nb', (L ++ [x]). split; [by erewrite run_bind_ok by apply run_ret|].
    destruct Hg as (HL & Hrep & (Hsz & Hdf & H1 & H2) & Hrest). split.
    + split; [done|]. split; [|done]. apply rep_alloc2; [done|].
      tb_lia.
    + rewrite length_app. simpl. tb_lia.
  - exists di, nb, L. split; [apply run_ret|]. split; [done|].
    tb_lia.
Qed.

Lemma grow_ind2 L nb di s c0 :
  156 < n1 → grow_at L nb di s → Z.of_nat (length L) = Z.max (tb n0) 158 →
  c0 = Z.max (n0 - 156) 0 →
  ∃ d', run (modify_cache (indirect2 di) 0 (λ ib : IndirectBlock,
      '(_, _, ids', _) ← fill2 (Z.to_nat (n1 - 156 - c0)) ((n1 - 156) / 128) ((n1 - 156) mod 128)
                           (c0 / 128, c0 mod 128, ids ib, nb);
      mret (mkIndirectBlock ids', tt))) s = Ok (set_disk d' s, tt) ∧
    grow_at LF [] di (set_disk d' s).
Proof.
  intros H156 Hg Hl Hc0. pose proof Hg as (HL & Hrep & Hv & Hd & Hfr & Hh & He & Hrest).
  destruct (rep_lookup _ _ _ Ind2 Hrep) as (i2 & Hi2 & [= <-]); [done|simpl; lia|].
  assert (LF !! Z.to_nat (role_pos Ind2) = Some (indirect2 di)) as Hi2'.
  { rewrite HL. by apply lookup_app_l_Some. }
  destruct (index_free Ind2 (indirect2 di) s (Disk.disk s) 1) as (Hfree & blk & Hblk & Hbl); try done.
  destruct (run_fill2 fl di LF s0 Hok Hi2' ((n1 - 156) / 128) ((n1 - 156) mod 128)) with
    (fuel := Z.to_nat (n1 - 156 - c0)) (a0 := c0 / 128) (b0 := c0 mod 128) (ws := words32 blk) (nb := nb)
    (s := hold (indirect2 di) s) as (ws & s' & Hr & HLF' & Hf & Hd' & Hrep' & Hfr' & Hh' & He');
    [lia|lia|lia|rewrite HLF; f_equal; lia|lia| |unfold fill2_left; lia|].
  { split; [lia|]. split; [lia|]. split; [lia|]. exists L. split.
    - split; [done|]. split; [apply words32_fit|]. split; [done|]. simpl.
      rewrite bytes_words32, insert_id, Hh by done. done.
    - rewrite Hl. tb_lia. }
  exists (<[indirect2 di := le_bytes 4 ws]> (Disk.disk s')). split.
  - rewrite <-(put_back_indirect blk) by (done || apply Hf).
    erewrite (run_modify fl (indirect2 di) 0 _ s blk (mkIndirectBlock (words32 blk)) (Disk.disk s')
      (Disk.efs_held s) (mkIndirectBlock ws) tt Hfree Hblk (get_ref_indirect _ Hbl)); [done|].
    erewrite run_bind_ok by exact Hr. cbn iota beta. rewrite run_ret.
    destruct s' as [d2 h2 e2]. simpl in *. by rewrite Hh', Hh, He', He.
  - split; [by rewrite app_nil_r|]. split; [done|]. split; [done|]. split; [|split; [|done]].
    + apply disk_ok_insert; [done|]. by apply length_words_bytes.
    + eapply frame_trans; [done|]. apply frame_insert; [by exists Ind2|]. apply Hfr'.
      apply Hfr. eauto.
Qed.
End increase.

(** All the blocks are recorded. *)
Lemma grow_done LF s0 sz ty L nb di s n1 :
  grow_at LF s0 sz ty L nb di s → Z.of_nat (length LF) = tb n1 → Z.of_nat (length L) = tb n1 →
  rep (Disk.disk s) di LF ∧ inode_valid di ∧ disk_ok (Disk.disk s) ∧
  frame LF (Disk.disk s0) (Disk.disk s) ∧ size di = sz ∧ type_ di = ty.
Proof.
  intros (HL & Hrep & Hv & Hd & Hfr & _ & _ & Hs & Ht) HLF Hl.
  assert (nb = []) as ->.
  { apply length_zero_iff_nil. rewrite HL, length_app in HLF. lia. }
  rewrite app_nil_r in HL. subst. by split_and!.
Qed.

(** Growing an inode that records [L] by the blocks [nb], as many as
    [blocks_num_needed] says, succeeds, records [L ++ nb] and rewrites index
    blocks only. *)
Lemma run_increase_size fl di L nb s new_size :
  rep (Disk.disk s) di L → inode_valid di → disk_ok (Disk.disk s) → blocks_ok 2 s (L ++ nb) →
  size di ≤ new_size ≤ MAX_SIZE → Z.of_nat (length L) = total_blocks (size di) →
  Z.of_nat (length (L ++ nb)) = total_blocks new_size →
  ∃ d' di', Disk.arun fl (increase_size new_size nb di) s = Ok (set_disk d' s, di') ∧
    rep d' di' (L ++ nb) ∧ inode_valid di' ∧ disk_ok d' ∧ frame (L ++ nb) (Disk.disk s) d' ∧
    size di' = new_size ∧ type_ di' = type_ di.
Proof.
  intros Hrep Hv Hd Hok Hsz Hl HLF. pose proof Hv as (Hu & _).
  unfold is_u32 in Hu. rewrite total_blocks_tb in Hl by lia. rewrite total_blocks_tb in HLF by lia.
  pose proof (nblocks_mono (size di) new_size). pose proof (nblocks_range (size di)).
  pose proof (nblocks_range new_size). unfold is_u32, MAX_SIZE in *.
  set (n0 := nblocks (size di)) in *. set (n1 := nblocks new_size) in *.
  assert (0 ≤ n0 ≤ n1) as Hn by lia. assert (n1 ≤ 16540) as Hn1 by lia.
  assert (grow_at (L ++ nb) s new_size (type_ di) L nb (with_size new_size di) s) as Hg.
  { split; [done|]. split; [by apply rep_size|]. destruct Hv as (? & ? & ? & ?).
    split; [|done]. split; [unfold is_u32; simpl; lia|done]. }
  unfold increase_size, data_blocks. rewrite !data_blocks_of_nblocks by (unfold MAX_SIZE; simpl; lia).
  fold n0. change (nblocks (size (with_size new_size di))) with n1.
  change INODE_DIRECT_COUNT with 28. change INODE_INDIRECT1_COUNT with 128.
  destruct (grow_direct fl _ _ _ _ n0 n1 Hok Hn HLF _ _ _ _ Hg Hl) as (dr & nb1 & L1 & Hr1 & Hg1 & Hl1).
  cbn zeta. erewrite run_bind_ok by exact Hr1. cbn iota beta.
  destruct (Z.leb_spec n1 28) as [Hc|Hc].
  { destruct (grow_done _ _ _ _ _ _ _ _ _ Hg1 HLF) as (Hres & ?).
    { rewrite Hl1. tb_lia. }
    eexists _, _. rewrite run_ret. rewrite <-(set_disk_id s) at 1. by split. }
  replace (Z.max n0 (Z.min n1 28)) with (Z.max n0 28) by lia.
  destruct (grow_alloc1 fl _ _ _ _ n0 n1 Hok HLF _ _ _ _ Hc Hg1) as (di2 & nb2 & L2 & Hr2 & Hg2 & Hl2).
  { rewrite Hl1. f_equal. lia. }
  erewrite run_bind_ok by exact Hr2. cbn iota beta.
  rewrite (wrap32_small (Z.max n0 28 - 28)) by (unfold is_u32; lia).
  destruct (grow_ind1 fl _ _ _ _ n0 n1 Hok Hn HLF _ _ _ _ _ Hc Hg2 Hl2 eq_refl)
    as (nb3 & d3 & L3 & Hr3 & Hg3 & Hl3).
  erewrite run_bind_ok by exact Hr3. cbn iota beta.
  destruct (Z.leb_spec (n1 - 28) 128) as [Hc2|Hc2].
  { destruct (grow_done _ _ _ _ _ _ _ _ _ Hg3 HLF) as (Hres & ?).
    { rewrite Hl3. tb_lia. }
    eexists _, _. rewrite run_ret. by split. }
  replace (Z.max (Z.max n0 28 - 28) (Z.min (n1 - 28) 128)) with (Z.max (n0 - 28) 128) by lia.
  assert (156 < n1) as Hc3 by lia.
  destruct (grow_alloc2 fl _ _ _ _ n0 n1 Hok HLF _ _ _ _ Hc3 Hg3) as (di4 & nb4 & L4 & Hr4 & Hg4 & Hl4).
  { rewrite Hl3. f_equal. lia. }
  erewrite run_bind_ok by exact Hr4. cbn iota beta.
  rewrite (wrap32_small (Z.max (n0 - 28) 128 - 128)) by (unfold is_u32; lia).
  replace (n1 - 28 - 128) with (n1 - 156) by lia.
  destruct (grow_ind2 fl _ _ _ _ n0 n1 Hok Hn Hn1 HLF _ _ _ _ (Z.max (n0 - 28) 128 - 128) Hc3 Hg4 Hl4)
    as (d5 & Hr5 & Hg5); [lia|].
  erewrite run_bind_ok by exact Hr5. destruct (grow_done _ _ _ _ _ _ _ _ _ Hg5 HLF HLF) as (Hres & ?).
  eexists _, _. rewrite run_ret. by split.
Qed.

(** ** [get_block_id] and [clear_size] *)
Section lookup.
Context (fl : fault).
Notation run p := (Disk.arun fl p).

(** A block of [L] can be taken and is on the disk. *)
Lemma block_free n s L p b :
  blocks_ok (S n) s L → disk_ok (Disk.disk s) → L !! p = Some b →
  free s b ∧ ∃ blk, Disk.disk s !! b = Some blk ∧ length blk = 512%nat.
Proof.
  intros (_ & Hf & Hroom) Hd Hb. destruct (Forall_lookup_1 _ _ _ _ Hf Hb) as (Hu & Hnh & blk & Hblk).
  split; [split; [done|lia]|]. exists blk. split; [done|]. eauto with disk.
Qed.

(** Reading entry [i] of the index block of role [r]. *)
Lemma run_read_entry n s L r b i x :
  blocks_ok (S n) s L → disk_ok (Disk.disk s) → L !! Z.to_nat (role_pos r) = Some b →
  0 ≤ i → entry (Disk.disk s) b i = Some x →
  run (read_cache b 0 (λ ib : IndirectBlock, index (ids ib) i)) s = Ok (s, x).
Proof.
  intros Hok Hd Hb Hi He. destruct (block_free _ _ _ _ _ Hok Hd Hb) as (Hf & blk & Hblk & Hbl).
  eapply run_read_indirect; [done..|]. apply run_index; [done|].
  unfold entry in He. by rewrite Hblk in He.
Qed.

Lemma run_get_block_id s di L k :
  rep (Disk.disk s) di L → blocks_ok 1 s L → disk_ok (Disk.disk s) → 0 ≤ k < 16540 →
  role_pos (data_role k) < Z.of_nat (length L) →
  ∃ x, L !! Z.to_nat (role_pos (data_role k)) = Some x ∧ run (get_block_id di k) s = Ok (s, x).
Proof.
  intros Hrep Hok Hd Hk Hl. destruct (data_role_ok k Hk) as [Hr _].
  destruct (rep_lookup _ _ _ _ Hrep Hr Hl) as (x & Hx & Hs). exists x. split; [done|].
  unfold get_block_id. change INODE_DIRECT_COUNT with 28. change INDIRECT1_BOUND with 156.
  change INODE_INDIRECT1_COUNT with 128. unfold data_role in *.
  destruct (Z.ltb_spec k 28); [by apply run_index; [lia|]|].
  destruct (Z.ltb_spec k 156); cbn [role_ok role_pos slot] in Hr, Hl, Hx, Hs.
  - destruct (rep_lookup _ _ _ Ind1 Hrep) as (i1 & Hi1 & [= <-]); [done|simpl; lia|].
    eapply (run_read_entry 0 s L Ind1); (done || lia).
  - destruct (rep_lookup _ _ _ Ind2 Hrep) as (i2 & Hi2 & [= <-]); [done|simpl; lia|].
    destruct (rep_lookup _ _ _ (Ind2E ((k - 156) / 128)) Hrep) as (i1 & Hi1 & He1); [simpl; lia..|].
    simpl in He1. rewrite He1 in Hs. simpl in Hs.
    erewrite run_bind_ok by (eapply (run_read_entry 0 s L Ind2); (done || lia)).
    eapply (run_read_entry 0 s L (Ind2E ((k - 156) / 128))); (done || lia).
Qed.

(** Pushing the entries of an array that agrees with [L] from position [p] on. *)
Lemma take_app_range (L arr : list Z) (p n : nat) :
  (p + n ≤ length L)%nat →
  (∀ j x, (j < n)%nat → L !! (p + j)%nat = Some x → arr !! j = Some x) →
  take p L ++ take n arr = take (p + n) L.
Proof.
  intros Hl Ha. rewrite <-take_take_drop. f_equal. apply list_eq. intros j.
  destruct (decide (j < n)%nat) as [Hj|Hj]; [|rewrite !lookup_take_ge by lia; done].
  rewrite !lookup_take_lt, lookup_drop by lia.
  destruct (lookup_lt_is_Some_2 L (p + j)) as [x Hx]; [lia|]. rewrite Hx. by apply Ha.
Qed.

Lemma run_push_range n arr v s :
  0 ≤ n ≤ Z.of_nat (length arr) →
  run (push_range n arr v) s = Ok (s, v ++ take (Z.to_nat n) arr).
Proof.
  intros Hn. unfold push_range.
  destruct (run_for fl (λ pre v' s', v' = v ++ take (length pre) arr ∧ s' = s)
    (λ v j, x ← index arr j; mret (v ++ [x])) (range 0 n) v s) as (v' & s' & -> & -> & ->).
  - intros pre j post v' s' Hl [-> ->]. pose proof (range_nth _ _ _ _ Hl) as [Hj ->].
    destruct (lookup_lt_is_Some_2 arr (length pre)) as [x Hx]; [lia|].
    eexists _, s. split; [|done]. erewrite run_bind_ok by (apply run_index; [lia|by rewrite Nat2Z.id]).
    rewrite run_ret. rewrite length_app, Nat.add_1_r, (take_S_r _ _ _ Hx). by rewrite app_assoc.
  - by rewrite take_0, app_nil_r.
  - repeat f_equal. unfold range. rewrite length_seqZ. lia.
Qed.

Lemma upd_same b blk s :
  Disk.disk s !! b = Some blk → length blk = 512%nat → upd b (le_bytes 4 (words32 blk)) s = s.
Proof. intros Hb Hl. unfold upd. rewrite bytes_words32, insert_id by done. by destruct s. Qed.

(** Pushing a second-level index block and its entries continues [L]. *)
Lemma run_push_sub s di L a n blk2 :
  rep (Disk.disk s) di L → blocks_ok 2 s L → disk_ok (Disk.disk s) →
  Disk.disk s !! indirect2 di = Some blk2 → 0 ≤ a → 0 < n ≤ 128 → a < 128 →
  159 + 129 * a + n ≤ Z.of_nat (length L) →
  run (push_sub n (words32 blk2) (take (Z.to_nat (158 + 129 * a)) L) a) (hold (indirect2 di) s) =
    Ok (hold (indirect2 di) s, take (Z.to_nat (159 + 129 * a + n)) L).
Proof.
  intros Hrep Hok Hd Hb2 Ha Hn Ha' Hl. pose proof Hok as (Hnd & _ & Hroom).
  destruct (rep_lookup _ _ _ Ind2 Hrep) as (i2 & Hi2 & [= <-]); [done|simpl; lia|].
  destruct (rep_lookup _ _ _ (Ind2E a) Hrep) as (i1 & Hi1 & He1); [simpl; lia..|].
  cbn [role_pos slot] in *. unfold entry in He1. rewrite Hb2 in He1. simpl in He1.
  destruct (block_free 1 s L _ _ Hok Hd Hi1) as ([Hnh _] & blk & Hblk & Hbl).
  unfold push_sub. erewrite run_bind_ok by (apply run_index; done).
  erewrite (run_modify_indirect _ _ _ _ blk (words32 blk)).
  - rewrite upd_same by done. reflexivity.
  - split; simpl; [|unfold BLOCK_CACHE_SIZE in *; lia]. apply not_elem_of_cons. split; [|done].
    intros ->. pose proof (NoDup_lookup _ _ _ _ Hnd Hi1 Hi2). lia.
  - done.
  - done.
  - apply words32_fit.
  - erewrite run_bind_ok by (apply run_push_range; simpl; rewrite (proj1 (words32_fit blk)); lia).
    rewrite run_ret. cbn [ids]. do 4 f_equal. rewrite <-take_S_r by done.
    replace (Z.to_nat (159 + 129 * a + n)) with (S (Z.to_nat (158 + 129 * a)) + Z.to_nat n)%nat by lia.
    apply take_app_range; [lia|]. intros j x Hj Hx.
    pose proof (Hrep (SubE a (Z.of_nat j)) x) as Hs. cbn [role_ok role_pos slot] in Hs.
    unfold entry in Hs. rewrite Hb2 in Hs. simpl in Hs. rewrite He1 in Hs. simpl in Hs.
    rewrite Hblk in Hs. simpl in Hs. rewrite Nat2Z.id in Hs. apply Hs; [lia|].
    rewrite <-Hx. f_equal. lia.
Qed.

Lemma run_push_direct n dr s :
  0 ≤ n ≤ Z.of_nat (length dr) →
  run (for_ (range 0 n) (λ '(dr, v) current_blocks,
       x ← index dr current_blocks;
       dr' ← set_index dr current_blocks 0;
       mret (dr', v ++ [x])) (dr, [])) s =
    Ok (s, (replicate (Z.to_nat n) 0 ++ drop (Z.to_nat n) dr, take (Z.to_nat n) dr)).
Proof.
  intros Hn. edestruct (run_for fl (λ (pre : list Z) st s', st = (replicate (length pre) 0 ++
      drop (length pre) dr, take (length pre) dr) ∧ s' = s)) as (st & s' & Hr & -> & ->);
    [| |rewrite Hr; repeat f_equal; unfold range; rewrite length_seqZ; lia].
  - intros pre j post st s' Hl [-> ->]. pose proof (range_nth _ _ _ _ Hl) as [Hj ->].
    destruct (lookup_lt_is_Some_2 dr (length pre)) as [x Hx]; [lia|].
    eexists _, s. split; [|done]. cbn iota beta.
    erewrite run_bind_ok by (apply run_index; [lia|rewrite lookup_app_r; rewrite length_replicate, ?lookup_drop;
      [rewrite Nat2Z.id, Nat.sub_diag, Nat.add_0_r; done|lia]]).
    erewrite run_bind_ok by (apply run_set_index; rewrite length_app, length_replicate, length_drop; lia).
    rewrite run_ret. rewrite length_app, Nat.add_1_r, (take_S_r _ _ _ Hx), Nat2Z.id.
    rewrite insert_app_r_alt, length_replicate, Nat.sub_diag by (rewrite length_replicate; lia).
    rewrite (drop_S _ _ _ Hx), replicate_S_end, <-app_assoc. done.
  - by rewrite take_0.
Qed.

Lemma run_push_ind1 s di L m :
  rep (Disk.disk s) di L → blocks_ok 1 s L → disk_ok (Disk.disk s) → 0 < m ≤ 128 →
  29 + m ≤ Z.of_nat (length L) →
  run (modify_cache (indirect1 di) 0 (λ ib : IndirectBlock,
        v ← push_range m (ids ib) (take 28 L ++ [indirect1 di]);
        mret (ib, v))) s = Ok (s, take (Z.to_nat (29 + m)) L).
Proof.
  intros Hrep Hok Hd Hm Hl.
  destruct (rep_lookup _ _ _ Ind1 Hrep) as (i1 & Hi1 & [= <-]); [done|simpl; lia|].
  destruct (block_free 0 s L _ _ Hok Hd Hi1) as (Hf & blk & Hblk & Hbl).
  erewrite (run_modify_indirect _ _ _ _ blk (words32 blk)); [by rewrite upd_same|done..| |].
  - apply words32_fit.
  - erewrite run_bind_ok by (apply run_push_range; simpl; rewrite (proj1 (words32_fit blk)); lia).
    rewrite run_ret. cbn [ids]. do 4 f_equal.
    change 28%nat with (Z.to_nat (role_pos Ind1)). rewrite <-take_S_r by done.
    replace (Z.to_nat (29 + m)) with (S (Z.to_nat (role_pos Ind1)) + Z.to_nat m)%nat by (simpl; lia).
    apply take_app_range; [simpl; lia|]. intros j x Hj Hx.
    pose proof (Hrep (Ind1E (Z.of_nat j)) x) as Hs. cbn [role_ok role_pos slot] in Hs.
    unfold entry in Hs. rewrite Hblk in Hs. simpl in Hs. rewrite Nat2Z.id in Hs. apply Hs; [lia|].
    rewrite <-Hx. f_equal. simpl. lia.
Qed.

Lemma run_push_ind2 s di L m :
  rep (Disk.disk s) di L → blocks_ok 2 s L → disk_ok (Disk.disk s) → 0 < m ≤ 16384 →
  Z.of_nat (length L) = tb (156 + m) →
  run (modify_cache (indirect2 di) 0 (λ ib : IndirectBlock,
        v ← for_ (range 0 (m / 128)) (push_sub 128 (ids ib)) (take 157 L ++ [indirect2 di]);
        v ← (if 0 <? m mod 128 then push_sub (m mod 128) (ids ib) v (m / 128) else mret v);
        mret (ib, v))) s = Ok (s, L).
Proof.
  intros Hrep Hok Hd Hm Hl.
  destruct (rep_lookup _ _ _ Ind2 Hrep) as (i2 & Hi2 & [= <-]); [done|simpl; tb_lia|].
  destruct (block_free 1 s L _ _ Hok Hd Hi2) as (Hf & blk & Hblk & Hbl).
  erewrite (run_modify_indirect _ _ _ _ blk (words32 blk)); [by rewrite upd_same|done..| |].
  { apply words32_fit. }
  change 157%nat with (Z.to_nat (role_pos Ind2)). rewrite <-take_S_r by done. cbn [ids].
  destruct (run_for fl (λ pre v s', v = take (Z.to_nat (158 + 129 * Z.of_nat (length pre))) L ∧
      s' = hold (indirect2 di) s) (push_sub 128 (words32 blk)) (range 0 (m / 128))
      (take (S (Z.to_nat (role_pos Ind2))) L) (hold (indirect2 di) s)) as (v & s' & Hr & -> & ->).
  - intros pre j post v s' Hsplit [-> ->]. pose proof (range_nth _ _ _ _ Hsplit) as [Hj ->].
    eexists _, _. split; [apply (run_push_sub s di L); try done; tb_lia|].
    split; [|done]. rewrite length_app. simpl. f_equal. lia.
  - split; [|done]. f_equal.
  - erewrite run_bind_ok by exact Hr. unfold range. rewrite length_seqZ.
    replace (Z.of_nat (Z.to_nat (m / 128 - 0))) with (m / 128) by lia.
    destruct (Z.ltb_spec 0 (m mod 128)).
    + erewrite run_bind_ok by (apply (run_push_sub s di L); try done; tb_lia).
      rewrite run_ret. do 4 f_equal. apply take_ge. tb_lia.
    + erewrite run_bind_ok by apply run_ret. rewrite run_ret. do 4 f_equal. apply take_ge. tb_lia.
Qed.

(** Clearing an inode that records [L] returns [L] and changes no block. *)
Lemma run_clear_size s di L :
  rep (Disk.disk s) di L → inode_valid di → disk_ok (Disk.disk s) → blocks_ok 2 s L →
  size di ≤ MAX_SIZE → Z.of_nat (length L) = total_blocks (size di) →
  ∃ di', run (clear_size di) s = Ok (s, (di', L)) ∧
    inode_valid di' ∧ size di' = 0 ∧ type_ di' = type_ di.
Proof.
  intros Hrep (Hu & [Hdl Hdf] & Hu1 & Hu2) Hd Hok Hsz Hl. unfold is_u32 in Hu.
  rewrite total_blocks_tb in Hl by lia. pose proof (nblocks_range (size di) ltac:(lia)) as Hn.
  unfold clear_size, data_blocks. rewrite !data_blocks_of_nblocks by lia.
  set (n := nblocks (size di)) in *. clearbody n.
  change INODE_DIRECT_COUNT with 28. change INODE_INDIRECT1_COUNT with 128. cbn zeta.
  erewrite run_bind_ok by (apply run_push_direct; simpl; lia). cbn iota beta.
  set (dr := replicate _ 0 ++ drop _ _).
  assert (fits_block 4 28 dr) as Hdr.
  { unfold dr. split; [rewrite length_app, length_replicate, length_drop; simpl; lia|].
    apply Forall_app. split; [by apply Forall_replicate|by apply Forall_drop]. }
  assert (∀ i1 i2, is_u32 i1 → is_u32 i2 → inode_valid (mkDiskInode 0 dr i1 i2 (type_ di))) as Hval.
  { intros. split; [|by split]. unfold is_u32. simpl. lia. }
  assert (take (Z.to_nat (Z.min n 28)) (direct di) = take (Z.to_nat (Z.min n 28)) L) as Hv.
  { apply (take_app_range L _ 0); [tb_lia|]. intros j x Hj Hx.
    rewrite <-(Nat2Z.id j). apply (Hrep (Direct (Z.of_nat j))); simpl; [lia|].
    by rewrite Nat2Z.id. }
  cbn [direct with_size]. rewrite Hv. destruct (Z.leb_spec n 28) as [Hc|Hc].
  { eexists. rewrite run_ret, take_ge by tb_lia. split; [done|]. split; [by apply Hval|done]. }
  replace (Z.to_nat (Z.min n 28)) with 28%nat by lia. cbn [indirect1 with_direct with_size].
  assert (blocks_ok 1 s L) as Hok1 by (split_and!; [apply Hok..|]; destruct Hok as (_ & _ & ?); lia).
  erewrite run_bind_ok by (apply run_push_ind1; (done || tb_lia)).
  destruct (Z.leb_spec (n - 28) 128) as [Hc2|Hc2].
  { eexists. rewrite run_ret, take_ge by tb_lia. split; [done|]. split; [|done]. by apply Hval. }
  erewrite run_bind_ok by (apply run_assert, Z.leb_le; change INODE_INDIRECT2_COUNT with 16384; lia).
  replace (Z.to_nat (29 + Z.min (n - 28) 128)) with 157%nat by lia. cbn [indirect2 with_indirect1 with_direct with_size].
  erewrite run_bind_ok by (apply run_push_ind2; [done..|lia|rewrite Hl; f_equal; lia]).
  eexists. rewrite run_ret. split; [done|]. split; [|done]. by apply Hval.
Qed.
End lookup.

(** C34: growing an inode.  [increase_size] with as many new blocks as
    [blocks_num_needed] asks for returns; the inode then records its old blocks and
    the new ones, in order, over the direct, indirect and doubly indirect pointers;
    only index blocks of the file were written. *)
Theorem increase_size_records fl s di L nb new_size :
  rep (Disk.disk s) di L → inode_valid di → disk_ok (Disk.disk s) → blocks_ok 2 s (L ++ nb) →
  size di ≤ new_size ≤ MAX_SIZE → Z.of_nat (length L) = total_blocks (size di) →
  Z.of_nat (length (L ++ nb)) = total_blocks new_size →
  ∃ d' di', Disk.arun fl (increase_size new_size nb di) s = Ok (set_disk d' s, di') ∧
    rep d' di' (L ++ nb) ∧ inode_valid di' ∧ disk_ok d' ∧ frame (L ++ nb) (Disk.disk s) d' ∧
    size di' = new_size ∧ type_ di' = type_ di.
Proof. intros. by apply run_increase_size. Qed.

(** C35: clearing an inode.  [clear_size] returns all blocks the inode recorded, index
    blocks included and each once, in the order they were recorded; it writes no
    block and leaves the size 0. *)
Theorem clear_size_returns_blocks fl s di L :
  rep (Disk.disk s) di L → inode_valid di → disk_ok (Disk.disk s) → blocks_ok 2 s L →
  size di ≤ MAX_SIZE → Z.of_nat (length L) = total_blocks (size di) →
  ∃ di', Disk.arun fl (clear_size di) s = Ok (s, (di', L)) ∧
    inode_valid di' ∧ size di' = 0 ∧ type_ di' = type_ di.
Proof. intros. by apply run_clear_size. Qed.

(** A disk of 64 blocks of zeros, and an empty file on it. *)
Definition demo_disk : gmap Z block :=
  list_to_map ((λ i, (i, replicate 512 Byte.x00)) <$> range 0 64).
Definition demo_disk_state : Disk.state := Disk.mkState demo_disk [] false.
Definition demo_inode : DiskInode := mkDiskInode 0 (replicate 28 0) 0 0 File.

Lemma demo_disk_lookup i : 0 ≤ i < 64 → demo_disk !! i = Some (replicate 512 Byte.x00).
Proof. apply (lookup_range_map (λ _, replicate 512 Byte.x00)). Qed.

Lemma demo_disk_ok : disk_ok demo_disk.
Proof. by apply (map_Forall_range_map (λ b, length b = 512%nat) (λ _, replicate 512 Byte.x00)). Qed.

Lemma demo_inode_valid : inode_valid demo_inode.
Proof. split; [done|]. split; [|done]. split; [done|]. by apply Forall_replicate. Qed.

Lemma demo_blocks_ok lo hi : 0 ≤ lo → hi ≤ 64 → blocks_ok 2 demo_disk_state (range lo hi).
Proof.
  intros Hlo Hhi. split; [apply NoDup_seqZ|]. split; [|simpl; unfold BLOCK_CACHE_SIZE; lia].
  apply Forall_forall. intros x Hx%elem_of_range. split; [unfold is_u32; lia|].
  split; [apply not_elem_of_nil|]. simpl. rewrite demo_disk_lookup by lia. eauto.
Qed.

(** Thirty blocks: the indirect block is needed. *)
Lemma increase_size_records_witness :
  ∃ d' di', Disk.arun OutOfBounds (increase_size (30 * 512) (range 1 32) demo_inode) demo_disk_state =
      Ok (set_disk d' demo_disk_state, di') ∧ rep d' di' (range 1 32) ∧ size di' = 30 * 512.
Proof.
  destruct (increase_size_records OutOfBounds demo_disk_state demo_inode [] (range 1 32) (30 * 512))
    as (d' & di' & Hr & Hrep & _ & _ & _ & Hsz & _).
  - intros r x _ Hx. by rewrite lookup_nil in Hx.
  - exact demo_inode_valid.
  - exact demo_disk_ok.
  - apply (demo_blocks_ok 1 32); lia.
  - vm_compute. split; congruence.
  - reflexivity.
  - reflexivity.
  - exists d', di'. split; [exact Hr|]. split; [exact Hrep|exact Hsz].
Defined.

(** A file of three blocks. *)
Definition demo_file_inode : DiskInode := mkDiskInode 1500 ([7; 9; 8] ++ replicate 25 0) 0 0 File.

Lemma demo_file_rep : rep demo_disk demo_file_inode [7; 9; 8].
Proof.
  intros r x Hr Hx. pose proof (lookup_lt_Some _ _ _ Hx) as Hlt. cbn [length] in Hlt.
  destruct r as [i| |i| |a|a b]; cbn [role_ok role_pos] in *; try lia. cbn [slot demo_file_inode direct].
  by rewrite lookup_app_l by exact Hlt.
Qed.

Lemma demo_file_valid : inode_valid demo_file_inode.
Proof.
  split; [done|]. split; [|done]. split; [done|]. apply Forall_app. split; [|by apply Forall_replicate].
  repeat constructor; simpl; lia.
Qed.

Lemma demo_file_blocks_ok n : (n ≤ 2)%nat → blocks_ok n demo_disk_state [7; 9; 8].
Proof.
  intros Hn. split; [by apply (bool_decide_unpack (NoDup [7; 9; 8]))|].
  split; [|simpl; unfold BLOCK_CACHE_SIZE; lia].
  apply Forall_forall. intros x Hx. assert (0 ≤ x < 64) as Hr.
  { repeat (apply elem_of_cons in Hx as [->|Hx]; [lia|]). by apply elem_of_nil in Hx. }
  split; [unfold is_u32; lia|]. split; [apply not_elem_of_nil|].
  cbn [demo_disk_state Disk.disk]. rewrite demo_disk_lookup by exact Hr. eauto.
Qed.

Lemma clear_size_returns_blocks_witness :
  ∃ di', Disk.arun OutOfBounds (clear_size demo_file_inode) demo_disk_state = Ok (demo_disk_state, (di', [7; 9; 8])) ∧
    size di' = 0.
Proof.
  destruct (clear_size_returns_blocks OutOfBounds demo_disk_state demo_file_inode [7; 9; 8]) as (di' & Hr & _ & Hsz & _).
  - exact demo_file_rep.
  - exact demo_file_valid.
  - exact demo_disk_ok.
  - apply demo_file_blocks_ok. lia.
  - vm_compute. congruence.
  - reflexivity.
  - exists di'. split; [exact Hr|exact Hsz].
Defined.
