(* ===== verification/FileData.v ===== *)
(** * The bytes of a file

    [file_bytes d L n] is the concatenation of the [n] data blocks of a file whose
    blocks are [L].  [read_at] copies a segment of it into the buffer and
    [write_at] replaces a segment of it; both return, and touch nothing else. *)

From S2P Require Import Prelude Bytes BlockCache Layout DiskLib DiskInode.

Local Ltac Zify.zify_post_hook ::= Z.to_euclidean_division_equations.

(** ** Replacing a segment of a list *)
Definition splice {A} (l : list A) (i : nat) (src : list A) : list A :=
  take i l ++ src ++ drop (i + length src) l.

Lemma length_splice {A} (l src : list A) i :
  (i + length src ≤ length l)%nat → length (splice l i src) = length l.
Proof. intros. unfold splice. rewrite !length_app, length_take, length_drop. lia. Qed.

Lemma lookup_splice {A} (l src : list A) i j :
  (i + length src ≤ length l)%nat →
  splice l i src !! j =
    if decide (i ≤ j < i + length src)%nat then src !! (j - i)%nat else l !! j.
Proof.
  intros Hl. unfold splice. case_decide.
  - rewrite lookup_app_r by (rewrite length_take; lia).
    rewrite length_take, lookup_app_l by lia. f_equal. lia.
  - destruct (decide (j < i)%nat).
    + rewrite lookup_app_l by (rewrite length_take; lia). by rewrite lookup_take_lt.
    + rewrite lookup_app_r, lookup_app_r by (rewrite ?length_take; lia).
      rewrite length_take, lookup_drop. f_equal. lia.
Qed.

Lemma splice_nil {A} (l : list A) i : splice l i [] = l.
Proof. unfold splice. simpl. by rewrite Nat.add_0_r, take_drop. Qed.

Lemma splice_splice {A} (l s1 s2 : list A) i :
  (i + length s1 + length s2 ≤ length l)%nat →
  splice (splice l i s1) (i + length s1) s2 = splice l i (s1 ++ s2).
Proof.
  intros Hl. apply list_eq. intros j.
  rewrite !lookup_splice by (rewrite ?length_splice, ?length_app; lia). rewrite length_app.
  repeat case_decide; try lia; try done.
  - rewrite lookup_app_r by lia. f_equal. lia.
  - by rewrite lookup_app_l by lia.
Qed.

Lemma take_length_take {A} n (l : list A) : take (length (take n l)) l = take n l.
Proof.
  rewrite length_take. destruct (Nat.min_spec n (length l)) as [[? ->]|[? ->]]; [done|].
  by rewrite !take_ge by lia.
Qed.

Lemma splice_app {A} (l k src : list A) i :
  (i + length src ≤ length l)%nat → splice (l ++ k) i src = splice l i src ++ k.
Proof.
  intros. unfold splice. rewrite take_app_le, drop_app_le by lia. by rewrite <-!app_assoc.
Qed.

(** The segment just written is the segment read. *)
Lemma take_drop_splice {A} (l src : list A) i :
  (i + length src ≤ length l)%nat → take (length src) (drop i (splice l i src)) = src.
Proof.
  intros. unfold splice. rewrite drop_app_length' by (rewrite length_take; lia).
  by rewrite take_app_length.
Qed.

Lemma lookup_concat {A} (c : nat) (ls : list (list A)) i :
  (0 < c)%nat → Forall (λ l, length l = c) ls →
  concat ls !! i = (l ← ls !! (i / c)%nat; l !! (i mod c)%nat).
Proof.
  intros Hc Hls. revert i. induction Hls as [|l ls Hl Hls IH]; intros i; simpl.
  { by destruct (i / c)%nat. }
  destruct (decide (i < c)%nat).
  - rewrite lookup_app_l by lia. by rewrite Nat.div_small, Nat.mod_small by done.
  - rewrite lookup_app_r, IH by lia.
    rewrite Hl. replace (i / c)%nat with (S ((i - c) / c)); [|].
    + replace (i mod c)%nat with ((i - c) mod c)%nat; [done|].
      rewrite <-(Nat.Div0.mod_add (i - c) 1). f_equal. lia.
    + rewrite <-Nat.add_1_r, <-Nat.div_add by lia. f_equal. lia.
Qed.

(** ** Data blocks *)
Definition file_block (d : gmap Z block) (L : list Z) (k : Z) : block :=
  default [] (d !! (L !!! Z.to_nat (role_pos (data_role k)))).

Definition file_bytes (d : gmap Z block) (L : list Z) (n : Z) : list byte :=
  concat (file_block d L <$> range 0 n).

(** The first [n] data blocks of [L] are on the disk. *)
Definition file_ok (d : gmap Z block) (L : list Z) (n : Z) : Prop :=
  ∀ k, 0 ≤ k < n → ∃ x blk, L !! Z.to_nat (role_pos (data_role k)) = Some x ∧
    d !! x = Some blk ∧ length blk = 512%nat.

Lemma blocks_file_ok m s L n :
  blocks_ok m s L → disk_ok (Disk.disk s) → tb n ≤ Z.of_nat (length L) → n ≤ 16540 →
  file_ok (Disk.disk s) L n.
Proof.
  intros (_ & Hf & _) Hd Hl Hn k Hk. pose proof (data_role_pos k n Hk).
  destruct (data_role_ok k) as [Hr _]; [lia|]. pose proof (role_pos_nonneg _ Hr).
  destruct (lookup_lt_is_Some_2 L (Z.to_nat (role_pos (data_role k)))) as [x Hx]; [lia|].
  destruct (Forall_lookup_1 _ _ _ _ Hf Hx) as (_ & _ & blk & Hblk).
  exists x, blk. split_and!; [done..|]. eauto with disk.
Qed.

Section file_bytes.
Context (d : gmap Z block) (L : list Z) (n : Z) (Hok : file_ok d L n).

Lemma file_block_eq k x blk :
  L !! Z.to_nat (role_pos (data_role k)) = Some x → d !! x = Some blk → file_block d L k = blk.
Proof.
  intros Hx Hblk. unfold file_block. by rewrite (list_lookup_total_correct _ _ _ Hx), Hblk.
Qed.

Lemma length_file_block k : 0 ≤ k < n → length (file_block d L k) = 512%nat.
Proof.
  intros Hk. destruct (Hok k Hk) as (x & blk & Hx & Hb & Hl). by erewrite file_block_eq.
Qed.

Lemma file_blocks_512 : Forall (λ l, length l = 512%nat) (file_block d L <$> range 0 n).
Proof.
  apply Forall_fmap, Forall_forall. intros k Hk%elem_of_range. by apply length_file_block.
Qed.

Lemma lookup_file_bytes (i : nat) :
  Z.of_nat i < 512 * n →
  file_bytes d L n !! i = file_block d L (Z.of_nat (i / 512)) !! (i mod 512)%nat.
Proof.
  intros Hi. unfold file_bytes. rewrite (lookup_concat 512) by (lia || apply file_blocks_512).
  rewrite list_lookup_fmap. unfold range.
  assert (seqZ 0 (n - 0) !! (i / 512)%nat = Some (Z.of_nat (i / 512))) as ->; [|done].
  assert (i / 512 < Z.to_nat n)%nat by (apply Nat.Div0.div_lt_upper_bound; lia).
  apply lookup_seqZ. split; lia.
Qed.

Lemma length_file_bytes : 0 ≤ n → length (file_bytes d L n) = Z.to_nat (512 * n).
Proof.
  intros Hn. unfold file_bytes. rewrite length_concat.
  transitivity (sum_list (replicate (Z.to_nat n) 512%nat)).
  - f_equal. rewrite <-list_fmap_compose. unfold range. apply list_eq_same_length with (Z.to_nat n).
    + by rewrite length_replicate.
    + rewrite length_fmap, length_seqZ. lia.
    + intros i x y Hi Hx Hy. apply list_lookup_fmap_Some in Hx as (k & -> & Hk).
      apply lookup_seqZ in Hk. apply lookup_replicate in Hy as [-> _].
      simpl. apply length_file_block. lia.
  - rewrite sum_list_replicate. lia.
Qed.
End file_bytes.

(** A segment of the file inside one block is the segment of the block. *)
Lemma file_segment d L n k (a l : nat) :
  file_ok d L n → 0 ≤ k < n → (a + l ≤ 512)%nat →
  take l (drop (Z.to_nat (512 * k) + a) (file_bytes d L n)) = take l (drop a (file_block d L k)).
Proof.
  intros Hok Hk Hal. apply list_eq. intros j.
  destruct (decide (j < l)%nat); [|rewrite !lookup_take_ge by lia; done].
  rewrite !lookup_take_lt, !lookup_drop, lookup_file_bytes by (done || lia).
  set (i := (Z.to_nat (512 * k) + a + j)%nat).
  assert (i = (a + j) + Z.to_nat k * 512)%nat as -> by lia.
  rewrite Nat.div_add, Nat.Div0.mod_add by lia.
  rewrite Nat.div_small, Nat.mod_small by lia. f_equal. f_equal. lia.
Qed.

(** Replacing a segment of one data block replaces that segment of the file. *)
Lemma file_bytes_update d L n k x blk (a : nat) src :
  file_ok d L n → NoDup L → 0 ≤ k < n → n ≤ 16540 →
  L !! Z.to_nat (role_pos (data_role k)) = Some x → d !! x = Some blk →
  (a + length src ≤ 512)%nat →
  file_bytes (<[x := splice blk a src]> d) L n =
    splice (file_bytes d L n) (Z.to_nat (512 * k) + a) src ∧
  file_ok (<[x := splice blk a src]> d) L n.
Proof.
  intros Hok Hnd Hk Hn Hx Hblk Ha.
  assert (length blk = 512%nat) as Hbl.
  { destruct (Hok k Hk) as (? & ? & ? & ? & ?). congruence. }
  assert (∀ k', 0 ≤ k' < n → k' ≠ k → L !!! Z.to_nat (role_pos (data_role k')) ≠ x) as Hne.
  { intros k' Hk' Hne Hx'. destruct (Hok k' Hk') as (x' & _ & Hl' & _).
    rewrite (list_lookup_total_correct _ _ _ Hl') in Hx'. subst x'.
    pose proof (NoDup_lookup _ _ _ _ Hnd Hx Hl') as Hp.
    destruct (data_role_ok k), (data_role_ok k'); try lia.
    apply Hne. apply data_role_inj; [lia..|]. apply role_pos_inj; [done..|].
    pose proof (role_pos_nonneg (data_role k)). pose proof (role_pos_nonneg (data_role k')). naive_solver lia. }
  assert (file_ok (<[x := splice blk a src]> d) L n) as Hok'.
  { intros k' Hk'. destruct (Hok k' Hk') as (x' & blk' & Hx' & Hb' & Hl').
    destruct (decide (x' = x)) as [->|].
    - exists x, (splice blk a src). rewrite lookup_insert_eq, length_splice by lia. done.
    - exists x', blk'. by rewrite lookup_insert_ne. }
  assert (Z.to_nat (512 * k) + a + length src ≤ length (file_bytes d L n))%nat as Hlen.
  { rewrite length_file_bytes by (done || lia). lia. }
  split; [|done]. apply list_eq_same_length with (Z.to_nat (512 * n)).
  - rewrite length_splice, length_file_bytes by (done || lia). done.
  - apply length_file_bytes; [done|lia].
  - intros i y z Hi Hy Hz. enough (Some y = Some z) by congruence. rewrite <-Hy, <-Hz.
    rewrite lookup_file_bytes, lookup_splice, lookup_file_bytes by (done || lia).
    pose proof (Nat.div_mod_eq i 512) as Hdm. pose proof (Nat.mod_upper_bound i 512 ltac:(lia)) as Hm.
    destruct (decide (Z.of_nat (i / 512) = k)) as [Hk2|Hk2].
    + rewrite Hk2. erewrite !file_block_eq by (done || apply lookup_insert_eq).
      rewrite lookup_splice by lia. repeat case_decide; try lia; f_equal; lia.
    + rewrite decide_False by lia. unfold file_block. rewrite lookup_insert_ne; [done|].
      apply not_eq_sym, Hne; [|done].
      assert (i / 512 < Z.to_nat n)%nat by (apply Nat.Div0.div_lt_upper_bound; lia). lia.
Qed.

(** A file grown by blocks that hold [z] everywhere: the old bytes, then the new ones. *)
Lemma range_app lo mid hi : lo ≤ mid ≤ hi → range lo hi = range lo mid ++ range mid hi.
Proof.
  intros. unfold range. replace (hi - lo) with ((mid - lo) + (hi - mid)) by lia.
  rewrite seqZ_app by lia. do 2 f_equal. lia.
Qed.

Lemma tb_data_role n k : 0 ≤ n ≤ k → tb n ≤ role_pos (data_role k).
Proof. intros. unfold tb, data_role. repeat case_match; simpl; lia. Qed.

Lemma concat_replicate_const {A} (c : nat) (z : A) n :
  concat (replicate n (replicate c z)) = replicate (n * c) z.
Proof. induction n as [|n IH]; simpl; [done|]. by rewrite IH, replicate_add. Qed.

Lemma Forall_fmap_const {A B} (f : A → B) (c : B) l :
  (∀ x, x ∈ l → f x = c) → f <$> l = replicate (length l) c.
Proof.
  induction l as [|x l IH]; intros Hf; [done|]. csimpl. rewrite Hf by left. f_equal.
  apply IH. intros. apply Hf. by right.
Qed.

Lemma file_bytes_grow d d' L nb n0 n1 :
  0 ≤ n0 ≤ n1 → n1 ≤ 16540 → Z.of_nat (length L) = tb n0 → tb n1 ≤ Z.of_nat (length (L ++ nb)) →
  NoDup (L ++ nb) → frame (L ++ nb) d d' → Forall (λ x, d !! x = Some (replicate 512 Byte.x00)) nb →
  file_bytes d' (L ++ nb) n1 = file_bytes d L n0 ++ replicate (Z.to_nat (512 * (n1 - n0))) Byte.x00.
Proof.
  intros Hn Hn1 Hl Hl1 Hnd [Hfr _] Hz.
  assert (∀ k, 0 ≤ k < n1 → d' !! ((L ++ nb) !!! Z.to_nat (role_pos (data_role k))) =
    d !! ((L ++ nb) !!! Z.to_nat (role_pos (data_role k)))) as Hd.
  { intros k Hk. pose proof (data_role_pos k n1 Hk). destruct (data_role_ok k) as [Hr Hi]; [lia|].
    pose proof (role_pos_nonneg _ Hr). apply Hfr. intros (r & Hr' & Hi' & Hx).
    destruct (lookup_lt_is_Some_2 (L ++ nb) (Z.to_nat (role_pos (data_role k)))) as [x Hx']; [lia|].
    rewrite (list_lookup_total_correct _ _ _ Hx') in Hx.
    pose proof (NoDup_lookup _ _ _ _ Hnd Hx Hx'). pose proof (role_pos_nonneg _ Hr').
    assert (r = data_role k) as -> by (apply role_pos_inj; [done..|lia]). congruence. }
  unfold file_bytes. rewrite (range_app 0 n0 n1), fmap_app, concat_app by lia. f_equal.
  - f_equal. apply list_fmap_ext. intros j k Hk. unfold range in Hk. apply lookup_seqZ in Hk.
    unfold file_block. rewrite Hd by lia. pose proof (data_role_pos k n0 ltac:(lia)).
    destruct (data_role_ok k) as [Hr _]; [lia|]. pose proof (role_pos_nonneg _ Hr).
    by rewrite lookup_total_app_l by lia.
  - replace (Z.to_nat (512 * (n1 - n0))) with (Z.to_nat (n1 - n0) * 512)%nat by lia.
    rewrite <-concat_replicate_const. f_equal.
    replace (Z.to_nat (n1 - n0)) with (length (range n0 n1)) by (unfold range; by rewrite length_seqZ).
    apply Forall_fmap_const. intros k Hk%elem_of_range.
    unfold file_block. rewrite Hd by lia. pose proof (data_role_pos k n1 ltac:(lia)).
    pose proof (tb_data_role n0 k ltac:(lia)). rewrite lookup_total_app_r by lia.
    rewrite Forall_forall in Hz. rewrite Hz; [done|]. apply list_elem_of_lookup_total_2.
    rewrite length_app in *. lia.
Qed.

(** ** [read_at] *)
Lemma run_read_data {A} fl bid (f : DataBlock → prog A) s blk a :
  free s bid → Disk.disk s !! bid = Some blk → length blk = 512%nat →
  Disk.arun fl (f (mkDataBlock blk)) (hold bid s) = Ok (hold bid s, a) →
  Disk.arun fl (read_cache bid 0 f) s = Ok (s, a).
Proof. intros. eapply run_read_pure; [done..| |done]. by apply get_ref_data. Qed.

Lemma run_modify_data {A} fl bid (f : DataBlock → prog (DataBlock * A)) s blk blk' a :
  free s bid → Disk.disk s !! bid = Some blk → length blk = 512%nat → length blk' = 512%nat →
  Disk.arun fl (f (mkDataBlock blk)) (hold bid s) = Ok (hold bid s, (mkDataBlock blk', a)) →
  Disk.arun fl (modify_cache bid 0 f) s = Ok (upd bid blk' s, a).
Proof.
  intros Hf Hb Hl Hl' Hr. rewrite <-(put_back_data blk blk') by done.
  eapply run_modify_pure; [done..| |done]. by apply get_ref_data.
Qed.

Lemma run_copy_splice {A} fl (l src : list A) i j s :
  0 ≤ i ≤ j → j ≤ Z.of_nat (length l) → Z.of_nat (length src) = j - i →
  Disk.arun fl (copy_into l i j src) s = Ok (s, splice l (Z.to_nat i) src).
Proof.
  intros. rewrite run_copy_into by lia. unfold splice.
  by replace (Z.to_nat i + length src)%nat with (Z.to_nat j) by lia.
Qed.

(** What an inode needs to be read and written. *)
Definition readable (s : Disk.state) (di : DiskInode) (L : list Z) (n : Z) : Prop :=
  rep (Disk.disk s) di L ∧ blocks_ok 1 s L ∧ disk_ok (Disk.disk s) ∧
  tb n ≤ Z.of_nat (length L) ∧ n ≤ 16540.

Lemma readable_file_ok s di L n : readable s di L n → file_ok (Disk.disk s) L n.
Proof. intros (_ & Hok & Hd & Hl & Hn). by eapply blocks_file_ok. Qed.

(** The data block that holds byte [start]. *)
Lemma run_locate fl s di L n start :
  readable s di L n → 0 ≤ start < 512 * n →
  ∃ x blk, L !! Z.to_nat (role_pos (data_role (start / 512))) = Some x ∧
    Disk.arun fl (get_block_id di (wrap32 (start / 512))) s = Ok (s, x) ∧
    free s x ∧ Disk.disk s !! x = Some blk ∧ length blk = 512%nat.
Proof.
  intros (Hrep & Hok & Hd & Hl & Hn) Hst. rewrite wrap32_small by (unfold is_u32; lia).
  pose proof (data_role_pos (start / 512) n ltac:(lia)).
  destruct (run_get_block_id fl s di L (start / 512)) as (x & Hx & Hr); [done..|lia|lia|].
  destruct (block_free 0 s L _ _ Hok Hd Hx) as (Hf & blk & Hb & Hbl). eauto 10.
Qed.

Lemma run_read_loop fl s di L n off end_ buf0 fuel start r :
  readable s di L n → 0 ≤ off → start = off + r → 0 ≤ r → start < end_ ≤ 512 * n →
  end_ - off ≤ Z.of_nat (length buf0) → (S (Z.to_nat (end_ / 512 - start / 512)) ≤ fuel)%nat →
  let FB := file_bytes (Disk.disk s) L n in
  Disk.arun fl (read_loop fuel di end_ start (start / 512) r
      (splice buf0 0 (take (Z.to_nat r) (drop (Z.to_nat off) FB)))) s =
    Ok (s, (end_ - off, splice buf0 0 (take (Z.to_nat (end_ - off)) (drop (Z.to_nat off) FB)))).
Proof.
  intros Hrd Hoff Hst Hr Hend Hbuf Hfuel FB. pose proof (readable_file_ok _ _ _ _ Hrd) as Hfo.
  assert (length FB = Z.to_nat (512 * n)) as HFB by (apply length_file_bytes; [done|lia]).
  revert start r Hst Hr Hend Hfuel. induction fuel as [|fuel IH]; intros start r Hst Hr Hend Hfuel; [lia|].
  cbn [read_loop]. change BLOCK_SZ with 512. cbn zeta.
  set (ecb := Z.min ((start / 512 + 1) * 512) end_). assert (start < ecb ≤ end_) as Hecb by lia.
  set (seg := take (Z.to_nat r) (drop (Z.to_nat off) FB)).
  assert (length seg = Z.to_nat r) as Hseg by (unfold seg; rewrite length_take, length_drop; lia).
  erewrite run_bind_ok by (apply run_slice; [lia|rewrite length_splice; lia]).
  destruct (run_locate fl s di L n start Hrd ltac:(lia)) as (x & blk & Hx & Hg & Hf & Hb & Hbl).
  erewrite run_bind_ok by exact Hg.
  set (src := take (Z.to_nat (ecb - start)) (drop (Z.to_nat (start mod 512)) blk)).
  assert (Z.of_nat (length src) = ecb - start) as Hsrc.
  { unfold src. rewrite length_take, length_drop. lia. }
  erewrite run_bind_ok by (eapply run_read_data; [done..|];
    erewrite run_bind_ok by (apply run_slice; simpl; lia); apply run_copy_splice;
    [lia|rewrite length_splice; lia|cbn [data]; rewrite length_take, length_drop; lia]).
  cbn [data]. replace (start mod 512 + (ecb - start) - start mod 512) with (ecb - start) by lia. fold src.
  assert (splice (splice buf0 0 seg) (Z.to_nat r) src =
    splice buf0 0 (take (Z.to_nat (r + (ecb - start))) (drop (Z.to_nat off) FB))) as Hstep.
  { rewrite <-Hseg. change (length seg) with (0 + length seg)%nat. rewrite splice_splice by lia.
    f_equal. replace (Z.to_nat (r + (ecb - start))) with (Z.to_nat r + Z.to_nat (ecb - start))%nat by lia.
    rewrite <-take_take_drop. fold seg. f_equal. rewrite drop_drop. unfold src.
    rewrite <-(file_block_eq _ _ _ _ _ Hx Hb), <-(file_segment _ _ n) by (done || lia).
    f_equal. f_equal. lia. }
  rewrite Hstep. destruct (Z.eqb_spec ecb end_) as [He|He].
  - rewrite run_ret. replace (r + (ecb - start)) with (end_ - off) by lia. done.
  - replace (start / 512 + 1) with (ecb / 512) by lia. apply IH; lia.
Qed.

(** How much [read_at] and [write_at] transfer. *)
Definition transfer (di : DiskInode) (off len : Z) : Z := Z.min (off + len) (size di) - off.

Lemma run_read_at fl s di L n off buf :
  readable s di L n → size di ≤ 512 * n → 0 ≤ off → off + Z.of_nat (length buf) < 2 ^ 64 →
  let r := Z.max 0 (transfer di off (Z.of_nat (length buf))) in
  Disk.arun fl (read_at di off buf) s =
    Ok (s, (r, splice buf 0 (take (Z.to_nat r) (drop (Z.to_nat off) (file_bytes (Disk.disk s) L n))))).
Proof.
  intros Hrd Hsz Hoff Hlen. unfold transfer, read_at. cbn zeta.
  rewrite wrap64_small by (unfold is_u64; lia).
  destruct (Z.leb_spec (Z.min (off + Z.of_nat (length buf)) (size di)) off).
  - rewrite Z.max_l by lia. rewrite run_ret. by rewrite take_0, splice_nil.
  - rewrite Z.max_r by lia. change BLOCK_SZ with 512.
    set (e := Z.min _ _) in *.
    pose proof (run_read_loop fl s di L n off e buf (S (Z.to_nat (e / 512 - off / 512))) off 0) as Hloop.
    cbn zeta in Hloop. change (Z.to_nat 0) with 0%nat in Hloop.
    rewrite take_0, splice_nil in Hloop. apply Hloop; (done || lia).
Qed.

(** ** [write_at] *)

(** [d'] differs from [d] in data blocks of [L] only. *)
Definition data_frame (L : list Z) (n : Z) (d d' : gmap Z block) : Prop :=
  (∀ b, (∀ k, 0 ≤ k < n → L !! Z.to_nat (role_pos (data_role k)) ≠ Some b) → d' !! b = d !! b) ∧
  (∀ b, is_Some (d' !! b) ↔ is_Some (d !! b)).

Lemma data_frame_refl L n d : data_frame L n d d.
Proof. done. Qed.
Lemma data_frame_trans L n d1 d2 d3 : data_frame L n d1 d2 → data_frame L n d2 d3 → data_frame L n d1 d3.
Proof.
  intros [H1 H2] [H3 H4]. split; [intros b Hb; rewrite H3 by done; by apply H1|].
  intros b. by rewrite H4.
Qed.

(** Data blocks are not index blocks: a change of data blocks keeps what is recorded. *)
Lemma rep_data_frame d d' di L n :
  rep d di L → NoDup L → data_frame L n d d' → n ≤ 16540 → rep d' di L.
Proof.
  intros Hrep Hnd [Hfr _] Hn. apply (rep_ext d); [|done].
  intros b (r & Hr & Hi & Hb). apply Hfr. intros k Hk Hk'.
  destruct (data_role_ok k) as [Hrk Hik]; [lia|].
  pose proof (NoDup_lookup _ _ _ _ Hnd Hb Hk') as Hp.
  pose proof (role_pos_nonneg _ Hr). pose proof (role_pos_nonneg _ Hrk).
  assert (r = data_role k) as -> by (apply role_pos_inj; [done..|lia]). congruence.
Qed.

(** Replacing a segment of data block [start / 512]. *)
Lemma readable_write s di L n start x blk src :
  readable s di L n → 0 ≤ start < 512 * n →
  L !! Z.to_nat (role_pos (data_role (start / 512))) = Some x → Disk.disk s !! x = Some blk →
  start mod 512 + Z.of_nat (length src) ≤ 512 →
  let s' := upd x (splice blk (Z.to_nat (start mod 512)) src) s in
  readable s' di L n ∧ data_frame L n (Disk.disk s) (Disk.disk s') ∧
  file_bytes (Disk.disk s') L n = splice (file_bytes (Disk.disk s) L n) (Z.to_nat start) src.
Proof.
  intros Hrd Hst Hx Hb Hsrc s'. pose proof (readable_file_ok _ _ _ _ Hrd) as Hfo.
  destruct Hrd as (Hrep & Hok & Hd & Hl & Hn). pose proof Hok as (Hnd & Hf & Hroom).
  assert (data_frame L n (Disk.disk s) (Disk.disk s')) as Hdf.
  { split; intros b; simpl.
    - intros Hne. rewrite lookup_insert_ne; [done|]. intros ->. apply (Hne (start / 512)); [lia|done].
    - rewrite lookup_insert_is_Some'. naive_solver. }
  destruct (file_bytes_update (Disk.disk s) L n (start / 512) x blk (Z.to_nat (start mod 512)) src)
    as [HFB Hfo']; [done..|lia|lia|done|done|lia|].
  split_and!.
  - split; [by eapply rep_data_frame|]. split; [|split; [|done]].
    + split; [done|]. split; [|done]. eapply Forall_impl; [exact Hf|]. simpl.
      intros y (? & ? & Hy). split_and!; [done..|]. by apply Hdf.
    + apply disk_ok_insert; [done|]. rewrite length_splice; [eauto with disk|].
      rewrite (disk_ok_lookup _ _ _ Hd Hb). lia.
  - done.
  - simpl. rewrite HFB. f_equal. lia.
Qed.

(** What holds after [w] bytes of [buf] have been written at [off]. *)
Definition written (s0 : Disk.state) (di : DiskInode) (L : list Z) (n off w : Z) (buf : list byte)
    (s : Disk.state) : Prop :=
  readable s di L n ∧ data_frame L n (Disk.disk s0) (Disk.disk s) ∧ s = set_disk (Disk.disk s) s0 ∧
  file_bytes (Disk.disk s) L n =
    splice (file_bytes (Disk.disk s0) L n) (Z.to_nat off) (take (Z.to_nat w) buf).

Lemma run_write_loop fl s0 di L n off end_ buf fuel start w s :
  file_ok (Disk.disk s0) L n →
  written s0 di L n off w buf s → 0 ≤ off → start = off + w → 0 ≤ w → start < end_ ≤ 512 * n →
  end_ - off ≤ Z.of_nat (length buf) → (S (Z.to_nat (end_ / 512 - start / 512)) ≤ fuel)%nat →
  ∃ s', Disk.arun fl (write_loop fuel di end_ start (start / 512) w buf) s = Ok (s', end_ - off) ∧
    written s0 di L n off (end_ - off) buf s'.
Proof.
  intros Hfo0 Hwr Hoff Hst Hw Hend Hbuf. revert start w s Hwr Hst Hw Hend.
  induction fuel as [|fuel IH]; intros start w s Hwr Hst Hw Hend Hfuel; [lia|].
  pose proof Hwr as (Hrd & Hdf & Hs & HFB).
  cbn [write_loop]. change BLOCK_SZ with 512. cbn zeta.
  set (ecb := Z.min ((start / 512 + 1) * 512) end_). assert (start < ecb ≤ end_) as Hecb by lia.
  destruct (run_locate fl s di L n start Hrd ltac:(lia)) as (x & blk & Hx & Hg & Hf & Hb & Hbl).
  erewrite run_bind_ok by exact Hg.
  set (src := take (Z.to_nat (ecb - start)) (drop (Z.to_nat w) buf)).
  assert (Z.of_nat (length src) = ecb - start) as Hsrc.
  { unfold src. rewrite length_take, length_drop. lia. }
  set (blk' := splice blk (Z.to_nat (start mod 512)) src).
  assert (Disk.arun fl (modify_cache x 0 (λ data_block : DataBlock,
      src ← slice buf w (w + (ecb - start));
      dst ← copy_into (data data_block) (start mod 512) (start mod 512 + (ecb - start)) src;
      mret (mkDataBlock dst, tt))) s = Ok (upd x blk' s, tt)) as Hm.
  { eapply run_modify_data; [done..|unfold blk'; rewrite length_splice; lia|].
    erewrite run_bind_ok by (apply run_slice; lia).
    replace (w + (ecb - start) - w) with (ecb - start) by lia. fold src.
    erewrite run_bind_ok by (apply run_copy_splice; simpl; lia). apply run_ret. }
  erewrite run_bind_ok by exact Hm.
  destruct (readable_write s di L n start x blk src) as (Hrd' & Hdf' & HFB'); [done|lia|done|done|lia|].
  fold blk' in Hrd', Hdf', HFB'.
  assert (written s0 di L n off (w + (ecb - start)) buf (upd x blk' s)) as Hwr'.
  { split; [done|]. split; [by eapply data_frame_trans|]. split; [by rewrite Hs|].
    assert (length (take (Z.to_nat w) buf) = Z.to_nat w) as Hlw by (rewrite length_take; lia).
    rewrite HFB', HFB. replace (Z.to_nat start) with (Z.to_nat off + length (take (Z.to_nat w) buf))%nat by lia.
    rewrite splice_splice by (rewrite length_file_bytes by (done || lia); lia). f_equal.
    replace (Z.to_nat (w + (ecb - start))) with (Z.to_nat w + Z.to_nat (ecb - start))%nat by lia.
    by rewrite <-take_take_drop. }
  destruct (Z.eqb_spec ecb end_) as [He|He].
  - exists (upd x blk' s). replace (w + (ecb - start)) with (end_ - off) in * by lia. by rewrite run_ret.
  - replace (start / 512 + 1) with (ecb / 512) by lia. apply IH; (done || lia).
Qed.

Lemma run_write_at fl s di L n off buf :
  readable s di L n → size di ≤ 512 * n → 0 ≤ off < size di → (0 < length buf)%nat →
  off + Z.of_nat (length buf) < 2 ^ 64 →
  let w := transfer di off (Z.of_nat (length buf)) in
  ∃ s', Disk.arun fl (write_at di off buf) s = Ok (s', w) ∧ written s di L n off w buf s'.
Proof.
  intros Hrd Hsz Hoff Hne Hlen. unfold transfer, write_at. cbn zeta.
  rewrite wrap64_small by (unfold is_u64; lia).
  erewrite run_bind_ok by (apply run_assert, Z.leb_le; lia). change BLOCK_SZ with 512.
  apply run_write_loop; try lia; [by eapply readable_file_ok|].
  split; [done|]. split; [done|]. split; [by rewrite set_disk_id|].
  by rewrite take_0, splice_nil.
Qed.

(** Reading a file.  [DiskInode::read_at] returns the file's bytes from the offset
    on, as many as the buffer holds and the size allows, and keeps the rest of the
    buffer; past the end it returns 0. *)
Theorem read_at_bytes fl s di L n off buf :
  readable s di L n → size di ≤ 512 * n → 0 ≤ off → off + Z.of_nat (length buf) < 2 ^ 64 →
  let r := Z.max 0 (transfer di off (Z.of_nat (length buf))) in
  Disk.arun fl (read_at di off buf) s =
    Ok (s, (r, splice buf 0 (take (Z.to_nat r) (drop (Z.to_nat off) (file_bytes (Disk.disk s) L n))))).
Proof. intros. by apply run_read_at. Qed.

(** Writing a file.  [DiskInode::write_at] inside the file replaces the bytes from
    the offset on, as many as the size allows, and returns their number; the file's
    other bytes and all blocks that are not the file's keep their contents. *)
Theorem write_at_bytes fl s di L n off buf :
  readable s di L n → size di ≤ 512 * n → 0 ≤ off < size di → (0 < length buf)%nat →
  off + Z.of_nat (length buf) < 2 ^ 64 →
  let w := transfer di off (Z.of_nat (length buf)) in
  ∃ s', Disk.arun fl (write_at di off buf) s = Ok (s', w) ∧
    readable s' di L n ∧ data_frame L n (Disk.disk s) (Disk.disk s') ∧
    file_bytes (Disk.disk s') L n =
      splice (file_bytes (Disk.disk s) L n) (Z.to_nat off) (take (Z.to_nat w) buf).
Proof.
  intros. destruct (run_write_at fl s di L n off buf) as (s' & Hr & Hrd & Hfr & _ & Hb); [done..|]. eauto.
Qed.

(** The 1500 bytes of [demo_file_inode] are in blocks 7, 9 and 8. *)
Lemma demo_readable : readable demo_disk_state demo_file_inode [7; 9; 8] 3.
Proof.
  split; [exact demo_file_rep|]. split; [apply demo_file_blocks_ok; lia|]. split; [exact demo_disk_ok|].
  split; [vm_compute; congruence|lia].
Qed.

(** Eight bytes over the end of the file: the last four of it are read. *)
Lemma read_at_bytes_witness :
  Disk.arun OutOfBounds (read_at demo_file_inode 1496 (replicate 8 Byte.x2e)) demo_disk_state =
    Ok (demo_disk_state, (4, replicate 4 Byte.x00 ++ replicate 4 Byte.x2e)).
Proof.
  rewrite (read_at_bytes OutOfBounds demo_disk_state demo_file_inode [7; 9; 8] 3 1496 (replicate 8 Byte.x2e) demo_readable);
    [|vm_compute; congruence|lia|vm_compute; reflexivity].
  vm_compute. reflexivity.
Defined.

(** A write over the border of two blocks. *)
Lemma write_at_bytes_witness :
  ∃ s', Disk.arun OutOfBounds (write_at demo_file_inode 510 (replicate 4 Byte.x2e)) demo_disk_state = Ok (s', 4) ∧
    take 8 (drop 508 (file_bytes (Disk.disk s') [7; 9; 8] 3)) =
      [Byte.x00; Byte.x00; Byte.x2e; Byte.x2e; Byte.x2e; Byte.x2e; Byte.x00; Byte.x00].
Proof.
  destruct (write_at_bytes OutOfBounds demo_disk_state demo_file_inode [7; 9; 8] 3 510 (replicate 4 Byte.x2e) demo_readable)
    as (s' & Hr & _ & _ & Hb).
  - vm_compute. congruence.
  - vm_compute. split; congruence.
  - simpl. lia.
  - vm_compute. reflexivity.
  - exists s'. split; [exact Hr|]. rewrite Hb. vm_compute. reflexivity.
Defined.
