(* ===== verification/DirEntry.v ===== *)
(** * Directory entries ([DirEntry] in [easy-fs/src/layout.rs])

    32 bytes: a NUL-padded name of 28 bytes and a [u32] inode number.  A [&str] is
    the list of its UTF-8 bytes. *)

From S2P Require Import Prelude Bytes Utf8 BlockCache Layout DiskLib.

(** ** The structure and its operations *)
Record DirEntry := mkDirEntry {
  name : list byte;
  inode_number : Z;
}.

(** Create an empty directory entry *)
Definition empty : DirEntry := mkDirEntry (replicate 28 Byte.x00) 0.

(** Crate a directory entry from name and inode number:
    [bytes[..name.len()].copy_from_slice(name.as_bytes())] *)
Definition new (nm : list byte) (ino : Z) : prog DirEntry :=
  bytes ← copy_into (replicate 28 Byte.x00) 0 (Z.of_nat (length nm)) nm;
  mret (mkDirEntry bytes ino).

(** Serialize into bytes *)
Definition as_bytes (e : DirEntry) : list byte := name e ++ le_bytes 4 [inode_number e].

(** The entry whose bytes ([as_bytes_mut]) are now [bs]. *)
Definition of_bytes (bs : list byte) : DirEntry :=
  mkDirEntry (take 28 bs) (le_words 4 1 (drop 28 bs) !!! 0%nat).

(** Get name of the entry: [(0usize..).find(|i| self.name[*i] == 0)] runs off the array
    when there is no NUL *)
Definition entry_name (e : DirEntry) : prog (list byte) :=
  match find_idx (λ b, Byte.eqb b Byte.x00) (name e) with
  | Some (len, _) =>
      let s := take len (name e) in
      if utf8_valid s then mret s else mthrow UnwrapNone
  | None => mthrow OutOfBounds
  end.

(** ** Names that can be stored *)

(** At most 27 bytes of UTF-8 without NUL. *)
Definition name_ok (nm : list byte) : Prop :=
  (length nm ≤ 27)%nat ∧ Byte.x00 ∉ nm ∧ utf8_valid nm = true.

#[export] Instance name_ok_dec nm : Decision (name_ok nm).
Proof. unfold name_ok. apply _. Defined.

Definition entry_ok (e : DirEntry) : Prop := length (name e) = 28%nat ∧ is_u32 (inode_number e).

(** The entry that holds [nm]. *)
Definition entry_for (nm : list byte) (ino : Z) : DirEntry :=
  mkDirEntry (nm ++ replicate (28 - length nm) Byte.x00) ino.

Lemma run_new fl nm ino s :
  (length nm ≤ 28)%nat → Disk.arun fl (new nm ino) s = Ok (s, entry_for nm ino).
Proof.
  intros Hl. unfold new. erewrite run_bind_ok by (apply run_copy_into; rewrite ?length_replicate; lia).
  rewrite run_ret, Nat2Z.id, drop_replicate. done.
Qed.

(** A name longer than the 28 bytes of the array is a panic. *)
Lemma run_new_long fl nm ino s :
  (28 < length nm)%nat → Disk.arun fl (new nm ino) s = Err OutOfBounds.
Proof.
  intros Hl. unfold new, copy_into. rewrite length_replicate.
  rewrite (proj2 (Z.leb_gt (Z.of_nat (length nm)) _)) by lia. by rewrite andb_false_r.
Qed.

Lemma of_as_bytes e : entry_ok e → of_bytes (as_bytes e) = e.
Proof.
  intros [Hn Hi]. unfold of_bytes, as_bytes.
  rewrite take_app_length', drop_app_length' by done.
  rewrite <-(app_nil_r (le_bytes 4 _)). change 1%nat with (length [inode_number e]).
  rewrite le_words_bytes by (by apply Forall_singleton). by destruct e.
Qed.

Lemma length_as_bytes e : length (name e) = 28%nat → length (as_bytes e) = 32%nat.
Proof. intros Hn. unfold as_bytes. rewrite length_app, length_le_bytes, Hn. done. Qed.

Lemma of_bytes_ok bs : length bs = 32%nat → entry_ok (of_bytes bs).
Proof.
  intros Hl. split; simpl; [rewrite length_take; lia|].
  destruct (lookup_lt_is_Some_2 (le_words 4 1 (drop 28 bs)) 0) as [x Hx].
  { rewrite length_le_words. lia. }
  rewrite (list_lookup_total_correct _ _ _ Hx).
  apply (Forall_lookup_1 _ _ _ _ (le_words_fit 4 1 (drop 28 bs)) Hx).
Qed.

Lemma entry_for_ok nm ino : (length nm ≤ 28)%nat → is_u32 ino → entry_ok (entry_for nm ino).
Proof. intros. split; [|done]. simpl. rewrite length_app, length_replicate. lia. Qed.

(** The position of the first NUL of a padded name. *)
Lemma find_nul nm k :
  Byte.x00 ∉ nm → (0 < k)%nat →
  find_idx (λ b, Byte.eqb b Byte.x00) (nm ++ replicate k Byte.x00) = Some (length nm, Byte.x00).
Proof.
  intros Hn Hk. apply find_idx_Some. split_and!.
  - rewrite lookup_app_r, Nat.sub_diag by lia. by apply lookup_replicate.
  - done.
  - intros j y Hj Hy. rewrite lookup_app_l in Hy by done. apply list_elem_of_lookup_2 in Hy.
    destruct (Byte.eqb y Byte.x00) eqn:He; [|done]. apply Byte.byte_dec_bl in He. by subst.
Qed.

Lemma run_entry_name_for fl nm ino s :
  name_ok nm → Disk.arun fl (entry_name (entry_for nm ino)) s = Ok (s, nm).
Proof.
  intros (Hl & Hn & Hu). unfold entry_name, entry_for. cbn [name].
  rewrite find_nul by (done || lia). rewrite take_app_length. by rewrite Hu.
Qed.

(** A 28-byte name leaves no room for the NUL: reading it back is a panic. *)
Lemma run_entry_name_full fl nm ino s :
  length nm = 28%nat → Byte.x00 ∉ nm →
  Disk.arun fl (entry_name (entry_for nm ino)) s = Err OutOfBounds.
Proof.
  intros Hl Hn. unfold entry_name, entry_for. cbn [name]. rewrite Hl, Nat.sub_diag. simpl replicate.
  rewrite app_nil_r. replace (find_idx _ nm) with (@None (nat * byte)); [done|].
  symmetry. apply find_idx_None. intros x Hx. destruct (Byte.eqb x Byte.x00) eqn:He; [|done].
  apply Byte.byte_dec_bl in He. by subst.
Qed.

Lemma run_entry_name_empty fl s : Disk.arun fl (entry_name empty) s = Ok (s, []).
Proof. done. Qed.

(** A directory entry made from a storable name, written out as bytes and read
    back, has the same name and inode number. *)
Theorem dirent_roundtrip fl nm ino s :
  name_ok nm → is_u32 ino →
  Disk.arun fl (e ← new nm ino;
                let e' := of_bytes (as_bytes e) in
                nm' ← entry_name e'; mret (nm', inode_number e')) s = Ok (s, (nm, ino)).
Proof.
  intros Hn Hi. pose proof Hn as (Hl & _). erewrite run_bind_ok by (apply run_new; lia). cbn zeta.
  rewrite of_as_bytes by (apply entry_for_ok; (done || lia)).
  by erewrite run_bind_ok by (by apply run_entry_name_for).
Qed.

Lemma dirent_roundtrip_witness :
  Disk.arun OutOfBounds (e ← new [Byte.x61; Byte.x62] 7;
                let e' := of_bytes (as_bytes e) in
                nm' ← entry_name e'; mret (nm', inode_number e')) (Disk.mkState ∅ [] false) =
    Ok (Disk.mkState ∅ [] false, ([Byte.x61; Byte.x62], 7)).
Proof.
  apply (dirent_roundtrip OutOfBounds [Byte.x61; Byte.x62] 7).
  - apply (bool_decide_unpack (name_ok [Byte.x61; Byte.x62])). vm_compute. exact I.
  - unfold is_u32. lia.
Defined.

(** Names of 28 bytes or more do not fit although the array has 28: one of 28
    bytes is stored without its NUL and reading it back runs off the array; a longer
    one is out of range when it is stored.  Both stop the kernel. *)
Theorem dirent_long_name fl nm ino s :
  (28 ≤ length nm)%nat → Byte.x00 ∉ nm →
  Disk.arun fl (e ← new nm ino; entry_name e) s = Err OutOfBounds ∧
  (length nm = 28%nat → Disk.arun fl (new nm ino) s = Ok (s, mkDirEntry nm ino)).
Proof.
  intros Hl Hn. destruct (decide (length nm = 28%nat)) as [He|He].
  - split; [|intros _].
    + erewrite run_bind_ok by (apply run_new; lia). by apply run_entry_name_full.
    + rewrite run_new by lia. unfold entry_for. rewrite He. simpl. by rewrite app_nil_r.
  - split; [|done]. by rewrite (run_bind_err _ _ _ _ _ (run_new_long fl nm ino s ltac:(lia))).
Qed.

Lemma dirent_long_name_witness :
  Disk.arun UnwrapNone (e ← new (replicate 28 Byte.x61) 1; entry_name e) (Disk.mkState ∅ [] false) = Err OutOfBounds.
Proof.
  apply (dirent_long_name UnwrapNone (replicate 28 Byte.x61) 1 (Disk.mkState ∅ [] false)).
  - rewrite length_replicate. lia.
  - intros Hin%elem_of_replicate_inv. discriminate.
Defined.
