(* ===== verification/Efs.v ===== *)
(** * The file system on a device ([easy-fs/src/efs.rs])

    [EasyFileSystem] lays a device out as super block, inode bitmap, inode area,
    data bitmap and data area.  The structure itself never changes after
    [create] or [open]; what its methods change is the disk.  [fs_inv] is the
    invariant of the disk: which inodes exist, which blocks each of them owns,
    and that the bitmaps agree. *)

From S2P Require Import Prelude Bytes BlockCache Layout DiskLib Bitmap DiskInode FileData.

Local Ltac Zify.zify_post_hook ::= Z.to_euclidean_division_equations.

Record EasyFileSystem := mkEfs {
  inode_bitmap : Bitmap;
  data_bitmap : Bitmap;
  inode_area_start_block : Z;
  data_area_start_block : Z;
}.

(** Get inode by id *)
Definition get_disk_inode_pos (fs : EasyFileSystem) (inode_id : Z) : Z * Z :=
  let inode_size := size_of DiskInode in
  let inodes_per_block := BLOCK_SZ / inode_size in
  let block_id := wrap32 (inode_area_start_block fs + inode_id / inodes_per_block) in
  (block_id, (inode_id mod inodes_per_block) * inode_size).

(** Get data block by id *)
Definition get_data_block_id (fs : EasyFileSystem) (data_block_id : Z) : Z :=
  wrap32 (data_area_start_block fs + data_block_id).

(** Allocate a new inode *)
Definition alloc_inode (fs : EasyFileSystem) : prog Z :=
  r ← alloc (inode_bitmap fs);
  i ← unwrap r;
  mret (wrap32 i).

(** Allocate a data block *)
Definition alloc_data (fs : EasyFileSystem) : prog Z :=
  r ← alloc (data_bitmap fs);
  i ← unwrap r;
  mret (wrap32 (wrap32 i + data_area_start_block fs)).

(** [for byte in data_block.iter_mut() { *byte = 0; }] *)
Definition zero_block (b : DataBlock) : DataBlock := mkDataBlock ((λ _, Byte.x00) <$> data b).

(** Deallocate a data block *)
Definition dealloc_data (fs : EasyFileSystem) (block_id : Z) : prog unit :=
  modify_cache block_id 0 (λ data_block : DataBlock, mret (zero_block data_block, tt));;
  dealloc (data_bitmap fs) (wrap32 (block_id - data_area_start_block fs)).

(** The areas [create] computes: inode area blocks, data bitmap blocks, data area blocks. *)
Definition areas (total_blocks inode_bitmap_blocks : Z) : Z * Z * Z :=
  let inode_num := maximum (mkBitmap 1 inode_bitmap_blocks) in
  let inode_area_blocks := wrap32 ((inode_num * size_of DiskInode + BLOCK_SZ - 1) / BLOCK_SZ) in
  let inode_total_blocks := wrap32 (inode_bitmap_blocks + inode_area_blocks) in
  let data_total_blocks := wrap32 (total_blocks - 1 - inode_total_blocks) in
  let data_bitmap_blocks := wrap32 (data_total_blocks + 4096) / 4097 in
  let data_area_blocks := wrap32 (data_total_blocks - data_bitmap_blocks) in
  (inode_area_blocks, data_bitmap_blocks, data_area_blocks).

(** Create a filesystem from a block device *)
Definition create (total_blocks inode_bitmap_blocks : Z) : prog EasyFileSystem :=
  (* calculate block size of areas & create bitmaps *)
  let '(inode_area_blocks, data_bitmap_blocks, data_area_blocks) :=
    areas total_blocks inode_bitmap_blocks in
  let inode_total_blocks := wrap32 (inode_bitmap_blocks + inode_area_blocks) in
  let efs := mkEfs (mkBitmap 1 inode_bitmap_blocks)
    (mkBitmap (wrap32 (1 + inode_bitmap_blocks + inode_area_blocks)) data_bitmap_blocks)
    (wrap32 (1 + inode_bitmap_blocks))
    (wrap32 (1 + inode_total_blocks + data_bitmap_blocks)) in
  (* clear all blocks *)
  for_ (range 0 total_blocks) (λ _ i,
    modify_cache i 0 (λ data_block : DataBlock, mret (zero_block data_block, tt))) tt;;
  (* initialize SuperBlock *)
  modify_cache 0 0 (λ super_block : SuperBlock,
    mret (super_initialize total_blocks inode_bitmap_blocks inode_area_blocks
            data_bitmap_blocks data_area_blocks, tt));;
  (* create a inode for root node "/" *)
  r ← alloc_inode efs;
  assert_ (r =? 0);;
  let '(root_inode_block_id, root_inode_offset) := get_disk_inode_pos efs 0 in
  modify_cache root_inode_block_id root_inode_offset (λ disk_inode : DiskInode,
    mret (initialize Directory disk_inode, tt));;
  block_cache_sync_all;;
  mret efs.

(** The structure that [open] builds from the super block. *)
Definition efs_of_super (super_block : SuperBlock) : EasyFileSystem :=
  let inode_total_blocks :=
    wrap32 (inode_bitmap_blocks super_block + inode_area_blocks super_block) in
  mkEfs (mkBitmap 1 (inode_bitmap_blocks super_block))
    (mkBitmap (wrap32 (1 + inode_total_blocks)) (data_bitmap_blocks super_block))
    (wrap32 (1 + inode_bitmap_blocks super_block))
    (wrap32 (1 + inode_total_blocks + data_bitmap_blocks super_block)).

(** Open a block device as a filesystem *)
Definition open : prog EasyFileSystem :=
  (* read SuperBlock *)
  read_cache 0 0 (λ super_block : SuperBlock,
    assert_ (is_valid super_block);;
    mret (efs_of_super super_block)).

(** ** The invariant of the disk *)

(** The areas follow one another and fit the [T] blocks of the device; inode and
    block numbers fit a [u32]. *)
Record geometry (fs : EasyFileSystem) (T : Z) : Prop := {
  g_ib_start : start_block_id (inode_bitmap fs) = 1;
  g_ib : 0 ≤ blocks (inode_bitmap fs) ≤ 2 ^ 20;
  g_ia : inode_area_start_block fs = 1 + blocks (inode_bitmap fs);
  g_db_start : inode_area_start_block fs + 1024 * blocks (inode_bitmap fs) ≤ start_block_id (data_bitmap fs);
  g_db : 0 ≤ blocks (data_bitmap fs);
  g_da : data_area_start_block fs = start_block_id (data_bitmap fs) + blocks (data_bitmap fs);
  g_total : data_area_start_block fs ≤ T < 2 ^ 32;
  g_cover : T - data_area_start_block fs ≤ 4096 * blocks (data_bitmap fs);
}.

(** Number of inodes. *)
Definition inode_count (fs : EasyFileSystem) : Z := 4096 * blocks (inode_bitmap fs).

Definition in_data (fs : EasyFileSystem) (T x : Z) : Prop := data_area_start_block fs ≤ x < T.
Definition in_data_bitmap (fs : EasyFileSystem) (x : Z) : Prop :=
  start_block_id (data_bitmap fs) ≤ x < data_area_start_block fs.
Definition in_inode_area (fs : EasyFileSystem) (x : Z) : Prop :=
  inode_area_start_block fs ≤ x < start_block_id (data_bitmap fs).

(** A file or directory: its inode, its blocks and its bytes. *)
Record Node := mkNode {
  n_inode : DiskInode;
  n_blocks : list Z;
  n_bytes : list byte;
}.

(** The disk [d] represents the node: the inode records the blocks, as many as its
    size needs, and the blocks hold its bytes followed by zeros. *)
Record node_ok (d : gmap Z block) (nd : Node) : Prop := {
  node_valid : inode_valid (n_inode nd);
  node_size : size (n_inode nd) = Z.of_nat (length (n_bytes nd));
  node_max : size (n_inode nd) ≤ MAX_SIZE;
  node_rep : rep d (n_inode nd) (n_blocks nd);
  node_length : Z.of_nat (length (n_blocks nd)) = tb (nblocks (size (n_inode nd)));
  node_bytes : file_bytes d (n_blocks nd) (nblocks (size (n_inode nd))) =
    n_bytes nd ++ replicate (Z.to_nat (512 * nblocks (size (n_inode nd)) - size (n_inode nd))) Byte.x00;
}.

(** The disk inode [di] is stored at position [i]. *)
Definition stored (fs : EasyFileSystem) (d : gmap Z block) (i : Z) (di : DiskInode) : Prop :=
  ∃ b, d !! (inode_area_start_block fs + i / 4) = Some b ∧ get_ref (128 * (i mod 4)) b = Ok di.

(** The super block describes [fs]. *)
Definition super_ok (fs : EasyFileSystem) (d : gmap Z block) : Prop :=
  ∃ b sb, d !! 0 = Some b ∧ get_ref 0 b = Ok sb ∧ is_valid sb = true ∧ efs_of_super sb = fs.

(** The content of a block that is not allocated. *)
Definition zeros : block := replicate 512 Byte.x00.

(** The invariant.  [F]: the nodes, by inode number.  [hole]: an inode that is being
    modified, whose copy on disk is out of date.  [P]: data blocks that are
    allocated and not recorded by a node. *)
Record fs_core (hole : option Z) (fs : EasyFileSystem) (T : Z)
    (F : gmap Z Node) (s : Disk.state) : Prop := {
  inv_geom : geometry fs T;
  inv_disk : disk_ok (Disk.disk s);
  inv_dom : ∀ b, 0 ≤ b < T → is_Some (Disk.disk s !! b);
  inv_held : Forall (in_inode_area fs) (Disk.held s) ∧ (length (Disk.held s) ≤ 2)%nat;
  inv_node : ∀ i nd, F !! i = Some nd →
    0 ≤ i < inode_count fs ∧ node_ok (Disk.disk s) nd ∧ Forall (in_data fs T) (n_blocks nd) ∧
    NoDup (n_blocks nd);
  inv_stored : ∀ i, 0 ≤ i < inode_count fs → hole ≠ Some i →
    ∃ di, stored fs (Disk.disk s) i di ∧ ∀ nd, F !! i = Some nd → n_inode nd = di;
  inv_ibits : ∀ i, 0 ≤ i < inode_count fs →
    bit_at (Disk.disk s) (inode_bitmap fs) i = bool_decide (is_Some (F !! i));
  inv_disjoint : ∀ i j nd nd' x, i ≠ j → F !! i = Some nd → F !! j = Some nd' →
    x ∈ n_blocks nd → x ∉ n_blocks nd';
  inv_super : super_ok fs (Disk.disk s);
}.

(** The bitmap of the data area says which of its blocks are in use, and the
    others are zero. *)
Record fs_alloc (P : list Z) (fs : EasyFileSystem) (T : Z) (F : gmap Z Node)
    (d : gmap Z block) : Prop := {
  inv_pending : NoDup P ∧ Forall (in_data fs T) P ∧
    ∀ x i nd, x ∈ P → F !! i = Some nd → x ∉ n_blocks nd;
  inv_dbits : ∀ x, in_data fs T x →
    bit_at d (data_bitmap fs) (x - data_area_start_block fs) = true ↔
      x ∈ P ∨ ∃ i nd, F !! i = Some nd ∧ x ∈ n_blocks nd;
  inv_zero : ∀ x, in_data fs T x →
    bit_at d (data_bitmap fs) (x - data_area_start_block fs) = false → d !! x = Some zeros;
}.

Definition fs_inv (hole : option Z) (P : list Z) (fs : EasyFileSystem) (T : Z)
    (F : gmap Z Node) (s : Disk.state) : Prop :=
  fs_core hole fs T F s ∧ fs_alloc P fs T F (Disk.disk s).

(** The free blocks of the data area, as bit numbers, in increasing order. *)
Definition free_list (fs : EasyFileSystem) (T : Z) (d : gmap Z block) : list Z :=
  filter (λ k, bit_at d (data_bitmap fs) k = false) (range 0 (T - data_area_start_block fs)).

(** ** What a node depends on *)
Lemma rep_frame d d' di L : (∀ x, x ∈ L → d' !! x = d !! x) → rep d di L → rep d' di L.
Proof.
  intros Hfr. apply rep_ext. intros b (r & _ & _ & Hb). apply Hfr. by eapply list_elem_of_lookup_2.
Qed.

Lemma file_bytes_frame d d' L n :
  (∀ x, x ∈ L → d' !! x = d !! x) → tb n ≤ Z.of_nat (length L) → n ≤ 16540 →
  file_bytes d' L n = file_bytes d L n.
Proof.
  intros Hfr Hl Hn. unfold file_bytes. f_equal. apply list_fmap_ext. intros j k Hk.
  unfold range in Hk. apply lookup_seqZ in Hk. unfold file_block.
  pose proof (data_role_pos k n ltac:(lia)). destruct (data_role_ok k) as [Hr _]; [lia|].
  pose proof (role_pos_nonneg _ Hr).
  rewrite Hfr; [done|]. apply list_elem_of_lookup_total_2. lia.
Qed.

Lemma node_ok_frame d d' nd :
  (∀ x, x ∈ n_blocks nd → d' !! x = d !! x) → node_ok d nd → node_ok d' nd.
Proof.
  intros Hfr [Hv Hs Hm Hr Hl Hb]. split; try done; [by eapply rep_frame|].
  pose proof Hv as (Hu & _). unfold is_u32 in Hu.
  pose proof (nblocks_range (size (n_inode nd)) ltac:(lia)).
  rewrite (file_bytes_frame d) by (done || lia). done.
Qed.

(** ** The first element of a filtered range *)
Lemma filter_range_head (P Q : Z → Prop) `{∀ x, Decision (P x), ∀ x, Decision (Q x)} lo hi k rest :
  filter P (range lo hi) = k :: rest → (∀ x, lo ≤ x < hi → Q x ↔ P x ∧ x ≠ k) →
  P k ∧ lo ≤ k < hi ∧ (∀ j, lo ≤ j < k → ¬ P j) ∧ filter Q (range lo hi) = rest.
Proof.
  remember (Z.to_nat (hi - lo)) as n eqn:Hn. revert lo Hn.
  induction n as [|n IH]; intros lo Hn Hf HQ.
  { rewrite range_nil in Hf by lia. by rewrite filter_nil in Hf. }
  rewrite range_cons in Hf |- * by lia. rewrite filter_cons in Hf |- *.
  destruct (decide (P lo)) as [HP|HP].
  - injection Hf as -> <-. rewrite (decide_False (P := Q k)) by (rewrite HQ by lia; naive_solver).
    split_and!; [done|lia|lia|lia|]. apply filter_ext_in.
    intros x Hx%elem_of_range. rewrite HQ by lia. naive_solver lia.
  - rewrite decide_False by (rewrite HQ by lia; naive_solver).
    destruct (IH (lo + 1)) as (HPk & Hk & Hmin & Hrest); [lia|done|intros; apply HQ; lia|].
    split_and!; [done|lia|lia| |done]. intros j Hj.
    destruct (decide (j = lo)) as [->|]; [done|]. apply Hmin. lia.
Qed.
