(* ===== verification/FsInv.v ===== *)
(** * The steps of the file system keep its invariant

    One lemma per step of [easy-fs/src/efs.rs] and of [DiskInode] as the
    operations of vfs.rs use them: taking and giving back data blocks and
    inodes, growing, writing and clearing a node, and storing its inode. *)

From S2P Require Import Prelude Bytes BlockCache Layout DiskLib Bitmap DiskInode FileData Efs.

Local Ltac Zify.zify_post_hook ::= Z.to_euclidean_division_equations.

Section inv.
Context (fl : fault) (fs : EasyFileSystem) (T : Z).
Implicit Types (F : gmap Z Node) (s : Disk.state) (hole : option Z) (P : list Z).
Notation run p := (Disk.arun fl p).
Notation das := (data_area_start_block fs).

(** The areas are disjoint. *)
Lemma area_disjoint x :
  geometry fs T →
  (in_data fs T x → ¬ in_data_bitmap fs x ∧ ¬ in_inode_area fs x) ∧
  (in_inode_area fs x → ¬ in_data_bitmap fs x).
Proof. intros [? ? ? ? ? ? ? ?]. unfold in_data, in_data_bitmap, in_inode_area. lia. Qed.

(** A block outside the inode area that the device has can be taken. *)
Lemma core_free hole F s b :
  fs_core hole fs T F s → 0 ≤ b < T → ¬ in_inode_area fs b →
  free s b ∧ is_Some (Disk.disk s !! b).
Proof.
  intros Hc Hb Hn. destruct (inv_held _ _ _ _ _ Hc) as [Hh Hl]. split.
  - split; [|unfold BLOCK_CACHE_SIZE; lia]. intros Hin. apply Hn. rewrite Forall_forall in Hh. by apply Hh.
  - by apply (inv_dom _ _ _ _ _ Hc).
Qed.

Lemma data_bitmap_ok hole F s : fs_core hole fs T F s → bitmap_ok s (data_bitmap fs).
Proof.
  intros Hc. pose proof (inv_geom _ _ _ _ _ Hc) as [? ? ? ? ? ? ? ?].
  split; [lia|lia|apply Hc|]. intros k Hk. apply (core_free hole F); [done|lia|].
  unfold in_inode_area. lia.
Qed.

Lemma inode_bitmap_ok hole F s : fs_core hole fs T F s → bitmap_ok s (inode_bitmap fs).
Proof.
  intros Hc. pose proof (inv_geom _ _ _ _ _ Hc) as [? ? ? ? ? ? ? ?].
  split; [lia|lia|apply Hc|]. intros k Hk. apply (core_free hole F); [done|lia|].
  unfold in_inode_area. lia.
Qed.

(** [x] is a block of some node. *)
Definition owned F (x : Z) : Prop := ∃ i nd, F !! i = Some nd ∧ x ∈ n_blocks nd.

(** The nodes and the inode bitmap do not depend on the data bitmap, nor on data
    blocks that no node records. *)
Lemma core_frame hole F s d' :
  fs_core hole fs T F s → disk_ok d' →
  (∀ b, ¬ in_data_bitmap fs b → (in_data fs T b → owned F b) → d' !! b = Disk.disk s !! b) →
  (∀ b, is_Some (Disk.disk s !! b) → is_Some (d' !! b)) → fs_core hole fs T F (set_disk d' s).
Proof.
  intros Hc Hd' Hfr Hdom. pose proof (inv_geom _ _ _ _ _ Hc) as Hg.
  pose proof Hg as [? ? ? ? ? ? ? ?]. destruct Hc as [_ Hd Hdm Hh Hnode Hst Hib Hdis Hsup].
  split; [done|done| |done| | | |done|].
  - intros b Hb. by apply Hdom, Hdm.
  - intros i nd Hi. destruct (Hnode i nd Hi) as (Hr & Hok & Hin & Hnd). split_and!; [lia..| |done|done].
    eapply node_ok_frame; [|exact Hok]. intros x Hx. simpl. apply Hfr; [|by exists i, nd].
    rewrite Forall_forall in Hin. by apply (proj1 (area_disjoint x Hg)), Hin.
  - intros i Hi Hne. destruct (Hst i Hi Hne) as (di & (b & Hb & Hget) & Hdi). exists di.
    split; [|done]. exists b. split; [|done].
    simpl. rewrite Hfr; [done|..]; unfold in_data_bitmap, in_data, inode_count in *; lia.
  - intros i Hi. rewrite <-Hib by done. unfold bit_at. simpl.
    rewrite Hfr; [done|..]; unfold in_data_bitmap, in_data, BLOCK_BITS, BLOCK_SZ, inode_count in *; lia.
  - unfold super_ok. simpl. rewrite Hfr; [done|..]; unfold in_data_bitmap, in_data; lia.
Qed.

Lemma data_max hole F s : fs_core hole fs T F s → maximum (data_bitmap fs) = 4096 * blocks (data_bitmap fs).
Proof.
  intros Hc. rewrite (bitmap_ok_max s) by by eapply data_bitmap_ok. unfold BLOCK_BITS, BLOCK_SZ. lia.
Qed.

(** Rewriting one block of the data bitmap. *)
Lemma core_upd_bitmap hole F s i b' :
  fs_core hole fs T F s → 0 ≤ i < maximum (data_bitmap fs) → length b' = 512%nat →
  let d' := <[i / BLOCK_BITS + start_block_id (data_bitmap fs) := b']> (Disk.disk s) in
  fs_core hole fs T F (set_disk d' s) ∧ (∀ b, ¬ in_data_bitmap fs b → d' !! b = Disk.disk s !! b).
Proof.
  intros Hc Hi Hb' d'. rewrite (data_max hole F s) in Hi by done.
  pose proof (inv_geom _ _ _ _ _ Hc) as [? ? ? ? ? ? ? ?].
  assert (∀ b, ¬ in_data_bitmap fs b → d' !! b = Disk.disk s !! b) as Hfr.
  { intros b Hb. unfold d'. rewrite lookup_insert_ne; [done|].
    intros <-. apply Hb. unfold in_data_bitmap, BLOCK_BITS, BLOCK_SZ. lia. }
  split; [|done]. apply core_frame; [done| |auto|].
  - apply disk_ok_insert; [apply Hc|done].
  - intros b Hb. unfold d'. rewrite lookup_insert_is_Some'. by right.
Qed.

(** Taking a data block: the first free one, which is zero. *)
Lemma run_alloc_data hole P F s k rest :
  fs_inv hole P fs T F s → free_list fs T (Disk.disk s) = k :: rest →
  ∃ d', run (alloc_data fs) s = Ok (set_disk d' s, das + k) ∧
    fs_inv hole (P ++ [das + k]) fs T F (set_disk d' s) ∧ free_list fs T d' = rest ∧
    (∀ b, ¬ in_data_bitmap fs b → d' !! b = Disk.disk s !! b) ∧
    in_data fs T (das + k) ∧ Disk.disk s !! (das + k) = Some zeros.
Proof.
  intros [Hc Ha] Hfl. pose proof (inv_geom _ _ _ _ _ Hc) as Hg. pose proof Hg as [? ? ? ? ? ? ? ?].
  destruct (alloc_ok fl s (data_bitmap fs)) as (s' & r & Hr & Hff & Hs'); [by eapply data_bitmap_ok|].
  pose proof (data_max _ _ _ Hc) as Hmax.
  destruct (filter_range_head _ (λ j, bit_at (Disk.disk s) (data_bitmap fs) j = false ∧ j ≠ k) _ _ _ _ Hfl)
    as (Hk & Hkr & Hmin & Hrest); [done|].
  destruct r as [i|]; [|exfalso; rewrite Hff in Hk by lia; done].
  destruct Hff as (Hir & Hi & Hleast). destruct Hs' as [(b' & Hb' & ->) Hbits].
  assert (i = k) as ->.
  { destruct (Z.lt_trichotomy i k) as [Hlt|[?|Hlt]]; [|done|].
    - exfalso. apply (Hmin i); [lia|done].
    - rewrite (Hleast k) in Hk by lia. done. }
  destruct (core_upd_bitmap _ _ _ k b' Hc) as [Hc' Hfr]; [lia|done|].
  set (d' := <[_ := b']> (Disk.disk s)) in *.
  assert (∀ x, in_data fs T x → bit_at d' (data_bitmap fs) (x - das) =
    (das + k =? x) || bit_at (Disk.disk s) (data_bitmap fs) (x - das)) as Hb2.
  { intros x Hx. unfold in_data in Hx. change d' with (Disk.disk (upd (k / BLOCK_BITS +
      start_block_id (data_bitmap fs)) b' s)). rewrite Hbits by lia. f_equal.
    apply eq_true_iff_eq. rewrite !Z.eqb_eq. lia. }
  assert (in_data fs T (das + k)) as Hink by (unfold in_data; lia).
  pose proof (inv_zero _ _ _ _ _ Ha (das + k) Hink) as Hz.
  replace (das + k - das) with k in Hz by lia.
  assert (¬ (das + k ∈ P ∨ ∃ i nd, F !! i = Some nd ∧ das + k ∈ n_blocks nd)) as Hfresh.
  { rewrite <-(inv_dbits _ _ _ _ _ Ha) by done. replace (das + k - das) with k by lia. by rewrite Hk. }
  exists d'. split_and!; try done; [|split; [done|]| |by apply Hz].
  - unfold alloc_data. erewrite run_bind_ok by exact Hr. erewrite run_bind_ok by apply run_unwrap.
    rewrite run_ret, (wrap32_small k), wrap32_small, (Z.add_comm k das) by (unfold is_u32; lia). done.
  - destruct Ha as [(Hnd & Hin & Hdj) Hdb Hzero]. split; simpl.
    + split_and!.
      * apply NoDup_app. split_and!; [done| |apply NoDup_singleton].
        intros x Hx ->%list_elem_of_singleton. naive_solver.
      * apply Forall_app. split; [done|by apply Forall_singleton].
      * intros x j nd [Hx| ->%list_elem_of_singleton]%elem_of_app Hj Hx'; naive_solver.
    + intros x Hx. rewrite Hb2, orb_true_iff, Z.eqb_eq, Hdb by done.
      rewrite elem_of_app, list_elem_of_singleton, (eq_comm _ x). tauto.
    + intros x Hx. rewrite Hb2, orb_false_iff, Z.eqb_neq by done. intros [_ Hbx].
      rewrite Hfr by (by apply (proj1 (area_disjoint x Hg))). by apply Hzero.
  - rewrite <-Hrest. apply filter_ext_in. intros j Hj%elem_of_range.
    pose proof (Hb2 (das + j)) as Hbj. replace (das + j - das) with j in Hbj by lia.
    rewrite Hbj by (unfold in_data; lia). rewrite orb_false_iff, Z.eqb_neq. naive_solver lia.
Qed.

(** Taking [m] data blocks, as the loop of [Inode::increase_size] does. *)
Lemma run_alloc_many {A} hole P F s (l : list A) v :
  fs_inv hole P fs T F s → (length l ≤ length (free_list fs T (Disk.disk s)))%nat →
  ∃ d' nb, run (for_ l (λ v _, b ← alloc_data fs; mret (v ++ [b])) v) s =
      Ok (set_disk d' s, v ++ nb) ∧ length nb = length l ∧
    fs_inv hole (P ++ nb) fs T F (set_disk d' s) ∧
    free_list fs T d' = drop (length l) (free_list fs T (Disk.disk s)) ∧
    (∀ b, ¬ in_data_bitmap fs b → d' !! b = Disk.disk s !! b) ∧
    Forall (λ x, in_data fs T x ∧ Disk.disk s !! x = Some zeros) nb.
Proof.
  revert P s v. induction l as [|a l IH]; intros P s v Hinv Hl; cbn [for_].
  { exists (Disk.disk s), []. rewrite !app_nil_r, set_disk_id. by split_and!. }
  destruct (free_list fs T (Disk.disk s)) as [|k rest] eqn:Hfl; simpl in Hl; [lia|].
  destruct (run_alloc_data hole P F s k rest Hinv Hfl) as (d1 & Hr & Hinv1 & Hfl1 & Hfr1 & Hin & Hz).
  destruct (IH (P ++ [das + k]) (set_disk d1 s) (v ++ [das + k]) Hinv1) as
    (d2 & nb & Hr2 & Hlen & Hinv2 & Hfl2 & Hfr2 & Hzs); [simpl; rewrite Hfl1; lia|].
  pose proof (inv_geom _ _ _ _ _ (proj1 Hinv)) as Hg.
  exists d2, ((das + k) :: nb). rewrite <-app_assoc in Hr2, Hinv2. split_and!.
  - erewrite run_bind_ok; [|erewrite run_bind_ok by exact Hr; apply run_ret]. exact Hr2.
  - simpl. by rewrite Hlen.
  - done.
  - simpl in Hfl2. by rewrite Hfl2, Hfl1.
  - intros b Hb. rewrite Hfr2 by done. by apply Hfr1.
  - constructor; [done|]. eapply Forall_impl; [exact Hzs|]. simpl. intros x [Hx Hx']. split; [done|].
    rewrite <-Hfr1; [done|]. by apply (proj1 (area_disjoint x Hg)).
Qed.

(** Data blocks can be taken, several at a time. *)
Lemma core_blocks_ok n hole F s L :
  fs_core hole fs T F s → Forall (in_data fs T) L → NoDup L → (n ≤ 14)%nat → blocks_ok n s L.
Proof.
  intros Hc Hin Hnd Hn. pose proof (inv_geom _ _ _ _ _ Hc) as Hg. pose proof Hg as [? ? ? ? ? ? ? ?].
  split; [done|]. split.
  - eapply Forall_impl; [exact Hin|]. simpl. intros x Hx.
    destruct (core_free hole F s x) as [[Hnh _] Hs]; [done| | |].
    + unfold in_data in Hx. lia.
    + by apply (proj1 (area_disjoint x Hg)).
    + split_and!; [|done..]. unfold in_data, is_u32 in *. lia.
  - pose proof (inv_held _ _ _ _ _ Hc). unfold BLOCK_CACHE_SIZE. lia.
Qed.

(** Replacing a node by one whose blocks no other node records, with a disk that
    changed in these blocks only. *)
Lemma core_set_node F s i nd nd' d' :
  fs_core (Some i) fs T F s → F !! i = Some nd →
  node_ok d' nd' → Forall (in_data fs T) (n_blocks nd') → NoDup (n_blocks nd') →
  (∀ j nj x, j ≠ i → F !! j = Some nj → x ∈ n_blocks nj → x ∉ n_blocks nd') →
  disk_ok d' → (∀ b, is_Some (Disk.disk s !! b) → is_Some (d' !! b)) →
  (∀ b, ¬ in_data fs T b → d' !! b = Disk.disk s !! b) →
  (∀ j nj b, j ≠ i → F !! j = Some nj → b ∈ n_blocks nj → d' !! b = Disk.disk s !! b) →
  fs_core (Some i) fs T (<[i := nd']> F) (set_disk d' s).
Proof.
  intros Hc Hi Hok' Hin' Hnd' Hdj' Hd' Hdom Hfr Hfrn. pose proof (inv_geom _ _ _ _ _ Hc) as Hg.
  destruct Hc as [_ Hd Hdm Hh Hnode Hst Hib Hdis Hsup]. split; [done|done| |done| | | | |].
  - intros b Hb. by apply Hdom, Hdm.
  - intros j nj Hj. destruct (decide (j = i)) as [->|Hne].
    + rewrite lookup_insert_eq in Hj. injection Hj as <-. destruct (Hnode i nd Hi) as (? & _).
      split; [done|]. split; [done|]. by split.
    + rewrite lookup_insert_ne in Hj by done.
      destruct (Hnode j nj Hj) as (Hr & Hok & Hin & Hnd). split_and!; [lia..| |done|done].
      eapply node_ok_frame; [|exact Hok]. intros x Hx. simpl. by eapply Hfrn.
  - intros j Hj Hne. destruct (Hst j Hj Hne) as (di & (b & Hb & Hget) & Hdi). exists di. split.
    + exists b. split; [|done]. simpl. rewrite Hfr; [done|]. destruct Hg as [? ? ? ? ? ? ? ?].
      unfold in_data, inode_count in *. lia.
    + intros nj. rewrite lookup_insert_ne by congruence. apply Hdi.
  - intros j Hj. simpl. transitivity (bit_at (Disk.disk s) (inode_bitmap fs) j).
    + unfold bit_at. rewrite Hfr; [done|]. destruct Hg as [? ? ? ? ? ? ? ?].
      unfold in_data, BLOCK_BITS, BLOCK_SZ, inode_count in *. lia.
    + rewrite Hib by done. apply bool_decide_ext. rewrite lookup_insert_is_Some'. naive_solver.
  - intros j k nj nk x Hjk [[<- <-]|[Hne Hj]]%lookup_insert_Some [[<- <-]|[Hne' Hk]]%lookup_insert_Some Hx.
    + done.
    + intros Hx'. by eapply Hdj'; [|exact Hk|exact Hx'|exact Hx].
    + by eapply Hdj'; [|exact Hj|exact Hx].
    + by apply (Hdis j k nj nk x).
  - unfold super_ok. simpl. rewrite Hfr; [done|]. destruct Hg as [? ? ? ? ? ? ? ?]. unfold in_data. lia.
Qed.

(** The bits of the data bitmap do not depend on the data area. *)
Lemma dbits_frame d d' k :
  geometry fs T → 0 ≤ k → (∀ b, ¬ in_data fs T b → d' !! b = d !! b) → k < 4096 * blocks (data_bitmap fs) →
  bit_at d' (data_bitmap fs) k = bit_at d (data_bitmap fs) k.
Proof.
  intros [? ? ? ? ? ? ? ?] Hk Hfr Hk'. unfold bit_at. rewrite Hfr; [done|].
  unfold in_data, BLOCK_BITS, BLOCK_SZ. lia.
Qed.

Lemma free_list_frame d d' :
  geometry fs T → (∀ b, ¬ in_data fs T b → d' !! b = d !! b) → free_list fs T d' = free_list fs T d.
Proof.
  intros Hg Hfr. apply filter_ext_in. intros k Hk%elem_of_range. pose proof Hg as [? ? ? ? ? ? ? ?].
  rewrite (dbits_frame d d') by (done || lia). done.
Qed.

Lemma owned_insert F i nd nd' x :
  F !! i = Some nd →
  owned (<[i := nd']> F) x ↔ x ∈ n_blocks nd' ∨ ∃ j nj, j ≠ i ∧ F !! j = Some nj ∧ x ∈ n_blocks nj.
Proof.
  intros Hi. unfold owned. split.
  - intros (j & nj & [[<- <-]|[Hne Hj]]%lookup_insert_Some & Hx); [by left|right; eauto 10].
  - intros [Hx|(j & nj & Hne & Hj & Hx)].
    + exists i, nd'. by rewrite lookup_insert_eq.
    + exists j, nj. by rewrite lookup_insert_ne.
Qed.

Lemma owned_split F i nd x :
  F !! i = Some nd →
  owned F x ↔ x ∈ n_blocks nd ∨ ∃ j nj, j ≠ i ∧ F !! j = Some nj ∧ x ∈ n_blocks nj.
Proof. intros Hi. rewrite <-(insert_id F i nd Hi) at 1. by apply owned_insert with nd. Qed.

(** Blocks in use pass between the nodes and the pending list. *)
Lemma alloc_move P P' F F' d d' :
  geometry fs T → fs_alloc P fs T F d → (∀ b, ¬ in_data fs T b → d' !! b = d !! b) →
  (∀ x, x ∈ P' ∨ owned F' x ↔ x ∈ P ∨ owned F x) →
  (NoDup P' ∧ Forall (in_data fs T) P' ∧ ∀ x, x ∈ P' → ¬ owned F' x) →
  (∀ x, ¬ (x ∈ P ∨ owned F x) → d' !! x = d !! x) → fs_alloc P' fs T F' d'.
Proof.
  intros Hg Ha Hfr Hset (Hnd & Hin & Hdj) Hz. pose proof Hg as [? ? ? ? ? ? ? ?].
  assert (∀ x, in_data fs T x → bit_at d' (data_bitmap fs) (x - das) = bit_at d (data_bitmap fs) (x - das)) as Hb.
  { intros x Hx. unfold in_data in Hx. apply dbits_frame; done || lia. }
  split.
  - split_and!; [done..|]. intros x i nd Hx Hi Hx'. apply (Hdj x Hx). by exists i, nd.
  - intros x Hx. rewrite Hb by done. rewrite (inv_dbits _ _ _ _ _ Ha) by done. symmetry. apply Hset.
  - intros x Hx. rewrite Hb by done. intros Hbx.
    rewrite Hz; [by apply (inv_zero _ _ _ _ _ Ha)|]. intros Hu.
    apply (inv_dbits _ _ _ _ _ Ha) in Hu; congruence.
Qed.

(** Growing a node by the pending blocks. *)
Lemma run_grow F s i nd nb new_size :
  fs_inv (Some i) nb fs T F s → F !! i = Some nd →
  Forall (λ x, Disk.disk s !! x = Some zeros) nb →
  size (n_inode nd) ≤ new_size ≤ MAX_SIZE →
  Z.of_nat (length nb) = tb (nblocks new_size) - tb (nblocks (size (n_inode nd))) →
  ∃ d' di', run (increase_size new_size nb (n_inode nd)) s = Ok (set_disk d' s, di') ∧
    type_ di' = type_ (n_inode nd) ∧ size di' = new_size ∧
    fs_inv (Some i) [] fs T (<[i := mkNode di' (n_blocks nd ++ nb)
      (n_bytes nd ++ replicate (Z.to_nat (new_size - size (n_inode nd))) Byte.x00)]> F) (set_disk d' s) ∧
    free_list fs T d' = free_list fs T (Disk.disk s).
Proof.
  intros [Hc Ha] Hi Hz Hsz Hlen. pose proof (inv_geom _ _ _ _ _ Hc) as Hg.
  destruct (inv_node _ _ _ _ _ Hc i nd Hi) as (Hir & Hok & Hin & Hnd).
  destruct (inv_pending _ _ _ _ _ Ha) as (HndP & HinP & HdjP).
  pose proof Hok as [Hv Hns Hnm Hnr Hnl Hnb]. pose proof Hv as (Hu & _). unfold is_u32 in Hu.
  assert (NoDup (n_blocks nd ++ nb)) as Hnd'.
  { apply NoDup_app. split_and!; [done| |done]. intros x Hx Hx'. by apply (HdjP x i nd). }
  assert (Forall (in_data fs T) (n_blocks nd ++ nb)) as Hin' by (by apply Forall_app).
  destruct (run_increase_size fl (n_inode nd) (n_blocks nd) nb s new_size)
    as (d' & di' & Hr & Hrep' & Hv' & Hd' & Hfr & Hsz' & Hty'); [done|done|apply Hc| |done| | |].
  { by eapply core_blocks_ok; [exact Hc|..|lia]. }
  { rewrite total_blocks_tb by lia. done. }
  { rewrite length_app, total_blocks_tb by lia. lia. }
  exists d', di'. pose proof Hfr as [Hfr1 Hfr2].
  assert (∀ b, b ∉ n_blocks nd ++ nb → d' !! b = Disk.disk s !! b) as Hfr3.
  { intros b Hb. apply Hfr1. intros (r & _ & _ & Hr'). apply Hb. by eapply list_elem_of_lookup_2. }
  assert (∀ b, ¬ in_data fs T b → d' !! b = Disk.disk s !! b) as Hfr4.
  { intros b Hb. apply Hfr3. rewrite Forall_forall in Hin'. naive_solver. }
  pose proof (nblocks_range (size (n_inode nd)) ltac:(lia)). pose proof (nblocks_range new_size ltac:(lia)).
  pose proof (nblocks_mono (size (n_inode nd)) new_size ltac:(lia)).
  split; [done|]. split; [done|]. split; [done|]. split; [split|by apply free_list_frame].
  - apply (core_set_node F s i nd); simpl; try done.
    + split; simpl; try done; [|lia| |].
      * rewrite Hsz', length_app, length_replicate. lia.
      * rewrite length_app, Hsz'. lia.
      * rewrite Hsz'. rewrite (file_bytes_grow (Disk.disk s) d' _ _ (nblocks (size (n_inode nd)))) by
          (done || lia || (rewrite length_app; lia)).
        rewrite Hnb, <-!app_assoc, <-!replicate_add. do 2 f_equal. unfold nblocks in *. lia.
    + intros j nj x Hj Hnj Hx [Hx'|Hx']%elem_of_app.
      * by apply (inv_disjoint _ _ _ _ _ Hc j i nj nd x).
      * by apply (HdjP x j nj).
    + intros b Hb. by apply Hfr2.
    + intros j nj b Hj Hnj Hx. apply Hfr3. intros [Hx'|Hx']%elem_of_app.
      * by apply (inv_disjoint _ _ _ _ _ Hc j i nj nd b).
      * by apply (HdjP b j nj).
  - apply (alloc_move nb [] F _ (Disk.disk s)); simpl; try done.
    + intros x. rewrite (owned_insert _ _ nd), (owned_split F i nd) by done. simpl.
      rewrite elem_of_app, elem_of_nil. tauto.
    + split_and!; [constructor|constructor|by intros x ?%elem_of_nil].
    + intros x Hx. apply Hfr3. rewrite (owned_split F i nd) in Hx by done. rewrite elem_of_app. tauto.
Qed.

(** A node is readable as [FileData] wants it. *)
Lemma node_readable hole F s i nd :
  fs_core hole fs T F s → F !! i = Some nd →
  readable s (n_inode nd) (n_blocks nd) (nblocks (size (n_inode nd))) ∧
  0 ≤ size (n_inode nd) ≤ MAX_SIZE ∧ size (n_inode nd) ≤ 512 * nblocks (size (n_inode nd)).
Proof.
  intros Hc Hi. destruct (inv_node _ _ _ _ _ Hc i nd Hi) as (Hir & Hok & Hin & Hnd).
  pose proof Hok as [Hv Hns Hnm Hnr Hnl Hnb]. pose proof Hv as (Hu & _). unfold is_u32 in Hu.
  pose proof (nblocks_range (size (n_inode nd)) ltac:(lia)). split_and!; [|lia|lia|unfold nblocks; lia].
  split; [done|]. split; [by eapply core_blocks_ok; [exact Hc|..|lia]|].
  split; [apply Hc|]. lia.
Qed.

Lemma run_node_read hole F s i nd off buf :
  fs_core hole fs T F s → F !! i = Some nd → 0 ≤ off → off + Z.of_nat (length buf) < 2 ^ 64 →
  let r := take (length buf) (drop (Z.to_nat off) (n_bytes nd)) in
  run (read_at (n_inode nd) off buf) s = Ok (s, (Z.of_nat (length r), splice buf 0 r)).
Proof.
  intros Hc Hi Hoff Hlen r. destruct (node_readable _ _ _ _ _ Hc Hi) as (Hrd & Hsz & Hsz').
  destruct (inv_node _ _ _ _ _ Hc i nd Hi) as (_ & [_ Hns _ _ _ Hnb] & _).
  rewrite (run_read_at _ _ _ _ _ _ _ Hrd) by (done || lia). unfold transfer.
  assert (Z.max 0 (Z.min (off + Z.of_nat (length buf)) (size (n_inode nd)) - off) = Z.of_nat (length r)) as ->.
  { unfold r. rewrite length_take, length_drop. lia. }
  do 4 f_equal. rewrite Nat2Z.id, Hnb, drop_app, take_app.
  assert (length r ≤ length (drop (Z.to_nat off) (n_bytes nd)))%nat as Hlr.
  { unfold r. rewrite length_take. lia. }
  replace (length r - _)%nat with 0%nat by lia. rewrite take_0, app_nil_r.
  unfold r. by rewrite take_length_take.
Qed.

(** Writing inside a node. *)
Lemma run_node_write F s i nd off buf :
  fs_inv (Some i) [] fs T F s → F !! i = Some nd → 0 ≤ off → (0 < length buf)%nat →
  off + Z.of_nat (length buf) ≤ size (n_inode nd) →
  ∃ d', run (write_at (n_inode nd) off buf) s = Ok (set_disk d' s, Z.of_nat (length buf)) ∧
    fs_inv (Some i) [] fs T (<[i := mkNode (n_inode nd) (n_blocks nd)
      (splice (n_bytes nd) (Z.to_nat off) buf)]> F) (set_disk d' s) ∧
    free_list fs T d' = free_list fs T (Disk.disk s).
Proof.
  intros [Hc Ha] Hi Hoff Hne Hend. destruct (node_readable _ _ _ _ _ Hc Hi) as (Hrd & Hsz & Hsz').
  pose proof (inv_geom _ _ _ _ _ Hc) as Hg. unfold MAX_SIZE in Hsz.
  destruct (inv_node _ _ _ _ _ Hc i nd Hi) as (Hir & Hok & Hin & Hnd).
  pose proof Hok as [Hv Hns Hnm Hnr Hnl Hnb].
  destruct (run_write_at fl s (n_inode nd) (n_blocks nd) _ off buf Hrd) as (s' & Hr & Hrd' & Hdf & Hs' & HFB);
    [lia..|]. unfold transfer in *. rewrite Z.min_l in * by lia.
  replace (off + Z.of_nat (length buf) - off) with (Z.of_nat (length buf)) in * by lia.
  rewrite Nat2Z.id, firstn_all in HFB. destruct Hdf as [Hfr1 Hfr2].
  assert (∀ b, b ∉ n_blocks nd → Disk.disk s' !! b = Disk.disk s !! b) as Hfr3.
  { intros b Hb. apply Hfr1. intros k _ Hk. apply Hb. by eapply list_elem_of_lookup_2. }
  assert (∀ b, ¬ in_data fs T b → Disk.disk s' !! b = Disk.disk s !! b) as Hfr4.
  { intros b Hb. apply Hfr3. rewrite Forall_forall in Hin. naive_solver. }
  exists (Disk.disk s'). rewrite <-Hs'. split; [done|]. split; [split|by apply free_list_frame].
  - rewrite Hs'. apply (core_set_node F s i nd); simpl; try done.
    + split; simpl; try done; [|apply Hrd'|].
      * rewrite length_splice by lia. done.
      * rewrite HFB, Hnb. apply splice_app. lia.
    + intros j nj x Hj Hnj Hx Hx'. by apply (inv_disjoint _ _ _ _ _ Hc j i nj nd x).
    + apply Hrd'.
    + intros b Hb. by apply Hfr2.
    + intros j nj b Hj Hnj Hx. apply Hfr3. intros Hx'. by apply (inv_disjoint _ _ _ _ _ Hc j i nj nd b).
  - apply (alloc_move [] [] F _ (Disk.disk s)); simpl; try done.
    + intros x. rewrite (owned_insert _ _ nd), (owned_split F i nd) by done. done.
    + split_and!; [constructor|constructor|by intros x ?%elem_of_nil].
    + intros x Hx. apply Hfr3. rewrite (owned_split F i nd) in Hx by done. tauto.
Qed.

Lemma node_ok_nil d di :
  inode_valid di → size di = 0 → node_ok d (mkNode di [] []).
Proof.
  intros Hv Hs. split; simpl; rewrite ?Hs; done.
Qed.

(** Clearing a node: its blocks become pending. *)
Lemma run_node_clear F s i nd :
  fs_inv (Some i) [] fs T F s → F !! i = Some nd →
  ∃ di', run (clear_size (n_inode nd)) s = Ok (s, (di', n_blocks nd)) ∧
    type_ di' = type_ (n_inode nd) ∧ size di' = 0 ∧ inode_valid di' ∧
    fs_inv (Some i) (n_blocks nd) fs T (<[i := mkNode di' [] []]> F) s.
Proof.
  intros [Hc Ha] Hi. pose proof (inv_geom _ _ _ _ _ Hc) as Hg.
  destruct (inv_node _ _ _ _ _ Hc i nd Hi) as (Hir & Hok & Hin & Hnd).
  pose proof Hok as [Hv Hns Hnm Hnr Hnl Hnb]. pose proof Hv as (Hu & _). unfold is_u32 in Hu.
  destruct (run_clear_size fl s (n_inode nd) (n_blocks nd)) as (di' & Hr & Hv' & Hs' & Ht');
    [done|done|apply Hc| |done|rewrite total_blocks_tb by lia; done|].
  { by eapply core_blocks_ok; [exact Hc|..|lia]. }
  exists di'. split; [done|]. split; [done|]. split; [done|]. split; [done|]. split.
  - rewrite <-(set_disk_id s). apply (core_set_node F s i nd); simpl; try done.
    + by apply node_ok_nil.
    + by apply NoDup_nil_2.
    + intros j nj x _ _ _. apply not_elem_of_nil.
    + apply Hc.
  - apply (alloc_move [] (n_blocks nd) F _ (Disk.disk s)); simpl; try done.
    + intros x. rewrite (owned_insert _ _ nd), (owned_split F i nd) by done. simpl.
      rewrite elem_of_nil. tauto.
    + split_and!; [done..|]. intros x Hx. rewrite (owned_insert _ _ nd) by done. simpl.
      intros [Hx'%elem_of_nil|(j & nj & Hne & Hj & Hx')]; [done|].
      by apply (inv_disjoint _ _ _ _ _ Hc j i nj nd x).
Qed.

(** Giving back a pending block: it is zeroed and its bit cleared. *)
Lemma run_dealloc_data hole x P F s :
  fs_inv hole (x :: P) fs T F s →
  ∃ d', run (dealloc_data fs x) s = Ok (set_disk d' s, tt) ∧ fs_inv hole P fs T F (set_disk d' s) ∧
    length (free_list fs T d') = S (length (free_list fs T (Disk.disk s))).
Proof.
  intros [Hc Ha]. pose proof (inv_geom _ _ _ _ _ Hc) as Hg. pose proof Hg as [? ? ? ? ? ? ? ?].
  destruct (inv_pending _ _ _ _ _ Ha) as (HndP & HinP & HdjP).
  apply NoDup_cons in HndP as [HxP HndP]. apply Forall_cons in HinP as [Hx HinP].
  assert (¬ owned F x) as Hno by (intros (i & nd & Hi & Hx'); by apply (HdjP x i nd); [left|..]).
  pose proof Hx as Hxr. unfold in_data in Hxr.
  destruct (core_free hole F s x) as [Hf [blk Hblk]]; [done|lia|by apply (proj1 (area_disjoint x Hg))|].
  assert (length blk = 512%nat) as Hbl by (eapply disk_ok_lookup; [apply Hc|done]).
  set (s1 := upd x zeros s).
  assert (fs_core hole fs T F s1) as Hc1.
  { change s1 with (set_disk (<[x := zeros]> (Disk.disk s)) s). apply core_frame; [done|..].
    - apply disk_ok_insert; [apply Hc|done].
    - intros b _ Hb. rewrite lookup_insert_ne; [done|]. intros <-. auto.
    - intros b Hb. rewrite lookup_insert_is_Some'. by right. }
  assert (∀ k, 0 ≤ k < 4096 * blocks (data_bitmap fs) →
    bit_at (Disk.disk s1) (data_bitmap fs) k = bit_at (Disk.disk s) (data_bitmap fs) k) as Hb1.
  { intros k Hk. apply dbits_frame; [done|lia| |lia]. intros b Hb. simpl.
    rewrite lookup_insert_ne; [done|]. by intros <-. }
  pose proof (dealloc_ok fl s1 (data_bitmap fs) (x - das) (data_bitmap_ok _ _ _ Hc1)) as Hd.
  pose proof (data_max _ _ _ Hc1) as Hmax. rewrite Hb1, Hmax in Hd by lia.
  rewrite (proj2 (inv_dbits _ _ _ _ _ Ha x Hx)) in Hd by (left; left).
  destruct Hd as (b' & Hr & Hb' & Hbits); [lia|].
  destruct (core_upd_bitmap _ _ _ (x - das) b' Hc1) as [Hc2 Hfr2]; [lia|done|].
  set (d' := <[_ := b']> (Disk.disk s1)) in *. exists d'.
  assert (∀ y, in_data fs T y → bit_at d' (data_bitmap fs) (y - das) =
    negb (x =? y) && bit_at (Disk.disk s) (data_bitmap fs) (y - das)) as Hb2.
  { intros y Hy. unfold in_data in Hy. rewrite <-Hb1 by lia.
    transitivity (negb (x - das =? y - das) && bit_at (Disk.disk s1) (data_bitmap fs) (y - das)).
    { rewrite <-Hbits by lia. done. }
    f_equal. apply eq_true_iff_eq. rewrite !negb_true_iff, !Z.eqb_neq. lia. }
  split; [|split; [split; [done|]|]].
  - unfold dealloc_data. erewrite run_bind_ok.
    + rewrite wrap32_small by (unfold is_u32; lia). exact Hr.
    + eapply (run_modify_data _ _ _ _ blk zeros); [done..|]. rewrite run_ret. unfold zero_block. simpl.
      by rewrite (const_fmap _ _ Byte.x00), Hbl by done.
  - split; simpl.
    + split_and!; [done..|]. intros y i nd Hy. apply HdjP. by right.
    + intros y Hy. rewrite Hb2, andb_true_iff, negb_true_iff, Z.eqb_neq by done.
      rewrite (inv_dbits _ _ _ _ _ Ha), elem_of_cons by done. split.
      * intros [Hne [[->|Hp]|Ho]]; [done|by left|by right].
      * intros [Hp|Ho]; (split; [|tauto]); intros <-; [done|]. by apply Hno.
    + intros y Hy. rewrite Hb2, andb_false_iff, negb_false_iff, Z.eqb_eq by done. intros Hy'.
      rewrite Hfr2 by (by apply (proj1 (area_disjoint y Hg))). simpl.
      destruct (decide (x = y)) as [->|Hne]; [by rewrite lookup_insert_eq|].
      rewrite lookup_insert_ne by done. apply (inv_zero _ _ _ _ _ Ha); [done|]. tauto.
  - apply (filter_count (x - das)); [unfold range; apply NoDup_seqZ|apply elem_of_range; lia| |].
    + rewrite (proj2 (inv_dbits _ _ _ _ _ Ha x Hx)); [done|by left; left].
    + intros k Hk%elem_of_range. pose proof (Hb2 (das + k)) as Hbk. replace (das + k - das) with k in Hbk by lia.
      rewrite Hbk by (unfold in_data; lia). rewrite andb_false_iff, negb_false_iff, Z.eqb_eq.
      assert (x = das + k ↔ k = x - das) as -> by lia. tauto.
Qed.

Lemma run_dealloc_many hole P F s :
  fs_inv hole P fs T F s →
  ∃ d', run (for_ P (λ _ x, dealloc_data fs x) tt) s = Ok (set_disk d' s, tt) ∧
    fs_inv hole [] fs T F (set_disk d' s) ∧
    length (free_list fs T d') = (length P + length (free_list fs T (Disk.disk s)))%nat.
Proof.
  revert s. induction P as [|x P IH]; intros s Hinv; cbn [for_].
  { exists (Disk.disk s). by rewrite set_disk_id. }
  destruct (run_dealloc_data hole x P F s Hinv) as (d1 & Hr & Hinv1 & Hf1).
  destruct (IH _ Hinv1) as (d2 & Hr2 & Hinv2 & Hf2). exists d2. split; [|split; [done|]].
  - by erewrite run_bind_ok by exact Hr.
  - simpl in *. lia.
Qed.

(** ** Positions of inodes *)
Lemma inode_pos i :
  geometry fs T → 0 ≤ i < inode_count fs →
  get_disk_inode_pos fs i = (inode_area_start_block fs + i / 4, 128 * (i mod 4)) ∧
  in_inode_area fs (inode_area_start_block fs + i / 4) ∧ 0 ≤ inode_area_start_block fs + i / 4 < T.
Proof.
  intros [? ? ? ? ? ? ? ?] Hi. unfold inode_count, in_inode_area in *. split; [|lia].
  unfold get_disk_inode_pos. change (size_of DiskInode) with 128. change (BLOCK_SZ / 128) with 4.
  rewrite wrap32_small by (unfold is_u32; lia). f_equal. lia.
Qed.

Lemma inode_view i : 0 ≤ 128 * (i mod 4) ∧ 128 * (i mod 4) + size_of DiskInode ≤ 512.
Proof. change (size_of DiskInode) with 128. lia. Qed.

Lemma core_hold hole F s b :
  fs_core hole fs T F s → in_inode_area fs b → Disk.held s = [] → fs_core hole fs T F (hold b s).
Proof.
  intros [? ? ? ? ? ? ? ? ?] Hb Hh. split; try done. simpl. rewrite Hh. split; [|simpl; lia].
  by apply Forall_singleton.
Qed.

Lemma core_unhold hole F s d :
  fs_core hole fs T F s → Disk.disk s = d →
  fs_core hole fs T F (Disk.mkState d [] (Disk.efs_held s)).
Proof. intros [? ? ? ? ? ? ? ? ?] <-. split; try done. simpl. split; [constructor|lia]. Qed.

Lemma inv_hole P F s i : fs_inv None P fs T F s → fs_inv (Some i) P fs T F s.
Proof.
  intros [[? ? ? ? ? Hst ? ? ?] Ha]. split; [|done]. split; try done. intros j Hj _. by apply Hst.
Qed.

(** Rewriting a block of the inode area. *)
Lemma core_inode_area hole hole' F s b v :
  fs_core hole fs T F s → in_inode_area fs b → length v = 512%nat →
  (∀ i, 0 ≤ i < inode_count fs → hole' ≠ Some i →
     ∃ di, stored fs (<[b := v]> (Disk.disk s)) i di ∧ ∀ nd, F !! i = Some nd → n_inode nd = di) →
  fs_core hole' fs T F (upd b v s).
Proof.
  intros Hc Hb Hv Hst'. pose proof (inv_geom _ _ _ _ _ Hc) as Hg. pose proof Hg as [? ? ? ? ? ? ? ?].
  destruct Hc as [_ Hd Hdm Hh Hnode Hst Hib Hdis Hsup]. unfold in_inode_area in Hb.
  split; [done|by apply disk_ok_insert| |done| |done| |done|].
  - intros b' Hb'. simpl. rewrite lookup_insert_is_Some'. right. by apply Hdm.
  - intros i nd Hi. destruct (Hnode i nd Hi) as (Hr & Hok & Hin & Hnd).
    split; [done|]. split; [|by split].
    eapply node_ok_frame; [|exact Hok]. intros x Hx. simpl. rewrite lookup_insert_ne; [done|].
    intros <-. rewrite Forall_forall in Hin. apply Hin in Hx. unfold in_data in Hx. lia.
  - intros i Hi. rewrite <-Hib by done. unfold bit_at. simpl. rewrite lookup_insert_ne; [done|].
    unfold BLOCK_BITS, BLOCK_SZ, inode_count in *. lia.
  - unfold super_ok. simpl. by rewrite lookup_insert_ne by lia.
Qed.

Lemma alloc_inode_area P F s b v :
  geometry fs T → fs_alloc P fs T F (Disk.disk s) → in_inode_area fs b →
  fs_alloc P fs T F (Disk.disk (upd b v s)).
Proof.
  intros Hg [Hp Hb Hz] Hin. pose proof Hg as [? ? ? ? ? ? ? ?]. unfold in_inode_area in Hin.
  assert (∀ x, in_data fs T x → bit_at (Disk.disk (upd b v s)) (data_bitmap fs) (x - das) =
    bit_at (Disk.disk s) (data_bitmap fs) (x - das)) as Hbits.
  { intros x Hx. unfold bit_at, in_data in *. simpl. rewrite lookup_insert_ne; [done|].
    unfold BLOCK_BITS, BLOCK_SZ. lia. }
  split; [done|..].
  - intros x Hx. rewrite Hbits by done. by apply Hb.
  - intros x Hx. rewrite Hbits by done. intros Hbx. simpl. unfold in_data in Hx.
    rewrite lookup_insert_ne by lia. by apply Hz.
Qed.

(** Storing the inode [di] at position [i] keeps the other inodes. *)
Lemma stored_put_back d i j di b (Q : DiskInode → Prop) :
  disk_ok d → inode_valid di → d !! (inode_area_start_block fs + i / 4) = Some b →
  (j = i → Q di) → (j ≠ i → ∃ dj, stored fs d j dj ∧ Q dj) →
  ∃ dj, stored fs (<[inode_area_start_block fs + i / 4 := put_back (128 * (i mod 4)) b di]> d) j dj ∧ Q dj.
Proof.
  intros Hd Hv Hb Hi Hj. assert (length b = 512%nat) as Hbl by eauto with disk.
  destruct (inode_view i) as [Hv1 Hv2], (inode_view j) as [Hv3 Hv4]. unfold stored.
  destruct (decide (j = i)) as [->|Hne].
  - exists di. split; [|by apply Hi]. rewrite lookup_insert_eq. eexists. split; [done|].
    by apply get_ref_put_back.
  - destruct (Hj Hne) as (dj & (b' & Hb' & Hget) & HQ). exists dj. split; [|done].
    destruct (decide (j / 4 = i / 4)) as [Heq|Hneq].
    + rewrite Heq, lookup_insert_eq. rewrite Heq, Hb in Hb'. injection Hb' as <-.
      eexists. split; [done|]. rewrite get_ref_put_back_ne; try done.
      change (size_of DiskInode) with 128. lia.
    + exists b'. rewrite lookup_insert_ne by lia. done.
Qed.

Lemma stored_block hole P F s i nd :
  fs_inv hole P fs T F s → hole ≠ Some i → F !! i = Some nd →
  ∃ b, Disk.disk s !! (inode_area_start_block fs + i / 4) = Some b ∧ length b = 512%nat ∧
    get_ref (128 * (i mod 4)) b = Ok (n_inode nd).
Proof.
  intros [Hc _] Hh Hi. destruct (inv_node _ _ _ _ _ Hc i nd Hi) as (Hr & _).
  destruct (inv_stored _ _ _ _ _ Hc i Hr Hh) as (di & (b & Hb & Hget) & Hdi).
  rewrite (Hdi nd Hi). exists b. split_and!; [done| |done].
  eapply disk_ok_lookup; [apply Hc|done].
Qed.

(** Reading a node: the closure runs on its inode, the block of the inode held. *)
Lemma run_read_node {A} P F s i nd (f : DiskInode → prog A) a :
  fs_inv None P fs T F s → Disk.held s = [] → F !! i = Some nd →
  run (f (n_inode nd)) (hold (inode_area_start_block fs + i / 4) s) =
    Ok (hold (inode_area_start_block fs + i / 4) s, a) →
  run (read_cache (inode_area_start_block fs + i / 4) (128 * (i mod 4)) f) s = Ok (s, a).
Proof.
  intros Hinv Hh Hi Hr. destruct (stored_block _ _ _ _ _ _ Hinv ltac:(done) Hi) as (b & Hb & Hbl & Hget).
  eapply run_read_pure; [|done|done|done]. split; rewrite Hh; [apply not_elem_of_nil|simpl; unfold BLOCK_CACHE_SIZE; lia].
Qed.

(** Modifying a node: the closure leaves a new inode, which is stored. *)
Lemma run_modify_node {A} P0 P F F1 s i nd nd1 (f : DiskInode → prog (DiskInode * A)) d1 a :
  let b := inode_area_start_block fs + i / 4 in
  fs_inv None P0 fs T F s → Disk.held s = [] → F !! i = Some nd →
  run (f (n_inode nd)) (hold b s) = Ok (set_disk d1 (hold b s), (n_inode nd1, a)) →
  fs_inv (Some i) P fs T F1 (set_disk d1 (hold b s)) → F1 !! i = Some nd1 →
  ∃ d2, run (modify_cache b (128 * (i mod 4)) f) s = Ok (set_disk d2 s, a) ∧
    fs_inv None P fs T F1 (set_disk d2 s) ∧ free_list fs T d2 = free_list fs T d1.
Proof.
  intros b Hinv Hh Hi Hr Hinv1 Hi1.
  destruct (stored_block _ _ _ _ _ _ Hinv ltac:(done) Hi) as (blk & Hb & Hbl & Hget). fold b in Hb.
  assert (d1 !! b = Some blk) as Hb1.
  { apply Disk.arun_frame in Hr as (_ & _ & Hfr & _). simpl in Hfr. rewrite Hfr by (left). done. }
  destruct Hinv1 as [Hc1 Ha1]. pose proof (inv_geom _ _ _ _ _ Hc1) as Hg.
  destruct (inv_node _ _ _ _ _ Hc1 i nd1 Hi1) as (Hir & Hok1 & _).
  pose proof (node_valid _ _ Hok1) as Hv1. destruct (inode_view i) as [Hv2 Hv3].
  destruct (inode_pos i Hg Hir) as (_ & Hia & _). fold b in Hia.
  exists (<[b := put_back (128 * (i mod 4)) blk (n_inode nd1)]> d1).
  assert (length (put_back (128 * (i mod 4)) blk (n_inode nd1)) = 512%nat) as Hpl.
  { by rewrite length_put_back. }
  split_and!.
  - erewrite (run_modify fl b _ f s blk (n_inode nd) d1 (Disk.efs_held s)); [done| |done|done|].
    + split; rewrite Hh; [apply not_elem_of_nil|simpl; unfold BLOCK_CACHE_SIZE; lia].
    + exact Hr.
  - assert (fs_core None fs T F1 (upd b (put_back (128 * (i mod 4)) blk (n_inode nd1))
      (set_disk d1 (hold b s)))) as Hc2.
    { apply (core_inode_area (Some i)); [done..|]. intros j Hj _. simpl.
      apply stored_put_back; [apply Hc1|done|done|congruence|].
      intros Hne. apply (inv_stored _ _ _ _ _ Hc1 j Hj). congruence. }
    split.
    + unfold set_disk. rewrite Hh. eapply core_unhold in Hc2; [exact Hc2|done].
    + apply (alloc_inode_area P F1 (set_disk d1 (hold b s)) b); done.
  - apply filter_ext_in. intros k Hk%elem_of_range. pose proof Hg as [? ? ? ? ? ? ? ?].
    unfold bit_at. rewrite lookup_insert_ne; [done|]. unfold in_inode_area, BLOCK_BITS, BLOCK_SZ in *. lia.
Qed.

(** ** A new inode *)
Lemma initialize_valid ty di : inode_valid di → inode_valid (initialize ty di).
Proof.
  intros (_ & [Hl _] & _ & _). split; [|split; [split|]]; simpl; try done.
  - by rewrite length_fmap.
  - apply Forall_fmap, Forall_true. done.
Qed.

(** The first inode number that no node has. *)
Definition first_inode F (i : Z) : Prop :=
  0 ≤ i < inode_count fs ∧ F !! i = None ∧ ∀ j, 0 ≤ j < i → is_Some (F !! j).

(** [alloc_inode] takes the first free inode and changes the inode bitmap only. *)
Lemma run_alloc_inode P F s i :
  fs_inv None P fs T F s → first_inode F i →
  ∃ b', let d' := <[i / BLOCK_BITS + 1 := b']> (Disk.disk s) in
    length b' = 512%nat ∧ 0 ≤ i / BLOCK_BITS < blocks (inode_bitmap fs) ∧
    run (alloc_inode fs) s = Ok (set_disk d' s, i) ∧
    ∀ j, 0 ≤ j < inode_count fs → bit_at d' (inode_bitmap fs) j =
      (i =? j) || bool_decide (is_Some (F !! j)).
Proof.
  intros [Hc Ha] (Hir & Hi & Hmin). pose proof (inv_geom _ _ _ _ _ Hc) as Hg.
  pose proof Hg as [Hib1 ? ? ? ? ? ? ?].
  destruct (alloc_ok fl s (inode_bitmap fs)) as (s' & r & Hr & Hff & Hs'); [by eapply inode_bitmap_ok|].
  rewrite (bitmap_ok_max s) in * by by eapply inode_bitmap_ok.
  replace (blocks (inode_bitmap fs) * BLOCK_BITS) with (inode_count fs) in *
    by (unfold BLOCK_BITS, BLOCK_SZ, inode_count; lia).
  pose proof (inv_ibits _ _ _ _ _ Hc) as Hib.
  assert (r = Some i) as ->.
  { destruct r as [j|].
    - destruct Hff as (Hjr & Hj & Hleast). f_equal. rewrite Hib in Hj by done.
      apply bool_decide_eq_false in Hj. destruct (Z.lt_trichotomy i j) as [Hlt|[?|Hlt]]; [|done|].
      + pose proof (Hleast i ltac:(lia)) as Hb. rewrite Hib in Hb by done.
        apply bool_decide_eq_true in Hb. rewrite Hi in Hb. by destruct Hb.
      + exfalso. apply Hj, Hmin. lia.
    - exfalso. pose proof (Hff i Hir) as Hb. rewrite Hib in Hb by done.
      apply bool_decide_eq_true in Hb. rewrite Hi in Hb. by destruct Hb. }
  destruct Hs' as [(b' & Hb' & ->) Hbits]. rewrite Hib1 in *. exists b'. cbn zeta. split_and!.
  - done.
  - unfold BLOCK_BITS, BLOCK_SZ, inode_count in *. lia.
  - unfold BLOCK_BITS, BLOCK_SZ, inode_count in *. lia.
  - unfold alloc_inode. erewrite run_bind_ok by exact Hr. erewrite run_bind_ok by apply run_unwrap.
    rewrite run_ret, wrap32_small by (unfold is_u32, inode_count in *; lia). done.
  - intros j Hj. rewrite <-Hib by done. by apply Hbits.
Qed.

Lemma run_new_inode P F s i ty :
  let b := inode_area_start_block fs + i / 4 in
  fs_inv None P fs T F s → Disk.held s = [] → first_inode F i →
  ∃ d1 d2 di, run (alloc_inode fs) s = Ok (set_disk d1 s, i) ∧
    run (modify_cache b (128 * (i mod 4)) (λ di : DiskInode, mret (initialize ty di, tt))) (set_disk d1 s) =
      Ok (set_disk d2 s, tt) ∧
    fs_inv None P fs T (<[i := mkNode di [] []]> F) (set_disk d2 s) ∧
    type_ di = ty ∧ size di = 0 ∧ free_list fs T d2 = free_list fs T (Disk.disk s).
Proof.
  intros b Hinv Hh Hff. destruct (run_alloc_inode P F s i Hinv Hff) as (b' & Hb' & Hk & Hr & Hbits).
  pose proof Hff as (Hir & Hi & _). pose proof Hinv as [Hc Ha].
  pose proof (inv_geom _ _ _ _ _ Hc) as Hg. pose proof Hg as [? ? ? ? ? ? ? ?].
  destruct (inode_pos i Hg Hir) as (_ & Hia & _). unfold in_inode_area in Hia. fold b in Hia.
  set (ib := i / BLOCK_BITS + 1) in *. assert (0 < ib < inode_area_start_block fs) as Hib1.
  { unfold ib. revert Hk. generalize (i / BLOCK_BITS). lia. }
  clearbody ib. clear Hk. set (d1 := <[ib := b']> (Disk.disk s)) in *.
  destruct (inv_stored _ _ _ _ _ Hc i Hir ltac:(done)) as (di0 & (blk & Hblk & Hget) & _). fold b in Hblk.
  assert (length blk = 512%nat) as Hbl by (eapply disk_ok_lookup; [apply Hc|done]).
  assert (d1 !! b = Some blk) as Hb1 by (unfold d1; by rewrite lookup_insert_ne by lia).
  assert (inode_valid di0) as Hv0.
  { apply get_ref_inv in Hget as (Ho1 & Ho2 & Hl). change (valid di0). eapply load_valid; [|exact Hl].
    by apply length_view_bytes. }
  set (di := initialize ty di0). pose proof (initialize_valid ty di0 Hv0) as Hv. fold di in Hv.
  destruct (inode_view i) as [Hv2 Hv3].
  set (d2 := <[b := put_back (128 * (i mod 4)) blk di]> d1). exists d1, d2, di.
  assert (disk_ok d1) as Hd1 by (apply disk_ok_insert; [apply Hc|done]).
  assert (∀ x, start_block_id (data_bitmap fs) ≤ x → d2 !! x = Disk.disk s !! x) as Hfr.
  { intros x Hx. unfold d2, d1. by rewrite !lookup_insert_ne by lia. }
  split; [done|]. split; [|split; [split|split; [done|split; [done|]]]].
  - erewrite (run_modify_pure fl b _ _ (set_disk d1 s)); [done| |done|done|done].
    split; simpl; rewrite Hh; [apply not_elem_of_nil|simpl; unfold BLOCK_CACHE_SIZE; lia].
  - destruct Hc as [_ Hd Hdm Hhs Hnode Hst Hib Hdis Hsup]. split; [done| | |done| | | | |]; simpl.
    + apply disk_ok_insert; [done|]. by rewrite length_put_back.
    + intros x Hx. unfold d2, d1. rewrite !lookup_insert_is_Some'. right. right. by apply Hdm.
    + intros j nd [[<- <-]|[Hne Hj]]%lookup_insert_Some.
      * split; [lia|]. split; [by apply node_ok_nil|]. split; [constructor|apply NoDup_nil_2].
      * destruct (Hnode j nd Hj) as (? & Hok & Hin & ?). split; [lia|]. split; [|by split].
        eapply node_ok_frame; [|exact Hok]. intros x Hx. apply Hfr.
        rewrite Forall_forall in Hin. apply Hin in Hx. unfold in_data in Hx. lia.
    + intros j Hj _. apply stored_put_back; [done|done|done|..].
      * intros ->. rewrite lookup_insert_eq. by intros nd [= <-].
      * intros Hne. destruct (Hst j Hj ltac:(done)) as (dj & (bj & Hbj & Hgj) & HQ).
        exists dj. split.
        -- exists bj. split; [|done]. unfold d1. rewrite lookup_insert_ne; [done|lia].
        -- intros nd. rewrite lookup_insert_ne by done. apply HQ.
    + intros j Hj. transitivity (bit_at d1 (inode_bitmap fs) j).
      * unfold bit_at, d2. rewrite lookup_insert_ne; [done|].
        unfold BLOCK_BITS, BLOCK_SZ, inode_count in *. lia.
      * rewrite Hbits by done. apply eq_true_iff_eq. rewrite orb_true_iff, Z.eqb_eq, !bool_decide_eq_true.
        by rewrite lookup_insert_is_Some'.
    + intros j k nj nk x Hjk [[<- <-]|[Hne Hj]]%lookup_insert_Some [[<- <-]|[Hne' Hk']]%lookup_insert_Some Hx.
      * done.
      * by apply elem_of_nil in Hx.
      * apply not_elem_of_nil.
      * by apply (Hdis j k nj nk x).
    + unfold super_ok, d2, d1. by rewrite !lookup_insert_ne by lia.
  - destruct Ha as [(HndP & HinP & HdjP) Hdb Hz].
    assert (∀ x, in_data fs T x → bit_at d2 (data_bitmap fs) (x - das) =
      bit_at (Disk.disk s) (data_bitmap fs) (x - das)) as Hbx.
    { intros x Hx. unfold bit_at, in_data in *. rewrite Hfr; [done|]. unfold BLOCK_BITS, BLOCK_SZ. lia. }
    split; simpl.
    + split_and!; [done..|]. intros x j nj Hx [[<- <-]|[Hne Hj]]%lookup_insert_Some.
      * apply not_elem_of_nil.
      * by apply (HdjP x j nj).
    + intros x Hx. rewrite Hbx, Hdb by done. apply or_iff_compat_l. split.
      * intros (j & nj & Hj & Hx'). exists j, nj. split; [|done].
        rewrite lookup_insert_ne; [done|]. congruence.
      * intros (j & nj & [[<- <-]|[Hne Hj]]%lookup_insert_Some & Hx'); [by apply elem_of_nil in Hx'|eauto].
    + intros x Hx. rewrite Hbx by done. intros Hb0.
      rewrite Hfr by (unfold in_data in Hx; lia). by apply Hz.
  - apply filter_ext_in. intros k Hk%elem_of_range. unfold bit_at. rewrite Hfr; [done|].
    unfold BLOCK_BITS, BLOCK_SZ. lia.
Qed.
End inv.
