(* ===== verification/Vfs.v ===== *)
(** * Files and directories ([easy-fs/src/vfs.rs])

    An [Inode] is a position in the inode area.  Every method takes the lock of
    the file system (except the last step of [unlink]), works on the disk inode
    through the block cache, and, where it changes something, writes the cache
    back.  Names are lists of bytes. *)

From S2P Require Import Prelude Bytes BlockCache Layout DiskLib Bitmap DiskInode FileData DirEntry Efs FsInv.

(** Virtual filesystem layer over easy-fs *)
Record Inode := mkInode { block_id : Z; block_offset : Z }.

Section vfs.
Context (fs : EasyFileSystem).
Implicit Types (self : Inode).

(** [Inode::new] at the position of inode [inode_id] *)
Definition inode_at (inode_id : Z) : Inode :=
  let '(block_id, block_offset) := get_disk_inode_pos fs inode_id in mkInode block_id block_offset.

(** [EasyFileSystem::root_inode] *)
Definition root_inode : prog Inode := with_fs (mret tt);; with_fs (mret (inode_at 0)).

(** Call a function over a disk inode to read it *)
Definition read_disk_inode {V} self (f : DiskInode → prog V) : prog V :=
  read_cache (block_id self) (block_offset self) f.

(** Call a function over a disk inode to modify it *)
Definition modify_disk_inode {V} self (f : DiskInode → prog (DiskInode * V)) : prog V :=
  modify_cache (block_id self) (block_offset self) f.

(** Get ino *)
Definition get_ino self : prog Z :=
  with_fs (
    let inode_size := size_of DiskInode in
    let inodes_per_block := BLOCK_SZ / inode_size in
    let inode_id := wrap64 (wrap64 (block_id self - inode_area_start_block fs) * inodes_per_block +
                            block_offset self / inode_size) in
    mret (wrap32 inode_id)).

(** Get mode *)
Definition get_mode self : prog Z :=
  read_disk_inode self (λ disk_inode,
    if is_dir disk_inode then mret 1 else if is_file disk_inode then mret 2 else mret 0).

(** Number of directory entries of a disk inode *)
Definition file_count (disk_inode : DiskInode) : Z := size disk_inode / DIRENT_SZ.

(** [assert_eq!(disk_inode.read_at(i * DIRENT_SZ, dirent.as_bytes_mut(), ..), DIRENT_SZ)] *)
Definition read_dirent (disk_inode : DiskInode) (i : Z) (dirent : DirEntry) : prog DirEntry :=
  '(n, bytes) ← DiskInode.read_at disk_inode (i * DIRENT_SZ) (as_bytes dirent);
  assert_ (n =? DIRENT_SZ);;
  mret (of_bytes bytes).

(** The loop over directory entries that stops at the first one named [name]. *)
Fixpoint find_dirent (disk_inode : DiskInode) (name : list byte) (l : list Z) (dirent : DirEntry) :
    prog (option (Z * DirEntry)) :=
  match l with
  | [] => mret None
  | i :: l =>
      dirent ← read_dirent disk_inode i dirent;
      nm ← entry_name dirent;
      if bool_decide (nm = name) then mret (Some (i, dirent))
      else find_dirent disk_inode name l dirent
  end.

(** Find inode under a disk inode by name *)
Definition find_inode_id (name : list byte) (disk_inode : DiskInode) : prog (option Z) :=
  (* assert it is a directory *)
  assert_ (is_dir disk_inode);;
  r ← find_dirent disk_inode name (range 0 (file_count disk_inode)) empty;
  mret (option_map (λ e : Z * DirEntry, inode_number (snd e)) r).

(** Find inode under current inode by name *)
Definition find self (name : list byte) : prog (option Inode) :=
  with_fs (read_disk_inode self (λ disk_inode,
    r ← find_inode_id name disk_inode;
    mret (option_map inode_at r))).

(** Get link number *)
Definition get_nlink self (target_block_id target_block_offset : Z) : prog Z :=
  with_fs (read_disk_inode self (λ disk_inode,
    assert_ (is_dir disk_inode);;
    for_ (range 0 (file_count disk_inode)) (λ counter i,
      dirent ← read_dirent disk_inode i empty;
      nm ← entry_name dirent;
      r ← find_inode_id nm disk_inode;
      match r with
      | Some inode_id =>
          let '(block_id, block_offset) := get_disk_inode_pos fs inode_id in
          if (block_id =? target_block_id) && (block_offset =? target_block_offset)
          then mret (wrap32 (counter + 1)) else mret counter
      | None => mret counter
      end) 0)).

(** Increase the size of a disk inode *)
Definition increase_size (new_size : Z) (disk_inode : DiskInode) : prog DiskInode :=
  if new_size <? size disk_inode then mret disk_inode else
  blocks_needed ← blocks_num_needed disk_inode new_size;
  v ← for_ (range 0 blocks_needed) (λ v _, b ← alloc_data fs; mret (v ++ [b])) [];
  DiskInode.increase_size new_size v disk_inode.

(** Append an entry to a directory, as [link] and [create] do. *)
Definition append_dirent (name : list byte) (ino : Z) (root_inode : DiskInode) : prog (DiskInode * Z) :=
  let file_count := file_count root_inode in
  (* increase size *)
  let new_size := (file_count + 1) * DIRENT_SZ in
  root_inode ← increase_size (wrap32 new_size) root_inode;
  (* write dirent *)
  dirent ← new name ino;
  n ← DiskInode.write_at root_inode (file_count * DIRENT_SZ) (as_bytes dirent);
  mret (root_inode, n).

(** link a file *)
Definition link self (ino : Z) (name : list byte) : prog Z :=
  with_fs (
    modify_disk_inode self (λ root_inode,
      assert_ (is_dir root_inode);;
      append_dirent name ino root_inode);;
    mret 0).

(** Clear the data in current inode *)
Definition clear self : prog unit :=
  with_fs (
    modify_disk_inode self (λ disk_inode,
      let size := size disk_inode in
      '(disk_inode, data_blocks_dealloc) ← clear_size disk_inode;
      assert_ (Z.of_nat (length data_blocks_dealloc) =? total_blocks size);;
      for_ data_blocks_dealloc (λ _ data_block, dealloc_data fs data_block) tt;;
      mret (disk_inode, tt));;
    block_cache_sync_all).

(** unlink a file *)
Definition unlink self (name : list byte) : prog Z :=
  r ← find self name;
  match r with
  | Some inode =>
      n ← get_nlink self (wrap32 (block_id inode)) (block_offset inode);
      if n =? 1 then clear inode else mret tt
  | None => mret tt
  end;;
  modify_disk_inode self (λ root_inode,
    assert_ (is_dir root_inode);;
    r ← find_dirent root_inode name (range 0 (file_count root_inode)) empty;
    match r with
    | Some (i, _) =>
        DiskInode.write_at root_inode (i * DIRENT_SZ) (as_bytes empty);;
        mret (root_inode, tt)
    | None => mret (root_inode, tt)
    end);;
  block_cache_sync_all;;
  mret 0.

(** Create inode under current inode by name *)
Definition create self (name : list byte) : prog (option Inode) :=
  with_fs (
    r ← modify_disk_inode self (λ root_inode,
      (* assert it is a directory *)
      assert_ (is_dir root_inode);;
      (* has the file been created? *)
      r ← find_inode_id name root_inode;
      mret (root_inode, r));
    match r with
    | Some _ => mret None
    | None =>
        (* create a new file *)
        new_inode_id ← alloc_inode fs;
        (* initialize inode *)
        let '(new_inode_block_id, new_inode_block_offset) := get_disk_inode_pos fs new_inode_id in
        modify_cache new_inode_block_id new_inode_block_offset (λ new_inode : DiskInode,
          mret (initialize File new_inode, tt));;
        modify_disk_inode self (append_dirent name new_inode_id);;
        block_cache_sync_all;;
        mret (Some (inode_at new_inode_id))
    end).

(** List inodes under current inode *)
Definition ls self : prog (list (list byte)) :=
  with_fs (read_disk_inode self (λ disk_inode,
    for_ (range 0 (file_count disk_inode)) (λ v i,
      dirent ← read_dirent disk_inode i empty;
      nm ← entry_name dirent;
      mret (v ++ [nm])) [])).

(** Read data from current inode *)
Definition read_at self (offset : Z) (buf : list byte) : prog (Z * list byte) :=
  with_fs (read_disk_inode self (λ disk_inode, DiskInode.read_at disk_inode offset buf)).

(** Write data to current inode *)
Definition write_at self (offset : Z) (buf : list byte) : prog Z :=
  with_fs (
    size ← modify_disk_inode self (λ disk_inode,
      disk_inode ← increase_size (wrap32 (offset + Z.of_nat (length buf))) disk_inode;
      n ← DiskInode.write_at disk_inode offset buf;
      mret (disk_inode, n));
    block_cache_sync_all;;
    mret size).
End vfs.
