(* ===== verification/VfsSpec.v ===== *)
(** * What files and directories promise

    The abstract file system is a finite map from inode numbers to a type and
    the bytes of the file, with a count of free data blocks ([fs_abs]).  The
    theorems say that the methods of [Inode] return, what they return and what
    the map is afterwards: reading and writing, clearing, and the operations on
    a directory, whose bytes are those of a list of named entries. *)

From S2P Require Import Prelude Bytes BlockCache Layout DiskLib Bitmap DiskInode FileData DirEntry Efs FsInv Vfs.

Local Ltac Zify.zify_post_hook ::= Z.to_euclidean_division_equations.

Notation anodes := (gmap Z (DiskInodeType * list byte)).

Definition abs (F : gmap Z Node) : anodes := (λ nd, (type_ (n_inode nd), n_bytes nd)) <$> F.

(** The disk of [s] holds the files [A] and has [k] free data blocks; no lock is held. *)
Definition fs_abs (fs : EasyFileSystem) (T : Z) (A : anodes) (k : nat) (s : Disk.state) : Prop :=
  ∃ F, fs_inv None [] fs T F s ∧ Disk.held s = [] ∧ Disk.efs_held s = false ∧
    A = abs F ∧ k = length (free_list fs T (Disk.disk s)).

(** Blocks of all kinds that a file of [n] bytes takes. *)
Definition blocks_for (n : nat) : nat := Z.to_nat (tb (nblocks (Z.of_nat n))).

(** [bs] extended by zeros to [n] bytes. *)
Definition pad (bs : list byte) (n : nat) : list byte := bs ++ replicate (n - length bs) Byte.x00.

(** The bytes of a file after [buf] was written at [off]. *)
Definition write_bytes (bs : list byte) (off : nat) (buf : list byte) : list byte :=
  splice (pad bs (off + length buf)) off buf.

Lemma length_pad bs n : length (pad bs n) = Nat.max (length bs) n.
Proof. unfold pad. rewrite length_app, length_replicate. lia. Qed.

Lemma length_write_bytes bs off buf :
  length (write_bytes bs off buf) = Nat.max (length bs) (off + length buf).
Proof. unfold write_bytes. rewrite length_splice; rewrite length_pad; lia. Qed.

Lemma blocks_for_tb n : Z.of_nat n ≤ MAX_SIZE → Z.of_nat (blocks_for n) = tb (nblocks (Z.of_nat n)).
Proof.
  intros. unfold blocks_for. pose proof (nblocks_range (Z.of_nat n) ltac:(lia)).
  pose proof (tb_range (nblocks (Z.of_nat n)) ltac:(lia)). lia.
Qed.

Lemma abs_insert F i nd : abs (<[i := nd]> F) = <[i := (type_ (n_inode nd), n_bytes nd)]> (abs F).
Proof. unfold abs. by rewrite fmap_insert. Qed.

Lemma abs_lookup F i v :
  abs F !! i = Some v → ∃ nd, F !! i = Some nd ∧ v = (type_ (n_inode nd), n_bytes nd).
Proof. unfold abs. rewrite lookup_fmap, fmap_Some. naive_solver. Qed.

Section spec.
Context (fl : fault) (fs : EasyFileSystem) (T : Z).
Notation run p := (Disk.arun fl p).

(** [Inode::increase_size] on the inode of a node, inside its closure. *)
Lemma run_increase F s i nd new_size :
  fs_inv (Some i) [] fs T F s → F !! i = Some nd → 0 ≤ new_size ≤ MAX_SIZE →
  (blocks_for (Nat.max (length (n_bytes nd)) (Z.to_nat new_size)) ≤
    blocks_for (length (n_bytes nd)) + length (free_list fs T (Disk.disk s)))%nat →
  ∃ d' nd', run (increase_size fs new_size (n_inode nd)) s = Ok (set_disk d' s, n_inode nd') ∧
    fs_inv (Some i) [] fs T (<[i := nd']> F) (set_disk d' s) ∧
    type_ (n_inode nd') = type_ (n_inode nd) ∧ n_bytes nd' = pad (n_bytes nd) (Z.to_nat new_size) ∧
    (length (free_list fs T d') + blocks_for (length (n_bytes nd')) =
      length (free_list fs T (Disk.disk s)) + blocks_for (length (n_bytes nd)))%nat.
Proof.
  intros Hinv Hi Hsz Hneed. pose proof Hinv as [Hc Ha].
  destruct (inv_node _ _ _ _ _ Hc i nd Hi) as (Hir & Hok & Hin & Hnd).
  pose proof Hok as [Hv Hns Hnm Hnr Hnl Hnb]. unfold increase_size.
  destruct (Z.ltb_spec new_size (size (n_inode nd))) as [Hlt|Hge].
  { exists (Disk.disk s), nd. rewrite run_ret, set_disk_id, insert_id by done.
    split_and!; [done..| |lia]. unfold pad. replace (Z.to_nat new_size - _)%nat with 0%nat by lia.
    by rewrite app_nil_r. }
  replace (Nat.max (length (n_bytes nd)) (Z.to_nat new_size)) with (Z.to_nat new_size) in Hneed by lia.
  pose proof (blocks_for_tb (Z.to_nat new_size) ltac:(lia)) as Hb1.
  pose proof (blocks_for_tb (length (n_bytes nd)) ltac:(lia)) as Hb0.
  rewrite Z2Nat.id in Hb1 by lia. rewrite <-Hns in Hb0.
  pose proof (nblocks_range (size (n_inode nd)) ltac:(lia)).
  pose proof (nblocks_range new_size ltac:(lia)) as Hnr1.
  pose proof (tb_range (nblocks new_size) ltac:(lia)).
  pose proof (tb_mono (nblocks (size (n_inode nd))) (nblocks new_size)) as Hmono.
  pose proof (nblocks_mono (size (n_inode nd)) new_size ltac:(lia)).
  set (m := tb (nblocks new_size) - tb (nblocks (size (n_inode nd)))) in *.
  assert (run (blocks_num_needed (n_inode nd) new_size) s = Ok (s, m)) as Hbn.
  { unfold blocks_num_needed. erewrite run_bind_ok by (apply run_assert, Z.leb_le; lia).
    rewrite run_ret, !total_blocks_tb, wrap32_small by (unfold is_u32; lia). done. }
  erewrite run_bind_ok by exact Hbn.
  destruct (run_alloc_many fl fs T (Some i) [] F s (range 0 m) [] Hinv) as
    (d1 & nb & Hr1 & Hlen & Hinv1 & Hfl1 & Hfr1 & Hz); [unfold range; rewrite length_seqZ; lia|].
  unfold range in Hlen. rewrite length_seqZ in Hlen. rewrite app_nil_l in Hr1, Hinv1.
  erewrite run_bind_ok by exact Hr1.
  destruct (run_grow fl fs T F (set_disk d1 s) i nd nb new_size Hinv1 Hi) as
    (d2 & di' & Hr2 & Hty & Hsz2 & Hinv2 & Hfl2); [|lia|lia|].
  { eapply Forall_impl; [exact Hz|]. simpl. intros x [Hx Hzx]. rewrite Hfr1; [done|].
    by apply (proj1 (area_disjoint fs T x (inv_geom _ _ _ _ _ Hc))). }
  exists d2, (mkNode di' (n_blocks nd ++ nb)
    (n_bytes nd ++ replicate (Z.to_nat (new_size - size (n_inode nd))) Byte.x00)).
  split; [exact Hr2|]. split; [exact Hinv2|]. split; [done|]. simpl. split.
  - unfold pad. do 2 f_equal. lia.
  - simpl in Hfl2. rewrite Hfl2, Hfl1, length_drop. unfold range. rewrite length_seqZ.
    rewrite length_app, length_replicate.
    replace (length (n_bytes nd) + Z.to_nat (new_size - size (n_inode nd)))%nat with (Z.to_nat new_size) by lia.
    lia.
Qed.

(** Growing a node as far as needed, then writing in it. *)
Lemma run_extend F s i nd off buf :
  fs_inv (Some i) [] fs T F s → F !! i = Some nd → 0 ≤ off → (0 < length buf)%nat →
  off + Z.of_nat (length buf) ≤ MAX_SIZE →
  let bs' := write_bytes (n_bytes nd) (Z.to_nat off) buf in
  (blocks_for (length bs') ≤
    blocks_for (length (n_bytes nd)) + length (free_list fs T (Disk.disk s)))%nat →
  ∃ d1 di d2 nd2,
    run (increase_size fs (wrap32 (off + Z.of_nat (length buf))) (n_inode nd)) s = Ok (set_disk d1 s, di) ∧
    run (DiskInode.write_at di off buf) (set_disk d1 s) = Ok (set_disk d2 s, Z.of_nat (length buf)) ∧
    n_inode nd2 = di ∧ type_ di = type_ (n_inode nd) ∧ n_bytes nd2 = bs' ∧
    fs_inv (Some i) [] fs T (<[i := nd2]> F) (set_disk d2 s) ∧
    (length (free_list fs T d2) + blocks_for (length bs') =
      length (free_list fs T (Disk.disk s)) + blocks_for (length (n_bytes nd)))%nat.
Proof.
  intros Hinv Hi Hoff Hne Hmax bs' Hneed. unfold MAX_SIZE in Hmax.
  assert (length bs' = Nat.max (length (n_bytes nd)) (Z.to_nat (off + Z.of_nat (length buf)))) as Hbl.
  { unfold bs'. rewrite length_write_bytes. lia. }
  rewrite wrap32_small by (unfold is_u32; lia). rewrite Hbl in Hneed.
  destruct (run_increase F s i nd (off + Z.of_nat (length buf)) Hinv Hi) as
    (d1 & nd1 & Hr1 & Hinv1 & Hty1 & Hby1 & Hfl1); [unfold MAX_SIZE; lia|done|].
  assert (<[i := nd1]> F !! i = Some nd1) as Hi1 by apply lookup_insert_eq.
  pose proof (node_size _ _ (proj1 (proj2 (inv_node _ _ _ _ _ (proj1 Hinv1) i nd1 Hi1)))) as Hsz1.
  destruct (run_node_write fl fs T _ _ i nd1 off buf Hinv1 Hi1 Hoff Hne) as (d2 & Hr2 & Hinv2 & Hfl2).
  { rewrite Hsz1, Hby1, length_pad. lia. }
  rewrite insert_insert_eq in Hinv2. simpl in Hfl2.
  assert (n_bytes nd1 = pad (n_bytes nd) (Z.to_nat off + length buf)) as Hby2.
  { rewrite Hby1. f_equal. lia. }
  exists d1, (n_inode nd1), d2, (mkNode (n_inode nd1) (n_blocks nd1) (splice (n_bytes nd1) (Z.to_nat off) buf)).
  split_and!; try done.
  - simpl. unfold bs', write_bytes. by rewrite Hby2.
  - rewrite Hfl2, <-Hfl1, Hbl, Hby1, length_pad. done.
Qed.

Lemma inv_efs hole P F s e :
  fs_inv hole P fs T F s → fs_inv hole P fs T F (Disk.mkState (Disk.disk s) (Disk.held s) e).
Proof. intros [[? ? ? ? ? ? ? ? ?] ?]. by split. Qed.

Lemma inv_lock hole P F s :
  fs_inv hole P fs T F s → Disk.held s = [] → fs_inv hole P fs T F (Disk.mkState (Disk.disk s) [] true).
Proof. intros Hinv Hh. pose proof (inv_efs _ _ _ _ true Hinv) as H. by rewrite Hh in H. Qed.

(** The lock of the file system around a step on a node. *)
Lemma run_lock {A} (p : prog A) s d' a :
  Disk.held s = [] → Disk.efs_held s = false →
  run p (Disk.mkState (Disk.disk s) [] true) = Ok (Disk.mkState d' [] true, a) →
  run (with_fs p) s = Ok (set_disk d' s, a).
Proof.
  intros Hh He Hp. unfold set_disk. rewrite Hh, He. rewrite <-Hh in Hp.
  erewrite run_with_fs; [by rewrite Hh|done|]. rewrite Hh in *. exact Hp.
Qed.

Lemma fs_abs_lookup A k s i ty bs :
  fs_abs fs T A k s → A !! i = Some (ty, bs) →
  ∃ F nd, fs_inv None [] fs T F s ∧ Disk.held s = [] ∧ Disk.efs_held s = false ∧ A = abs F ∧
    k = length (free_list fs T (Disk.disk s)) ∧ F !! i = Some nd ∧
    type_ (n_inode nd) = ty ∧ n_bytes nd = bs ∧
    inode_at fs i = mkInode (inode_area_start_block fs + i / 4) (128 * (i mod 4)).
Proof.
  intros (F & Hinv & Hh & He & -> & ->) Hi.
  destruct (abs_lookup _ _ _ Hi) as (nd & Hnd & [= -> ->]). exists F, nd. split_and!; try done.
  pose proof (proj1 Hinv) as Hc. destruct (inv_node _ _ _ _ _ Hc i nd Hnd) as (Hir & _).
  unfold inode_at. destruct (inode_pos fs T i (inv_geom _ _ _ _ _ Hc) Hir) as [-> _]. done.
Qed.

(** Reading a file. *)
Lemma run_vfs_read A k s i ty bs off buf :
  fs_abs fs T A k s → A !! i = Some (ty, bs) → 0 ≤ off → off + Z.of_nat (length buf) < 2 ^ 64 →
  let r := take (length buf) (drop (Z.to_nat off) bs) in
  run (read_at (inode_at fs i) off buf) s = Ok (s, (Z.of_nat (length r), splice buf 0 r)).
Proof.
  intros Habs Hi Hoff Hlen r.
  destruct (fs_abs_lookup _ _ _ _ _ _ Habs Hi) as (F & nd & Hinv & Hh & He & _ & _ & Hnd & _ & Hb & ->).
  unfold read_at, read_disk_inode. cbn [block_id block_offset].
  rewrite <-(set_disk_id s) at 2. apply run_lock; [done..|].
  set (s1 := Disk.mkState (Disk.disk s) [] true).
  assert (fs_inv None [] fs T F s1) as Hinv1 by (by apply inv_lock).
  eapply (run_read_node fl fs T [] F s1 i nd); [done..|]. subst bs.
  apply (run_node_read fl fs T (Some i) F _ i nd); [|done..].
  apply core_hold; [by apply (inv_hole fs T [])| |done].
  destruct (inv_node _ _ _ _ _ (proj1 Hinv) i nd Hnd) as (Hir & _).
  by apply (inode_pos fs T i (inv_geom _ _ _ _ _ (proj1 Hinv)) Hir).
Qed.

(** [modify_disk_inode] on a node: what the closure establishes with the inode in
    hand holds with the inode stored. *)
Lemma run_modify_inode {V} F s i nd (f : DiskInode → prog (DiskInode * V)) (Q : gmap Z Node → nat → V → Prop) :
  fs_inv None [] fs T F s → Disk.held s = [] → F !! i = Some nd →
  (∀ s1, fs_inv (Some i) [] fs T F s1 → Disk.disk s1 = Disk.disk s →
     ∃ d1 nd1 F1 a, run (f (n_inode nd)) s1 = Ok (set_disk d1 s1, (n_inode nd1, a)) ∧
       fs_inv (Some i) [] fs T F1 (set_disk d1 s1) ∧ F1 !! i = Some nd1 ∧ Q F1 (length (free_list fs T d1)) a) →
  ∃ d2 F1 a, run (modify_disk_inode (inode_at fs i) f) s = Ok (set_disk d2 s, a) ∧
    fs_inv None [] fs T F1 (set_disk d2 s) ∧ Q F1 (length (free_list fs T d2)) a.
Proof.
  intros Hinv Hh Hi Hf. pose proof (proj1 Hinv) as Hc. pose proof (inv_geom _ _ _ _ _ Hc) as Hg.
  destruct (inv_node _ _ _ _ _ Hc i nd Hi) as (Hir & _).
  destruct (inode_pos fs T i Hg Hir) as (Hpos & Hia & _).
  destruct (Hf (hold (inode_area_start_block fs + i / 4) s)) as (d1 & nd1 & F1 & a & Hr & Hinv1 & Hi1 & HQ).
  - destruct (inv_hole fs T [] F s i Hinv) as [Hc' Ha']. split; [by apply core_hold|done].
  - done.
  - destruct (run_modify_node fl fs T [] [] F F1 s i nd nd1 f d1 a Hinv Hh Hi Hr Hinv1 Hi1)
      as (d2 & Hr2 & Hinv2 & Hfl2).
    exists d2, F1, a. rewrite Hfl2. unfold modify_disk_inode, inode_at. by rewrite Hpos.
Qed.

Lemma run_read_inode {V} F s i nd (f : DiskInode → prog V) a :
  fs_inv None [] fs T F s → Disk.held s = [] → F !! i = Some nd →
  (∀ s1, fs_inv None [] fs T F s1 → Disk.disk s1 = Disk.disk s → run (f (n_inode nd)) s1 = Ok (s1, a)) →
  run (read_disk_inode (inode_at fs i) f) s = Ok (s, a).
Proof.
  intros Hinv Hh Hi Hf. pose proof (proj1 Hinv) as Hc. pose proof (inv_geom _ _ _ _ _ Hc) as Hg.
  destruct (inv_node _ _ _ _ _ Hc i nd Hi) as (Hir & _).
  destruct (inode_pos fs T i Hg Hir) as (Hpos & Hia & _).
  unfold read_disk_inode, inode_at. rewrite Hpos. eapply (run_read_node fl fs T [] F s i nd); [done..|].
  apply Hf; [|done]. destruct Hinv as [Hc' Ha']. split; [by apply core_hold|done].
Qed.

(** Locking, and writing the cache back at the end. *)
Lemma fs_abs_intro A k F s d :
  fs_inv None [] fs T F (Disk.mkState d [] true) → Disk.held s = [] → Disk.efs_held s = false →
  A = abs F → k = length (free_list fs T d) → fs_abs fs T A k (set_disk d s).
Proof.
  intros Hinv Hh He -> ->. exists F. split_and!; try done.
  apply (inv_efs _ _ _ _ false) in Hinv. unfold set_disk. by rewrite Hh, He.
Qed.

Lemma run_vfs_write A k s i ty bs off buf :
  fs_abs fs T A k s → A !! i = Some (ty, bs) → 0 ≤ off → (0 < length buf)%nat →
  off + Z.of_nat (length buf) ≤ MAX_SIZE →
  let bs' := write_bytes bs (Z.to_nat off) buf in
  (blocks_for (length bs') ≤ blocks_for (length bs) + k)%nat →
  ∃ s', run (write_at fs (inode_at fs i) off buf) s = Ok (s', Z.of_nat (length buf)) ∧
    fs_abs fs T (<[i := (ty, bs')]> A) (k + blocks_for (length bs) - blocks_for (length bs')) s'.
Proof.
  intros Habs Hi Hoff Hne Hmax bs' Hneed.
  destruct (fs_abs_lookup _ _ _ _ _ _ Habs Hi) as (F & nd & Hinv & Hh & He & -> & -> & Hnd & Hty & Hb & _).
  set (s1 := Disk.mkState (Disk.disk s) [] true).
  assert (fs_inv None [] fs T F s1) as Hinv1 by (by apply inv_lock).
  destruct (run_modify_inode F s1 i nd (λ disk_inode,
      disk_inode ← increase_size fs (wrap32 (off + Z.of_nat (length buf))) disk_inode;
      n ← DiskInode.write_at disk_inode off buf; mret (disk_inode, n))
      (λ F1 k1 n, n = Z.of_nat (length buf) ∧ abs F1 = <[i := (ty, bs')]> (abs F) ∧
         (k1 + blocks_for (length bs') = length (free_list fs T (Disk.disk s)) + blocks_for (length bs))%nat))
    as (d2 & F2 & a & Hr & Hinv2 & -> & Habs2 & Hk2); [done..| |].
  { intros s2 Hinv2 Hd2. subst bs.
    destruct (run_extend F s2 i nd off buf) as (d3 & di & d4 & nd4 & Hr3 & Hr4 & <- & Hty4 & Hb4 & Hinv4 & Hk4);
      [done..|by rewrite Hd2|].
    exists d4, nd4, (<[i := nd4]> F), (Z.of_nat (length buf)).
    split; [by erewrite run_bind_ok by exact Hr3; erewrite run_bind_ok by exact Hr4|].
    split; [done|]. split; [apply lookup_insert_eq|]. rewrite abs_insert, Hty4, Hty, Hb4.
    rewrite Hd2 in Hk4. done. }
  exists (set_disk d2 s). split.
  - apply run_lock; [done..|]. fold s1. erewrite run_bind_ok by exact Hr.
    by erewrite run_bind_ok by by apply run_sync.
  - apply fs_abs_intro with F2; try done. lia.
Qed.

(** Clearing a file. *)
Lemma run_vfs_clear A k s i ty bs :
  fs_abs fs T A k s → A !! i = Some (ty, bs) →
  ∃ s', run (clear fs (inode_at fs i)) s = Ok (s', tt) ∧
    fs_abs fs T (<[i := (ty, [])]> A) (k + blocks_for (length bs)) s'.
Proof.
  intros Habs Hi.
  destruct (fs_abs_lookup _ _ _ _ _ _ Habs Hi) as (F & nd & Hinv & Hh & He & -> & -> & Hnd & Hty & Hb & _).
  set (s1 := Disk.mkState (Disk.disk s) [] true).
  assert (fs_inv None [] fs T F s1) as Hinv1 by (by apply inv_lock).
  destruct (run_modify_inode F s1 i nd (λ disk_inode,
      let size := size disk_inode in
      '(disk_inode, data_blocks_dealloc) ← clear_size disk_inode;
      assert_ (Z.of_nat (length data_blocks_dealloc) =? total_blocks size);;
      for_ data_blocks_dealloc (λ _ data_block, dealloc_data fs data_block) tt;;
      mret (disk_inode, tt))
      (λ F1 k1 (_ : unit), abs F1 = <[i := (ty, [])]> (abs F) ∧
         k1 = (length (free_list fs T (Disk.disk s)) + blocks_for (length bs))%nat))
    as (d2 & F2 & [] & Hr & Hinv2 & Habs2 & Hk2); [done..| |].
  { intros s2 Hinv2 Hd2. destruct (inv_node _ _ _ _ _ (proj1 Hinv2) i nd Hnd) as (_ & Hok & _).
    destruct Hok as [(Hu & _) Hns Hnm _ Hnl _]. unfold is_u32 in Hu.
    destruct (run_node_clear fl fs T F s2 i nd Hinv2 Hnd) as (di & Hr3 & Hty3 & Hs3 & Hv3 & Hinv3).
    destruct (run_dealloc_many fl fs T (Some i) _ _ _ Hinv3) as (d4 & Hr4 & Hinv4 & Hk4).
    exists d4, (mkNode di [] []), (<[i := mkNode di [] []]> F), tt. split.
    - cbn zeta. erewrite run_bind_ok by exact Hr3. cbn iota beta.
      erewrite run_bind_ok by (apply run_assert, Z.eqb_eq; rewrite total_blocks_tb by lia; done).
      by erewrite run_bind_ok by exact Hr4.
    - split; [done|]. split; [apply lookup_insert_eq|]. rewrite abs_insert. simpl. rewrite Hty3, Hty.
      split; [done|]. rewrite Hk4, Hd2. subst bs. unfold blocks_for. rewrite <-Hns, <-Hnl. simpl. lia. }
  exists (set_disk d2 s). split.
  - apply run_lock; [done..|]. fold s1. erewrite run_bind_ok by exact Hr. by apply run_sync.
  - by apply fs_abs_intro with F2.
Qed.
End spec.
