(* ===== verification/VfsDir.v ===== *)
(** * The directory operations of [Inode]

    A directory is the list of its entries (a name and an inode number each), in
    order; an entry that was unlinked stays, with an empty name and inode
    number 0.  The root directory is inode 0. *)

From S2P Require Import Prelude Bytes BlockCache Layout DiskLib Bitmap DiskInode FileData DirEntry Efs FsInv Vfs VfsSpec.

Local Ltac Zify.zify_post_hook ::= Z.to_euclidean_division_equations.

Notation dir := (list (list byte * Z)).

Definition dirent_bytes (e : list byte * Z) : list byte := as_bytes (entry_for e.1 e.2).
Definition dir_bytes (D : dir) : list byte := concat (dirent_bytes <$> D).

(** Names can be stored, and entries refer to nodes. *)
Definition dirent_ok (A : anodes) (e : list byte * Z) : Prop := name_ok e.1 ∧ is_Some (A !! e.2).

Definition root_dir (A : anodes) (D : dir) : Prop :=
  A !! 0 = Some (Directory, dir_bytes D) ∧ Forall (dirent_ok A) D.

(** The first entry named [nm]. *)
Definition dir_find (D : dir) (nm : list byte) : option (nat * (list byte * Z)) :=
  find_idx (λ e, bool_decide (e.1 = nm)) D.
Definition dir_lookup (D : dir) (nm : list byte) : option Z := option_map (λ r, r.2.2) (dir_find D nm).

(** How many entries lead to inode [ino], looking their names up. *)
Definition nlink (D : dir) (ino : Z) : Z :=
  Z.of_nat (length (filter (λ e, dir_lookup D e.1 = Some ino) D)).

(** ** Segments of a directory *)
Lemma length_dirent_bytes e : name_ok e.1 → length (dirent_bytes e) = 32%nat.
Proof.
  intros (Hl & _). unfold dirent_bytes. apply length_as_bytes. simpl.
  rewrite length_app, length_replicate. lia.
Qed.

Lemma dir_bytes_cons e D : dir_bytes (e :: D) = dirent_bytes e ++ dir_bytes D.
Proof. done. Qed.

Lemma length_dir_bytes D : Forall (λ e, name_ok e.1) D → length (dir_bytes D) = (32 * length D)%nat.
Proof.
  induction 1 as [|e D He HD IH]; [done|]. rewrite dir_bytes_cons.
  simpl. rewrite length_app, IH, length_dirent_bytes by done. lia.
Qed.

Lemma dir_bytes_app D D' : dir_bytes (D ++ D') = dir_bytes D ++ dir_bytes D'.
Proof. unfold dir_bytes. by rewrite fmap_app, concat_app. Qed.

Lemma dir_segment D j e :
  Forall (λ e, name_ok e.1) D → D !! j = Some e →
  take 32 (drop (32 * j) (dir_bytes D)) = dirent_bytes e.
Proof.
  intros HD Hj. pose proof (Forall_lookup_1 _ _ _ _ HD Hj) as He.
  rewrite <-(take_drop_middle _ _ _ Hj), dir_bytes_app.
  assert (length (take j D) = j) as Hl.
  { rewrite length_take. apply lookup_lt_Some in Hj. lia. }
  rewrite drop_app_length' by (rewrite length_dir_bytes by (by apply Forall_take); lia).
  rewrite dir_bytes_cons. by rewrite take_app_length' by (by rewrite length_dirent_bytes).
Qed.

(** Replacing an entry, and appending one. *)
Lemma dir_bytes_insert D j e :
  Forall (λ e, name_ok e.1) D → (j < length D)%nat → name_ok e.1 →
  splice (dir_bytes D) (32 * j) (dirent_bytes e) = dir_bytes (<[j := e]> D).
Proof.
  intros HD Hj He. destruct (lookup_lt_is_Some_2 D j Hj) as [e0 Hj0].
  pose proof (Forall_lookup_1 _ _ _ _ HD Hj0) as He0.
  rewrite insert_take_drop by done. rewrite <-(take_drop_middle _ _ _ Hj0) at 1.
  rewrite !dir_bytes_app. unfold splice.
  assert (length (dir_bytes (take j D)) = (32 * j)%nat) as Hl.
  { rewrite length_dir_bytes by (by apply Forall_take). rewrite length_take. lia. }
  rewrite !dir_bytes_cons, take_app_length' by done. f_equal. f_equal.
  rewrite drop_app_ge, Hl by lia. apply drop_app_length'. rewrite !length_dirent_bytes by done. lia.
Qed.

Lemma dir_bytes_snoc D e :
  Forall (λ e, name_ok e.1) D → name_ok e.1 →
  write_bytes (dir_bytes D) (32 * length D) (dirent_bytes e) = dir_bytes (D ++ [e]).
Proof.
  intros HD He. unfold write_bytes, pad, splice. rewrite dir_bytes_app.
  pose proof (length_dir_bytes D HD) as Hl. rewrite take_app_length' by done. f_equal.
  rewrite dir_bytes_cons. f_equal. rewrite drop_ge; [done|].
  rewrite length_app, length_replicate, Hl. lia.
Qed.

(** ** Reading entries *)
Section spec.
Context (fl : fault) (fs : EasyFileSystem) (T : Z).
Notation run p := (Disk.arun fl p).

Section entries.
Context (hole : option Z) (F : gmap Z Node) (s : Disk.state) (i : Z) (nd : Node) (D : dir).
Context (Hc : fs_core hole fs T F s) (Hi : F !! i = Some nd) (Hby : n_bytes nd = dir_bytes D).
Context (Hok : Forall (λ e, name_ok e.1 ∧ is_u32 e.2) D).

Lemma names_ok : Forall (λ e, name_ok e.1) D.
Proof. eapply Forall_impl; [exact Hok|]. naive_solver. Qed.

Lemma dir_size : size (n_inode nd) = 32 * Z.of_nat (length D) ∧ 32 * Z.of_nat (length D) ≤ MAX_SIZE.
Proof.
  destruct (inv_node _ _ _ _ _ Hc i nd Hi) as (_ & [_ Hns Hm _ _ _] & _).
  rewrite Hby, length_dir_bytes in Hns by apply names_ok. lia.
Qed.

Lemma dir_file_count : file_count (n_inode nd) = Z.of_nat (length D).
Proof. unfold file_count. rewrite (proj1 dir_size). unfold DIRENT_SZ. lia. Qed.

Lemma run_read_dirent (j : nat) e e0 :
  D !! j = Some e → length (name e0) = 28%nat →
  run (read_dirent (n_inode nd) (Z.of_nat j) e0) s = Ok (s, entry_for e.1 e.2).
Proof.
  intros Hj He0. destruct (Forall_lookup_1 _ _ _ _ Hok Hj) as [Hn Hu].
  pose proof (length_as_bytes e0 He0) as Hl0. pose proof (lookup_lt_Some _ _ _ Hj) as Hlt.
  destruct dir_size as [_ Hm]. unfold MAX_SIZE in Hm.
  unfold read_dirent. change DIRENT_SZ with 32.
  erewrite run_bind_ok by (apply (run_node_read fl fs T hole F s i nd); [done..|lia|lia]). cbn iota beta.
  rewrite Hl0, Hby. replace (Z.to_nat (Z.of_nat j * 32)) with (32 * j)%nat by lia.
  rewrite (dir_segment D j e) by (done || apply names_ok). rewrite length_dirent_bytes by done.
  erewrite run_bind_ok by (by apply run_assert). rewrite run_ret. do 3 f_equal.
  unfold splice. rewrite take_0, drop_ge by (rewrite length_dirent_bytes by done; lia).
  rewrite app_nil_l, app_nil_r. apply of_as_bytes. by apply entry_for_ok; [destruct Hn; lia|].
Qed.

(** The loop stops at the first entry of that name. *)
Lemma run_find_dirent nm k e0 :
  (k ≤ length D)%nat → length (name e0) = 28%nat →
  run (find_dirent (n_inode nd) nm (range (Z.of_nat k) (Z.of_nat (length D))) e0) s =
    Ok (s, option_map (λ '(j, e), (Z.of_nat (k + j), entry_for e.1 e.2)) (dir_find (drop k D) nm)).
Proof.
  intros Hk He0. remember (length D - k)%nat as n eqn:Hn. revert k e0 Hk He0 Hn.
  induction n as [|n IH]; intros k e0 Hk He0 Hn.
  { rewrite range_nil, drop_ge by lia. done. }
  destruct (lookup_lt_is_Some_2 D k) as [e He]; [lia|].
  destruct (Forall_lookup_1 _ _ _ _ Hok He) as [Hnm Hu].
  rewrite range_cons, (drop_S _ _ _ He) by lia. cbn [find_dirent].
  erewrite run_bind_ok by (by apply run_read_dirent).
  erewrite run_bind_ok by (by apply run_entry_name_for).
  unfold dir_find. cbn [find_idx]. case_bool_decide as Heq.
  - rewrite run_ret. simpl. by rewrite Nat.add_0_r.
  - replace (Z.of_nat k + 1) with (Z.of_nat (S k)) by lia.
    rewrite IH; [|lia| |lia].
    + unfold dir_find. destruct (find_idx _ (drop (S k) D)) as [[j e']|]; simpl; [|done].
      by rewrite Nat.add_succ_r.
    + simpl. rewrite length_app, length_replicate. destruct Hnm. lia.
Qed.

Lemma run_find_inode_id nm :
  type_ (n_inode nd) = Directory →
  run (find_inode_id nm (n_inode nd)) s = Ok (s, dir_lookup D nm).
Proof.
  intros Hty. unfold find_inode_id.
  erewrite run_bind_ok by (apply run_assert; unfold is_dir; by apply bool_decide_eq_true).
  rewrite dir_file_count. erewrite run_bind_ok by (apply (run_find_dirent nm 0); [lia|done]).
  rewrite run_ret, drop_0. unfold dir_lookup. by destruct (dir_find D nm) as [[j e]|].
Qed.
End entries.

(** The nodes behind the root directory. *)
Lemma root_node A k s D :
  fs_abs fs T A k s → root_dir A D →
  ∃ F nd, fs_inv None [] fs T F s ∧ Disk.held s = [] ∧ Disk.efs_held s = false ∧ A = abs F ∧
    k = length (free_list fs T (Disk.disk s)) ∧ F !! 0 = Some nd ∧
    type_ (n_inode nd) = Directory ∧ n_bytes nd = dir_bytes D ∧
    Forall (λ e, name_ok e.1 ∧ is_u32 e.2) D.
Proof.
  intros Habs [Hroot HD].
  destruct (fs_abs_lookup _ _ _ _ _ _ _ _ Habs Hroot)
    as (F & nd & Hinv & Hh & He & -> & Hk & Hnd & Hty & Hb & _).
  exists F, nd. split_and!; try done. eapply Forall_impl; [exact HD|]. simpl.
  intros e [Hn [v Hv]]. split; [done|]. destruct (abs_lookup _ _ _ Hv) as (ne & Hne & _).
  destruct (inv_node _ _ _ _ _ (proj1 Hinv) _ _ Hne) as (Hr & _).
  pose proof (inv_geom _ _ _ _ _ (proj1 Hinv)) as [_ ? _ _ _ _ _ _].
  unfold is_u32, inode_count in *. lia.
Qed.

(** ** [find] and [ls] *)
Lemma run_find A k s D nm :
  fs_abs fs T A k s → root_dir A D →
  run (find fs (inode_at fs 0) nm) s = Ok (s, option_map (inode_at fs) (dir_lookup D nm)).
Proof.
  intros Habs HD.
  destruct (root_node _ _ _ _ Habs HD) as (F & nd & Hinv & Hh & He & _ & _ & Hi & Hty & Hb & HDok).
  unfold find. rewrite <-(set_disk_id s) at 2. apply run_lock; [done..|].
  apply (run_read_inode fl fs T F _ 0 nd); [by apply inv_lock|done|done|].
  intros s1 [Hc1 _] _. by erewrite run_bind_ok by by eapply run_find_inode_id.
Qed.

Lemma run_ls A k s D :
  fs_abs fs T A k s → root_dir A D → run (ls (inode_at fs 0)) s = Ok (s, D.*1).
Proof.
  intros Habs HD.
  destruct (root_node _ _ _ _ Habs HD) as (F & nd & Hinv & Hh & He & _ & _ & Hi & Hty & Hb & HDok).
  unfold ls. rewrite <-(set_disk_id s) at 2. apply run_lock; [done..|].
  apply (run_read_inode fl fs T F _ 0 nd); [by apply inv_lock|done|done|].
  intros s1 [Hc1 _] _. erewrite dir_file_count by done.
  edestruct (run_for fl (λ (pre : list Z) v s', v = (take (length pre) D).*1 ∧ s' = s1))
    as (v & s' & -> & -> & ->); [| |by unfold range; rewrite length_seqZ, take_ge by lia].
  - intros pre j post v s' Hl [-> ->]. pose proof (range_nth _ _ _ _ Hl) as [Hj ->].
    destruct (lookup_lt_is_Some_2 D (length pre)) as [e He']; [lia|].
    destruct (Forall_lookup_1 _ _ _ _ HDok He') as [Hn _]. eexists _, s1. split; [|done].
    erewrite run_bind_ok by (by eapply run_read_dirent).
    erewrite run_bind_ok by (by apply run_entry_name_for).
    rewrite run_ret, length_app, Nat.add_1_r, (take_S_r _ _ _ He'). by rewrite fmap_app.
  - done.
Qed.

(** ** [get_nlink] *)

(** Inode positions are distinct. *)
Lemma inode_at_inj i j :
  geometry fs T → 0 ≤ i < inode_count fs → 0 ≤ j < inode_count fs → inode_at fs i = inode_at fs j → i = j.
Proof.
  intros Hg Hi Hj. unfold inode_at. destruct (inode_pos fs T i Hg Hi) as [-> _].
  destruct (inode_pos fs T j Hg Hj) as [-> _]. intros [= ? ?]. lia.
Qed.

Lemma inode_at_range A k s i v :
  fs_abs fs T A k s → A !! i = Some v → geometry fs T ∧ 0 ≤ i < inode_count fs.
Proof.
  intros (F & Hinv & _ & _ & -> & _) Hi. destruct (abs_lookup _ _ _ Hi) as (nd & Hnd & _).
  split; [apply Hinv|]. by destruct (inv_node _ _ _ _ _ (proj1 Hinv) _ _ Hnd).
Qed.

Lemma dir_lookup_in D nm ino : dir_lookup D nm = Some ino → (nm, ino) ∈ D.
Proof.
  unfold dir_lookup, dir_find. destruct (find_idx _ D) as [[j [nm' ino']]|] eqn:Hf; [|done].
  apply find_idx_Some in Hf as (Hj & Hp & _). intros [= <-].
  apply bool_decide_eq_true in Hp. simpl in *. subst. by eapply list_elem_of_lookup_2.
Qed.

Lemma run_get_nlink A k s D ino :
  fs_abs fs T A k s → root_dir A D → is_Some (A !! ino) →
  run (get_nlink fs (inode_at fs 0) (wrap32 (block_id (inode_at fs ino))) (block_offset (inode_at fs ino))) s =
    Ok (s, nlink D ino).
Proof.
  intros Habs HD [v Hv]. destruct (inode_at_range _ _ _ _ _ Habs Hv) as [Hg Hino].
  destruct (root_node _ _ _ _ Habs HD) as (F & nd & Hinv & Hh & He & _ & _ & Hi & Hty & Hb & HDok).
  assert (wrap32 (block_id (inode_at fs ino)) = block_id (inode_at fs ino)) as ->.
  { unfold inode_at. destruct (inode_pos fs T ino Hg Hino) as (-> & _ & Hr).
    destruct Hg as [? ? ? ? ? ? ? ?]. apply wrap32_small. unfold is_u32. simpl. lia. }
  unfold get_nlink. rewrite <-(set_disk_id s) at 2. apply run_lock; [done..|].
  apply (run_read_inode fl fs T F _ 0 nd); [by apply inv_lock|done|done|].
  intros s1 [Hc1 _] _.
  erewrite run_bind_ok by (apply run_assert; unfold is_dir; by apply bool_decide_eq_true).
  erewrite dir_file_count by done.
  destruct (dir_size None F s1 0 nd D Hc1 Hi Hb HDok) as [_ Hm]. unfold MAX_SIZE in Hm.
  set (P := λ e : list byte * Z, dir_lookup D e.1 = Some ino).
  edestruct (run_for fl (λ (pre : list Z) c s', c = Z.of_nat (length (filter P (take (length pre) D))) ∧ s' = s1))
    as (c & s' & -> & -> & ->);
    [| |by unfold range; rewrite length_seqZ, take_ge by lia].
  - intros pre j post c s' Hl [-> ->]. pose proof (range_nth _ _ _ _ Hl) as [Hj ->].
    destruct (lookup_lt_is_Some_2 D (length pre)) as [e He']; [lia|].
    destruct (Forall_lookup_1 _ _ _ _ HDok He') as [Hn _]. eexists _, s1. split; [|done].
    erewrite run_bind_ok by (by eapply run_read_dirent).
    erewrite run_bind_ok by (by apply run_entry_name_for).
    erewrite run_bind_ok by (by eapply run_find_inode_id).
    rewrite length_app, Nat.add_1_r, (take_S_r _ _ _ He'), filter_app, length_app, filter_cons.
    pose proof (length_filter P (take (length pre) D)) as Hc. rewrite length_take in Hc.
    rewrite (filter_nil P). set (c := length (filter P (take (length pre) D))) in *.
    assert (length (if decide (P e) then [e] else []) =
      if bool_decide (dir_lookup D e.1 = Some ino) then 1 else 0)%nat as ->.
    { unfold P. case_bool_decide; [by rewrite decide_True|by rewrite decide_False]. }
    destruct (dir_lookup D e.1) as [ino'|] eqn:Hlk.
    + assert (0 ≤ ino' < inode_count fs) as Hino'.
      { apply dir_lookup_in in Hlk. destruct HD as [_ HD]. rewrite Forall_forall in HD.
        destruct (HD _ Hlk) as [_ [v' Hv']]. by eapply inode_at_range. }
      destruct (get_disk_inode_pos fs ino') as [b' o'] eqn:Hp'.
      replace ((b' =? block_id (inode_at fs ino)) && (o' =? block_offset (inode_at fs ino))) with
        (bool_decide (Some ino' = Some ino)).
      { case_bool_decide as Heq; rewrite run_ret; [|by rewrite Nat.add_0_r].
        rewrite wrap32_small by (unfold is_u32; lia). do 3 f_equal. lia. }
      apply eq_true_iff_eq. rewrite bool_decide_eq_true, andb_true_iff, !Z.eqb_eq. split.
      * intros [= ->]. unfold inode_at. by rewrite Hp'.
      * intros [-> ->]. f_equal. apply inode_at_inj; [done..|]. unfold inode_at at 1. rewrite Hp'.
        by destruct (inode_at fs ino).
    + rewrite run_ret, bool_decide_eq_false_2 by done. by rewrite Nat.add_0_r.
  - done.
Qed.

(** ** Appending an entry: [link] and [create] *)
Definition dir_need (D : dir) : nat := blocks_for (32 * S (length D)) - blocks_for (32 * length D).

Lemma blocks_for_mono a b : (a ≤ b)%nat → Z.of_nat b ≤ MAX_SIZE → (blocks_for a ≤ blocks_for b)%nat.
Proof.
  intros. unfold blocks_for. pose proof (nblocks_mono (Z.of_nat a) (Z.of_nat b) ltac:(lia)).
  pose proof (nblocks_range (Z.of_nat a) ltac:(lia)). pose proof (nblocks_range (Z.of_nat b) ltac:(lia)).
  pose proof (tb_mono (nblocks (Z.of_nat a)) (nblocks (Z.of_nat b)) ltac:(lia)). lia.
Qed.

Lemma run_append F s nd D nm ino :
  fs_inv (Some 0) [] fs T F s → F !! 0 = Some nd → n_bytes nd = dir_bytes D →
  Forall (λ e, name_ok e.1 ∧ is_u32 e.2) D → name_ok nm →
  32 * Z.of_nat (S (length D)) ≤ MAX_SIZE → (dir_need D ≤ length (free_list fs T (Disk.disk s)))%nat →
  ∃ d' nd', run (append_dirent fs nm ino (n_inode nd)) s = Ok (set_disk d' s, (n_inode nd', 32)) ∧
    fs_inv (Some 0) [] fs T (<[0 := nd']> F) (set_disk d' s) ∧
    type_ (n_inode nd') = type_ (n_inode nd) ∧ n_bytes nd' = dir_bytes (D ++ [(nm, ino)]) ∧
    length (free_list fs T d') = (length (free_list fs T (Disk.disk s)) - dir_need D)%nat.
Proof.
  intros Hinv Hi Hb HDok Hnm Hmax Hneed.
  pose proof (names_ok D HDok) as HDn. pose proof (length_dir_bytes D HDn) as Hl.
  pose proof (blocks_for_mono (32 * length D) (32 * S (length D)) ltac:(lia) ltac:(lia)) as Hmono.
  assert (length (dirent_bytes (nm, ino)) = 32%nat) as Hle by (by apply length_dirent_bytes).
  pose proof (dir_bytes_snoc D (nm, ino) HDn Hnm) as Hsn.
  assert (length (dir_bytes (D ++ [(nm, ino)])) = (32 * S (length D))%nat) as Hl'.
  { rewrite <-Hsn, length_write_bytes. lia. }
  assert (Z.to_nat (Z.of_nat (length D) * 32) = (32 * length D)%nat) as Hoff by lia.
  destruct (run_extend fl fs T F s 0 nd (Z.of_nat (length D) * 32) (dirent_bytes (nm, ino)))
    as (d1 & di & d2 & nd2 & Hr1 & Hr2 & <- & Hty & Hb2 & Hinv2 & Hk2); [done|done|lia|lia|lia| |].
  { rewrite Hb, Hoff, Hsn, Hl', Hl. unfold dir_need in Hneed. lia. }
  rewrite Hb, Hoff, Hsn in Hb2, Hk2. exists d2, nd2. split; [|split; [done|split; [done|split; [done|]]]].
  - unfold append_dirent. erewrite dir_file_count by (apply Hinv || done). change DIRENT_SZ with 32. cbn zeta.
    replace ((Z.of_nat (length D) + 1) * 32) with
      (Z.of_nat (length D) * 32 + Z.of_nat (length (dirent_bytes (nm, ino)))) by (rewrite Hle; lia).
    erewrite run_bind_ok by exact Hr1.
    erewrite run_bind_ok by (apply run_new; destruct Hnm; lia).
    erewrite run_bind_ok by exact Hr2. rewrite run_ret, Hle. done.
  - rewrite Hl, Hl' in Hk2. unfold dir_need. lia.
Qed.

Lemma root_dir_insert A D i v :
  root_dir A D → i ≠ 0 → root_dir (<[i := v]> A) D.
Proof.
  intros [Hr HD] Hi. split; [by rewrite lookup_insert_ne|]. eapply Forall_impl; [exact HD|].
  intros e [Hn He]. split; [done|]. rewrite lookup_insert_is_Some'. by right.
Qed.

Lemma root_dir_set A D D' :
  root_dir A D → Forall (dirent_ok A) D' → root_dir (<[0 := (Directory, dir_bytes D')]> A) D'.
Proof.
  intros _ HD. split; [by rewrite lookup_insert_eq|]. eapply Forall_impl; [exact HD|].
  intros e [Hn He]. split; [done|]. rewrite lookup_insert_is_Some'. by right.
Qed.

Lemma run_link A k s D ino nm :
  fs_abs fs T A k s → root_dir A D → is_Some (A !! ino) → name_ok nm →
  32 * Z.of_nat (S (length D)) ≤ MAX_SIZE → (dir_need D ≤ k)%nat →
  let D' := D ++ [(nm, ino)] in
  let A' := <[0 := (Directory, dir_bytes D')]> A in
  ∃ s', run (link fs (inode_at fs 0) ino nm) s = Ok (s', 0) ∧
    fs_abs fs T A' (k - dir_need D) s' ∧ root_dir A' D'.
Proof.
  intros Habs HD Hino Hnm Hmax Hneed D' A'.
  destruct (root_node _ _ _ _ Habs HD) as (F & nd & Hinv & Hh & He & HA & -> & Hi & Hty & Hb & HDok).
  set (s1 := Disk.mkState (Disk.disk s) [] true).
  destruct (run_modify_inode fl fs T F s1 0 nd (λ root_inode,
      assert_ (is_dir root_inode);; append_dirent fs nm ino root_inode)
      (λ F1 k1 _, abs F1 = A' ∧ k1 = (length (free_list fs T (Disk.disk s)) - dir_need D)%nat))
    as (d2 & F2 & a & Hr & Hinv2 & HA2 & Hk2); [by apply inv_lock|done|done| |].
  { intros s2 Hinv2 Hd2.
    destruct (run_append F s2 nd D nm ino) as (d3 & nd3 & Hr3 & Hinv3 & Hty3 & Hb3 & Hk3);
      [done..|by rewrite Hd2|].
    exists d3, nd3, (<[0 := nd3]> F), 32. split.
    - by erewrite run_bind_ok by (apply run_assert; unfold is_dir; by apply bool_decide_eq_true).
    - split; [done|]. split; [apply lookup_insert_eq|]. rewrite abs_insert, Hty3, Hty, Hb3.
      unfold A'. rewrite HA. rewrite Hd2 in Hk3. done. }
  exists (set_disk d2 s). split_and!.
  - unfold link. apply run_lock; [done..|]. fold s1. by erewrite run_bind_ok by exact Hr.
  - by apply fs_abs_intro with F2.
  - apply (root_dir_set A D); [done|]. destruct HD as [_ HD]. apply Forall_app. split; [done|].
    by apply Forall_singleton.
Qed.

(** The first step of [create]: has the file been created? *)
Lemma run_create_check F s nd D nm :
  fs_inv None [] fs T F s → Disk.held s = [] → F !! 0 = Some nd →
  type_ (n_inode nd) = Directory → n_bytes nd = dir_bytes D →
  Forall (λ e, name_ok e.1 ∧ is_u32 e.2) D →
  ∃ d', run (modify_disk_inode (inode_at fs 0) (λ root_inode,
      assert_ (is_dir root_inode);;
      r ← find_inode_id nm root_inode;
      mret (root_inode, r))) s = Ok (set_disk d' s, dir_lookup D nm) ∧
    fs_inv None [] fs T F (set_disk d' s) ∧
    length (free_list fs T d') = length (free_list fs T (Disk.disk s)).
Proof.
  intros Hinv Hh Hi Hty Hb HDok.
  destruct (run_modify_inode fl fs T F s 0 nd (λ root_inode,
      assert_ (is_dir root_inode);; r ← find_inode_id nm root_inode; mret (root_inode, r))
      (λ F1 k1 a, F1 = F ∧ k1 = length (free_list fs T (Disk.disk s)) ∧ a = dir_lookup D nm))
    as (d2 & F2 & a & Hr & Hinv2 & -> & Hk2 & ->); [done|done|done| |].
  - intros s2 Hinv2 Hd2. exists (Disk.disk s2), nd, F, (dir_lookup D nm). rewrite set_disk_id.
    split_and!; try done; [|by rewrite Hd2].
    erewrite run_bind_ok by (apply run_assert; unfold is_dir; by apply bool_decide_eq_true).
    by erewrite run_bind_ok by (eapply run_find_inode_id; [apply Hinv2|done..]).
  - by exists d2.
Qed.

Lemma run_create_exists A k s D nm ino :
  fs_abs fs T A k s → root_dir A D → dir_lookup D nm = Some ino →
  ∃ s', run (create fs (inode_at fs 0) nm) s = Ok (s', None) ∧ fs_abs fs T A k s'.
Proof.
  intros Habs HD Hlk.
  destruct (root_node _ _ _ _ Habs HD) as (F & nd & Hinv & Hh & He & HA & -> & Hi & Hty & Hb & HDok).
  destruct (run_create_check F (Disk.mkState (Disk.disk s) [] true) nd D nm)
    as (d' & Hr & Hinv' & Hk'); [by apply inv_lock|done..|].
  exists (set_disk d' s). split; [|by apply fs_abs_intro with F].
  unfold create. apply run_lock; [done..|]. erewrite run_bind_ok by exact Hr. by rewrite Hlk.
Qed.

Lemma abs_first_inode F i :
  0 ≤ i < inode_count fs → abs F !! i = None → (∀ j, 0 ≤ j < i → is_Some (abs F !! j)) → first_inode fs F i.
Proof.
  intros Hi Hn Hmin. unfold abs in *. rewrite lookup_fmap, fmap_None in Hn.
  split; [done|]. split; [done|]. intros j Hj. pose proof (Hmin j Hj) as Hs.
  by rewrite lookup_fmap, fmap_is_Some in Hs.
Qed.

Lemma run_create_new A k s D nm i :
  fs_abs fs T A k s → root_dir A D → dir_lookup D nm = None → name_ok nm →
  0 ≤ i < inode_count fs → A !! i = None → (∀ j, 0 ≤ j < i → is_Some (A !! j)) →
  32 * Z.of_nat (S (length D)) ≤ MAX_SIZE → (dir_need D ≤ k)%nat →
  let D' := D ++ [(nm, i)] in
  let A' := <[0 := (Directory, dir_bytes D')]> (<[i := (File, [])]> A) in
  ∃ s', run (create fs (inode_at fs 0) nm) s = Ok (s', Some (inode_at fs i)) ∧
    fs_abs fs T A' (k - dir_need D) s' ∧ root_dir A' D'.
Proof.
  intros Habs HD Hlk Hnm Hir Hin Hmin Hmax Hneed D' A'.
  destruct (root_node _ _ _ _ Habs HD) as (F & nd & Hinv & Hh & He & HA & -> & Hi & Hty & Hb & HDok).
  set (s1 := Disk.mkState (Disk.disk s) [] true).
  destruct (run_create_check F s1 nd D nm) as (d2 & Hr2 & Hinv2 & Hk2); [by apply inv_lock|done..|].
  destruct (run_new_inode fl fs T [] F (set_disk d2 s1) i File) as
    (d3 & d4 & di & Hr3 & Hr4 & Hinv4 & Hty4 & Hsz4 & Hk4); [done|done|subst A; by apply abs_first_inode|].
  set (F4 := <[i := mkNode di [] []]> F) in *.
  assert (i ≠ 0) as Hi0. { intros ->. destruct HD as [HD _]. congruence. }
  destruct (run_modify_inode fl fs T F4 (set_disk d4 s1) 0 nd (append_dirent fs nm i)
      (λ F1 k1 _, abs F1 = A' ∧ k1 = (length (free_list fs T (Disk.disk s)) - dir_need D)%nat))
    as (d5 & F5 & a & Hr5 & Hinv5 & HA5 & Hk5); [done|done|unfold F4; by rewrite lookup_insert_ne| |].
  { intros s6 Hinv6 Hd6. simpl in Hd6.
    assert (length (free_list fs T (Disk.disk s6)) = length (free_list fs T (Disk.disk s))) as Hk6.
    { rewrite Hd6, Hk4. simpl. rewrite Hk2. done. }
    destruct (run_append F4 s6 nd D nm i) as (d7 & nd7 & Hr7 & Hinv7 & Hty7 & Hb7 & Hk7);
      [done|unfold F4; by rewrite lookup_insert_ne|done..|by rewrite Hk6|].
    exists d7, nd7, (<[0 := nd7]> F4), 32. split; [done|]. split; [done|]. split; [apply lookup_insert_eq|].
    unfold F4. rewrite !abs_insert, Hty7, Hty, Hb7. simpl. rewrite Hty4. unfold A'. rewrite HA.
    split; [done|]. by rewrite Hk7, Hk6. }
  exists (set_disk d5 s). split_and!.
  - unfold create. apply run_lock; [done..|]. fold s1. erewrite run_bind_ok by exact Hr2. rewrite Hlk.
    erewrite run_bind_ok by exact Hr3.
    destruct (inode_pos fs T i (inv_geom _ _ _ _ _ (proj1 Hinv)) Hir) as [Hpos _]. rewrite Hpos. cbn iota.
    erewrite run_bind_ok by exact Hr4. erewrite run_bind_ok by exact Hr5.
    by erewrite run_bind_ok by by apply run_sync.
  - by apply fs_abs_intro with F5.
  - apply (root_dir_set (<[i := (File, [])]> A) D); [by apply root_dir_insert|].
    pose proof (root_dir_insert A D i (File, []) HD Hi0) as [_ HD']. apply Forall_app. split; [done|].
    apply Forall_singleton. split; [done|]. simpl. rewrite lookup_insert_eq. eauto.
Qed.

(** ** [unlink] *)

(** The directory without the first entry of that name, whose place stays empty. *)
Definition dir_erase (D : dir) (nm : list byte) : dir :=
  match dir_find D nm with Some (j, _) => <[j := ([], 0)]> D | None => D end.

(** The closure of the last step of [unlink]. *)
Definition erase_closure (nm : list byte) (root_inode : DiskInode) : prog (DiskInode * unit) :=
  assert_ (is_dir root_inode);;
  r ← find_dirent root_inode nm (range 0 (file_count root_inode)) empty;
  match r with
  | Some (i, _) =>
      DiskInode.write_at root_inode (i * DIRENT_SZ) (as_bytes empty);;
      mret (root_inode, tt)
  | None => mret (root_inode, tt)
  end.

Lemma empty_name_ok : name_ok [].
Proof. by apply (bool_decide_unpack _). Qed.

Lemma run_erase_closure F s nd D nm :
  fs_inv (Some 0) [] fs T F s → F !! 0 = Some nd → type_ (n_inode nd) = Directory →
  n_bytes nd = dir_bytes D → Forall (λ e, name_ok e.1 ∧ is_u32 e.2) D →
  ∃ d' nd', run (erase_closure nm (n_inode nd)) s = Ok (set_disk d' s, (n_inode nd', tt)) ∧
    n_inode nd' = n_inode nd ∧ n_bytes nd' = dir_bytes (dir_erase D nm) ∧
    fs_inv (Some 0) [] fs T (<[0 := nd']> F) (set_disk d' s) ∧
    free_list fs T d' = free_list fs T (Disk.disk s).
Proof.
  intros Hinv Hi Hty Hb HDok. pose proof (proj1 Hinv) as Hc. pose proof (names_ok D HDok) as HDn.
  unfold erase_closure.
  erewrite run_bind_ok by (apply run_assert; unfold is_dir; by apply bool_decide_eq_true).
  erewrite (dir_file_count _ _ _ _ _ _ Hc Hi Hb HDok).
  erewrite run_bind_ok by (apply (run_find_dirent _ _ _ _ _ _ Hc Hi Hb HDok nm 0); [lia|done]).
  rewrite drop_0. unfold dir_erase. destruct (dir_find D nm) as [[j e]|] eqn:Hf; simpl option_map; cbn iota.
  - apply find_idx_Some in Hf as (Hj & _). apply lookup_lt_Some in Hj.
    destruct (dir_size _ _ _ _ _ _ Hc Hi Hb HDok) as [Hsz Hm].
    pose proof (length_as_bytes empty eq_refl) as Hle.
    destruct (run_node_write fl fs T F s 0 nd (Z.of_nat j * DIRENT_SZ) (as_bytes empty))
      as (d3 & Hr3 & Hinv3 & Hk3); [done|done|unfold DIRENT_SZ; lia|lia| |].
    { rewrite Hsz, Hle. unfold DIRENT_SZ. lia. }
    exists d3, (mkNode (n_inode nd) (n_blocks nd)
      (splice (n_bytes nd) (Z.to_nat (Z.of_nat j * DIRENT_SZ)) (as_bytes empty))).
    split; [by erewrite run_bind_ok by exact Hr3|]. split; [done|]. split; [|done]. cbn [n_bytes].
    rewrite Hb. replace (Z.to_nat (Z.of_nat j * DIRENT_SZ)) with (32 * j)%nat by (unfold DIRENT_SZ; lia).
    change (as_bytes empty) with (dirent_bytes ([], 0)).
    apply dir_bytes_insert; [done..|]. apply empty_name_ok.
  - exists (Disk.disk s), nd. rewrite set_disk_id, insert_id by done. by split_and!.
Qed.

Lemma root_dir_erase A D nm :
  root_dir A D → root_dir (<[0 := (Directory, dir_bytes (dir_erase D nm))]> A) (dir_erase D nm).
Proof.
  intros HD. apply (root_dir_set A D); [done|]. destruct HD as [HD0 HD]. unfold dir_erase.
  destruct (dir_find D nm) as [[j e]|]; [|done]. apply Forall_insert; [done|].
  split; [apply empty_name_ok|]. simpl. rewrite HD0. eauto.
Qed.

(** The last step: the first entry of that name is overwritten by the empty entry. *)
Lemma run_unlink_entry A k s D nm :
  fs_abs fs T A k s → root_dir A D →
  let A' := <[0 := (Directory, dir_bytes (dir_erase D nm))]> A in
  ∃ s', run (modify_disk_inode (inode_at fs 0) (erase_closure nm);; block_cache_sync_all;; mret 0) s = Ok (s', 0) ∧
    fs_abs fs T A' k s' ∧ root_dir A' (dir_erase D nm).
Proof.
  intros Habs HD A'.
  destruct (root_node _ _ _ _ Habs HD) as (F & nd & Hinv & Hh & He & HA & -> & Hi & Hty & Hb & HDok).
  destruct (run_modify_inode fl fs T F s 0 nd (erase_closure nm)
    (λ F1 k1 _, abs F1 = A' ∧ k1 = length (free_list fs T (Disk.disk s))))
    as (d2 & F2 & [] & Hr & Hinv2 & HA2 & Hk2); [done..| |].
  { intros s1 Hinv1 Hd1.
    destruct (run_erase_closure F s1 nd D nm) as (d3 & nd3 & Hr3 & Hnd3 & Hb3 & Hinv3 & Hk3); [done..|].
    exists d3, nd3, (<[0 := nd3]> F), tt. split; [done|]. split; [done|]. split; [apply lookup_insert_eq|].
    rewrite abs_insert, Hnd3, Hty, Hb3. unfold A'. rewrite HA. split; [done|]. by rewrite Hk3, Hd1. }
  exists (set_disk d2 s). split_and!.
  - erewrite run_bind_ok by exact Hr. by erewrite run_bind_ok by by apply run_sync.
  - exists F2. by split_and!.
  - by apply root_dir_erase.
Qed.

(** The bytes of a file that loses its last link are given up. *)
Lemma run_unlink A k s D nm ino ty bs :
  fs_abs fs T A k s → root_dir A D → dir_lookup D nm = Some ino → A !! ino = Some (ty, bs) → ino ≠ 0 →
  let D' := dir_erase D nm in
  let A' := <[0 := (Directory, dir_bytes D')]> (if nlink D ino =? 1 then <[ino := (ty, [])]> A else A) in
  let k' := if nlink D ino =? 1 then (k + blocks_for (length bs))%nat else k in
  ∃ s', run (unlink fs (inode_at fs 0) nm) s = Ok (s', 0) ∧ fs_abs fs T A' k' s' ∧ root_dir A' D'.
Proof.
  intros Habs HD Hlk Hino Hne D' A' k'.
  unfold unlink. fold (erase_closure nm). change (λ root_inode, erase_closure nm root_inode) with (erase_closure nm).
  erewrite run_bind_ok by (by eapply run_find). rewrite Hlk. simpl option_map. cbn iota.
  rewrite run_bind. rewrite run_bind.
  rewrite (run_get_nlink A k s D ino) by (done || eauto). unfold A', k'.
  destruct (nlink D ino =? 1).
  - destruct (run_vfs_clear fl fs T A k s ino ty bs Habs Hino) as (s1 & -> & Habs1).
    eapply run_unlink_entry; [exact Habs1|]. by apply root_dir_insert.
  - rewrite run_ret. by eapply run_unlink_entry.
Qed.

(** A name that is not there: nothing happens, and the answer is 0 all the same. *)
Lemma run_unlink_missing A k s D nm :
  fs_abs fs T A k s → root_dir A D → dir_lookup D nm = None →
  ∃ s', run (unlink fs (inode_at fs 0) nm) s = Ok (s', 0) ∧ fs_abs fs T A k s'.
Proof.
  intros Habs HD Hlk. unfold unlink.
  erewrite run_bind_ok by (by eapply run_find). rewrite Hlk. simpl option_map. cbn iota.
  erewrite run_bind_ok by apply run_ret.
  destruct (run_unlink_entry A k s D nm Habs HD) as (s' & Hr & Habs' & _).
  exists s'. split; [exact Hr|]. unfold dir_erase in Habs'. unfold dir_lookup in Hlk.
  destruct (dir_find D nm) as [[j e]|]; [done|]. destruct HD as [HD0 _]. by rewrite insert_id in Habs'.
Qed.

(** The empty name finds the place of an unlinked entry, which names inode 0: if there is
    one such place, unlinking the empty name clears the root directory itself; if there are several,
    it erases an entry that is erased already. *)
Lemma dir_erase_erased D : dir_lookup D [] = Some 0 → dir_erase D [] = D.
Proof.
  unfold dir_lookup, dir_erase, dir_find. destruct (find_idx _ D) as [[j [nm ino]]|] eqn:Hf; [|done]. intros [= ->].
  apply find_idx_Some in Hf as (Hj & Hnm%bool_decide_eq_true & _). cbn in Hnm. subst nm. by apply list_insert_id.
Qed.

Lemma run_unlink_empty A k s D :
  fs_abs fs T A k s → root_dir A D → dir_lookup D [] = Some 0 →
  let D' := if nlink D 0 =? 1 then [] else D in
  let A' := if nlink D 0 =? 1 then <[0 := (Directory, [])]> A else A in
  let k' := if nlink D 0 =? 1 then (k + blocks_for (32 * length D))%nat else k in
  ∃ s', run (unlink fs (inode_at fs 0) []) s = Ok (s', 0) ∧ fs_abs fs T A' k' s' ∧ root_dir A' D'.
Proof.
  intros Habs HD Hlk D' A' k'. pose proof HD as [HD0 HD1]. unfold unlink.
  erewrite run_bind_ok by (by eapply run_find). rewrite Hlk. simpl option_map. cbn iota.
  rewrite run_bind, run_bind, (run_get_nlink A k s D 0) by (done || eauto). cbn iota. unfold A', D', k'.
  destruct (nlink D 0 =? 1).
  - destruct (run_vfs_clear fl fs T A k s 0 _ _ Habs HD0) as (s1 & -> & Habs1).
    rewrite length_dir_bytes in Habs1 by (eapply Forall_impl; [exact HD1|]; by intros e [? _]).
    assert (root_dir (<[0 := (Directory, [])]> A) []) as HD'.
    { split; [by rewrite lookup_insert_eq|constructor]. }
    destruct (run_unlink_entry _ _ s1 [] [] Habs1 HD') as (s2 & Hr & Habs2 & _).
    exists s2. split; [exact Hr|]. split; [|done]. simpl in Habs2. by rewrite insert_insert_eq in Habs2.
  - rewrite run_ret. destruct (run_unlink_entry A k s D [] Habs HD) as (s2 & Hr & Habs2 & _). exists s2. split; [exact Hr|].
    rewrite dir_erase_erased, insert_id in Habs2 by done. done.
Qed.
End spec.
