(* ===== verification/EfsSpec.v ===== *)
(** * Making and opening a file system

    [create] on a device of [T] blocks leaves an empty root directory and the rest
    of the data area free; [open] recovers the structure from the super block,
    at any later time. *)

From S2P Require Import Prelude Bytes BlockCache Layout DiskLib Bitmap DiskInode FileData DirEntry Efs FsInv Vfs VfsSpec.

Local Ltac Zify.zify_post_hook ::= Z.to_euclidean_division_equations.

(** The parameters of [create] that make sense: at least one block of inodes, inode
    numbers within [u32], and the metadata fits the device. *)
Definition create_ok (T ibb : Z) : Prop :=
  1 ≤ ibb ≤ 2 ^ 20 ∧ 1 + 1025 * ibb ≤ T < 2 ^ 32 - 4096.

(** The structure that [create] returns. *)
Definition created (T ibb : Z) : EasyFileSystem :=
  let dbb := (T - 1 - 1025 * ibb + 4096) / 4097 in
  mkEfs (mkBitmap 1 ibb) (mkBitmap (1 + 1025 * ibb) dbb) (1 + ibb) (1 + 1025 * ibb + dbb).

Lemma areas_eq T ibb :
  create_ok T ibb →
  areas T ibb = (1024 * ibb, (T - 1 - 1025 * ibb + 4096) / 4097,
    T - 1 - 1025 * ibb - (T - 1 - 1025 * ibb + 4096) / 4097).
Proof.
  intros [Hi HT]. unfold areas, maximum. simpl blocks. unfold BLOCK_BITS.
  change (size_of DiskInode) with 128. unfold BLOCK_SZ.
  rewrite (wrap64_small (ibb * (512 * 8))) by (unfold is_u64; lia).
  replace ((ibb * (512 * 8) * 128 + 512 - 1) / 512) with (1024 * ibb) by lia.
  rewrite (wrap32_small (1024 * ibb)) by (unfold is_u32; lia).
  rewrite (wrap32_small (ibb + 1024 * ibb)) by (unfold is_u32; lia).
  replace (T - 1 - (ibb + 1024 * ibb)) with (T - 1 - 1025 * ibb) by lia.
  rewrite (wrap32_small (T - 1 - 1025 * ibb)) by (unfold is_u32; lia).
  rewrite (wrap32_small (_ + 4096)) by (unfold is_u32; lia).
  by rewrite wrap32_small by (unfold is_u32; lia).
Qed.

Lemma created_geometry T ibb : create_ok T ibb → geometry (created T ibb) T.
Proof. intros [Hi HT]. split; unfold created; simpl; lia. Qed.

(** ** A device full of zeros *)
Lemma words64_zeros : words64 zeros = replicate 64 0.
Proof. apply le_words_zero. Qed.

Lemma bit_at_zeros d bm i :
  (∀ b, d !! (i / BLOCK_BITS + start_block_id bm) = Some b → b = zeros) → 0 ≤ i → bit_at d bm i = false.
Proof.
  intros Hd Hi. unfold bit_at. destruct (d !! _) as [b|]; [|done]. rewrite (Hd b eq_refl).
  unfold wbit. rewrite words64_zeros, lookup_total_replicate_2; [apply Z.testbit_0_l|].
  unfold BLOCK_BITS, BLOCK_SZ. lia.
Qed.

Lemma stored_zeros fs d i :
  d !! (inode_area_start_block fs + i / 4) = Some zeros → ∃ di, stored fs d i di.
Proof.
  intros Hd. unfold stored. rewrite Hd.
  destruct (@load DiskInode _ (replicate 128 Byte.x00)) as [di|] eqn:Hl; [|done].
  exists di, zeros. split; [done|]. destruct (inode_view i) as [Hv1 Hv2].
  apply get_ref_ok; [done..|]. rewrite <-Hl. f_equal. unfold view_bytes, zeros.
  rewrite drop_replicate, take_replicate. f_equal. change (pod_size DiskInode) with 128%nat. lia.
Qed.

(** Any 24 bytes are a super block. *)
Lemma load_super bs : ∃ sb : SuperBlock, load bs = Some sb.
Proof.
  simpl. pose proof (length_le_words 4 6 bs) as Hl.
  destruct (le_words 4 6 bs) as [|m [|t [|ib [|ia [|db [|da [|??]]]]]]]; try done. eauto.
Qed.

Lemma zero_disk_inv fs T s :
  geometry fs T → disk_ok (Disk.disk s) → (∀ b, 0 < b < T → Disk.disk s !! b = Some zeros) →
  super_ok fs (Disk.disk s) → Disk.held s = [] → fs_inv None [] fs T ∅ s.
Proof.
  intros Hg Hd Hz Hs Hh. pose proof Hg as [? ? ? ? ? ? ? ?]. split; split; try done.
  - intros b Hb. destruct (decide (b = 0)) as [->|].
    + destruct Hs as (blk & sb & Hb0 & _). eauto.
    + rewrite Hz by lia. eauto.
  - rewrite Hh. split; [constructor|simpl; lia].
  - intros i Hi _. unfold inode_count in Hi. destruct (stored_zeros fs (Disk.disk s) i) as [di Hdi].
    + apply Hz. lia.
    + by exists di.
  - intros i Hi. unfold inode_count in Hi. rewrite bit_at_zeros; [done| |lia].
    intros b Hb. rewrite Hz in Hb by (unfold BLOCK_BITS, BLOCK_SZ; lia). congruence.
  - split_and!; [apply NoDup_nil_2|constructor|]. intros x i nd Hx. by apply elem_of_nil in Hx.
  - intros x Hx. unfold in_data in Hx. rewrite bit_at_zeros; [|intros b Hb|lia].
    + split; [done|]. intros [Hp%elem_of_nil|(i & nd & Hi & _)]; done.
    + rewrite Hz in Hb by (unfold BLOCK_BITS, BLOCK_SZ; lia). congruence.
  - intros x Hx _. unfold in_data in Hx. apply Hz. lia.
Qed.

Lemma free_list_all fs T s P :
  fs_inv None P fs T ∅ s → P = [] →
  free_list fs T (Disk.disk s) = range 0 (T - data_area_start_block fs).
Proof.
  intros [_ Ha] ->. unfold free_list. apply filter_all.
  intros k Hk%elem_of_range. apply not_true_iff_false.
  pose proof (inv_dbits _ _ _ _ _ Ha (data_area_start_block fs + k)) as Hb.
  replace (data_area_start_block fs + k - data_area_start_block fs) with k in Hb by lia.
  rewrite Hb by (unfold in_data; lia). intros [Hp%elem_of_nil|(i & nd & Hi & _)]; done.
Qed.

Section create.
Context (fl : fault) (T ibb : Z) (Hok : create_ok T ibb).
Notation run p := (Disk.arun fl p).

(** The loop that clears all blocks. *)
Lemma run_clear_blocks s :
  disk_ok (Disk.disk s) → (∀ b, 0 ≤ b < T → is_Some (Disk.disk s !! b)) → Disk.held s = [] →
  ∃ d', run (for_ (range 0 T) (λ _ i,
      modify_cache i 0 (λ data_block : DataBlock, mret (zero_block data_block, tt))) tt) s =
      Ok (set_disk d' s, tt) ∧ disk_ok d' ∧ (∀ b, 0 ≤ b < T → d' !! b = Some zeros).
Proof.
  intros Hd Hdom Hh.
  edestruct (run_for fl (λ (pre : list Z) (u : unit) s', ∃ d', s' = set_disk d' s ∧ u = tt ∧ disk_ok d' ∧
      (∀ b, 0 ≤ b < Z.of_nat (length pre) → d' !! b = Some zeros) ∧
      (∀ b, 0 ≤ b < T → is_Some (d' !! b)))) as (u & s' & Hr & d' & -> & -> & Hd' & Hz & _).
  3: { rewrite Hr. exists d'. split_and!; [done..|]. intros b Hb. apply Hz.
       unfold range. rewrite length_seqZ. lia. }
  - intros pre j post u s' Hl (d' & -> & -> & Hd' & Hz & Hdom'). pose proof (range_nth _ _ _ _ Hl) as [Hj ->].
    destruct (Hdom' (Z.of_nat (length pre))) as [blk Hblk]; [lia|].
    assert (length blk = 512%nat) as Hbl by eauto with disk.
    eexists tt, _. split.
    + eapply (run_modify_data _ _ _ _ blk zeros); [|done|done|done|].
      * split; simpl; rewrite Hh; [apply not_elem_of_nil|simpl; unfold BLOCK_CACHE_SIZE; lia].
      * rewrite run_ret. unfold zero_block. simpl. by rewrite (const_fmap _ _ Byte.x00), Hbl by done.
    + exists (<[Z.of_nat (length pre) := zeros]> d'). split_and!; [done|done|by apply disk_ok_insert| |].
      * intros b Hb. rewrite length_app in Hb. simpl in Hb.
        destruct (decide (b = Z.of_nat (length pre))) as [->|]; [by rewrite lookup_insert_eq|].
        rewrite lookup_insert_ne by done. apply Hz. lia.
      * intros b Hb. rewrite lookup_insert_is_Some'. right. by apply Hdom'.
  - exists (Disk.disk s). rewrite set_disk_id. split_and!; try done. simpl. lia.
Qed.

Definition created_super : SuperBlock :=
  let dbb := (T - 1 - 1025 * ibb + 4096) / 4097 in
  super_initialize T ibb (1024 * ibb) dbb (T - 1 - 1025 * ibb - dbb).

Lemma created_super_efs : efs_of_super created_super = created T ibb.
Proof.
  destruct Hok as [Hi HT]. unfold efs_of_super, created_super, created. simpl.
  rewrite (wrap32_small (ibb + 1024 * ibb)) by (unfold is_u32; lia).
  rewrite !wrap32_small by (unfold is_u32; lia). f_equal; [f_equal|]; lia.
Qed.

Lemma run_create s :
  disk_ok (Disk.disk s) → (∀ b, 0 ≤ b < T → is_Some (Disk.disk s !! b)) →
  Disk.held s = [] → Disk.efs_held s = false →
  ∃ s', run (Efs.create T ibb) s = Ok (s', created T ibb) ∧
    fs_abs (created T ibb) T {[ 0 := (Directory, []) ]}
      (Z.to_nat (T - data_area_start_block (created T ibb))) s'.
Proof.
  intros Hd Hdom Hh He. pose proof Hok as [Hi HT]. pose proof (created_geometry T ibb Hok) as Hg.
  unfold Efs.create. rewrite areas_eq by done. cbn iota beta zeta.
  rewrite (wrap32_small (ibb + 1024 * ibb)) by (unfold is_u32; lia).
  rewrite !wrap32_small by (unfold is_u32; lia).
  replace (1 + ibb + 1024 * ibb) with (1 + 1025 * ibb) by lia.
  replace (1 + (ibb + 1024 * ibb) + (T - 1 - 1025 * ibb + 4096) / 4097) with
    (1 + 1025 * ibb + (T - 1 - 1025 * ibb + 4096) / 4097) by lia.
  fold created_super. change (mkEfs _ _ _ _) with (created T ibb).
  destruct (run_clear_blocks s Hd Hdom Hh) as (d1 & Hr1 & Hd1 & Hz1).
  erewrite run_bind_ok by exact Hr1.
  set (d2 := <[0 := put_back 0 zeros created_super]> d1).
  assert (valid created_super) as Hvs.
  { unfold created_super, super_initialize. simpl. repeat constructor; simpl; unfold EFS_MAGIC; lia. }
  assert (run (modify_cache 0 0 (λ super_block : SuperBlock, mret (created_super, tt))) (set_disk d1 s) =
    Ok (set_disk d2 s, tt)) as Hr2.
  { destruct (load_super (view_bytes (T:=SuperBlock) 0 zeros)) as [sb Hl].
    erewrite (run_modify_pure fl 0 0 _ (set_disk d1 s) zeros sb); [reflexivity| |by apply Hz1; lia| |done].
    - split; simpl; rewrite Hh; [apply not_elem_of_nil|simpl; unfold BLOCK_CACHE_SIZE; lia].
    - by apply get_ref_ok. }
  erewrite run_bind_ok by exact Hr2.
  assert (fs_inv None [] (created T ibb) T ∅ (set_disk d2 s)) as Hinv2.
  { apply zero_disk_inv; [done| | | |done]; simpl; unfold d2.
    - apply disk_ok_insert; [done|]. by rewrite length_put_back.
    - intros b Hb. rewrite lookup_insert_ne by lia. apply Hz1. lia.
    - eexists _, created_super. rewrite lookup_insert_eq. split; [done|].
      split; [by apply get_ref_put_back|]. split; [done|]. apply created_super_efs. }
  destruct (run_new_inode fl (created T ibb) T [] ∅ (set_disk d2 s) 0 Directory) as
    (d3 & d4 & di & Hr3 & Hr4 & Hinv4 & Hty4 & Hsz4 & Hk4); [done|done| |].
  { split; [unfold inode_count; simpl; lia|]. split; [done|]. lia. }
  erewrite run_bind_ok by exact Hr3. erewrite run_bind_ok by by apply run_assert.
  destruct (inode_pos (created T ibb) T 0 Hg) as [Hpos _]; [unfold inode_count; simpl; lia|].
  rewrite Hpos. cbn iota. erewrite run_bind_ok by exact Hr4.
  erewrite run_bind_ok by (by apply run_sync). exists (set_disk d4 s). split; [done|].
  eexists. split; [exact Hinv4|]. split; [done|]. split; [done|]. split.
  - unfold abs. rewrite map_fmap_singleton || (rewrite insert_empty, map_fmap_singleton). simpl. by rewrite Hty4.
  - change (Disk.disk (set_disk d4 s)) with d4. rewrite Hk4. rewrite (free_list_all _ _ _ _ Hinv2 eq_refl). unfold range.
    rewrite length_seqZ. lia.
Qed.
End create.

(** [open] recovers the structure of a file system in use. *)
Lemma run_open fl fs T A k s :
  fs_abs fs T A k s → Disk.arun fl open s = Ok (s, fs).
Proof.
  intros (F & [Hc _] & Hh & _). destruct (inv_super _ _ _ _ _ Hc) as (b & sb & Hb & Hget & Hv & <-).
  eapply run_read_pure; [|done|done|].
  - split; rewrite Hh; [apply not_elem_of_nil|simpl; unfold BLOCK_CACHE_SIZE; lia].
  - by erewrite run_bind_ok by by apply run_assert.
Qed.
