(* ===== verification/BlockFile.v ===== *)
(** * A host file as a block device ([BlockFile] in [easy-fs-fuse/src/main.rs])

    The packer keeps the file system in a regular file.  [read_block] and
    [write_block] seek to [block_id * 512] and assert that a whole block was
    moved.  The instance at the end shows that such a file is a device in the
    sense the block cache needs: the file's whole blocks are its contents and
    reading past the end fails the assertion. *)

From S2P Require Import Prelude BlockCache.

(** An open file: its bytes and the seek position. *)
Record File := mkFile { bytes : list byte; pos : Z }.

(** [file.seek(SeekFrom::Start(n))] *)
Definition seek (n : Z) (f : File) : File := mkFile (bytes f) n.

(** [file.read(buf)] with a buffer of [n] bytes: what is left, at most [n]. *)
Definition file_read (n : nat) (f : File) : list byte * File :=
  let got := take n (drop (Z.to_nat (pos f)) (bytes f)) in
  (got, mkFile (bytes f) (pos f + Z.of_nat (length got))).

(** [file.write(buf)]: overwrites, and extends the file when it ends earlier
    (a gap reads as zeros). *)
Definition file_write (buf : list byte) (f : File) : nat * File :=
  let p := Z.to_nat (pos f) in
  let base := bytes f ++ replicate (p - length (bytes f)) Byte.x00 in
  (length buf, mkFile (take p base ++ buf ++ drop (p + length buf) base)
                      (pos f + Z.of_nat (length buf))).

Record BlockFile := mkBlockFile { file : File }.

(** Block numbers are sums of two [u32] values, so [block_id * BLOCK_SZ] does
    not wrap; a negative number is not a [usize]. *)
Definition bf_read_block (d : BlockFile) (block_id : Z) : res block :=
  if block_id <? 0 then Err AssertFailed else
  let f := seek (block_id * BLOCK_SZ) (file d) in
  let '(buf, _) := file_read 512 f in
  if Z.of_nat (length buf) =? BLOCK_SZ then Ok buf else Err AssertFailed.

Definition bf_write_block (d : BlockFile) (block_id : Z) (buf : block) : res BlockFile :=
  if block_id <? 0 then Err AssertFailed else
  let f := seek (block_id * BLOCK_SZ) (file d) in
  let '(n, f') := file_write buf f in
  if Z.of_nat n =? BLOCK_SZ then Ok (mkBlockFile f') else Err AssertFailed.

#[export] Instance BlockFile_device : BlockDevice BlockFile := {|
  read_block := bf_read_block;
  write_block := bf_write_block;
|}.

(** The whole blocks of a file. *)
Definition bf_block (f : File) (i : Z) : block := take 512 (drop (Z.to_nat (i * 512)) (bytes f)).

Definition bf_blocks (d : BlockFile) : gmap Z block :=
  list_to_map ((λ i, (i, bf_block (file d) i)) <$> range 0 (Z.of_nat (length (bytes (file d))) / 512)).

Lemma lookup_bf_blocks d i :
  bf_blocks d !! i =
    if bool_decide (0 ≤ i ∧ (i + 1) * 512 ≤ Z.of_nat (length (bytes (file d))))
    then Some (bf_block (file d) i) else None.
Proof.
  unfold bf_blocks. case_bool_decide as Hi.
  - apply elem_of_list_to_map_1.
    + rewrite <-list_fmap_compose. simpl. rewrite list_fmap_id. apply NoDup_seqZ.
    + apply list_elem_of_fmap. exists i. split; [done|]. apply elem_of_range.
      split; [lia|]. pose proof (Z.div_le_lower_bound (Z.of_nat (length (bytes (file d)))) 512 (i + 1)). lia.
  - apply not_elem_of_list_to_map_1. rewrite <-list_fmap_compose. simpl. rewrite list_fmap_id.
    rewrite elem_of_range. intros [? Hlt]. apply Hi. split; [done|].
    pose proof (Z.mul_div_le (Z.of_nat (length (bytes (file d)))) 512). lia.
Qed.

Lemma bf_block_write f i j buf :
  0 ≤ i → 0 ≤ j → length buf = 512%nat →
  (i + 1) * 512 ≤ Z.of_nat (length (bytes f)) →
  (j + 1) * 512 ≤ Z.of_nat (length (bytes f)) →
  bf_block (file_write buf (seek (i * BLOCK_SZ) f)).2 j =
    if decide (i = j) then buf else bf_block f j.
Proof.
  intros Hi Hj Hbuf Hil Hjl. unfold bf_block, file_write, seek, BLOCK_SZ. simpl.
  replace (Z.to_nat (i * 512) - length (bytes f))%nat with 0%nat by lia.
  simpl. rewrite app_nil_r. apply list_eq_same_length with 512%nat.
  - case_decide; [done|]. rewrite length_take, length_drop. lia.
  - rewrite length_take, length_drop, !length_app, length_take, length_drop. lia.
  - intros k x y Hk.
    rewrite lookup_take_lt, lookup_drop by lia.
    case_decide as Hij.
    + subst j. rewrite lookup_app_r; rewrite length_take; [|lia].
      rewrite lookup_app_l by lia. intros H1 H2.
      replace (Z.to_nat (i * 512) + k - Z.to_nat (i * 512) `min` length (bytes f))%nat
        with k in H1 by lia. congruence.
    + rewrite lookup_take_lt, lookup_drop by lia.
      destruct (decide (j < i)) as [Hlt|Hge].
      * rewrite lookup_app_l by (rewrite length_take; lia).
        rewrite lookup_take_lt by lia. congruence.
      * rewrite lookup_app_r; rewrite length_take; [|lia].
        rewrite lookup_app_r by lia. rewrite lookup_drop.
        replace (Z.to_nat (i * 512) + length buf +
          (Z.to_nat (j * 512) + k - Z.to_nat (i * 512) `min` length (bytes f) - length buf))%nat
          with (Z.to_nat (j * 512) + k)%nat by lia. congruence.
Qed.

#[export] Instance BlockFile_device_ok : BlockDeviceOk BlockFile.
Proof.
  refine {| blocks := bf_blocks; absent := AssertFailed |}.
  - intros d i b. rewrite lookup_bf_blocks. case_bool_decide; [|done]. intros [= <-].
    unfold bf_block. rewrite length_take, length_drop. lia.
  - intros d i. rewrite lookup_bf_blocks. simpl. unfold bf_read_block, file_read, seek, BLOCK_SZ. simpl.
    destruct (Z.ltb_spec i 0); [by rewrite bool_decide_false by lia|].
    rewrite length_take, length_drop. case_bool_decide.
    + rewrite (proj2 (Z.eqb_eq _ _)) by lia. done.
    + rewrite (proj2 (Z.eqb_neq _ _)) by lia. done.
  - intros d i b [b' Hb'] Hb. rewrite lookup_bf_blocks in Hb'. case_bool_decide as Hi; [|done].
    simpl. unfold bf_write_block. rewrite (proj2 (Z.ltb_ge _ _)) by lia.
    destruct (file_write b (seek (i * BLOCK_SZ) (file d))) as [n f'] eqn:Hw.
    assert (n = 512%nat) as -> by (unfold file_write in Hw; by simplify_eq/=).
    eexists. split; [done|].
    assert (length (bytes f') = length (bytes (file d))) as Hlen.
    { unfold file_write, seek, BLOCK_SZ in Hw. simplify_eq/=.
      rewrite !length_app, length_take, length_drop, length_app, length_replicate. lia. }
    apply map_eq. intros j. rewrite lookup_insert, !lookup_bf_blocks. simpl. rewrite Hlen.
    replace f' with (file_write b (seek (i * BLOCK_SZ) (file d))).2 by (by rewrite Hw).
    case_bool_decide as Hj.
    + rewrite bf_block_write by (done || lia). by destruct (decide (i = j)).
    + destruct (decide (i = j)); [subst; tauto|done].
Defined.
