(* ===== verification/FsModel.v ===== *)
(** * The file system as one machine

    The user's view of easy-fs: files with their bytes, the entries of the root
    directory, and how much room is left ([afs]).  [astep] says what each call
    answers and leaves behind; it is [None] where the contract of the call is not
    met (no room, a name that cannot be stored, a number that is no inode).

    [step_refines]: a call on the disk answers as [astep] says.  By induction the
    same holds of every sequence of calls, through the block cache on a device,
    from the device's formatting on, and again after the device was unplugged and
    mounted afresh. *)

From S2P Require Import Prelude Bytes BlockCache BlockFile Layout DiskLib Bitmap DiskInode FileData DirEntry Efs FsInv Vfs VfsSpec VfsDir EfsSpec.

Local Ltac Zify.zify_post_hook ::= Z.to_euclidean_division_equations.

(** ** The abstract machine *)
Record afs := mkAfs { nodes : anodes; entries : dir; free : nat }.

Inductive call :=
  | CRead (ino off : Z) (buf : list byte)
  | CWrite (ino off : Z) (buf : list byte)
  | CClear (ino : Z)
  | CFind (nm : list byte)
  | CLs
  | CNlink (ino : Z)
  | CLink (ino : Z) (nm : list byte)
  | CCreate (nm : list byte)
  | CUnlink (nm : list byte).

Inductive answer :=
  | AUnit
  | ANum (n : Z)
  | ABytes (n : Z) (buf : list byte)
  | AInode (r : option Inode)
  | ANames (l : list (list byte)).

#[export] Instance inode_eq_dec : EqDecision Inode.
Proof. solve_decision. Defined.
#[export] Instance answer_eq_dec : EqDecision answer.
Proof. solve_decision. Defined.

Section machine.
Context (fs : EasyFileSystem).

(** The call on the disk. *)
Definition exec (c : call) : prog answer :=
  match c with
  | CRead ino off buf => '(n, bs) ← read_at (inode_at fs ino) off buf; mret (ABytes n bs)
  | CWrite ino off buf => n ← write_at fs (inode_at fs ino) off buf; mret (ANum n)
  | CClear ino => clear fs (inode_at fs ino);; mret AUnit
  | CFind nm => r ← find fs (inode_at fs 0) nm; mret (AInode r)
  | CLs => l ← ls (inode_at fs 0); mret (ANames l)
  | CNlink ino =>
      n ← get_nlink fs (inode_at fs 0) (wrap32 (block_id (inode_at fs ino))) (block_offset (inode_at fs ino));
      mret (ANum n)
  | CLink ino nm => n ← link fs (inode_at fs 0) ino nm; mret (ANum n)
  | CCreate nm => r ← create fs (inode_at fs 0) nm; mret (AInode r)
  | CUnlink nm => n ← unlink fs (inode_at fs 0) nm; mret (ANum n)
  end.

(** Guard: the contract's condition. *)
Definition require (P : Prop) `{Decision P} {A} (k : option A) : option A :=
  if decide P then k else None.

(** The first inode number that is not taken. *)
Definition fresh_inode (A : anodes) : option Z :=
  snd <$> find_idx (λ i, bool_decide (A !! i = None)) (range 0 (inode_count fs)).

(** An entry more fits the root directory. *)
Definition dir_room (a : afs) : Prop :=
  32 * Z.of_nat (S (length (entries a))) ≤ MAX_SIZE ∧ (dir_need (entries a) ≤ free a)%nat.

#[export] Instance dir_room_dec a : Decision (dir_room a).
Proof. unfold dir_room. apply _. Defined.

Definition add_entry (nm : list byte) (ino : Z) (A : anodes) (a : afs) : afs :=
  let D' := entries a ++ [(nm, ino)] in
  mkAfs (<[0 := (Directory, dir_bytes D')]> A) D' (free a - dir_need (entries a)).

Definition astep (a : afs) (c : call) : option (afs * answer) :=
  match c with
  | CRead ino off buf =>
      '(_, bs) ← nodes a !! ino;
      require (0 ≤ off ∧ off + Z.of_nat (length buf) < 2 ^ 64) (
        let r := take (length buf) (drop (Z.to_nat off) bs) in
        Some (a, ABytes (Z.of_nat (length r)) (splice buf 0 r)))
  | CWrite ino off buf =>
      '(ty, bs) ← nodes a !! ino;
      let bs' := write_bytes bs (Z.to_nat off) buf in
      require (ino ≠ 0 ∧ 0 ≤ off ∧ (0 < length buf)%nat ∧ off + Z.of_nat (length buf) ≤ MAX_SIZE ∧
               (blocks_for (length bs') ≤ blocks_for (length bs) + free a)%nat) (
        Some (mkAfs (<[ino := (ty, bs')]> (nodes a)) (entries a)
                (free a + blocks_for (length bs) - blocks_for (length bs')),
              ANum (Z.of_nat (length buf))))
  | CClear ino =>
      '(ty, bs) ← nodes a !! ino;
      require (ino ≠ 0) (
        Some (mkAfs (<[ino := (ty, [])]> (nodes a)) (entries a) (free a + blocks_for (length bs)), AUnit))
  | CFind nm => Some (a, AInode (option_map (inode_at fs) (dir_lookup (entries a) nm)))
  | CLs => Some (a, ANames (entries a).*1)
  | CNlink ino => _ ← nodes a !! ino; Some (a, ANum (nlink (entries a) ino))
  | CLink ino nm =>
      _ ← nodes a !! ino;
      require (name_ok nm ∧ dir_room a) (Some (add_entry nm ino (nodes a) a, ANum 0))
  | CCreate nm =>
      match dir_lookup (entries a) nm with
      | Some _ => Some (a, AInode None)
      | None =>
          i ← fresh_inode (nodes a);
          require (name_ok nm ∧ dir_room a) (
            Some (add_entry nm i (<[i := (File, [])]> (nodes a)) a, AInode (Some (inode_at fs i))))
      end
  | CUnlink nm =>
      match dir_lookup (entries a) nm with
      | None => Some (a, ANum 0)
      | Some ino =>
          '(ty, bs) ← nodes a !! ino;
          require (ino ≠ 0) (
            let D' := dir_erase (entries a) nm in
            let last := nlink (entries a) ino =? 1 in
            Some (mkAfs (<[0 := (Directory, dir_bytes D')]> (if last then <[ino := (ty, [])]> (nodes a) else nodes a))
                    D' (if last then (free a + blocks_for (length bs))%nat else free a), ANum 0))
      end
  end.

(** A sequence of calls. *)
Fixpoint execs (cs : list call) : prog (list answer) :=
  match cs with
  | [] => mret []
  | c :: cs => r ← exec c; rs ← execs cs; mret (r :: rs)
  end.

Fixpoint asteps (a : afs) (cs : list call) : option (afs * list answer) :=
  match cs with
  | [] => Some (a, [])
  | c :: cs => '(a, r) ← astep a c; '(a, rs) ← asteps a cs; Some (a, r :: rs)
  end.
End machine.

(** What [create] leaves: an empty root directory. *)
Definition formatted (T ibb : Z) : afs :=
  mkAfs {[ 0 := (Directory, []) ]} [] (Z.to_nat (T - data_area_start_block (created T ibb))).

(** ** Refinement *)

(** The disk of [s] holds the abstract state [a]. *)
Definition fs_sim (fs : EasyFileSystem) (T : Z) (a : afs) (s : Disk.state) : Prop :=
  fs_abs fs T (nodes a) (free a) s ∧ root_dir (nodes a) (entries a).

Lemma require_Some (P : Prop) `{Decision P} {A} (k : option A) x :
  require P k = Some x ↔ P ∧ k = Some x.
Proof. unfold require. case_decide; naive_solver. Qed.

Lemma root_dir_update A D ino ty bs ty' bs' :
  root_dir A D → A !! ino = Some (ty, bs) → ino ≠ 0 → root_dir (<[ino := (ty', bs')]> A) D.
Proof.
  intros [H0 HD] Hi Hne. split; [by rewrite lookup_insert_ne|].
  eapply Forall_impl; [exact HD|]. intros e [Hn Hs]. split; [done|]. rewrite lookup_insert_is_Some'. by right.
Qed.

Lemma fresh_inode_spec fs A i :
  fresh_inode fs A = Some i →
  0 ≤ i < inode_count fs ∧ A !! i = None ∧ ∀ j, 0 ≤ j < i → is_Some (A !! j).
Proof.
  unfold fresh_inode. intros ([n x] & Hf & ->)%fmap_Some. apply find_idx_Some in Hf as (Hn & Hx & Hmin).
  unfold range in *. apply lookup_seqZ in Hn as [-> Hlt]. simpl.
  split; [lia|]. split; [by apply bool_decide_eq_true in Hx|]. intros j Hj.
  specialize (Hmin (Z.to_nat j) j ltac:(lia)). rewrite lookup_seqZ in Hmin.
  specialize (Hmin ltac:(lia)). apply bool_decide_eq_false in Hmin. by apply not_eq_None_Some.
Qed.

Section refinement.
Context (fl : fault) (fs : EasyFileSystem) (T : Z).
Notation run p := (Disk.arun fl p).

Ltac contract := repeat match goal with
  | H : mbind _ _ = Some _ |- _ => apply bind_Some in H as (? & ? & H)
  | H : require _ _ = Some _ |- _ => apply require_Some in H as [? H]
  | p : (_ * _)%type |- _ => destruct p
  | H : Some _ = Some _ |- _ => injection H as <- <-
  end; cbn [nodes entries free] in *; destruct_and?.

Lemma run_call {A} (p : prog A) s s' v (k : A → answer) :
  run p s = Ok (s', v) → run (x ← p; mret (k x)) s = Ok (s', k v).
Proof. intros Hp. by erewrite run_bind_ok by exact Hp. Qed.

Lemma create_refines a a' nm r s :
  fs_sim fs T a s → astep fs a (CCreate nm) = Some (a', r) →
  ∃ s', run (exec fs (CCreate nm)) s = Ok (s', r) ∧ fs_sim fs T a' s'.
Proof.
  intros [Habs Hdir] Ha. cbn [astep exec] in *.
  destruct (dir_lookup (entries a) nm) as [i|] eqn:Hl.
  - destruct (run_create_exists fl fs T _ _ _ _ _ _ Habs Hdir Hl) as (s' & Hr & Habs'). contract.
    exists s'. split; [by apply (run_call _ _ _ _ AInode)|done].
  - contract. edestruct (fresh_inode_spec fs) as (Hi & Hn & Hmin); [done|].
    match goal with H : dir_room _ |- _ => destruct H end.
    edestruct (run_create_new fl fs T (nodes a) (free a) s (entries a) nm) as (s' & Hr & Habs' & Hdir'); try done.
    exists s'. split; [by apply (run_call _ _ _ _ AInode)|done].
Qed.

Lemma unlink_refines a a' nm r s :
  fs_sim fs T a s → astep fs a (CUnlink nm) = Some (a', r) →
  ∃ s', run (exec fs (CUnlink nm)) s = Ok (s', r) ∧ fs_sim fs T a' s'.
Proof.
  intros [Habs Hdir] Ha. cbn [astep exec] in *.
  destruct (dir_lookup (entries a) nm) as [i|] eqn:Hl.
  - contract. edestruct (run_unlink fl fs T (nodes a) (free a) s (entries a) nm i) as (s' & Hr & Habs' & Hdir'); try done.
    exists s'. split; [by apply (run_call _ _ _ _ ANum)|done].
  - destruct (run_unlink_missing fl fs T _ _ _ _ _ Habs Hdir Hl) as (s' & Hr & Habs'). contract.
    exists s'. split; [by apply (run_call _ _ _ _ ANum)|done].
Qed.

(** A call on the disk answers as the abstract machine does. *)
Lemma step_sim a a' c r s :
  fs_sim fs T a s → astep fs a c = Some (a', r) →
  ∃ s', run (exec fs c) s = Ok (s', r) ∧ fs_sim fs T a' s'.
Proof.
  intros Hsim Ha. pose proof Hsim as [Habs Hdir].
  destruct c as [ino off buf|ino off buf|ino|nm| |ino|ino nm|nm|nm];
    [..|by eapply create_refines|by eapply unlink_refines]; cbn [astep exec] in *; contract.
  - eexists. split; [|done]. erewrite run_bind_ok by (by eapply run_vfs_read). done.
  - edestruct (run_vfs_write fl fs T (nodes a) (free a) s ino) as (s' & Hr & Habs'); try done.
    exists s'. split; [by apply (run_call _ _ _ _ ANum)|]. split; [done|]. by eapply root_dir_update.
  - edestruct (run_vfs_clear fl fs T (nodes a) (free a) s ino) as (s' & Hr & Habs'); try done.
    exists s'. split; [by erewrite run_bind_ok by exact Hr|]. split; [done|]. by eapply root_dir_update.
  - eexists. split; [|done]. apply (run_call _ _ _ _ AInode). by eapply run_find.
  - eexists. split; [|done]. apply (run_call _ _ _ _ ANames). by eapply run_ls.
  - eexists. split; [|done]. apply (run_call _ _ _ _ ANum). by eapply run_get_nlink.
  - match goal with H : dir_room _ |- _ => destruct H end.
    edestruct (run_link fl fs T (nodes a) (free a) s (entries a) ino nm) as (s' & Hr & Habs' & Hdir'); try done.
    exists s'. split; [by apply (run_call _ _ _ _ ANum)|done].
Qed.

Lemma steps_sim a a' cs rs s :
  fs_sim fs T a s → asteps fs a cs = Some (a', rs) →
  ∃ s', run (execs fs cs) s = Ok (s', rs) ∧ fs_sim fs T a' s'.
Proof.
  revert a rs s. induction cs as [|c cs IH]; intros a rs s Hsim Ha; cbn [asteps execs] in *.
  { injection Ha as <- <-. by exists s. }
  apply bind_Some in Ha as ([a1 r] & H1 & Ha). apply bind_Some in Ha as ([a2 rs'] & H2 & [= <- <-]).
  destruct (step_sim _ _ _ _ _ Hsim H1) as (s1 & Hr1 & Hsim1).
  destruct (IH _ _ _ Hsim1 H2) as (s2 & Hr2 & Hsim2).
  exists s2. split; [|done]. erewrite run_bind_ok by exact Hr1. by erewrite run_bind_ok by exact Hr2.
Qed.

(** The calls one by one. *)
Lemma sim_read a s ino ty bs off buf :
  fs_sim fs T a s → nodes a !! ino = Some (ty, bs) → 0 ≤ off → off + Z.of_nat (length buf) < 2 ^ 64 →
  let r := take (length buf) (drop (Z.to_nat off) bs) in
  run (read_at (inode_at fs ino) off buf) s = Ok (s, (Z.of_nat (length r), splice buf 0 r)).
Proof. intros [Habs _]. by eapply run_vfs_read. Qed.

Definition with_bytes (ino : Z) (ty : DiskInodeType) (bs bs' : list byte) (a : afs) : afs :=
  mkAfs (<[ino := (ty, bs')]> (nodes a)) (entries a) (free a + blocks_for (length bs) - blocks_for (length bs')).

Lemma sim_write a s ino ty bs off buf :
  fs_sim fs T a s → nodes a !! ino = Some (ty, bs) → ino ≠ 0 → 0 ≤ off → (0 < length buf)%nat →
  off + Z.of_nat (length buf) ≤ MAX_SIZE →
  let bs' := write_bytes bs (Z.to_nat off) buf in
  (blocks_for (length bs') ≤ blocks_for (length bs) + free a)%nat →
  ∃ s', run (write_at fs (inode_at fs ino) off buf) s = Ok (s', Z.of_nat (length buf)) ∧
    fs_sim fs T (with_bytes ino ty bs bs' a) s'.
Proof.
  intros [Habs Hdir] Hi Hne Hoff Hl Hmax bs' Hroom.
  destruct (run_vfs_write fl fs T (nodes a) (free a) s ino ty bs off buf) as (s' & Hr & Habs'); [done..|].
  exists s'. split; [done|]. split; [done|]. by eapply root_dir_update.
Qed.

Lemma sim_clear a s ino ty bs :
  fs_sim fs T a s → nodes a !! ino = Some (ty, bs) → ino ≠ 0 →
  ∃ s', run (clear fs (inode_at fs ino)) s = Ok (s', tt) ∧
    fs_sim fs T (mkAfs (<[ino := (ty, [])]> (nodes a)) (entries a) (free a + blocks_for (length bs))) s'.
Proof.
  intros [Habs Hdir] Hi Hne. destruct (run_vfs_clear fl fs T (nodes a) (free a) s ino ty bs) as (s' & Hr & Habs'); [done..|].
  exists s'. split; [done|]. split; [done|]. by eapply root_dir_update.
Qed.

Lemma sim_find a s nm :
  fs_sim fs T a s → run (find fs (inode_at fs 0) nm) s = Ok (s, option_map (inode_at fs) (dir_lookup (entries a) nm)).
Proof. intros [Habs Hdir]. by eapply run_find. Qed.

Lemma sim_ls a s : fs_sim fs T a s → run (ls (inode_at fs 0)) s = Ok (s, (entries a).*1).
Proof. intros [Habs Hdir]. by eapply run_ls. Qed.

Lemma sim_create a s nm i :
  fs_sim fs T a s → dir_lookup (entries a) nm = None → fresh_inode fs (nodes a) = Some i → name_ok nm → dir_room a →
  ∃ s', run (create fs (inode_at fs 0) nm) s = Ok (s', Some (inode_at fs i)) ∧
    fs_sim fs T (add_entry nm i (<[i := (File, [])]> (nodes a)) a) s'.
Proof.
  intros [Habs Hdir] Hl Hi Hn [Hd1 Hd2]. apply fresh_inode_spec in Hi as (Hi & Hni & Hmin).
  destruct (run_create_new fl fs T (nodes a) (free a) s (entries a) nm i) as (s' & Hr & Habs' & Hdir'); [done..|].
  exists s'. done.
Qed.

Lemma sim_root a s : fs_sim fs T a s → run (root_inode fs) s = Ok (s, inode_at fs 0).
Proof.
  intros [(F & Hinv & Hh & He & _) _]. unfold root_inode.
  erewrite run_bind_ok by (apply run_lock; done). rewrite set_disk_id. rewrite <-(set_disk_id s) at 2. by apply run_lock.
Qed.
End refinement.

(** ** From the device up *)
Section device.
Context {D : Type} `{BlockDeviceOk D}.
Notation crun := Cache.crun.
Notation fresh := Refine.fresh.
Notation disk_of := Refine.disk_of.

Lemma disk_of_ok (d : D) : disk_ok (BlockCache.blocks d).
Proof. intros i b Hb. by eapply blocks_length. Qed.

(** The disk of a state without locks is all of it. *)
Lemma sim_disk_of fs T a s (d : D) : fs_sim fs T a s → BlockCache.blocks d = Disk.disk s → s = disk_of d.
Proof.
  intros [(F & _ & Hh & He & _) _] Hd. unfold disk_of. rewrite Hd. destruct s; simpl in *. by subst.
Qed.

(** Formatting a device and running calls, on the abstract disk. *)
Lemma format_sim (d : D) T ibb cs a rs :
  create_ok T ibb → (∀ b, 0 ≤ b < T → is_Some (BlockCache.blocks d !! b)) →
  asteps (created T ibb) (formatted T ibb) cs = Some (a, rs) →
  ∃ s, Disk.arun absent (fs ← Efs.create T ibb; execs fs cs) (disk_of d) = Ok (s, rs) ∧
    fs_sim (created T ibb) T a s.
Proof.
  intros Hok Hd Ha.
  destruct (run_create absent T ibb Hok (disk_of d) (disk_of_ok d) Hd eq_refl eq_refl) as (s1 & Hr & Habs).
  destruct (steps_sim absent (created T ibb) T (formatted T ibb) a cs rs s1) as (s2 & Hr2 & Hsim2); [|done|].
  { split; [done|]. split; [done|constructor]. }
  exists s2. split; [|done]. by erewrite run_bind_ok by exact Hr.
Qed.

Lemma mount_sim (d : D) fs T a cs a' rs :
  fs_sim fs T a (disk_of d) → asteps fs a cs = Some (a', rs) →
  ∃ s, Disk.arun absent (fs ← Efs.open; execs fs cs) (disk_of d) = Ok (s, rs) ∧ fs_sim fs T a' s.
Proof.
  intros Hsim Ha. destruct (steps_sim absent _ _ _ _ _ _ _ Hsim Ha) as (s2 & Hr2 & Hsim2).
  exists s2. split; [|done]. destruct Hsim as [Habs _].
  by erewrite run_bind_ok by (by eapply run_open).
Qed.

(** Running through the cache. *)
Lemma through_cache {A} (p : prog A) (d : D) s v :
  Disk.arun absent p (disk_of d) = Ok (s, v) → ∃ c, crun p (fresh d) = Ok (c, v).
Proof.
  intros Hr. pose proof (Refine.crun_sim p (fresh d) (disk_of d) (Refine.R_fresh d)) as Hp.
  rewrite Hr in Hp. destruct Hp as (c & Hc & _). eauto.
Qed.

(** Running through the cache and writing it back. *)
Lemma through_cache_sync {A} (p : prog A) (d : D) s v :
  Disk.arun absent p (disk_of d) = Ok (s, v) → Disk.held s = [] →
  ∃ c, crun (v ← p; block_cache_sync_all;; mret v) (fresh d) = Ok (c, v) ∧ BlockCache.blocks (Cache.dev c) = Disk.disk s.
Proof.
  intros Hr Hh. pose proof (Refine.crun_sim p (fresh d) (disk_of d) (Refine.R_fresh d)) as Hp.
  rewrite Hr in Hp. destruct Hp as (c & Hc & HR). pose proof (Refine.sync_all_sim c s HR) as Hs.
  rewrite bool_decide_true in Hs by done. destruct Hs as (c' & Hc' & _ & Hdev).
  exists c'. split; [|done]. simpl. unfold mbind, M_bind. rewrite Hc. simpl. by rewrite Hc'.
Qed.

(** C1: easy-fs implements its specification.  On every device of [T] blocks, behind
    the block cache, formatting the device and then making any sequence of calls
    (reads, writes, truncations, look-ups, listings, link counts, links, creations
    and removals) returns, without a panic, a deadlock or an endless loop, with the
    answers of the abstract machine: files are byte strings, the directory is a
    list of named entries, and calls succeed while the abstract machine has room. *)
Theorem easy_fs_correct (d : D) T ibb cs a rs :
  create_ok T ibb → (∀ b, 0 ≤ b < T → is_Some (BlockCache.blocks d !! b)) →
  asteps (created T ibb) (formatted T ibb) cs = Some (a, rs) →
  ∃ c, crun (fs ← Efs.create T ibb; execs fs cs) (fresh d) = Ok (c, rs).
Proof.
  intros Hok Hd Ha. destruct (format_sim d T ibb cs a rs Hok Hd Ha) as (s & Hr & _). by eapply through_cache.
Qed.

(** C7: what was written survives.  After any sequence of calls and a write-back of the
    cache, the device mounted afresh, with an empty cache, by [open] answers any
    further calls as if nothing had happened in between. *)
Theorem easy_fs_remount (d : D) T ibb cs a rs cs' a' rs' :
  create_ok T ibb → (∀ b, 0 ≤ b < T → is_Some (BlockCache.blocks d !! b)) →
  asteps (created T ibb) (formatted T ibb) cs = Some (a, rs) → asteps (created T ibb) a cs' = Some (a', rs') →
  ∃ c, crun (v ← (fs ← Efs.create T ibb; execs fs cs); block_cache_sync_all;; mret v) (fresh d) = Ok (c, rs) ∧
  ∃ c', crun (fs ← Efs.open; execs fs cs') (fresh (Cache.dev c)) = Ok (c', rs').
Proof.
  intros Hok Hd Ha Ha'. destruct (format_sim d T ibb cs a rs Hok Hd Ha) as (s & Hr & Hsim).
  destruct (through_cache_sync _ _ _ _ Hr) as (c & Hc & Hdev); [by destruct Hsim as [(F & _ & Hh & _) _]|].
  exists c. split; [done|]. rewrite (sim_disk_of _ _ _ _ _ Hsim Hdev) in Hsim.
  destruct (mount_sim _ _ _ _ _ _ _ Hsim Ha') as (s' & Hr' & _). by eapply through_cache.
Qed.
End device.

(** ** A host file as the device *)
Definition demo_file : BlockFile :=
  mkBlockFile (mkFile (replicate (Z.to_nat (1100 * 512)) Byte.x00) 0).

Lemma demo_blocks b : 0 ≤ b < 1100 → is_Some (BlockCache.blocks demo_file !! b).
Proof.
  intros Hb. change (BlockCache.blocks demo_file) with (bf_blocks demo_file). rewrite lookup_bf_blocks.
  unfold demo_file. cbn [file bytes]. rewrite length_replicate, bool_decide_true by lia. eauto.
Qed.

Lemma demo_create_ok : create_ok 1100 1.
Proof. unfold create_ok. lia. Qed.

(** Two names for one file, a write that leaves a gap, a read over the end. *)
Definition demo_calls : list call :=
  [CCreate [Byte.x61]; CWrite 1 1 [Byte.x68; Byte.x69]; CLink 1 [Byte.x62]; CNlink 1; CUnlink [Byte.x61];
   CFind [Byte.x61]; CRead 1 0 (replicate 4 Byte.x2e)].

Definition demo_answers : list answer :=
  [AInode (Some (mkInode 2 128)); ANum 2; ANum 0; ANum 2; ANum 0;
   AInode None; ABytes 3 [Byte.x00; Byte.x68; Byte.x69; Byte.x2e]].

Definition demo_after : list call := [CLs; CRead 1 1 [Byte.x2e; Byte.x2e]; CNlink 1].
Definition demo_after_answers : list answer := [ANames [[]; [Byte.x62]]; ABytes 2 [Byte.x68; Byte.x69]; ANum 1].

Definition demo_state : afs :=
  match asteps (created 1100 1) (formatted 1100 1) demo_calls with Some (a, _) => a | None => formatted 1100 1 end.

Lemma easy_fs_correct_witness :
  ∃ c, Cache.crun (fs ← Efs.create 1100 1; execs fs demo_calls) (Refine.fresh demo_file) = Ok (c, demo_answers).
Proof.
  apply (easy_fs_correct demo_file 1100 1 demo_calls demo_state demo_answers).
  - exact demo_create_ok.
  - exact demo_blocks.
  - vm_compute. reflexivity.
Defined.

Lemma easy_fs_remount_witness :
  ∃ c, Cache.crun (v ← (fs ← Efs.create 1100 1; execs fs demo_calls); block_cache_sync_all;; mret v)
         (Refine.fresh demo_file) = Ok (c, demo_answers) ∧
  ∃ c', Cache.crun (fs ← Efs.open; execs fs demo_after) (Refine.fresh (Cache.dev c)) = Ok (c', demo_after_answers).
Proof.
  apply (easy_fs_remount demo_file 1100 1 demo_calls demo_state demo_answers demo_after demo_state).
  - exact demo_create_ok.
  - exact demo_blocks.
  - vm_compute. reflexivity.
  - vm_compute. reflexivity.
Defined.

(** ** Laws of the calls *)
Lemma read_write_bytes bs off buf :
  take (length buf) (drop off (write_bytes bs off buf)) = buf.
Proof.
  unfold write_bytes, splice. rewrite drop_app_length' by (rewrite length_take, length_pad; lia).
  by rewrite take_app_length.
Qed.

Lemma splice_whole {A} (buf r : list A) : length r = length buf → splice buf 0 r = r.
Proof. intros Hl. unfold splice. rewrite take_0, drop_ge by lia. by rewrite app_nil_r. Qed.

Section laws.
Context (fl : fault) (fs : EasyFileSystem) (T : Z).
Notation run p := (Disk.arun fl p).

(** C36: reading back.  After [write_at] a read of the same place returns what was
    written; and a read of another file returns what it would have returned before. *)
Theorem write_then_read a s i ty bs off buf buf0 j tyj bsj offj bufj :
  fs_sim fs T a s → nodes a !! i = Some (ty, bs) → 0 ≤ off → (0 < length buf)%nat →
  off + Z.of_nat (length buf) ≤ MAX_SIZE →
  (blocks_for (length (write_bytes bs (Z.to_nat off) buf)) ≤ blocks_for (length bs) + free a)%nat →
  length buf0 = length buf →
  nodes a !! j = Some (tyj, bsj) → j ≠ i → 0 ≤ offj → offj + Z.of_nat (length bufj) < 2 ^ 64 →
  ∃ s' r, run (n ← write_at fs (inode_at fs i) off buf;
             r ← read_at (inode_at fs i) off buf0;
             rj ← read_at (inode_at fs j) offj bufj; mret (n, r, rj)) s =
      Ok (s', (Z.of_nat (length buf), (Z.of_nat (length buf), buf), r)) ∧
    run (read_at (inode_at fs j) offj bufj) s = Ok (s, r).
Proof.
  intros [Habs Hdir] Hi Hoff Hne Hmax Hroom Hl0 Hj Hji Hoffj Hlj.
  destruct (run_vfs_write fl fs T (nodes a) (free a) s i ty bs off buf) as (s' & Hr & Habs'); [done..|].
  exists s', (let r := take (length bufj) (drop (Z.to_nat offj) bsj) in (Z.of_nat (length r), splice bufj 0 r)).
  split; [|by apply (run_vfs_read fl fs T (nodes a) (free a) s j tyj bsj)].
  erewrite run_bind_ok by exact Hr. unfold MAX_SIZE in Hmax.
  erewrite run_bind_ok by (eapply run_vfs_read; [done|by rewrite lookup_insert_eq|lia|lia]).
  erewrite run_bind_ok by (eapply run_vfs_read; [done|by rewrite lookup_insert_ne|lia|lia]).
  rewrite Hl0, read_write_bytes, splice_whole by done. done.
Qed.

(** [create] makes a file.  For a name that is not taken, with an inode and room
    left, [create] returns an inode that was not in use; [find] then finds it under the
    name, it is empty, and [ls] lists the name after the others; creating it again
    returns [None]. *)
Theorem create_then_find a s nm i buf :
  fs_sim fs T a s → dir_lookup (entries a) nm = None → name_ok nm → fresh_inode fs (nodes a) = Some i →
  dir_room a → Z.of_nat (length buf) < 2 ^ 64 →
  ∃ s', run (r ← create fs (inode_at fs 0) nm;
             r' ← find fs (inode_at fs 0) nm;
             b ← read_at (inode_at fs i) 0 buf;
             l ← ls (inode_at fs 0);
             r2 ← create fs (inode_at fs 0) nm; mret (r, r', b, l, r2)) s =
    Ok (s', (Some (inode_at fs i), Some (inode_at fs i), (0, buf), (entries a).*1 ++ [nm], None)) ∧
  nodes a !! i = None.
Proof.
  intros [Habs Hdir] Hl Hn Hi [Hd1 Hd2] Hb. apply fresh_inode_spec in Hi as (Hi & Hni & Hmin).
  destruct (run_create_new fl fs T (nodes a) (free a) s (entries a) nm i) as (s1 & Hr & Habs1 & Hdir1); [done..|].
  assert (dir_lookup (entries a ++ [(nm, i)]) nm = Some i) as Hl'.
  { unfold dir_lookup, dir_find in *. destruct (find_idx _ (entries a)) as [[n e]|] eqn:Hf; [done|].
    assert (find_idx (λ e, bool_decide (e.1 = nm)) (entries a ++ [(nm, i)]) = Some (length (entries a), (nm, i)))
      as ->; [|done].
    apply find_idx_Some. split_and!; [by rewrite lookup_app_r, Nat.sub_diag by lia|by apply bool_decide_eq_true|].
    intros j y Hj Hy. rewrite lookup_app_l in Hy by done.
    by apply (proj1 (find_idx_None _ _) Hf y), list_elem_of_lookup_2 with j. }
  assert (i ≠ 0) as Hi0 by (intros ->; destruct Hdir as [Hr0 _]; congruence).
  destruct (run_create_exists fl fs T _ _ _ _ _ _ Habs1 Hdir1 Hl') as (s2 & Hr2 & _).
  exists s2. split; [|done]. erewrite run_bind_ok by exact Hr. erewrite run_bind_ok by (by eapply run_find).
  erewrite run_bind_ok by (eapply run_vfs_read; [done|rewrite lookup_insert_ne, lookup_insert_eq by done; done|lia|lia]).
  erewrite run_bind_ok by (by eapply run_ls). erewrite run_bind_ok by exact Hr2.
  rewrite Hl', drop_nil, take_nil, fmap_app. unfold splice. by rewrite take_0.
Qed.

(** C39: unlinking the empty name.  [unlink("")] finds the place of an entry
    that was unlinked before, whose name is empty and whose inode number is 0.  When this is the only entry that
    leads to inode 0, inode 0, the root directory, is cleared: all names of all files are gone, though their
    blocks stay taken.  When there are more such entries (two names were unlinked), nothing changes. *)
Theorem unlink_empty_clears_root a s :
  fs_sim fs T a s → dir_lookup (entries a) [] = Some 0 →
  let one := nlink (entries a) 0 =? 1 in
  ∃ s', run (n ← unlink fs (inode_at fs 0) []; l ← ls (inode_at fs 0); mret (n, l)) s =
      Ok (s', (0, if one then [] else (entries a).*1)) ∧
    fs_sim fs T (if one then mkAfs (<[0 := (Directory, [])]> (nodes a)) [] (free a + blocks_for (32 * length (entries a))) else a) s'.
Proof.
  intros [Habs Hdir] Hl one. destruct (run_unlink_empty fl fs T _ _ _ _ Habs Hdir Hl) as (s' & Hr & Habs' & Hdir').
  exists s'. fold one in Habs', Hdir'. destruct one; (split; [|done]); erewrite run_bind_ok by exact Hr; by erewrite run_bind_ok by (by eapply run_ls).
Qed.
End laws.

(** A formatted device on which calls were made. *)
Lemma demo_after_calls cs a rs :
  asteps (created 1100 1) (formatted 1100 1) cs = Some (a, rs) →
  ∃ s, fs_sim (created 1100 1) 1100 a s.
Proof.
  intros Ha. destruct (format_sim demo_file 1100 1 cs a rs demo_create_ok demo_blocks Ha) as (s & _ & Hsim). eauto.
Qed.

Lemma write_then_read_witness :
  ∃ s s' r, Disk.arun OutOfBounds
      (n ← write_at (created 1100 1) (inode_at (created 1100 1) 1) 3 [Byte.x68; Byte.x69];
       r ← read_at (inode_at (created 1100 1) 1) 3 [Byte.x00; Byte.x00];
       rj ← read_at (inode_at (created 1100 1) 0) 0 [Byte.x00]; mret (n, r, rj)) s =
    Ok (s', (2, (2, [Byte.x68; Byte.x69]), r)).
Proof.
  destruct (demo_after_calls [CCreate [Byte.x61]] _ _ eq_refl) as [s Hsim].
  destruct (write_then_read OutOfBounds (created 1100 1) 1100 _ s 1 File [] 3 [Byte.x68; Byte.x69]
    [Byte.x00; Byte.x00] 0 Directory (dir_bytes [([Byte.x61], 1)]) 0 [Byte.x00] Hsim) as (s' & r & Hr & _);
    [reflexivity|lia|simpl; lia|vm_compute; congruence|apply Nat.leb_le; reflexivity|reflexivity|reflexivity|lia|lia
    |vm_compute; reflexivity|].
  exists s, s', r. exact Hr.
Defined.

Lemma create_then_find_witness :
  ∃ s s', Disk.arun OutOfBounds
      (r ← create (created 1100 1) (inode_at (created 1100 1) 0) [Byte.x62];
       r' ← find (created 1100 1) (inode_at (created 1100 1) 0) [Byte.x62];
       b ← read_at (inode_at (created 1100 1) 2) 0 [Byte.x2e];
       l ← ls (inode_at (created 1100 1) 0);
       r2 ← create (created 1100 1) (inode_at (created 1100 1) 0) [Byte.x62]; mret (r, r', b, l, r2)) s =
    Ok (s', (Some (mkInode 2 256), Some (mkInode 2 256), (0, [Byte.x2e]), [[Byte.x61]; [Byte.x62]], None)).
Proof.
  destruct (demo_after_calls [CCreate [Byte.x61]] _ _ eq_refl) as [s Hsim].
  destruct (create_then_find OutOfBounds (created 1100 1) 1100 _ s [Byte.x62] 2 [Byte.x2e] Hsim) as (s' & Hr & _);
    [reflexivity|apply (bool_decide_unpack (name_ok [Byte.x62])); exact I|vm_compute; reflexivity| |
     vm_compute; reflexivity|].
  - split; [vm_compute; congruence|apply Nat.leb_le; vm_compute; reflexivity].
  - exists s, s'. exact Hr.
Defined.

(** One entry was unlinked, and two. *)
Lemma unlink_empty_clears_root_witness :
  (∃ s s', Disk.arun OutOfBounds
      (n ← unlink (created 1100 1) (inode_at (created 1100 1) 0) [];
       l ← ls (inode_at (created 1100 1) 0); mret (n, l)) s = Ok (s', (0, []))) ∧
  ∃ s s', Disk.arun OutOfBounds
      (n ← unlink (created 1100 1) (inode_at (created 1100 1) 0) [];
       l ← ls (inode_at (created 1100 1) 0); mret (n, l)) s = Ok (s', (0, [[]; []; [Byte.x63]])).
Proof.
  split.
  - destruct (demo_after_calls [CCreate [Byte.x61]; CCreate [Byte.x62]; CUnlink [Byte.x61]] _ _ eq_refl) as [s Hsim].
    destruct (unlink_empty_clears_root OutOfBounds (created 1100 1) 1100 _ s Hsim) as (s' & Hr & _);
      [vm_compute; reflexivity|].
    exists s, s'. exact Hr.
  - destruct (demo_after_calls [CCreate [Byte.x61]; CCreate [Byte.x62]; CCreate [Byte.x63]; CUnlink [Byte.x61]; CUnlink [Byte.x62]] _ _ eq_refl) as [s Hsim].
    destruct (unlink_empty_clears_root OutOfBounds (created 1100 1) 1100 _ s Hsim) as (s' & Hr & _);
      [vm_compute; reflexivity|].
    exists s, s'. exact Hr.
Defined.
