(* ===== verification/Packer.v ===== *)
(** * The packer ([easy-fs-fuse/src/main.rs])

    [easy_fs_pack] makes a disk image with the programs of a directory; [efs_test]
    is the test of the file system that comes with it.  The host's directory and
    files are arguments.

    What the packer leaves is on the device, not only in the cache: the last
    change to a block is followed by a write-back ([leaves_clean]). *)

From Stdlib Require Import String.
From S2P Require Import Prelude Bytes Utf8 BlockCache BlockFile Layout DiskLib Bitmap DiskInode FileData DirEntry Efs FsInv Vfs VfsSpec VfsDir.
From S2P Require Import EfsSpec FsModel.

Local Ltac Zify.zify_post_hook ::= Z.to_euclidean_division_equations.

(** [name_with_ext.drain(name_with_ext.find('.').unwrap()..)] *)
Definition app_name (name_with_ext : list byte) : prog (list byte) :=
  '(i, _) ← unwrap (find_idx (λ b, bool_decide (b = Byte.x2e)) name_with_ext);
  mret (take i name_with_ext).

(** Pack a directory into a easy-fs disk image: [dir] is what [read_dir] lists, [host] the
    files of the target directory; the names at the end are printed. *)
Definition pack_app (fs : EasyFileSystem) (root : Inode) (host : list byte → option (list byte)) (app : list byte) : prog unit :=
  all_data ← unwrap (host app);
  r ← Vfs.create fs root app;
  inode ← unwrap r;
  _ ← Vfs.write_at fs inode 0 all_data;
  mret tt.

Definition easy_fs_pack (dir : list (list byte)) (host : list byte → option (list byte)) : prog (list (list byte)) :=
  efs ← Efs.create 14000 1;
  root ← root_inode efs;
  apps ← for_ dir (λ apps dir_entry, app ← app_name dir_entry; mret (apps ++ [app])) [];
  for_ apps (λ _ app, pack_app efs root host app) tt;;
  ls root.

(** ** The test *)

(** The loop of [random_str_test], at most [fuel] reads *)
Fixpoint read_str (fuel : nat) (filea : Inode) (offset : Z) (read_buffer read_str_ : list byte) : prog (list byte) :=
  match fuel with
  | O => mthrow OutOfFuel
  | S fuel =>
      '(len, read_buffer) ← Vfs.read_at filea offset read_buffer;
      if len =? 0 then mret read_str_ else
      chunk ← slice read_buffer 0 len;
      (if utf8_valid chunk then mret tt else mthrow UnwrapNone);;
      read_str fuel filea (wrap64 (offset + len)) read_buffer (read_str_ ++ chunk)
  end.

(** [str]: the digits it draws *)
Definition random_str_test (fuel : nat) (fs : EasyFileSystem) (filea : Inode) (buffer : list byte) (str : list byte) :
    prog (list byte) :=
  Vfs.clear fs filea;;
  '(n, buffer) ← Vfs.read_at filea 0 buffer;
  assert_ (n =? 0);;
  _ ← Vfs.write_at fs filea 0 str;
  s ← read_str fuel filea 0 (replicate 127 Byte.x00) [];
  assert_ (bool_decide (str = s));;
  mret buffer.

Definition efs_test (fuel : nat) (strs : list (list byte)) : prog unit :=
  _ ← Efs.create 4096 1;
  efs ← Efs.open;
  root ← root_inode efs;
  _ ← Vfs.create efs root (list_byte_of_string "filea");
  _ ← Vfs.create efs root (list_byte_of_string "fileb");
  _ ← ls root;
  r ← Vfs.find efs root (list_byte_of_string "filea");
  filea ← unwrap r;
  let greet_str := list_byte_of_string "Hello, world!" in
  _ ← Vfs.write_at efs filea 0 greet_str;
  '(len, buffer) ← Vfs.read_at filea 0 (replicate 233 Byte.x00);
  chunk ← slice buffer 0 len;
  (if utf8_valid chunk then mret tt else mthrow UnwrapNone);;
  assert_ (bool_decide (greet_str = chunk));;
  _ ← for_ strs (λ buffer str, random_str_test fuel efs filea buffer str) buffer;
  mret tt.

(** ** Packed disks *)

(** The state of the file system with [apps] in it, in the order of their creation. *)
Definition pack_entries (apps : list (list byte * list byte)) : dir :=
  imap (λ i app, (app.1, Z.of_nat (S i))) apps.

(** Room for the entry of another program, after [n], and for its bytes. *)
Definition app_need (n : nat) (data : list byte) : nat :=
  (blocks_for (32 * S n) - blocks_for (32 * n) + blocks_for (length data))%nat.

Fixpoint pack_need (n : nat) (apps : list (list byte * list byte)) : nat :=
  match apps with [] => 0 | app :: apps => app_need n app.2 + pack_need (S n) apps end%nat.

Definition app_ok (app : list byte * list byte) : Prop :=
  name_ok app.1 ∧ (0 < length app.2)%nat ∧ Z.of_nat (length app.2) ≤ MAX_SIZE.

(** [a] holds the programs [apps]. *)
Record packed (fs : EasyFileSystem) (apps : list (list byte * list byte)) (a : afs) : Prop := {
  pk_entries : entries a = pack_entries apps;
  pk_files i app : apps !! i = Some app → nodes a !! Z.of_nat (S i) = Some (File, app.2);
  pk_nodes j : is_Some (nodes a !! j) ↔ 0 ≤ j ≤ Z.of_nat (length apps);
}.

Lemma length_pack_entries apps : length (pack_entries apps) = length apps.
Proof. apply length_imap. Qed.

Lemma pack_entries_snoc apps app :
  pack_entries (apps ++ [app]) = pack_entries apps ++ [(app.1, Z.of_nat (S (length apps)))].
Proof. unfold pack_entries. rewrite imap_app. cbn. by rewrite Nat.add_0_r. Qed.

Lemma pack_names apps : (pack_entries apps).*1 = apps.*1.
Proof. unfold pack_entries. rewrite fmap_imap. apply (imap_const fst). Qed.

Lemma dir_lookup_None D nm : nm ∉ D.*1 → dir_lookup D nm = None.
Proof.
  intros Hn. unfold dir_lookup, dir_find. rewrite (proj2 (find_idx_None _ _)); [done|]. intros e He.
  apply bool_decide_eq_false. intros <-. apply Hn, list_elem_of_fmap. eauto.
Qed.

Lemma dir_lookup_nodup D nm i n : NoDup D.*1 → D !! n = Some (nm, i) → dir_lookup D nm = Some i.
Proof.
  intros Hnd Hn. unfold dir_lookup, dir_find.
  rewrite (proj2 (find_idx_Some _ _ n (nm, i))); [done|]. split; [done|]. split; [by apply bool_decide_eq_true|].
  intros j [nm' i'] Hj He. apply bool_decide_eq_false. cbn. intros ->.
  assert (D.*1 !! j = Some nm ∧ D.*1 !! n = Some nm) as [H1 H2] by (by rewrite !list_lookup_fmap, He, Hn).
  pose proof (NoDup_lookup _ _ _ _ Hnd H1 H2). lia.
Qed.

Lemma fresh_inode_first fs A i :
  0 ≤ i < inode_count fs → A !! i = None → (∀ j, 0 ≤ j < i → is_Some (A !! j)) → fresh_inode fs A = Some i.
Proof.
  intros Hi Hn Hmin. unfold fresh_inode. rewrite (proj2 (find_idx_Some _ _ (Z.to_nat i) i)); [done|].
  unfold range. split; [apply lookup_seqZ; lia|]. split; [by apply bool_decide_eq_true|].
  intros j y Hj Hy%lookup_seqZ. apply bool_decide_eq_false. intros Hy'. destruct (Hmin y ltac:(lia)) as [v Hv]. congruence.
Qed.

Section pack.
Context (fl : fault) (fs : EasyFileSystem) (T : Z) (host : list byte → option (list byte)).
Hypothesis (Hcount : inode_count fs = 4096).
Notation run p := (Disk.arun fl p).

(** One program more. *)
Lemma pack_one a s apps app :
  fs_sim fs T a s → packed fs apps a → app_ok app → app.1 ∉ apps.*1 → host app.1 = Some app.2 →
  (S (length apps) < 4096)%nat → (app_need (length apps) app.2 ≤ free a)%nat →
  ∃ s' a', run (pack_app fs (inode_at fs 0) host app.1) s = Ok (s', tt) ∧ fs_sim fs T a' s' ∧
    packed fs (apps ++ [app]) a' ∧ free a' = (free a - app_need (length apps) app.2)%nat.
Proof.
  intros Hsim [He Hf Hn] (Hname & Hpos & Hmax) Hnew Hhost Hlt Hneed. set (i := Z.of_nat (S (length apps))).
  assert (nodes a !! i = None) as Hi by (apply eq_None_not_Some; rewrite Hn; lia).
  unfold app_need in Hneed.
  destruct (sim_create fl fs T a s app.1 i) as (s1 & Hr1 & Hsim1); try done.
  { apply dir_lookup_None. by rewrite He, pack_names. }
  { apply fresh_inode_first; [lia|done|]. intros j Hj. apply Hn. lia. }
  { split; rewrite He, ?length_pack_entries; [unfold MAX_SIZE; lia|]. unfold dir_need. rewrite length_pack_entries. lia. }
  set (a1 := add_entry _ _ _ _) in Hsim1.
  assert (nodes a1 !! i = Some (File, [])) as Hi1 by (cbn; by rewrite lookup_insert_ne, lookup_insert_eq by lia).
  assert (free a1 = free a - (blocks_for (32 * S (length apps)) - blocks_for (32 * length apps)))%nat as Hfree1.
  { cbn. unfold dir_need. by rewrite He, length_pack_entries. }
  assert (write_bytes [] (Z.to_nat 0) app.2 = app.2) as Hw.
  { unfold write_bytes, splice. cbn. rewrite drop_ge; [by rewrite app_nil_r|]. rewrite length_replicate. lia. }
  destruct (sim_write fl fs T a1 s1 i File [] 0 app.2) as (s2 & Hr2 & Hsim2); try done; try lia.
  { rewrite Hw, Hfree1. change (blocks_for (length [])) with 0%nat. lia. }
  rewrite Hw in Hsim2. exists s2. eexists. split; [|split; [exact Hsim2|split; [|]]].
  - unfold pack_app. rewrite Hhost. cbn [unwrap]. erewrite run_bind_ok by done. erewrite run_bind_ok by exact Hr1.
    cbn [unwrap]. erewrite run_bind_ok by done. by erewrite run_bind_ok by exact Hr2.
  - split; cbn.
    + rewrite He, pack_entries_snoc. done.
    + intros j app' Hj. destruct (decide (j = length apps)) as [->|Hne].
      * rewrite lookup_insert_eq. by rewrite lookup_app_r, Nat.sub_diag in Hj by lia; injection Hj as ->.
      * pose proof (lookup_lt_Some _ _ _ Hj) as Hlt'. rewrite length_app in Hlt'. cbn in Hlt'.
        rewrite lookup_app_l in Hj by lia. rewrite !lookup_insert_ne by lia. by apply Hf.
    + intros j. rewrite length_app. cbn. rewrite !lookup_insert_is_Some', Hn. lia.
  - cbn [with_bytes free]. rewrite Hfree1. unfold app_need. change (blocks_for (length [])) with 0%nat. lia.
Qed.

(** All programs. *)
Lemma pack_all apps : ∀ a s done,
  fs_sim fs T a s → packed fs done a → Forall app_ok apps → NoDup (done ++ apps).*1 →
  Forall (λ app, host app.1 = Some app.2) apps → (length (done ++ apps) < 4096)%nat →
  (pack_need (length done) apps ≤ free a)%nat →
  ∃ s' a', run (for_ apps.*1 (λ _ app, pack_app fs (inode_at fs 0) host app) tt) s = Ok (s', tt) ∧ fs_sim fs T a' s' ∧
    packed fs (done ++ apps) a'.
Proof.
  induction apps as [|app apps IH]; intros a s done_ Hsim Hp Hok Hnd Hhost Hlen Hneed.
  { exists s, a. by rewrite app_nil_r. }
  apply Forall_cons in Hok as [Hok1 Hok]. apply Forall_cons in Hhost as [Hh1 Hhost]. cbn [pack_need] in Hneed.
  rewrite length_app in Hlen. cbn in Hlen.
  destruct (pack_one a s done_ app) as (s1 & a1 & Hr1 & Hsim1 & Hp1 & Hf1); try done; try lia.
  { rewrite fmap_app, fmap_cons, NoDup_app in Hnd. destruct Hnd as (_ & Hd & _). intros Hin. apply (Hd _ Hin). by left. }
  rewrite cons_middle, app_assoc in Hnd |- *.
  destruct (IH a1 s1 (done_ ++ [app])) as (s2 & a2 & Hr2 & Hsim2 & Hp2); try done.
  { rewrite !length_app. cbn. lia. }
  { rewrite length_app. cbn. rewrite Nat.add_1_r. lia. }
  exists s2, a2. split_and!; [|done..]. cbn. by erewrite run_bind_ok by exact Hr1.
Qed.

End pack.

(** ** Write-back

    [clean]: no cached block differs from the device. *)
Section clean.
Context {D : Type} `{BlockDeviceOk D}.
Implicit Types (cs : Cache.state D).

Definition entry_clean (pr : Z * Cache.arc) : Prop := Cache.modified (Cache.inner pr.2) = false.
Definition clean cs : Prop := Forall entry_clean (Cache.queue cs).

Definition keeps_clean {A} (p : prog A) : Prop := ∀ cs cs' v, clean cs → Cache.crun p cs = Ok (cs', v) → clean cs'.
Definition leaves_clean {A} (p : prog A) : Prop := ∀ cs cs' v, Cache.crun p cs = Ok (cs', v) → clean cs'.

Lemma clean_device cs s : Refine.R cs s → clean cs → BlockCache.blocks (Cache.dev cs) = Disk.disk s.
Proof.
  intros [[_ _ He _ Hd] _ _] Hc. apply map_eq. intros i. rewrite Hd.
  destruct (Cache.assoc i (Cache.queue cs)) as [e|] eqn:Hi; [|done]. apply (Refine.eo_clean _ _ _ _ _ (He _ _ Hi)).
  apply Refine.assoc_Some_in in Hi. by apply (proj1 (Forall_forall _ _) Hc (i, e)).
Qed.

Lemma leaves_keeps {A} (p : prog A) : leaves_clean p → keeps_clean p.
Proof. intros Hp cs cs' v _. apply Hp. Qed.

Lemma keeps_ret {A} (a : A) : keeps_clean (mret a).
Proof. by intros cs cs' v Hc [= <- <-]. Qed.
Lemma keeps_throw {A} (e : fault) : keeps_clean (mthrow e : prog A).
Proof. by intros cs cs' v Hc. Qed.
Lemma keeps_bind {A B} (p : prog A) (k : A → prog B) : keeps_clean p → (∀ a, keeps_clean (k a)) → keeps_clean (p ≫= k).
Proof. intros Hp Hk cs cs' v Hc (cs1 & a & H1 & H2)%bind_ok_inv. eapply Hk; [|exact H2]. by eapply Hp. Qed.
Lemma leaves_bind {A B} (p : prog A) (k : A → prog B) : leaves_clean p → (∀ a, keeps_clean (k a)) → leaves_clean (p ≫= k).
Proof. intros Hp Hk cs cs' v (cs1 & a & H1 & H2)%bind_ok_inv. eapply Hk; [|exact H2]. by eapply Hp. Qed.
Lemma leaves_after {A B} (p : prog A) (k : A → prog B) : (∀ a, leaves_clean (k a)) → leaves_clean (p ≫= k).
Proof. intros Hk cs cs' v (cs1 & a & H1 & H2)%bind_ok_inv. by eapply Hk. Qed.

Lemma leaves_with_fs {A} (p : prog A) : leaves_clean p → leaves_clean (with_fs p).
Proof.
  intros Hp cs cs' v. cbn. destruct (Cache.efs_locked cs); [done|].
  destruct (Cache.crun p _) as [[cs1 a]|] eqn:Hr; [|done]. intros [= <- <-]. exact (Hp _ _ _ Hr).
Qed.
Lemma keeps_with_fs {A} (p : prog A) : keeps_clean p → keeps_clean (with_fs p).
Proof.
  intros Hp cs cs' v Hc. cbn. destruct (Cache.efs_locked cs); [done|].
  destruct (Cache.crun p _) as [[cs1 a]|] eqn:Hr; [|done]. intros [= <- <-]. refine (Hp _ _ _ _ Hr). exact Hc.
Qed.

Lemma sync_entries_clean q : ∀ cs cs' q', Cache.sync_entries q cs = Ok (cs', q') → Forall entry_clean q'.
Proof.
  induction q as [|pr q IH]; intros cs cs' q' Hq; [by injection Hq as <- <-|]. cbn in Hq.
  apply bind_ok_inv in Hq as (cs1 & pr' & H1 & Hq). apply bind_ok_inv in Hq as (cs2 & q2 & H2 & [= <- <-]).
  apply Forall_cons. split; [|by eapply IH]. unfold Cache.sync_entry in H1. destruct (Cache.locked pr.2); [done|].
  apply bind_ok_inv in H1 as (cs3 & c & H3 & [= <- <-]). unfold Cache.sync in H3.
  destruct (Cache.modified (Cache.inner pr.2)) eqn:Hm; [|by injection H3 as <- <-].
  destruct (write_block _ _ _); [|done]. by injection H3 as <- <-.
Qed.

Lemma leaves_sync : leaves_clean block_cache_sync_all.
Proof.
  intros cs cs' v (cs1 & q & Hq & Hs)%bind_ok_inv. injection Hq as <- <-. apply bind_ok_inv in Hs as (cs2 & q' & Hq' & [= <- <-]).
  by eapply sync_entries_clean.
Qed.

(** Entries keep their cache. *)
Lemma clean_on_entry bid g q :
  (∀ a, Cache.inner (g a) = Cache.inner a) → Forall entry_clean q → Forall entry_clean (Cache.on_entry bid g q).
Proof.
  intros Hg Hq. unfold Cache.on_entry. apply Forall_fmap. eapply Forall_impl; [exact Hq|]. intros [i a] Ha.
  unfold entry_clean in *. cbn. case_match; cbn; [by rewrite Hg|done].
Qed.

Lemma clean_get_block_cache bid cs cs' v : clean cs → Cache.get_block_cache bid cs = Ok (cs', v) → clean cs'.
Proof.
  intros Hc (cs1 & q & [= <- <-] & Hg)%bind_ok_inv.
  destruct (find_idx _ _); [injection Hg as <- <-; by apply clean_on_entry|].
  apply bind_ok_inv in Hg as (cs2 & [] & Hr & Hg). assert (clean cs2) as Hc2.
  { unfold Cache.make_room in Hr. apply bind_ok_inv in Hr as (cs3 & q & [= <- <-] & Hr). case_bool_decide; [|by injection Hr as <-].
    destruct (find_idx _ _) as [[idx pr]|]; [|done]. apply bind_ok_inv in Hr as (cs4 & [] & [= <-] & Hr).
    apply bind_ok_inv in Hr as (cs5 & c & Hs & [= <-]).
    assert (Cache.queue cs5 = remove_nth idx (Cache.queue cs)) as Hq5.
    { unfold Cache.sync in Hs. repeat case_match; by simplify_eq. }
    unfold clean. rewrite Hq5. unfold remove_nth. apply Forall_app. split; [by apply Forall_take|by apply Forall_drop]. }
  apply bind_ok_inv in Hg as (cs3 & c & Hn & Hg). unfold Cache.new in Hn. destruct (read_block _ _); [|done].
  injection Hn as <- <-. apply bind_ok_inv in Hg as (cs4 & q & [= <- <-] & [= <- <-]).
  apply Forall_app. split; [done|]. by apply Forall_singleton.
Qed.

Lemma keeps_read {T A} `{P : Pod T} bid off (f : T → prog A) : (∀ t, keeps_clean (f t)) → keeps_clean (read_cache bid off f).
Proof.
  intros Hf cs cs' v Hc Hr. cbn in Hr. apply bind_ok_inv in Hr as (cs1 & [] & Hg & Hr).
  apply (clean_get_block_cache _ _ _ _ Hc) in Hg. apply bind_ok_inv in Hr as (cs2 & c & Hl & Hr).
  assert (clean cs2) as Hc2.
  { unfold Cache.lock in Hl. apply bind_ok_inv in Hl as (cs3 & q & [= <- <-] & Hl).
    apply bind_ok_inv in Hl as (cs4 & a & Ha & Hl). destruct (Cache.assoc _ _); [|done]. injection Ha as <- <-.
    destruct (Cache.locked _); [done|]. apply bind_ok_inv in Hl as (cs5 & [] & [= <-] & [= <- <-]). by apply clean_on_entry. }
  apply bind_ok_inv in Hr as (cs3 & t & Ht & Hr). destruct (get_ref _ _) as [t'|]; [|done]. injection Ht as <- <-.
  apply bind_ok_inv in Hr as (cs4 & a & Hr4 & Hr). apply (Hf _ _ _ _ Hc2) in Hr4.
  apply bind_ok_inv in Hr as (cs5 & [] & Hrel & [= <- <-]).
  apply bind_ok_inv in Hrel as (cs6 & q & [= <- <-] & [= <-]). by apply clean_on_entry.
Qed.

Lemma keeps_for {A X} (l : list X) (f : A → X → prog A) s : (∀ s x, keeps_clean (f s x)) → keeps_clean (for_ l f s).
Proof. intros Hf. revert s. induction l as [|x l IH]; intros s; cbn; [apply keeps_ret|]. by apply keeps_bind. Qed.

Ltac keeps := repeat first
  [ apply keeps_ret | apply keeps_throw | apply keeps_bind; [|intros ?] | apply keeps_read; intros ? | apply keeps_with_fs
  | apply keeps_for; intros ? ?
  | match goal with |- keeps_clean (match ?x with _ => _ end) => destruct x end ].

Lemma keeps_index {A} (l : list A) i : keeps_clean (index l i).
Proof. unfold index. keeps. Qed.
Lemma keeps_slice {A} (l : list A) i j : keeps_clean (slice l i j).
Proof. unfold slice. keeps. Qed.
Lemma keeps_copy_into {A} (l src : list A) i j : keeps_clean (copy_into l i j src).
Proof. unfold copy_into. keeps. Qed.

Lemma keeps_get_block_id d i : keeps_clean (DiskInode.get_block_id d i).
Proof. unfold DiskInode.get_block_id. keeps; apply keeps_index. Qed.

Lemma keeps_read_loop fuel d end_ : ∀ start b n buf, keeps_clean (DiskInode.read_loop fuel d end_ start b n buf).
Proof.
  induction fuel as [|fuel IH]; intros; cbn; [apply keeps_throw|]. keeps; try apply keeps_get_block_id; try apply IH;
    try apply keeps_slice; try apply keeps_copy_into; keeps; try apply IH.
Qed.

Lemma keeps_read_at d off buf : keeps_clean (DiskInode.read_at d off buf).
Proof. unfold DiskInode.read_at. case_match; [apply keeps_ret|apply keeps_read_loop]. Qed.

Lemma keeps_ls i : keeps_clean (ls i).
Proof.
  unfold ls, read_disk_inode, read_dirent, entry_name, assert_. apply keeps_with_fs, keeps_read. intros d. apply keeps_for. intros l j.
  apply keeps_bind; [|intros e; keeps]. apply keeps_bind; [apply keeps_read_at|intros [n bs]; keeps].
Qed.

(** What the packer wrote is on the device. *)
Lemma leaves_pack dir_ host : leaves_clean (easy_fs_pack dir_ host).
Proof.
  unfold easy_fs_pack. apply leaves_bind.
  - unfold Efs.create. destruct (areas _ _) as [[? ?] ?]. do 4 (apply leaves_after; intros ?).
    destruct (get_disk_inode_pos _ _). apply leaves_after. intros _. apply leaves_bind; [apply leaves_sync|]. intros _. apply keeps_ret.
  - intros fs. apply keeps_bind; [unfold root_inode; keeps|]. intros root.
    apply keeps_bind; [unfold app_name, unwrap; keeps|]. intros apps. apply keeps_bind; [|intros; apply keeps_ls].
    apply keeps_for. intros _ app. apply leaves_keeps. unfold pack_app. do 3 (apply leaves_after; intros ?).
    apply leaves_bind; [|intros ?; keeps]. apply leaves_with_fs, leaves_after. intros ?.
    apply leaves_bind; [apply leaves_sync|]. intros _. apply keeps_ret.
Qed.
End clean.

(** ** The packer's image *)
Lemma run_names fl dir_ names s :
  Forall2 (λ d nm, Disk.arun fl (app_name d) s = Ok (s, nm)) dir_ names →
  Disk.arun fl (for_ dir_ (λ apps dir_entry, app ← app_name dir_entry; mret (apps ++ [app])) []) s = Ok (s, names).
Proof.
  intros Hall. assert (∀ pre, Disk.arun fl (for_ dir_ (λ apps dir_entry, app ← app_name dir_entry; mret (apps ++ [app])) pre) s
    = Ok (s, pre ++ names)) as H; [|apply (H [])].
  induction Hall as [|d nm dir_ names Hd _ IH]; intros pre; cbn [for_]; [by rewrite app_nil_r|].
  erewrite run_bind_ok by (by erewrite run_bind_ok by exact Hd). rewrite IH. by rewrite <-app_assoc.
Qed.

(** A name with an extension. *)
Lemma run_app_name fl nm ext s : Byte.x2e ∉ nm → Disk.arun fl (app_name (nm ++ Byte.x2e :: ext)) s = Ok (s, nm).
Proof.
  intros Hn. unfold app_name. rewrite (proj2 (find_idx_Some _ _ (length nm) Byte.x2e)).
  - cbn [unwrap]. erewrite run_bind_ok by done. cbn. by rewrite take_app_length.
  - split; [by rewrite lookup_app_r, Nat.sub_diag by lia|]. split; [done|]. intros j b Hj Hb.
    rewrite lookup_app_l in Hb by done. apply bool_decide_eq_false. intros ->. apply Hn. by eapply list_elem_of_lookup_2.
Qed.

(** Looking a program up and reading it. *)
Definition load (fs : EasyFileSystem) (nm : list byte) (n : nat) : prog (Z * list byte) :=
  r ← Vfs.find fs (inode_at fs 0) nm;
  ino ← unwrap r;
  Vfs.read_at ino 0 (replicate n Byte.x00).

Lemma run_load fl fs T a s apps i app :
  fs_sim fs T a s → packed fs apps a → NoDup apps.*1 → apps !! i = Some app → Z.of_nat (length app.2) < 2 ^ 64 →
  Disk.arun fl (load fs app.1 (length app.2)) s = Ok (s, (Z.of_nat (length app.2), app.2)).
Proof.
  intros Hsim [He Hf _] Hnd Hi Hl. unfold load. erewrite run_bind_ok by (by eapply sim_find).
  rewrite He, (dir_lookup_nodup _ _ (Z.of_nat (S i)) i).
  - cbn [option_map unwrap]. erewrite run_bind_ok by done.
    rewrite (sim_read fl fs T a s (Z.of_nat (S i)) File app.2) by (rewrite ?length_replicate; try done; try lia; by apply Hf).
    rewrite length_replicate, drop_0, take_ge by lia. rewrite splice_whole by (by rewrite length_replicate). done.
  - by rewrite pack_names.
  - unfold pack_entries. rewrite list_lookup_imap, Hi. done.
Qed.

Lemma packed_nothing T ibb : packed (created T ibb) [] (formatted T ibb).
Proof.
  split; [done| |].
  - intros i app Hi. by apply lookup_nil in Hi || rewrite lookup_nil in Hi.
  - intros j. cbn. rewrite lookup_singleton_is_Some. lia.
Qed.

Section image.
Context {D : Type} `{BlockDeviceOk D}.

(** The packer on the abstract disk. *)
Lemma run_pack (d : D) (apps : list (list byte * list byte)) exts host :
  (∀ b, 0 ≤ b < 14000 → is_Some (BlockCache.blocks d !! b)) →
  length exts = length apps → Forall app_ok apps → Forall (λ app, Byte.x2e ∉ app.1) apps → NoDup apps.*1 →
  Forall (λ app, host app.1 = Some app.2) apps → (length apps < 4096)%nat → (pack_need 0 apps ≤ 12970)%nat →
  ∃ s a, Disk.arun absent (easy_fs_pack (zip_with (λ app ext, app.1 ++ Byte.x2e :: ext) apps exts) host) (Refine.disk_of d) =
      Ok (s, apps.*1) ∧
    fs_sim (created 14000 1) 14000 a s ∧ packed (created 14000 1) apps a.
Proof.
  intros Hd Hl Hok Hdot Hnd Hhost Hlen Hneed. set (fs := created 14000 1).
  destruct (run_create absent 14000 1 ltac:(unfold create_ok; lia) (Refine.disk_of d) (disk_of_ok d) Hd eq_refl eq_refl)
    as (s1 & Hr1 & Habs). fold fs in Hr1, Habs.
  assert (fs_sim fs 14000 (formatted 14000 1) s1) as Hsim1 by (split; [done|split; [done|constructor]]).
  destruct (pack_all absent fs 14000 host eq_refl apps (formatted 14000 1) s1 []) as (s2 & a & Hr2 & Hsim2 & Hp); try done.
  { apply packed_nothing. }
  exists s2, a. split; [|done]. unfold easy_fs_pack. erewrite run_bind_ok by exact Hr1.
  erewrite run_bind_ok by (by eapply sim_root). erewrite run_bind_ok; [|apply (run_names absent _ apps.*1)].
  - erewrite run_bind_ok by exact Hr2. erewrite sim_ls by done. rewrite (pk_entries _ _ _ Hp), pack_names. done.
  - clear -Hl Hdot. revert exts Hl. induction Hdot as [|app apps Ha _ IH]; intros [|ext exts] [=]; cbn; constructor;
      [by apply run_app_name|by apply IH].
Qed.

(** C32: the packer makes the image it means to.  For programs with distinct names that can
    be stored, not empty and small enough for the 14000 blocks, [easy_fs_pack] returns
    the names, none of its [unwrap]s fails; and the image, the device alone, mounted
    afresh, has every program under its name with all of its bytes. *)
Theorem pack_image (d : D) (apps : list (list byte * list byte)) exts host :
  (∀ b, 0 ≤ b < 14000 → is_Some (BlockCache.blocks d !! b)) →
  length exts = length apps → Forall app_ok apps → Forall (λ app, Byte.x2e ∉ app.1) apps → NoDup apps.*1 →
  Forall (λ app, host app.1 = Some app.2) apps → (length apps < 4096)%nat → (pack_need 0 apps ≤ 12970)%nat →
  ∃ c, Cache.crun (easy_fs_pack (zip_with (λ app ext, app.1 ++ Byte.x2e :: ext) apps exts) host) (Refine.fresh d) =
      Ok (c, apps.*1) ∧
  ∀ i app, apps !! i = Some app →
    ∃ c', Cache.crun (fs ← Efs.open; load fs app.1 (length app.2)) (Refine.fresh (Cache.dev c)) =
      Ok (c', (Z.of_nat (length app.2), app.2)).
Proof.
  intros Hd Hl Hok Hdot Hnd Hhost Hlen Hneed.
  destruct (run_pack d apps exts host) as (s & a & Hr & Hsim & Hp); [done..|].
  pose proof (Refine.crun_sim (easy_fs_pack (zip_with (λ app ext, app.1 ++ Byte.x2e :: ext) apps exts) host) (Refine.fresh d)
    (Refine.disk_of d) (Refine.R_fresh d)) as Hc. rewrite Hr in Hc. destruct Hc as (c & Hc & HR).
  exists c. split; [done|]. intros i app Hi. apply leaves_pack in Hc. apply clean_device in HR; [|done].
  apply (through_cache (fs ← Efs.open; load fs app.1 (length app.2)) (Cache.dev c) s).
  rewrite <-(sim_disk_of _ _ _ _ _ Hsim HR). destruct Hsim as [Habs Hdir].
  erewrite run_bind_ok by (by eapply run_open). eapply run_load; [done..|].
  apply (Forall_lookup_1 _ _ _ _ Hok) in Hi as (_ & _ & Hmax). unfold MAX_SIZE in Hmax. lia.
Qed.
End image.

(** ** The test passes *)
Section test.
Context (fl : fault) (fs : EasyFileSystem) (T : Z).
Notation run p := (Disk.arun fl p).

Lemma run_read_str a s ty str : ∀ fuel off buf acc,
  fs_sim fs T a s → nodes a !! 1 = Some (ty, str) → ascii str → 0 ≤ off ≤ Z.of_nat (length str) → Z.of_nat (length str) < 2 ^ 32 →
  length buf = 127%nat → Z.of_nat (length str) - off ≤ 127 * (Z.of_nat fuel - 1) →
  run (read_str fuel (inode_at fs 1) off buf acc) s = Ok (s, acc ++ drop (Z.to_nat off) str).
Proof.
  induction fuel as [|fuel IH]; intros off buf acc Hsim Hn Ha Hoff Hl Hb Hfuel; [lia|]. cbn [read_str].
  erewrite run_bind_ok by (eapply sim_read; [done..|lia|lia]). rewrite Hb. cbn zeta.
  set (chunk := take 127 (drop (Z.to_nat off) str)).
  assert (length chunk = Nat.min 127 (length str - Z.to_nat off)) as Hc by (unfold chunk; by rewrite length_take, length_drop).
  destruct (Z.eqb_spec (Z.of_nat (length chunk)) 0) as [H0|H0].
  - rewrite drop_ge by lia. by rewrite app_nil_r.
  - assert (length (splice buf 0 chunk) = 127%nat) as Hsl by (rewrite length_splice; lia).
    erewrite run_bind_ok; [|unfold slice; rewrite !(proj2 (Z.leb_le _ _)) by lia; done].
    replace (take (Z.to_nat (Z.of_nat (length chunk) - 0)) (drop (Z.to_nat 0) (splice buf 0 chunk))) with chunk.
    2:{ unfold splice. rewrite Z.sub_0_r, Nat2Z.id. change (Z.to_nat 0) with 0%nat. rewrite take_0, drop_0. cbn [app]. by rewrite take_app_length. }
    rewrite (λ H, proj1 (chars_ascii _ H)) by (unfold chunk; by apply Forall_take, Forall_drop).
    erewrite run_bind_ok by done. rewrite wrap64_small by (unfold is_u64; lia).
    rewrite IH; [|first [done|lia]..]. rewrite <-app_assoc, Hc. do 3 f_equal. unfold chunk.
    rewrite <-(take_drop 127 (drop (Z.to_nat off) str)) at 2. f_equal. rewrite drop_drop.
    destruct (decide (127 ≤ length str - Z.to_nat off)%nat); [f_equal; lia|]. rewrite !drop_ge by lia. done.
Qed.

(** The room that is left and that of the file's blocks. *)
Definition room (a : afs) (bs : list byte) : nat := (free a + blocks_for (length bs))%nat.

Definition str_ok (n : nat) (str : list byte) : Prop :=
  ascii str ∧ (0 < length str)%nat ∧ Z.of_nat (length str) ≤ MAX_SIZE ∧ (blocks_for (length str) ≤ n)%nat.

Lemma run_random_str_test a s bs fuel buf str :
  fs_sim fs T a s → nodes a !! 1 = Some (File, bs) → str_ok (room a bs) str → Z.of_nat (length buf) < 2 ^ 32 →
  Z.of_nat (length str) ≤ 127 * (Z.of_nat fuel - 1) →
  ∃ s' a', run (random_str_test fuel fs (inode_at fs 1) buf str) s = Ok (s', buf) ∧ fs_sim fs T a' s' ∧
    nodes a' !! 1 = Some (File, str) ∧ room a' str = room a bs.
Proof.
  intros Hsim Hn (Ha & Hpos & Hmax & Hroom) Hbuf Hfuel. unfold room in *. unfold MAX_SIZE in Hmax.
  destruct (sim_clear fl fs T a s 1 File bs Hsim Hn) as (s1 & Hr1 & Hsim1); [done|]. set (a1 := mkAfs _ _ _) in Hsim1.
  assert (nodes a1 !! 1 = Some (File, [])) as Hn1 by (cbn; by rewrite lookup_insert_eq).
  assert (write_bytes [] (Z.to_nat 0) str = str) as Hw.
  { unfold write_bytes, splice. cbn. rewrite drop_ge; [by rewrite app_nil_r|]. rewrite length_replicate. lia. }
  destruct (sim_write fl fs T a1 s1 1 File [] 0 str Hsim1 Hn1) as (s2 & Hr2 & Hsim2); [lia..|unfold MAX_SIZE; lia| |].
  { rewrite Hw. change (blocks_for (length [])) with 0%nat. cbn. lia. }
  rewrite Hw in Hsim2. set (a2 := with_bytes _ _ _ _ _) in Hsim2.
  assert (nodes a2 !! 1 = Some (File, str)) as Hn2 by (cbn; by rewrite lookup_insert_eq).
  exists s2, a2. split; [|split; [done|split; [done|]]].
  - unfold random_str_test. erewrite run_bind_ok by exact Hr1. erewrite run_bind_ok by (eapply sim_read; [done..|lia|lia]).
    rewrite drop_nil, take_nil. cbn [length]. erewrite run_bind_ok by done. erewrite run_bind_ok by exact Hr2.
    erewrite run_bind_ok by (eapply run_read_str; [done..|lia|lia|done|lia]). cbn [drop app]. rewrite drop_0.
    rewrite bool_decide_true by done. erewrite run_bind_ok by done. done.
  - cbn. change (blocks_for 0) with 0%nat. lia.
Qed.

Lemma run_random_str_tests strs : ∀ a s bs fuel buf,
  fs_sim fs T a s → nodes a !! 1 = Some (File, bs) → Forall (str_ok (room a bs)) strs → Z.of_nat (length buf) < 2 ^ 32 →
  Forall (λ str, Z.of_nat (length str) ≤ 127 * (Z.of_nat fuel - 1)) strs →
  ∃ s', run (for_ strs (λ buffer str, random_str_test fuel fs (inode_at fs 1) buffer str) buf) s = Ok (s', buf).
Proof.
  induction strs as [|str strs IH]; intros a s bs fuel buf Hsim Hn Hok Hbuf Hfuel; [by exists s|].
  apply Forall_cons in Hok as [Hok1 Hok]. apply Forall_cons in Hfuel as [Hf1 Hfuel].
  destruct (run_random_str_test a s bs fuel buf str) as (s1 & a1 & Hr1 & Hsim1 & Hn1 & Hroom); [done..|]. rewrite <-Hroom in Hok.
  destruct (IH a1 s1 str fuel buf) as (s2 & Hr2); [done..|]. exists s2. cbn [for_]. by erewrite run_bind_ok by exact Hr1.
Qed.
End test.

Section efs_test.
Context {D : Type} `{BlockDeviceOk D}.

(** The state after both files were made. *)
Definition test_files : afs :=
  let fs := created 4096 1 in
  let filea := list_byte_of_string "filea" in
  let fileb := list_byte_of_string "fileb" in
  let a := add_entry filea 1 (<[1 := (File, [])]> (nodes (formatted 4096 1))) (formatted 4096 1) in
  add_entry fileb 2 (<[2 := (File, [])]> (nodes a)) a.

Lemma name_ok_ascii nm : bool_decide (name_ok nm) = true → name_ok nm.
Proof. apply bool_decide_eq_true. Qed.

Lemma run_test_files fl s :
  fs_sim (created 4096 1) 4096 (formatted 4096 1) s →
  ∃ s1 s2, Disk.arun fl (Vfs.create (created 4096 1) (inode_at (created 4096 1) 0) (list_byte_of_string "filea")) s =
      Ok (s1, Some (inode_at (created 4096 1) 1)) ∧
    Disk.arun fl (Vfs.create (created 4096 1) (inode_at (created 4096 1) 0) (list_byte_of_string "fileb")) s1 =
      Ok (s2, Some (inode_at (created 4096 1) 2)) ∧
    fs_sim (created 4096 1) 4096 test_files s2.
Proof.
  intros Hsim.
  destruct (sim_create fl (created 4096 1) 4096 (formatted 4096 1) s (list_byte_of_string "filea") 1) as (s1 & Hr1 & Hsim1);
    [done|reflexivity|vm_compute; reflexivity|apply name_ok_ascii; reflexivity|split; [vm_compute; congruence|apply Nat.leb_le; vm_compute; reflexivity]|].
  destruct (sim_create fl (created 4096 1) 4096 _ s1 (list_byte_of_string "fileb") 2 Hsim1) as (s2 & Hr2 & Hsim2);
    [reflexivity|vm_compute; reflexivity|apply name_ok_ascii; reflexivity|split; [vm_compute; congruence|apply Nat.leb_le; vm_compute; reflexivity]|].
  by exists s1, s2.
Qed.

(** C33: the test that comes with easy-fs passes.  On every device with 4096 blocks and for all
    strings of digits (of any ASCII characters) up to 2000 blocks that it may draw,
    [efs_test] returns: none of its assertions and [unwrap]s fails. *)
Theorem efs_test_passes (d : D) strs :
  (∀ b, 0 ≤ b < 4096 → is_Some (BlockCache.blocks d !! b)) →
  Forall (λ str, ascii str ∧ 0 < Z.of_nat (length str) ≤ 2000 * 512) strs →
  ∃ c, Cache.crun (efs_test 8065 strs) (Refine.fresh d) = Ok (c, tt).
Proof.
  intros Hd Hstrs. set (fs := created 4096 1).
  destruct (run_create absent 4096 1 ltac:(unfold create_ok; lia) (Refine.disk_of d) (disk_of_ok d) Hd eq_refl eq_refl)
    as (s1 & Hr1 & Habs). fold fs in Hr1, Habs.
  assert (fs_sim fs 4096 (formatted 4096 1) s1) as Hsim1 by (split; [done|split; [done|constructor]]).
  destruct (run_test_files absent s1 Hsim1) as (s2 & s3 & Hr2 & Hr3 & Hsim3). fold fs in Hr2, Hr3, Hsim3.
  destruct (sim_write absent fs 4096 test_files s3 1 File [] 0 (list_byte_of_string "Hello, world!") Hsim3) as (s4 & Hr4 & Hsim4);
    [reflexivity|lia|lia|cbn; lia|vm_compute; congruence|apply Nat.leb_le; vm_compute; reflexivity|].
  set (a4 := with_bytes _ _ _ _ _) in Hsim4.
  destruct (run_random_str_tests absent fs 4096 strs a4 s4 (list_byte_of_string "Hello, world!") 8065
    (splice (replicate 233 Byte.x00) 0 (list_byte_of_string "Hello, world!"))) as (s5 & Hr5); [done|reflexivity| |cbn; lia| |].
  { eapply Forall_impl; [exact Hstrs|]. cbn. intros str (Ha & Hl). split_and!; [done|lia|unfold MAX_SIZE; lia|].
    change (room a4 (list_byte_of_string "Hello, world!")) with 3068%nat. unfold blocks_for.
    pose proof (nblocks_mono (Z.of_nat (length str)) (2000 * 512) ltac:(lia)) as Hb. change (nblocks (2000 * 512)) with 2000 in Hb.
    pose proof (tb_mono (nblocks (Z.of_nat (length str))) 2000 ltac:(unfold nblocks in *; lia)) as Ht. change (tb 2000) with 2017 in Ht.
    etrans; [apply (Z2Nat.inj_le _ 2017); [apply tb_range; unfold nblocks in *; lia|lia|exact Ht]|]. apply Nat.leb_le. reflexivity. }
  { eapply Forall_impl; [exact Hstrs|]. cbn. intros str (Ha & Hl). lia. }
  apply (through_cache (efs_test 8065 strs) d s5). unfold efs_test.
  erewrite run_bind_ok by exact Hr1. erewrite run_bind_ok by (by eapply run_open). erewrite run_bind_ok by (by eapply sim_root).
  erewrite run_bind_ok by exact Hr2. erewrite run_bind_ok by exact Hr3. erewrite run_bind_ok by (by eapply sim_ls).
  erewrite run_bind_ok by (by eapply sim_find). change (dir_lookup (entries test_files) (list_byte_of_string "filea")) with (Some 1).
  cbn [option_map unwrap]. erewrite run_bind_ok by done. erewrite run_bind_ok by exact Hr4.
  erewrite run_bind_ok by (eapply (sim_read absent fs 4096 a4 s4 1 File (list_byte_of_string "Hello, world!")); [done|reflexivity|lia|cbn; lia]).
  cbv beta iota zeta. erewrite run_bind_ok by reflexivity. erewrite run_bind_ok by reflexivity. erewrite run_bind_ok by reflexivity.
  by erewrite run_bind_ok by exact Hr5.
Qed.
End efs_test.

(** A device for the packer and the test: all blocks are zero. *)
Definition zero_file (n : Z) : BlockFile := mkBlockFile (mkFile (replicate (Z.to_nat (n * 512)) Byte.x00) 0).

Lemma zero_blocks n b : 0 ≤ b < n → is_Some (BlockCache.blocks (zero_file n) !! b).
Proof.
  intros Hb. change (BlockCache.blocks (zero_file n)) with (bf_blocks (zero_file n)). rewrite lookup_bf_blocks.
  unfold zero_file. cbn [file bytes]. rewrite length_replicate, bool_decide_true by lia. eauto.
Qed.

Definition demo_apps : list (list byte * list byte) :=
  [(list_byte_of_string "ch6b_initproc", [Byte.x7f; Byte.x45]); (list_byte_of_string "ch6b_exit", [Byte.x7f])].

Definition demo_host (nm : list byte) : option (list byte) :=
  snd <$> (snd <$> find_idx (λ app, bool_decide (app.1 = nm)) demo_apps).

Lemma pack_image_witness :
  ∃ c, Cache.crun (easy_fs_pack [list_byte_of_string "ch6b_initproc.rs"; list_byte_of_string "ch6b_exit.rs"] demo_host)
      (Refine.fresh (zero_file 14000)) = Ok (c, [list_byte_of_string "ch6b_initproc"; list_byte_of_string "ch6b_exit"]) ∧
  ∃ c', Cache.crun (fs ← Efs.open; load fs (list_byte_of_string "ch6b_initproc") 2) (Refine.fresh (Cache.dev c)) =
    Ok (c', (2, [Byte.x7f; Byte.x45])).
Proof.
  destruct (pack_image (zero_file 14000) demo_apps [list_byte_of_string "rs"; list_byte_of_string "rs"] demo_host) as (c & Hc & Hload).
  - apply zero_blocks.
  - reflexivity.
  - repeat constructor; try (apply (bool_decide_unpack _); exact I); cbn; try lia; vm_compute; congruence.
  - repeat constructor; apply (bool_decide_unpack _); exact I.
  - apply (bool_decide_unpack _). exact I.
  - repeat constructor.
  - cbn. lia.
  - apply Nat.leb_le. vm_compute. reflexivity.
  - exists c. split; [exact Hc|]. exact (Hload 0%nat _ eq_refl).
Defined.

Lemma efs_test_passes_witness :
  ∃ c, Cache.crun (efs_test 8065 [list_byte_of_string "2718281828"]) (Refine.fresh (zero_file 4096)) = Ok (c, tt).
Proof.
  apply (efs_test_passes (zero_file 4096) [list_byte_of_string "2718281828"]).
  - apply zero_blocks.
  - repeat constructor; vm_compute; congruence.
Defined.
