(* ===== verification/Address.v ===== *)
(** * Addresses and page numbers ([os/src/mm/address.rs], [os/src/config.rs])

    Physical and virtual addresses and page numbers are [usize]s, here integers
    with the wrap-around written out.  The conversions, the three 9-bit indexes
    of a virtual page number and the ranges of page numbers. *)

From S2P Require Import Prelude.

Local Ltac Zify.zify_post_hook ::= Z.to_euclidean_division_equations.

(** ** Constants *)
Definition USER_STACK_SIZE : Z := 4096 * 2.
Definition KERNEL_STACK_SIZE : Z := 4096 * 2.
Definition MEMORY_END : Z := 0x88000000.
Definition PAGE_SIZE : Z := 0x1000.
Definition PAGE_SIZE_BITS : Z := 0xc.
Definition USIZE_MAX : Z := 2 ^ 64 - 1.
Definition TRAMPOLINE : Z := USIZE_MAX - PAGE_SIZE + 1.
Definition TRAP_CONTEXT : Z := TRAMPOLINE - PAGE_SIZE.

(** ** Conversions.  [VirtAddr] and [PhysAddr] have the same methods. *)
Definition floor (a : Z) : Z := a / PAGE_SIZE.
Definition ceil (a : Z) : Z := wrap64 (wrap64 (a - 1) + PAGE_SIZE) / PAGE_SIZE.
Definition page_offset (a : Z) : Z := Z.land a (PAGE_SIZE - 1).
Definition aligned (a : Z) : bool := page_offset a =? 0.

(** [From<VirtAddr> for VirtPageNum], [From<PhysAddr> for PhysPageNum] *)
Definition page_of_addr (a : Z) : res Z :=
  assert_ (page_offset a =? 0);; mret (floor a).

(** [From<VirtPageNum> for VirtAddr], [From<PhysPageNum> for PhysAddr] *)
Definition addr_of_page (p : Z) : Z := wrap64 (Z.shiftl p PAGE_SIZE_BITS).

(** [VirtPageNum::indexes]: [idx[i] = vpn & 511; vpn >>= 9] for [i] from 2 down to 0 *)
Definition indexes (vpn : Z) : list Z :=
  let i2 := Z.land vpn 511 in
  let vpn := Z.shiftr vpn 9 in
  let i1 := Z.land vpn 511 in
  let vpn := Z.shiftr vpn 9 in
  let i0 := Z.land vpn 511 in
  [i0; i1; i2].

(** [StepByOne::step] *)
Definition step (p : Z) : Z := wrap64 (p + 1).

(** ** [SimpleRange] *)
Record SimpleRange := mkRange { l : Z; r : Z }.

Definition range_new (start end_ : Z) : res SimpleRange :=
  assert_ (start <=? end_);; mret (mkRange start end_).

(** [SimpleRangeIterator::next]: the value and the iterator's new [current] *)
Definition next (current end_ : Z) : option (Z * Z) :=
  if current =? end_ then None else Some (current, step current).

(** The values a [for] loop over the range sees, at most [fuel]. *)
Fixpoint iterate (fuel : nat) (current end_ : Z) : list Z :=
  match fuel with
  | O => []
  | S fuel => match next current end_ with
              | None => []
              | Some (t, current) => t :: iterate fuel current end_
              end
  end.

Definition range_pages (rg : SimpleRange) : list Z := iterate (Z.to_nat (r rg - l rg)) (l rg) (r rg).

(** ** Arithmetic of the conversions *)
Lemma page_offset_mod a : page_offset a = a mod 4096.
Proof. unfold page_offset. change (PAGE_SIZE - 1) with (Z.ones 12). by rewrite Z.land_ones. Qed.

Lemma addr_of_page_mul p : 0 ≤ p < 2 ^ 52 → addr_of_page p = p * 4096.
Proof.
  intros. unfold addr_of_page, PAGE_SIZE_BITS. rewrite Z.shiftl_mul_pow2 by lia.
  change (2 ^ 0xc) with 4096. apply wrap64_small. unfold is_u64. lia.
Qed.

Lemma floor_addr_of_page p : 0 ≤ p < 2 ^ 52 → floor (addr_of_page p) = p.
Proof. intros. rewrite addr_of_page_mul by done. unfold floor, PAGE_SIZE. lia. Qed.

Lemma page_offset_addr_of_page p : 0 ≤ p < 2 ^ 52 → page_offset (addr_of_page p) = 0.
Proof. intros. rewrite addr_of_page_mul, page_offset_mod by done. lia. Qed.

(** An address is its page and its offset. *)
Lemma addr_split a : 0 ≤ a < 2 ^ 64 → addr_of_page (floor a) + page_offset a = a.
Proof.
  intros. unfold floor, PAGE_SIZE. rewrite addr_of_page_mul, page_offset_mod by lia. lia.
Qed.

(** [ceil] rounds up for every address but 0, where [self.0 - 1] wraps around, and
    for the last page of the address space. *)
Lemma ceil_up a : 0 < a ≤ 2 ^ 64 - 4096 → ceil a = (a + 4095) / 4096.
Proof.
  intros. unfold ceil, PAGE_SIZE. rewrite (wrap64_small (a - 1)) by (unfold is_u64; lia).
  rewrite wrap64_small by (unfold is_u64; lia). f_equal. lia.
Qed.

Lemma ceil_zero : ceil 0 = 0.
Proof. done. Qed.

(** The indexes are the three base-512 digits of the page number. *)
Lemma indexes_digits vpn :
  indexes vpn = [(vpn / 2 ^ 18) mod 512; (vpn / 2 ^ 9) mod 512; vpn mod 512].
Proof.
  unfold indexes. cbn zeta. change 511 with (Z.ones 9). rewrite !Z.land_ones by lia.
  rewrite Z.shiftr_shiftr, !Z.shiftr_div_pow2 by lia. done.
Qed.

(** Page numbers with the same indexes agree in their 27 low bits, which is all
    the page table sees of them. *)
Lemma indexes_inj v w : indexes v = indexes w ↔ v mod 2 ^ 27 = w mod 2 ^ 27.
Proof.
  rewrite !indexes_digits. split.
  - intros [= H0 H1 H2]. lia.
  - intros Hvw. f_equal; [|f_equal; [|f_equal]]; lia.
Qed.

Lemma range_pages_range rg :
  0 ≤ l rg ≤ r rg → r rg < 2 ^ 64 → range_pages rg = range (l rg) (r rg).
Proof.
  intros Hl Hr. unfold range_pages. remember (Z.to_nat (r rg - l rg)) as n eqn:Hn.
  assert (∀ c, r rg - c = Z.of_nat n → 0 ≤ c → iterate n c (r rg) = range c (r rg)) as Hit; [|apply Hit; lia].
  clear Hl Hn. induction n as [|n IH]; intros c Hc Hc0; simpl.
  - by rewrite range_nil by lia.
  - unfold next. destruct (Z.eqb_spec c (r rg)); [lia|]. rewrite range_cons by lia. f_equal.
    unfold step. rewrite wrap64_small by (unfold is_u64; lia). apply IH; lia.
Qed.
