(* ===== verification/FrameAlloc.v ===== *)
(** * Physical memory and its frames ([os/src/mm/frame_allocator.rs])

    Physical memory maps page numbers to 4096 bytes.  The allocator hands out
    page numbers from [current] up to [end_], and recycled ones first.  A
    [FrameTracker] is the number of a frame: making one clears the frame, and
    dropping one gives the frame back ([frame_dealloc]).

    The abstract allocator is the set of frames in use ([in_use]): [alloc] adds
    a frame that was not in it, [dealloc] removes one, and [alloc] fails only
    when all frames are in use. *)

From S2P Require Import Prelude Bytes Address.

Notation page := (list byte).

(** ** The allocator *)
Record StackFrameAllocator := mkFrameAllocator {
  current : Z;
  end_ : Z;
  recycled : list Z;
}.

Definition new : StackFrameAllocator := mkFrameAllocator 0 0 [].

Definition init (l r : Z) (fa : StackFrameAllocator) : StackFrameAllocator :=
  mkFrameAllocator l r (recycled fa).

(** [Vec::pop] *)
Definition pop {A} (v : list A) : option (A * list A) :=
  match last v with Some x => Some (x, take (length v - 1) v) | None => None end.

Definition alloc (fa : StackFrameAllocator) : StackFrameAllocator * option Z :=
  match pop (recycled fa) with
  | Some (ppn, rest) => (mkFrameAllocator (current fa) (end_ fa) rest, Some ppn)
  | None =>
      if current fa =? end_ fa then (fa, None)
      else let current := wrap64 (current fa + 1) in
           (mkFrameAllocator current (end_ fa) (recycled fa), Some (wrap64 (current - 1)))
  end.

Definition dealloc (ppn : Z) (fa : StackFrameAllocator) : res StackFrameAllocator :=
  (* validity check *)
  if (current fa <=? ppn) || bool_decide (Exists (λ v, v = ppn) (recycled fa)) then mthrow Panicked
  else (* recycle *) mret (mkFrameAllocator (current fa) (end_ fa) (recycled fa ++ [ppn])).

(** ** The part of the kernel's state that holds physical memory *)
Record mm := mkMm { mem : gmap Z page; frame_allocator : StackFrameAllocator }.

(** [PhysPageNum::get_bytes_array]: an access to a page that is not there is a fault
    of the kernel, which panics. *)
Definition read_page (ppn : Z) : M mm page :=
  m ← gets mem;
  match m !! ppn with Some p => mret p | None => mthrow Panicked end.

Definition write_page (ppn : Z) (p : page) : M mm unit :=
  _ ← read_page ppn;
  modify (λ s, mkMm (<[ppn := p]> (mem s)) (frame_allocator s)).

Definition zero_page : page := replicate 4096 Byte.x00.

(** [FrameTracker::new]: page cleaning *)
Definition frame_tracker (ppn : Z) : M mm Z :=
  bytes_array ← read_page ppn;
  write_page ppn ((λ _, Byte.x00) <$> bytes_array);;
  mret ppn.

Definition frame_alloc : M mm (option Z) :=
  s ← get;
  let '(fa, r) := alloc (frame_allocator s) in
  put (mkMm (mem s) fa);;
  match r with
  | Some ppn => t ← frame_tracker ppn; mret (Some t)
  | None => mret None
  end.

Definition init_frame_allocator (ekernel : Z) : M mm unit :=
  modify (λ s, mkMm (mem s) (init (ceil ekernel) (floor MEMORY_END) (frame_allocator s))).

Definition frame_dealloc (ppn : Z) : M mm unit :=
  s ← get;
  match dealloc ppn (frame_allocator s) with
  | Ok fa => put (mkMm (mem s) fa)
  | Err e => mthrow e
  end.

(** ** The abstract allocator *)

(** The frames from [lo] on are managed. *)
Record fa_ok (lo : Z) (fa : StackFrameAllocator) : Prop := {
  fa_range : 0 ≤ lo ≤ current fa ∧ current fa ≤ end_ fa < 2 ^ 44;
  fa_nodup : NoDup (recycled fa);
  fa_recycled : Forall (λ p, lo ≤ p < current fa) (recycled fa);
}.

Definition in_use (lo : Z) (fa : StackFrameAllocator) (ppn : Z) : Prop :=
  lo ≤ ppn < current fa ∧ ppn ∉ recycled fa.

#[export] Instance in_use_dec lo fa ppn : Decision (in_use lo fa ppn).
Proof. unfold in_use. apply _. Defined.

Lemma pop_spec {A} (v : list A) :
  match pop v with Some (x, v') => v = v' ++ [x] | None => v = [] end.
Proof.
  unfold pop. destruct (last v) as [x|] eqn:Hl; [|by apply last_None in Hl].
  apply last_Some in Hl as [v' ->]. rewrite length_app. simpl.
  replace (length v' + 1 - 1)%nat with (length v') by lia. by rewrite take_app_length.
Qed.

(** [alloc] takes a frame that is not in use; it fails only when all are. *)
Lemma alloc_spec lo fa :
  fa_ok lo fa →
  let '(fa', r) := alloc fa in
  fa_ok lo fa' ∧ end_ fa' = end_ fa ∧
  match r with
  | Some ppn => lo ≤ ppn < end_ fa ∧ ¬ in_use lo fa ppn ∧
      ∀ p, in_use lo fa' p ↔ p = ppn ∨ in_use lo fa p
  | None => fa' = fa ∧ ∀ p, lo ≤ p < end_ fa → in_use lo fa p
  end.
Proof.
  intros [Hr Hnd Hrec]. unfold alloc. pose proof (pop_spec (recycled fa)) as Hp.
  destruct (pop (recycled fa)) as [[ppn rest]|].
  - rewrite Hp in Hnd, Hrec. apply NoDup_app in Hnd as (Hnd & Hdj & _).
    apply Forall_app in Hrec as [Hrec [Hx _]%Forall_cons].
    assert (ppn ∉ rest) as Hni by (intros Hin; apply (Hdj ppn Hin), list_elem_of_singleton; done).
    split; [by split|]. split; [done|]. split; [lia|]. split.
    + intros [_ Hn]. apply Hn. rewrite Hp, elem_of_app, list_elem_of_singleton. by right.
    + intros p. unfold in_use. simpl. rewrite Hp, elem_of_app, list_elem_of_singleton. split.
      * intros [? ?]. destruct (decide (p = ppn)); [by left|right]. tauto.
      * intros [->|[? ?]]; tauto.
  - destruct (Z.eqb_spec (current fa) (end_ fa)) as [He|He].
    + split; [by split|]. split; [done|]. split; [done|]. intros p Hlt. split; [lia|].
      rewrite Hp. apply not_elem_of_nil.
    + rewrite !wrap64_small by (unfold is_u64; rewrite ?wrap64_small by (unfold is_u64; lia); lia).
      replace (current fa + 1 - 1) with (current fa) by lia.
      split; [split; simpl; rewrite ?Hp; [lia|constructor|constructor]|]. split; [done|].
      split; [lia|]. split; [intros [? _]; lia|]. intros p. unfold in_use. simpl. rewrite Hp.
      pose proof (not_elem_of_nil p). split.
      * intros [? _]. destruct (decide (p = current fa)); [by left|right]. split; [lia|done].
      * intros [->|[? _]]; (split; [lia|]); [apply not_elem_of_nil|done].
Qed.

(** Giving a frame back: it must be in use, as far as the allocator can tell. *)
Lemma dealloc_spec lo fa ppn :
  fa_ok lo fa → lo ≤ ppn →
  if decide (in_use lo fa ppn)
  then ∃ fa', dealloc ppn fa = Ok fa' ∧ fa_ok lo fa' ∧ end_ fa' = end_ fa ∧
         ∀ p, in_use lo fa' p ↔ p ≠ ppn ∧ in_use lo fa p
  else dealloc ppn fa = Err Panicked.
Proof.
  intros [Hr Hnd Hrec] Hlo. unfold dealloc.
  assert (Exists (λ v, v = ppn) (recycled fa) ↔ ppn ∈ recycled fa) as Hex.
  { rewrite Exists_exists. naive_solver. }
  case_decide as Hu.
  - destruct Hu as [Hlt Hn]. rewrite (proj2 (Z.leb_gt _ _)) by lia.
    rewrite bool_decide_false by (by rewrite Hex). simpl. eexists. split; [done|]. split; [split; simpl|].
    + done.
    + apply NoDup_app. split_and!; [done| |apply NoDup_singleton].
      intros x Hx ->%list_elem_of_singleton. done.
    + apply Forall_app. split; [done|]. apply Forall_singleton. lia.
    + split; [done|]. intros p. unfold in_use. simpl. rewrite elem_of_app, list_elem_of_singleton. tauto.
  - destruct (Z.leb_spec (current fa) ppn); [done|]. simpl.
    rewrite bool_decide_true; [done|]. apply Hex. apply dec_stable. intros Hn. apply Hu. by split.
Qed.

(** How many frames [alloc] can still give. *)
Definition avail (fa : StackFrameAllocator) : nat :=
  length (recycled fa) + Z.to_nat (end_ fa - current fa).

Lemma alloc_avail lo fa :
  fa_ok lo fa →
  let '(fa', r) := alloc fa in
  match r with Some _ => avail fa = S (avail fa') | None => avail fa = 0%nat end.
Proof.
  intros [Hr Hnd Hrec]. unfold alloc, avail. pose proof (pop_spec (recycled fa)) as Hp.
  destruct (pop (recycled fa)) as [[ppn rest]|]; simpl.
  - rewrite Hp, length_app. simpl. lia.
  - destruct (Z.eqb_spec (current fa) (end_ fa)) as [He|He]; rewrite Hp; simpl; [lia|].
    rewrite wrap64_small by (unfold is_u64; lia). lia.
Qed.

(** a simple test for frame allocator *)
Definition alloc_five : M mm (list Z) :=
  for_ (range 0 5) (λ v _, r ← frame_alloc; frame ← unwrap r; mret (v ++ [frame])) [].

Definition frame_allocator_test : M mm unit :=
  v ← alloc_five;
  for_ v (λ _ frame, frame_dealloc frame) tt;;
  v ← alloc_five;
  for_ v (λ _ frame, frame_dealloc frame) tt.

(** ** Frames of memory *)

(** The managed frames are there. *)
Record mm_ok (lo : Z) (s : mm) : Prop := {
  mm_fa : fa_ok lo (frame_allocator s);
  mm_mem : ∀ p, lo ≤ p < end_ (frame_allocator s) → ∃ b, mem s !! p = Some b ∧ length b = 4096%nat;
}.

Lemma read_page_ok p b s : mem s !! p = Some b → read_page p s = Ok (s, b).
Proof. intros Hb. unfold read_page, mbind, M_bind, gets. by rewrite Hb. Qed.

Lemma write_page_ok p b b' s :
  mem s !! p = Some b → write_page p b' s = Ok (mkMm (<[p := b']> (mem s)) (frame_allocator s), tt).
Proof. intros Hb. unfold write_page, mbind, M_bind. by rewrite (read_page_ok p b). Qed.

Lemma mm_ok_write lo s p b :
  mm_ok lo s → length b = 4096%nat → mm_ok lo (mkMm (<[p := b]> (mem s)) (frame_allocator s)).
Proof.
  intros [Hfa Hm] Hb. split; [done|]. simpl. intros q Hq. destruct (decide (q = p)) as [->|].
  - rewrite lookup_insert_eq. eauto.
  - rewrite lookup_insert_ne by done. by apply Hm.
Qed.

(** [frame_alloc] gives a cleared frame that was not in use. *)
Lemma frame_alloc_ok lo s :
  mm_ok lo s →
  ∃ s' r, frame_alloc s = Ok (s', r) ∧ mm_ok lo s' ∧
    end_ (frame_allocator s') = end_ (frame_allocator s) ∧
    match r with
    | Some ppn => lo ≤ ppn < end_ (frame_allocator s) ∧ ¬ in_use lo (frame_allocator s) ppn ∧
        mem s' = <[ppn := zero_page]> (mem s) ∧
        avail (frame_allocator s) = S (avail (frame_allocator s')) ∧
        ∀ p, in_use lo (frame_allocator s') p ↔ p = ppn ∨ in_use lo (frame_allocator s) p
    | None => s' = s ∧ avail (frame_allocator s) = 0%nat ∧
        ∀ p, lo ≤ p < end_ (frame_allocator s) → in_use lo (frame_allocator s) p
    end.
Proof.
  intros [Hfa Hm]. unfold frame_alloc. pose proof (alloc_spec lo _ Hfa) as Ha.
  pose proof (alloc_avail lo _ Hfa) as Hv. unfold mbind, M_bind. cbn [get].
  destruct (alloc (frame_allocator s)) as [fa' [ppn|]].
  - destruct Ha as (Hfa' & He & Hr & Hn & Hu). destruct (Hm ppn Hr) as (b & Hb & Hbl). cbn.
    unfold frame_tracker, mbind, M_bind. rewrite (read_page_ok ppn b) by done.
    rewrite (write_page_ok ppn b) by done. cbn. eexists _, (Some ppn). split; [done|].
    rewrite (const_fmap _ _ Byte.x00), Hbl by done. split; [|split; [done|split_and!; (done || lia)]].
    split; cbn [mem frame_allocator]; [done|]. intros p Hp. rewrite He in Hp. destruct (decide (p = ppn)) as [->|].
    + rewrite lookup_insert_eq. eexists. split; [done|]. apply length_replicate.
    + rewrite lookup_insert_ne by done. by apply Hm.
  - destruct Ha as (Hfa' & He & -> & Hall). cbn. exists s, None. destruct s. by split_and!.
Qed.

(** Without returned frames, they come in order. *)
Lemma frame_alloc_next lo s :
  mm_ok lo s → recycled (frame_allocator s) = [] →
  let fa := frame_allocator s in
  frame_alloc s = if current fa =? end_ fa then Ok (s, None)
    else Ok (mkMm (<[current fa := zero_page]> (mem s)) (mkFrameAllocator (current fa + 1) (end_ fa) []), Some (current fa)).
Proof.
  intros [[Hr _ _] Hm] Hn. cbn zeta. unfold frame_alloc, alloc, pop, mbind, M_bind. cbn [get]. rewrite Hn. cbn [last].
  destruct (Z.eqb_spec (current (frame_allocator s)) (end_ (frame_allocator s))) as [He|He]; [by destruct s|].
  rewrite !wrap64_small by (unfold is_u64; lia). cbn. replace (current (frame_allocator s) + 1 - 1) with (current (frame_allocator s)) by lia.
  destruct (Hm (current (frame_allocator s))) as (b & Hb & Hbl); [lia|].
  unfold frame_tracker, mbind, M_bind. rewrite (read_page_ok _ b) by done.
  rewrite (write_page_ok _ b) by done. cbn. by rewrite (const_fmap _ _ Byte.x00), Hbl by done.
Qed.

Lemma frame_alloc_norec lo s s' r :
  mm_ok lo s → frame_alloc s = Ok (s', r) → recycled (frame_allocator s) = [] → recycled (frame_allocator s') = [].
Proof.
  intros Hok Hr Hn. rewrite (frame_alloc_next lo s Hok Hn) in Hr. cbn zeta in Hr.
  destruct (_ =? _); [by injection Hr as <- _|by injection Hr as <- _].
Qed.

(** [frame_dealloc] of a frame in use gives it back and leaves its bytes. *)
Lemma frame_dealloc_ok lo s ppn :
  mm_ok lo s → in_use lo (frame_allocator s) ppn →
  ∃ fa', frame_dealloc ppn s = Ok (mkMm (mem s) fa', tt) ∧ mm_ok lo (mkMm (mem s) fa') ∧
    end_ fa' = end_ (frame_allocator s) ∧ avail fa' = S (avail (frame_allocator s)) ∧
    ∀ p, in_use lo fa' p ↔ p ≠ ppn ∧ in_use lo (frame_allocator s) p.
Proof.
  intros [Hfa Hm] Hu. pose proof (dealloc_spec lo _ ppn Hfa) as Hd.
  rewrite decide_True in Hd by done. destruct Hd as (fa' & Hd & Hfa' & He & Hu'); [apply Hu|].
  exists fa'. unfold frame_dealloc, mbind, M_bind. cbn. rewrite Hd. split; [done|].
  split; [|split; [done|split; [|done]]]; [split; simpl; [done|]; by rewrite He|].
  unfold dealloc in Hd. destruct (_ || _); [done|]. injection Hd as <-. unfold avail. simpl.
  rewrite length_app. simpl. lia.
Qed.

(** ** Owners of frames

    A component that owns the frames [own] turns [s] into [s'] and then owns [own']:
    what it took was not in use, and what it gave up is free; the frames of others
    stay in use and keep their bytes, as does memory that is not managed. *)
Definition owns (lo : Z) (s : mm) (own : list Z) : Prop :=
  NoDup own ∧ ∀ p, p ∈ own → in_use lo (frame_allocator s) p.

Definition foreign (lo : Z) (s : mm) (own : list Z) (p : Z) : Prop :=
  p ∉ own ∧ (in_use lo (frame_allocator s) p ∨ ¬ lo ≤ p < end_ (frame_allocator s)).

Record mm_step (lo : Z) (s : mm) (own : list Z) (s' : mm) (own' : list Z) : Prop := {
  step_ok : mm_ok lo s';
  step_owns : owns lo s' own';
  step_end : end_ (frame_allocator s') = end_ (frame_allocator s);
  step_new : ∀ p, p ∈ own' → p ∈ own ∨ ¬ in_use lo (frame_allocator s) p;
  step_used : ∀ p, p ∉ own → p ∉ own' →
    in_use lo (frame_allocator s') p ↔ in_use lo (frame_allocator s) p;
  step_freed : ∀ p, p ∈ own → p ∉ own' → ¬ in_use lo (frame_allocator s') p;
  step_mem : ∀ p, foreign lo s own p → mem s' !! p = mem s !! p;
  step_avail : (avail (frame_allocator s') + length own' = avail (frame_allocator s) + length own)%nat;
}.

Lemma in_use_managed lo s p :
  mm_ok lo s → in_use lo (frame_allocator s) p → lo ≤ p < end_ (frame_allocator s).
Proof. intros [[Hr _ _] _] [Hlt _]. lia. Qed.

(** What is foreign stays foreign. *)
Lemma step_foreign lo s own s' own' p :
  mm_step lo s own s' own' → foreign lo s own p → foreign lo s' own' p.
Proof.
  intros [Hok [_ Ho'] He Hn Hu _ _ _] [Hp Hf].
  assert (p ∉ own') as Hp'.
  { intros Hin. destruct (Hn p Hin) as [?|Hni]; [done|]. destruct Hf as [?|Hf]; [done|]. apply Hf.
    rewrite <-He. by apply in_use_managed, Ho'. }
  split; [done|]. rewrite He, Hu by done. done.
Qed.

Lemma mm_step_refl lo s own : mm_ok lo s → owns lo s own → mm_step lo s own s own.
Proof. intros Hok Ho. split; try done. by left. Qed.

Lemma mm_step_trans lo s1 own1 s2 own2 s3 own3 :
  mm_step lo s1 own1 s2 own2 → mm_step lo s2 own2 s3 own3 → mm_step lo s1 own1 s3 own3.
Proof.
  intros Hs1 Hs2. pose proof Hs1 as [Hok1 [Hnd1 Ho1] He1 Hn1 Hu1 Hf1 Hm1 Ha1].
  pose proof Hs2 as [Hok2 [Hnd2 Ho2] He2 Hn2 Hu2 Hf2 Hm2 Ha2].
  split; [done|done|congruence| | | | |lia].
  - intros p Hp. destruct (decide (p ∈ own1)); [by left|]. destruct (Hn2 p Hp) as [H2|H2].
    + destruct (Hn1 p H2); tauto.
    + right. rewrite <-Hu1; [done|done|]. intros Hin. by apply H2, Ho1.
  - intros p H1 H3. destruct (decide (p ∈ own2)) as [H2|H2]; [|by rewrite Hu2, Hu1].
    destruct (Hn1 p H2); [done|]. split; [|done]. intros Hin. by apply (Hf2 p) in Hin.
  - intros p H1 H3. destruct (decide (p ∈ own2)) as [H2|H2]; [by apply Hf2|].
    rewrite Hu2 by done. by apply Hf1.
  - intros p Hp. rewrite (Hm2 p), (Hm1 p); [done|done|]. by eapply step_foreign.
Qed.

Lemma owns_perm lo s own own' : own ≡ₚ own' → owns lo s own → owns lo s own'.
Proof. intros Hp [Hnd Ho]. split; [by rewrite <-Hp|]. intros p. rewrite <-Hp. apply Ho. Qed.

Lemma owns_app_l lo s own rest : owns lo s (own ++ rest) → owns lo s own.
Proof.
  intros [Hnd Ho]. apply NoDup_app in Hnd as (Hnd & _). split; [done|].
  intros p Hp. apply Ho. rewrite elem_of_app. by left.
Qed.

Lemma mm_step_perm lo s own s' own1 own2 :
  own1 ≡ₚ own2 → mm_step lo s own s' own1 → mm_step lo s own s' own2.
Proof.
  intros Hp [Hok Ho He Hn Hu Hf Hm Ha]. split; try done.
  - by eapply owns_perm.
  - intros p. rewrite <-Hp. apply Hn.
  - intros p. rewrite <-Hp. apply Hu.
  - intros p. rewrite <-Hp. apply Hf.
  - by rewrite <-Hp.
Qed.

Lemma mm_step_perm_l lo s own1 own2 s' own' :
  own1 ≡ₚ own2 → mm_step lo s own1 s' own' → mm_step lo s own2 s' own'.
Proof.
  intros Hp [Hok Ho He Hn Hu Hf Hm Ha]. split; try done.
  - intros p. rewrite <-Hp. apply Hn.
  - intros p. rewrite <-Hp. apply Hu.
  - intros p. rewrite <-Hp. apply Hf.
  - intros p [H1 H2]. apply Hm. split; [by rewrite Hp|done].
  - by rewrite <-Hp.
Qed.

(** The step of a part of what is owned. *)
Lemma mm_step_frame lo s own s' own' rest :
  mm_step lo s own s' own' → owns lo s (own ++ rest) → mm_step lo s (own ++ rest) s' (own' ++ rest).
Proof.
  intros Hs [Hnd Ho]. pose proof Hs as [Hok [Hnd' Ho'] He Hn Hu Hf Hm Ha].
  apply NoDup_app in Hnd as (_ & Hdj & Hndr).
  assert (∀ p, p ∈ rest → foreign lo s own p) as Hfr.
  { intros p Hp. split; [intros Hin; by apply (Hdj p)|]. left. apply Ho. rewrite elem_of_app. by right. }
  assert (∀ p, p ∈ rest → p ∉ own' ∧ in_use lo (frame_allocator s') p) as Hr.
  { intros p Hp. pose proof (Hfr p Hp) as [Hno _]. destruct (step_foreign _ _ _ _ _ _ Hs (Hfr p Hp)) as [Hno' _].
    split; [done|]. apply Hu; [done|done|]. apply Ho. rewrite elem_of_app. by right. }
  split; [done| |done| | | | |rewrite !length_app; lia].
  - split.
    + apply NoDup_app. split_and!; [done| |done]. intros p Hp Hin. by destruct (Hr p Hin).
    + intros p. rewrite elem_of_app. intros [?|?]; [by apply Ho'|by apply Hr].
  - intros p. rewrite !elem_of_app. intros [Hp|Hp]; [destruct (Hn p Hp); auto|auto].
  - intros p. rewrite !elem_of_app. intros H1 H2. apply Hu; tauto.
  - intros p. rewrite !elem_of_app. intros [H1|H1] H2; [apply Hf; tauto|tauto].
  - intros p [Hp Hq]. apply Hm. split; [|done]. intros Hin. apply Hp. rewrite elem_of_app. by left.
Qed.

(** Taking a frame, and giving one back. *)
Lemma frame_alloc_step lo s own :
  mm_ok lo s → owns lo s own → (0 < avail (frame_allocator s))%nat →
  ∃ s' f, frame_alloc s = Ok (s', Some f) ∧ mm_step lo s own s' (f :: own) ∧ f ∉ own ∧
    lo ≤ f < end_ (frame_allocator s) ∧ mem s' = <[f := zero_page]> (mem s).
Proof.
  intros Hok [Hnd Ho] Hav. destruct (frame_alloc_ok lo s Hok) as (s' & [f|] & Hr & Hok' & He & Hs); [|lia].
  destruct Hs as (Hf & Hni & Hm & Ha & Hu). assert (f ∉ own) as Hfo by (intros Hin; by apply Hni, Ho).
  exists s', f. split; [done|]. split; [|done]. split; [done| |done| | | | |simpl; lia].
  - split; [by apply NoDup_cons|]. intros p. rewrite elem_of_cons, Hu. intros [?|?]; auto.
  - intros p. rewrite elem_of_cons. intros [->|?]; auto.
  - intros p Hp. rewrite elem_of_cons, Hu. intros Hn. tauto.
  - intros p Hp. rewrite elem_of_cons. tauto.
  - intros p [Hp Hq]. rewrite Hm, lookup_insert_ne; [done|]. intros <-. tauto.
Qed.

Lemma frame_dealloc_step lo s f own :
  mm_ok lo s → owns lo s (f :: own) →
  ∃ s', frame_dealloc f s = Ok (s', tt) ∧ mm_step lo s (f :: own) s' own ∧ mem s' = mem s.
Proof.
  intros Hok [Hnd Ho]. apply NoDup_cons in Hnd as [Hf Hnd].
  destruct (frame_dealloc_ok lo s f Hok) as (fa' & Hr & Hok' & He & Ha & Hu); [apply Ho; by left|].
  eexists. split; [exact Hr|]. split; [|done]. split; simpl; [done| |done| | | |done|lia].
  - split; [done|]. intros p Hp. apply Hu. split; [by intros ->|]. apply Ho. by right.
  - intros p Hp. left. by right.
  - intros p. rewrite elem_of_cons, Hu. tauto.
  - intros p. rewrite elem_of_cons, Hu. intros [->|?] ?; tauto.
Qed.

(** [frame_alloc] gives a frame of the managed range that was not in use, cleared,
    and marks it used; memory is otherwise as before.  It gives [None] only when all
    frames are in use, and then changes nothing. *)
Theorem frame_alloc_fresh lo s :
  mm_ok lo s →
  ∃ s' r, frame_alloc s = Ok (s', r) ∧ mm_ok lo s' ∧
    match r with
    | Some ppn => lo ≤ ppn < end_ (frame_allocator s) ∧ ¬ in_use lo (frame_allocator s) ppn ∧
        mem s' = <[ppn := zero_page]> (mem s) ∧
        ∀ p, in_use lo (frame_allocator s') p ↔ p = ppn ∨ in_use lo (frame_allocator s) p
    | None => s' = s ∧ ∀ p, lo ≤ p < end_ (frame_allocator s) → in_use lo (frame_allocator s) p
    end.
Proof.
  intros Hmm. destruct (frame_alloc_ok lo s Hmm) as (s' & r & Hr & Hmm' & _ & Hs). exists s', r.
  split; [done|]. split; [done|]. destruct r; [|tauto]. by destruct Hs as (? & ? & ? & _ & ?).
Qed.

(** [frame_dealloc] takes a frame in use back, and only that one; a frame that is
    not in use, given back twice or never handed out, is a panic. *)
Theorem frame_dealloc_frees lo s ppn :
  mm_ok lo s → lo ≤ ppn →
  if decide (in_use lo (frame_allocator s) ppn)
  then ∃ s', frame_dealloc ppn s = Ok (s', tt) ∧ mm_ok lo s' ∧ mem s' = mem s ∧
         ∀ p, in_use lo (frame_allocator s') p ↔ p ≠ ppn ∧ in_use lo (frame_allocator s) p
  else frame_dealloc ppn s = Err Panicked.
Proof.
  intros Hmm Hlo. case_decide as Hu.
  - destruct (frame_dealloc_ok lo s ppn Hmm Hu) as (fa' & Hr & Hmm' & _ & _ & Hu'). by eexists.
  - pose proof (dealloc_spec lo _ ppn (mm_fa _ _ Hmm) Hlo) as Hd. rewrite decide_False in Hd by done.
    unfold frame_dealloc, mbind, M_bind. cbn. by rewrite Hd.
Qed.

(** Memory with the frames from [lo] to [hi], managed and free, with bytes of any value. *)
Definition demo_mm (lo hi : Z) : mm :=
  mkMm (list_to_map ((λ p, (p, replicate 4096 Byte.xff)) <$> range lo hi)) (init lo hi new).

Lemma demo_mm_ok lo hi : 0 ≤ lo ≤ hi → hi < 2 ^ 44 → mm_ok lo (demo_mm lo hi).
Proof.
  intros Hlo Hhi. split; [split; simpl; [lia|constructor|constructor]|].
  intros p Hp. exists (replicate 4096 Byte.xff). split; [|apply length_replicate].
  by apply (lookup_range_map (λ _, replicate 4096 Byte.xff)).
Qed.

Lemma demo_mm_avail lo hi : avail (frame_allocator (demo_mm lo hi)) = Z.to_nat (hi - lo).
Proof. done. Qed.


Lemma frame_alloc_fresh_witness :
  ∃ s' ppn, frame_alloc (demo_mm 0x80400 0x80404) = Ok (s', Some ppn) ∧ 0x80400 ≤ ppn < 0x80404 ∧
    in_use 0x80400 (frame_allocator s') ppn.
Proof.
  destruct (frame_alloc_fresh 0x80400 (demo_mm 0x80400 0x80404)) as (s' & r & Hr & _ & Hs);
    [apply demo_mm_ok; lia|].
  destruct r as [ppn|].
  - destruct Hs as (Hlt & _ & _ & Hu). exists s', ppn. split; [exact Hr|]. split; [exact Hlt|].
    apply Hu. left. reflexivity.
  - destruct Hs as [_ Hall]. destruct (Hall 0x80400) as [Hc _]; simpl in *; lia.
Defined.

Lemma frame_dealloc_frees_witness :
  frame_dealloc 0x80401 (mkMm ∅ (mkFrameAllocator 0x80400 0x80400 [])) = Err Panicked.
Proof.
  assert (mm_ok 0x80400 (mkMm ∅ (mkFrameAllocator 0x80400 0x80400 []))) as Hok.
  { split; [split; simpl; [lia|constructor|constructor]|]. simpl. intros p Hp. lia. }
  pose proof (frame_dealloc_frees 0x80400 _ 0x80401 Hok ltac:(lia)) as H.
  rewrite decide_False in H; [exact H|]. intros [Hlt _]. simpl in Hlt. lia.
Defined.
