(* ===== verification/PageTable.v ===== *)
(** * Page tables ([os/src/mm/page_table.rs])

    SV39: three levels of 512 entries, an entry being a [u64] in a page of
    physical memory.  The walks, [map], [unmap] and [translate] are those of the
    source, on the bytes of memory.  A reference to an entry is the page and the
    index it is at.

    The abstract page table is the finite map from page numbers (their 27 low
    bits) to valid entries ([pt_rep]): [map] inserts, [unmap] deletes, [translate]
    looks up, and no other entry changes. *)

From S2P Require Import Prelude Bytes Address FrameAlloc.

Local Ltac Zify.zify_post_hook ::= Z.to_euclidean_division_equations.

(** ** Entries *)
Definition FLAG_V : Z := 1.
Definition FLAG_R : Z := 2.
Definition FLAG_W : Z := 4.
Definition FLAG_X : Z := 8.
Definition FLAG_U : Z := 16.

(** [PageTableEntry], its [bits] *)
Definition pte_new (ppn flags : Z) : Z := Z.lor (wrap64 (Z.shiftl ppn 10)) flags.
Definition pte_empty : Z := 0.
Definition pte_ppn (bits : Z) : Z := Z.land (Z.shiftr bits 10) (Z.shiftl 1 44 - 1).
Definition pte_flags (bits : Z) : Z := wrap8 bits.
Definition pte_is_valid (bits : Z) : bool := negb (Z.land (pte_flags bits) FLAG_V =? 0).
Definition pte_readable (bits : Z) : bool := negb (Z.land (pte_flags bits) FLAG_R =? 0).
Definition pte_writable (bits : Z) : bool := negb (Z.land (pte_flags bits) FLAG_W =? 0).
Definition pte_executable (bits : Z) : bool := negb (Z.land (pte_flags bits) FLAG_X =? 0).

(** [&mut ppn.get_pte_array()[idx]] *)
Definition read_pte (ppn idx : Z) : M mm Z :=
  p ← read_page ppn; index (le_words 8 512 p) idx.
Definition write_pte (ppn idx bits : Z) : M mm unit :=
  p ← read_page ppn;
  ws ← set_index (le_words 8 512 p) idx bits;
  write_page ppn (le_bytes 8 ws).

(** ** The table *)
Record PageTable := mkPageTable { root_ppn : Z; frames : list Z }.

Definition pt_new : M mm PageTable :=
  r ← frame_alloc; frame ← unwrap r;
  mret (mkPageTable frame [frame]).

(** Temporarily used to get arguments from user space. *)
Definition from_token (satp : Z) : PageTable :=
  mkPageTable (Z.land satp (Z.shiftl 1 44 - 1)) [].

(** The loop of [find_pte_create] from level [i] on. *)
Fixpoint find_pte_create_loop (i : Z) (idxs : list Z) (pt : PageTable) (ppn : Z) :
    M mm (PageTable * option (Z * Z)) :=
  match idxs with
  | [] => mret (pt, None)
  | idx :: idxs =>
      pte ← read_pte ppn idx;
      if i =? 2 then mret (pt, Some (ppn, idx)) else
      '(pt, pte) ←
        (if negb (pte_is_valid pte) then
           r ← frame_alloc; frame ← unwrap r;
           let pte := pte_new frame FLAG_V in
           write_pte ppn idx pte;;
           mret (mkPageTable (root_ppn pt) (frames pt ++ [frame]), pte)
         else mret (pt, pte));
      find_pte_create_loop (i + 1) idxs pt (pte_ppn pte)
  end.

Definition find_pte_create (vpn : Z) (pt : PageTable) : M mm (PageTable * option (Z * Z)) :=
  find_pte_create_loop 0 (indexes vpn) pt (root_ppn pt).

(** The loop of [find_pte] from level [i] on. *)
Fixpoint find_pte_loop (i : Z) (idxs : list Z) (ppn : Z) : M mm (option (Z * Z)) :=
  match idxs with
  | [] => mret None
  | idx :: idxs =>
      pte ← read_pte ppn idx;
      if i =? 2 then mret (Some (ppn, idx)) else
      if negb (pte_is_valid pte) then mret None
      else find_pte_loop (i + 1) idxs (pte_ppn pte)
  end.

Definition find_pte (vpn : Z) (pt : PageTable) : M mm (option (Z * Z)) :=
  find_pte_loop 0 (indexes vpn) (root_ppn pt).

Definition map (vpn ppn flags : Z) (pt : PageTable) : M mm (PageTable * Z) :=
  '(pt, r) ← find_pte_create vpn pt;
  '(table, idx) ← unwrap r;
  pte ← read_pte table idx;
  if negb (pte_is_valid pte) then
    write_pte table idx (pte_new ppn (Z.lor flags FLAG_V));;
    mret (pt, 0)
  else mret (pt, -1).

Definition unmap (vpn : Z) (pt : PageTable) : M mm PageTable :=
  '(pt, r) ← find_pte_create vpn pt;
  '(table, idx) ← unwrap r;
  pte ← read_pte table idx;
  assert_ (pte_is_valid pte);;
  write_pte table idx pte_empty;;
  mret pt.

Definition translate (vpn : Z) (pt : PageTable) : M mm (option Z) :=
  r ← find_pte vpn pt;
  match r with
  | Some (table, idx) => pte ← read_pte table idx; mret (Some pte)
  | None => mret None
  end.

Definition translate_va (va : Z) (pt : PageTable) : M mm (option Z) :=
  r ← find_pte (floor va) pt;
  match r with
  | Some (table, idx) =>
      pte ← read_pte table idx;
      let aligned_pa := addr_of_page (pte_ppn pte) in
      let offset := page_offset va in
      mret (Some (wrap64 (aligned_pa + offset)))
  | None => mret None
  end.

Definition token (pt : PageTable) : Z := Z.lor (wrap64 (Z.shiftl 8 60)) (root_ppn pt).

(** ** Entries hold what they were made from *)
Lemma land_mod z n : 0 ≤ n → Z.land z (Z.shiftl 1 n - 1) = z mod 2 ^ n.
Proof.
  intros Hn. rewrite Z.shiftl_1_l. replace (2 ^ n - 1) with (Z.ones n) by (rewrite Z.ones_equiv; lia).
  by apply Z.land_ones.
Qed.

Lemma testbit_above z k n : 0 ≤ z < 2 ^ k → 0 ≤ k ≤ n → Z.testbit z n = false.
Proof.
  intros Hz Hk. destruct (decide (z = 0)) as [->|]; [apply Z.bits_0|].
  apply Z.bits_above_log2; [lia|]. apply Z.lt_le_trans with k; [|lia]. apply Z.log2_lt_pow2; lia.
Qed.

Lemma pte_new_add ppn flags :
  0 ≤ ppn < 2 ^ 44 → 0 ≤ flags < 2 ^ 10 → pte_new ppn flags = ppn * 2 ^ 10 + flags.
Proof.
  intros Hp Hf. unfold pte_new. rewrite Z.shiftl_mul_pow2, wrap64_small by (unfold is_u64; lia).
  assert (Z.land (ppn * 2 ^ 10) flags = 0) as Hl.
  { apply Z.bits_inj'. intros n Hn. rewrite Z.land_spec, Z.bits_0.
    destruct (Z.lt_ge_cases n 10); [by rewrite Z.mul_pow2_bits_low by lia|].
    rewrite (testbit_above flags 10 n) by lia. apply andb_false_r. }
  by rewrite <-Z.lxor_lor, <-Z.add_nocarry_lxor by done.
Qed.

Lemma pte_ppn_new ppn flags :
  0 ≤ ppn < 2 ^ 44 → 0 ≤ flags < 2 ^ 8 → pte_ppn (pte_new ppn flags) = ppn.
Proof.
  intros Hp Hf. unfold pte_ppn. rewrite land_mod, Z.shiftr_div_pow2, pte_new_add by lia. lia.
Qed.

Lemma pte_flags_new ppn flags :
  0 ≤ ppn < 2 ^ 44 → 0 ≤ flags < 2 ^ 8 → pte_flags (pte_new ppn flags) = flags.
Proof. intros Hp Hf. unfold pte_flags, wrap8. rewrite pte_new_add by lia. lia. Qed.

Lemma pte_new_u64 ppn flags : 0 ≤ ppn < 2 ^ 44 → 0 ≤ flags < 2 ^ 8 → is_u64 (pte_new ppn flags).
Proof. intros Hp Hf. rewrite pte_new_add by lia. unfold is_u64. lia. Qed.

Lemma lor_flags a b : 0 ≤ a < 2 ^ 8 → 0 ≤ b < 2 ^ 8 → 0 ≤ Z.lor a b < 2 ^ 8.
Proof.
  intros Ha Hb. split; [apply Z.lor_nonneg; lia|]. destruct (decide (Z.lor a b = 0)) as [->|Hne]; [lia|].
  apply Z.log2_lt_cancel. rewrite Z.log2_lor by lia. change (Z.log2 (2 ^ 8)) with 8.
  pose proof (Z.log2_le_mono a 255 ltac:(lia)). pose proof (Z.log2_le_mono b 255 ltac:(lia)).
  change (Z.log2 255) with 7 in *. lia.
Qed.

Lemma pte_valid_new ppn flags :
  0 ≤ ppn < 2 ^ 44 → 0 ≤ flags < 2 ^ 8 → pte_is_valid (pte_new ppn (Z.lor flags FLAG_V)) = true.
Proof.
  intros Hp Hf. unfold pte_is_valid, FLAG_V.
  rewrite pte_flags_new by (done || (apply lor_flags; lia)). apply negb_true_iff, Z.eqb_neq.
  rewrite Z.land_lor_distr_l. intros [_ H]%Z.lor_eq_0_iff. done.
Qed.

(** ** Words of memory *)
Definition word (m : gmap Z page) (p i : Z) : Z :=
  match m !! p with Some b => le_words 8 512 b !!! Z.to_nat i | None => 0 end.

(** Page [p] is there. *)
Definition has_page (m : gmap Z page) (p : Z) : Prop := ∃ b, m !! p = Some b ∧ length b = 4096%nat.

(** Memory after entry [i] of page [p] was set to [v]. *)
Definition set_word (p i v : Z) (m : gmap Z page) : gmap Z page :=
  match m !! p with
  | Some b => <[p := le_bytes 8 (<[Z.to_nat i := v]> (le_words 8 512 b))]> m
  | None => m
  end.

Definition with_mem (m : gmap Z page) (s : mm) : mm := mkMm m (frame_allocator s).

Lemma read_pte_ok p i s : has_page (mem s) p → 0 ≤ i < 512 → read_pte p i s = Ok (s, word (mem s) p i).
Proof.
  intros (b & Hb & Hl) Hi. unfold read_pte, mbind, M_bind. rewrite (read_page_ok p b) by done.
  apply index_ok; [lia|]. unfold word. rewrite Hb.
  apply list_lookup_lookup_total_lt. rewrite length_le_words. lia.
Qed.

Lemma write_pte_ok p i v s :
  has_page (mem s) p → 0 ≤ i < 512 → write_pte p i v s = Ok (with_mem (set_word p i v (mem s)) s, tt).
Proof.
  intros (b & Hb & Hl) Hi. unfold write_pte, mbind, M_bind. rewrite (read_page_ok p b) by done.
  rewrite set_index_ok by (rewrite length_le_words; lia). rewrite (write_page_ok p b) by done.
  unfold set_word. by rewrite Hb.
Qed.

Lemma word_set m p i v q j :
  has_page m p → 0 ≤ i < 512 → 0 ≤ j → is_u64 v →
  word (set_word p i v m) q j = if decide (q = p ∧ j = i) then v else word m q j.
Proof.
  intros (b & Hb & Hl) Hi Hj Hv. unfold set_word. rewrite Hb. unfold word.
  destruct (decide (q = p)) as [->|Hne].
  - rewrite lookup_insert_eq, Hb. set (ws := le_words 8 512 b).
    assert (length ws = 512%nat) as Hwl by apply length_le_words.
    assert (le_words 8 512 (le_bytes 8 (<[Z.to_nat i := v]> ws)) = <[Z.to_nat i := v]> ws) as ->.
    { rewrite <-(app_nil_r (le_bytes 8 _)). rewrite <-Hwl at 1.
      rewrite <-(length_insert ws (Z.to_nat i) v). apply le_words_bytes.
      apply Forall_insert; [apply le_words_fit|done]. }
    case_decide as Hc.
    + destruct Hc as [_ ->]. apply list_lookup_total_insert_eq. lia.
    + apply list_lookup_total_insert_ne. intros ?. apply Hc. split; [done|lia].
  - rewrite lookup_insert_ne by done. rewrite decide_False by tauto. done.
Qed.

Lemma has_page_set m p i v q : has_page m q → has_page (set_word p i v m) q.
Proof.
  intros (b & Hb & Hl). unfold set_word, has_page. destruct (m !! p) as [bp|] eqn:Hp; [|eauto].
  destruct (decide (q = p)) as [->|].
  - rewrite lookup_insert_eq. eexists. split; [done|]. rewrite length_le_bytes, length_insert, length_le_words. done.
  - rewrite lookup_insert_ne by done. eauto.
Qed.

Lemma set_word_ne m p i v q : q ≠ p → set_word p i v m !! q = m !! q.
Proof. intros. unfold set_word. case_match; [|done]. by rewrite lookup_insert_ne. Qed.

Lemma word_zero m p i : m !! p = Some zero_page → 0 ≤ i < 512 → word m p i = 0.
Proof.
  intros Hp Hi. unfold word. rewrite Hp. unfold zero_page. change 4096%nat with (8 * 512)%nat.
  rewrite le_words_zero. apply lookup_total_replicate_2. lia.
Qed.

Lemma word_ext m m' p i : m' !! p = m !! p → word m' p i = word m p i.
Proof. unfold word. by intros ->. Qed.

Lemma mm_ok_set lo s p i v : mm_ok lo s → mm_ok lo (with_mem (set_word p i v (mem s)) s).
Proof.
  intros [Hfa Hm]. split; [done|]. simpl. intros q Hq. apply has_page_set. by apply Hm.
Qed.

(** ** The tree *)

(** [t1] and [t2]: the tables of the second and third level, by the indexes that lead
    to them. *)
Record pt_tree (m : gmap Z page) (root : Z) (t1 : gmap Z Z) (t2 : gmap (Z * Z) Z) : Prop := {
  tree_root : has_page m root;
  tree_page1 : ∀ i p, t1 !! i = Some p → 0 ≤ i < 512 ∧ has_page m p;
  tree_page2 : ∀ i j p, t2 !! (i, j) = Some p → 0 ≤ j < 512 ∧ is_Some (t1 !! i) ∧ has_page m p;
  tree_l0 : ∀ i, 0 ≤ i < 512 →
    match t1 !! i with
    | Some p => pte_is_valid (word m root i) = true ∧ pte_ppn (word m root i) = p
    | None => pte_is_valid (word m root i) = false
    end;
  tree_l1 : ∀ i p j, t1 !! i = Some p → 0 ≤ j < 512 →
    match t2 !! (i, j) with
    | Some q => pte_is_valid (word m p j) = true ∧ pte_ppn (word m p j) = q
    | None => pte_is_valid (word m p j) = false
    end;
  tree_inj1 : ∀ i i' p, t1 !! i = Some p → t1 !! i' = Some p → i = i';
  tree_inj2 : ∀ x y p, t2 !! x = Some p → t2 !! y = Some p → x = y;
  tree_root1 : ∀ i, t1 !! i ≠ Some root;
  tree_root2 : ∀ x, t2 !! x ≠ Some root;
  tree_12 : ∀ i x p, t1 !! i = Some p → t2 !! x ≠ Some p;
}.

(** [p] is one of the tables. *)
Definition is_table (root : Z) (t1 : gmap Z Z) (t2 : gmap (Z * Z) Z) (p : Z) : Prop :=
  p = root ∨ (∃ i, t1 !! i = Some p) ∨ (∃ x, t2 !! x = Some p).

(** The table structure of [pt] in the state [s]: its frames are the tables, and they
    are in use. *)
Record pt_inv (lo : Z) (s : mm) (pt : PageTable) (t1 : gmap Z Z) (t2 : gmap (Z * Z) Z) : Prop := {
  inv_mm : mm_ok lo s;
  inv_tree : pt_tree (mem s) (root_ppn pt) t1 t2;
  inv_frames : NoDup (frames pt) ∧ ∀ p, p ∈ frames pt ↔ is_table (root_ppn pt) t1 t2 p;
  inv_used : ∀ p, p ∈ frames pt → in_use lo (frame_allocator s) p;
}.

(** The valid entry for page [vpn]. *)
Definition leaf (m : gmap Z page) (t2 : gmap (Z * Z) Z) (vpn : Z) : option Z :=
  match t2 !! ((vpn / 2 ^ 18) mod 512, (vpn / 2 ^ 9) mod 512) with
  | Some q => let w := word m q (vpn mod 512) in if pte_is_valid w then Some w else None
  | None => None
  end.

(** What a page table sees of a page number. *)
Definition page_key (vpn : Z) : Z := vpn mod 2 ^ 27.

(** [pt] represents the map [tr]. *)
Definition pt_rep (lo : Z) (s : mm) (pt : PageTable) (tr : gmap Z Z) : Prop :=
  ∃ t1 t2, pt_inv lo s pt t1 t2 ∧
    ∀ vpn, tr !! vpn = if decide (0 ≤ vpn < 2 ^ 27) then leaf (mem s) t2 vpn else None.

(** The same, and where the tables of the second and third level may be. *)
Definition pt_shape (P1 : Z → Prop) (P2 : Z * Z → Prop) (lo : Z) (s : mm) (pt : PageTable) (tr : gmap Z Z) : Prop :=
  ∃ t1 t2, pt_inv lo s pt t1 t2 ∧
    (∀ vpn, tr !! vpn = if decide (0 ≤ vpn < 2 ^ 27) then leaf (mem s) t2 vpn else None) ∧
    (∀ i, is_Some (t1 !! i) → P1 i) ∧ ∀ x, is_Some (t2 !! x) → P2 x.

Lemma shape_rep P1 P2 lo s pt tr : pt_shape P1 P2 lo s pt tr → pt_rep lo s pt tr.
Proof. intros (t1 & t2 & Hinv & Htr & _). by exists t1, t2. Qed.

Lemma rep_shape lo s pt tr : pt_rep lo s pt tr → pt_shape (λ _, True) (λ _, True) lo s pt tr.
Proof. intros (t1 & t2 & Hinv & Htr). by exists t1, t2. Qed.

(** ** Walks *)
Lemma find_pte_ok lo s pt t1 t2 vpn :
  pt_inv lo s pt t1 t2 →
  find_pte vpn pt s =
    Ok (s, option_map (λ q, (q, vpn mod 512)) (t2 !! ((vpn / 2 ^ 18) mod 512, (vpn / 2 ^ 9) mod 512))).
Proof.
  intros [_ Ht _ _]. unfold find_pte. rewrite indexes_digits.
  set (i0 := (vpn / 2 ^ 18) mod 512). set (i1 := (vpn / 2 ^ 9) mod 512).
  assert (0 ≤ i0 < 512) as H0 by lia. assert (0 ≤ i1 < 512) as H1 by lia.
  assert (0 ≤ vpn mod 512 < 512) as H2 by lia. cbn [find_pte_loop].
  erewrite bind_ok by (apply read_pte_ok; [apply Ht|done]). change (0 =? 2) with false. cbn iota.
  pose proof (tree_l0 _ _ _ _ Ht i0 H0) as Hl0. destruct (t1 !! i0) as [p|] eqn:Hp.
  - destruct Hl0 as [-> ->]. destruct (tree_page1 _ _ _ _ Ht i0 p Hp) as [_ Hpp]. cbn [negb].
    erewrite bind_ok by (by apply read_pte_ok). change (0 + 1 =? 2) with false. cbn iota.
    pose proof (tree_l1 _ _ _ _ Ht i0 p i1 Hp H1) as Hl1. destruct (t2 !! (i0, i1)) as [q|] eqn:Hq.
    + destruct Hl1 as [-> ->]. destruct (tree_page2 _ _ _ _ Ht i0 i1 q Hq) as (_ & _ & Hqq). cbn [negb].
      by erewrite bind_ok by (by apply read_pte_ok).
    + by rewrite Hl1.
  - rewrite Hl0. destruct (t2 !! (i0, i1)) as [q|] eqn:Hq; [|done].
    destruct (tree_page2 _ _ _ _ Ht i0 i1 q Hq) as (_ & [p Hp'] & _). congruence.
Qed.

(** Memory after a new table [f] was cleared and recorded in entry [i] of table [p]. *)
Section new_table.
Context (lo : Z) (m : gmap Z page) (p i f : Z).
Context (Hp : has_page m p) (Hi : 0 ≤ i < 512) (Hpf : p ≠ f) (Hf : 0 ≤ f < 2 ^ 44).
Definition link_table : gmap Z page := set_word p i (pte_new f FLAG_V) (<[f := zero_page]> m).

Lemma link_page q : has_page m q → has_page link_table q.
Proof.
  intros (b & Hb & Hl). apply has_page_set. destruct (decide (q = f)) as [->|].
  - exists zero_page. rewrite lookup_insert_eq. split; [done|]. apply length_replicate.
  - exists b. by rewrite lookup_insert_ne.
Qed.

Lemma link_page_new : has_page link_table f.
Proof.
  apply has_page_set. exists zero_page. rewrite lookup_insert_eq. split; [done|]. apply length_replicate.
Qed.

Lemma link_word q j :
  0 ≤ j → word link_table q j =
    if decide (q = p ∧ j = i) then pte_new f FLAG_V else word (<[f := zero_page]> m) q j.
Proof.
  intros Hj. apply word_set; [|done|done|apply pte_new_u64; (done || unfold FLAG_V; lia)].
  destruct Hp as (b & Hb & Hl). exists b. by rewrite lookup_insert_ne.
Qed.

Lemma link_word_same : pte_is_valid (word link_table p i) = true ∧ pte_ppn (word link_table p i) = f.
Proof.
  rewrite link_word, decide_True by (done || lia). split.
  - apply (pte_valid_new f 0); [done|lia].
  - apply pte_ppn_new; [done|unfold FLAG_V; lia].
Qed.

Lemma link_word_ne q j : 0 ≤ j → q ≠ f → (q ≠ p ∨ j ≠ i) → word link_table q j = word m q j.
Proof.
  intros Hj Hqf Hne. rewrite link_word, decide_False by (done || tauto).
  apply word_ext. by rewrite lookup_insert_ne.
Qed.

Lemma link_word_zero j : 0 ≤ j < 512 → word link_table f j = 0.
Proof.
  intros Hj. rewrite link_word by lia. rewrite decide_False by naive_solver.
  apply word_zero; [by rewrite lookup_insert_eq|done].
Qed.
End new_table.

(** A new second-level table, recorded in the root. *)
Lemma tree_link1 m root t1 t2 i f :
  pt_tree m root t1 t2 → 0 ≤ i < 512 → t1 !! i = None → ¬ is_table root t1 t2 f → 0 ≤ f < 2 ^ 44 →
  pt_tree (link_table m root i f) root (<[i := f]> t1) t2 ∧
  ∀ vpn, leaf (link_table m root i f) t2 vpn = leaf m t2 vpn.
Proof.
  intros Ht Hi Hn Hf Hfr. pose proof Ht as [Hr Hp1 Hp2 Hl0 Hl1 Hi1 Hi2 Hr1 Hr2 H12].
  assert (root ≠ f) as Hrf by (intros ->; apply Hf; by left).
  assert (∀ k p, t1 !! k = Some p → p ≠ f) as Hf1 by (intros k p Hk ->; apply Hf; right; left; eauto).
  assert (∀ x p, t2 !! x = Some p → p ≠ f) as Hf2 by (intros x p Hk ->; apply Hf; right; right; eauto).
  assert (∀ j, t2 !! (i, j) = None) as Hn2.
  { intros j. destruct (t2 !! (i, j)) as [q|] eqn:Hq; [|done].
    destruct (Hp2 i j q Hq) as (_ & [p Hp] & _). congruence. }
  split; [split|].
  - by apply link_page.
  - intros k p [[<- <-]|[Hne Hk]]%lookup_insert_Some; [split; [done|by apply link_page_new]|].
    destruct (Hp1 k p Hk). split; [done|by apply link_page].
  - intros k j p Hk. destruct (Hp2 k j p Hk) as (? & ? & ?).
    split; [done|]. split; [|by apply link_page]. rewrite lookup_insert_is_Some'. by right.
  - intros k Hk. destruct (decide (k = i)) as [->|Hne].
    + rewrite lookup_insert_eq. by apply link_word_same.
    + rewrite lookup_insert_ne by done. rewrite link_word_ne by (done || lia || tauto). by apply Hl0.
  - intros k p j [[<- <-]|[Hne Hk]]%lookup_insert_Some Hj.
    + rewrite Hn2, link_word_zero by done. done.
    + rewrite link_word_ne by (done || lia || (left; intros ->; by apply (Hr1 k)) || by eapply Hf1). by apply Hl1.
  - intros k k' p [[<- <-]|[Hne Hk]]%lookup_insert_Some [[<- ?]|[Hne' Hk']]%lookup_insert_Some; [done|..].
    + by apply Hf1 in Hk'.
    + subst. by apply Hf1 in Hk.
    + by eapply Hi1.
  - done.
  - intros k [[<- ->]|[Hne Hk]]%lookup_insert_Some; [done|]. by apply (Hr1 k).
  - done.
  - intros k x p [[<- <-]|[Hne Hk]]%lookup_insert_Some Hx; [by apply Hf2 in Hx|]. by apply (H12 k x p).
  - intros vpn. unfold leaf. destruct (t2 !! _) as [q|] eqn:Hq; [|done].
    rewrite link_word_ne; [done|first [done|lia|by eapply Hf2|left; intros ->; by apply (Hr2 _ Hq)]..].
Qed.

(** A new third-level table, recorded in a second-level one. *)
Lemma tree_link2 m root t1 t2 i j p f :
  pt_tree m root t1 t2 → t1 !! i = Some p → 0 ≤ j < 512 → t2 !! (i, j) = None →
  ¬ is_table root t1 t2 f → 0 ≤ f < 2 ^ 44 →
  pt_tree (link_table m p j f) root t1 (<[(i, j) := f]> t2) ∧
  ∀ vpn, leaf (link_table m p j f) (<[(i, j) := f]> t2) vpn = leaf m t2 vpn.
Proof.
  intros Ht Hip Hj Hn Hf Hfr. pose proof Ht as [Hr Hp1 Hp2 Hl0 Hl1 Hi1 Hi2 Hr1 Hr2 H12].
  assert (root ≠ f) as Hrf by (intros ->; apply Hf; by left).
  assert (∀ k p, t1 !! k = Some p → p ≠ f) as Hf1 by (intros k q Hk ->; apply Hf; right; left; eauto).
  assert (∀ x p, t2 !! x = Some p → p ≠ f) as Hf2 by (intros x q Hk ->; apply Hf; right; right; eauto).
  destruct (Hp1 i p Hip) as [Hi Hpp]. pose proof (Hf1 i p Hip) as Hpf.
  split; [split|].
  - by apply link_page.
  - intros k q Hk. destruct (Hp1 k q Hk). split; [done|by apply link_page].
  - intros k l q [[[= <- <-] <-]|[Hne Hk]]%lookup_insert_Some.
    + split; [done|]. split; [eauto|by apply link_page_new].
    + destruct (Hp2 k l q Hk) as (? & ? & ?). split; [done|]. split; [done|by apply link_page].
  - intros k Hk. rewrite link_word_ne; [by apply Hl0|first [done|lia|left; intros ->; by apply (Hr1 i)]..].
  - intros k q l Hk Hl. destruct (decide ((k, l) = (i, j))) as [[= -> ->]|Hne].
    + rewrite Hip in Hk. injection Hk as <-. rewrite lookup_insert_eq. by apply link_word_same.
    + rewrite lookup_insert_ne by done.
      assert (q ≠ p ∨ l ≠ j) as Hqp.
      { destruct (decide (q = p)) as [->|]; [right|by left]. intros ->. apply Hne. f_equal. by eapply Hi1. }
      rewrite link_word_ne; [by apply Hl1|first [done|lia|by eapply Hf1]..].
  - done.
  - intros x y q [[<- <-]|[Hne Hx]]%lookup_insert_Some [[<- ?]|[Hne' Hy]]%lookup_insert_Some; [done|..].
    + by apply Hf2 in Hy.
    + subst. by apply Hf2 in Hx.
    + by eapply Hi2.
  - done.
  - intros x [[<- ->]|[Hne Hx]]%lookup_insert_Some; [done|]. by apply (Hr2 x).
  - intros k x q Hk [[<- ->]|[Hne Hx]]%lookup_insert_Some; [by apply Hf1 in Hk|]. by apply (H12 k x q).
  - intros vpn. unfold leaf. set (x := (_, _)). destruct (decide (x = (i, j))) as [->|Hne].
    + rewrite lookup_insert_eq, Hn. by rewrite link_word_zero by (done || lia).
    + rewrite lookup_insert_ne by done. destruct (t2 !! x) as [q|] eqn:Hq; [|done].
      rewrite link_word_ne; [done|first [done|lia|by eapply Hf2|left; intros ->; by apply (H12 i x p)]..].
Qed.

(** What a step on the table [pt] may do to the rest of memory: it takes frames for
    new tables and writes tables only. *)
Record pt_ext (lo : Z) (s : mm) (pt : PageTable) (s' : mm) (pt' : PageTable) : Prop := {
  ext_root : root_ppn pt' = root_ppn pt;
  ext_frames : ∀ p, p ∈ frames pt → p ∈ frames pt';
  ext_new : ∀ p, p ∈ frames pt' → p ∈ frames pt ∨ ¬ in_use lo (frame_allocator s) p;
  ext_mem : ∀ p, p ∉ frames pt' → mem s' !! p = mem s !! p;
  ext_used : ∀ p, in_use lo (frame_allocator s') p ↔ in_use lo (frame_allocator s) p ∨ p ∈ frames pt';
  ext_end : end_ (frame_allocator s') = end_ (frame_allocator s);
  ext_avail : (avail (frame_allocator s') + length (frames pt') = avail (frame_allocator s) + length (frames pt))%nat;
  ext_norec : recycled (frame_allocator s) = [] → recycled (frame_allocator s') = [];
}.

Lemma pt_ext_trans lo s1 pt1 s2 pt2 s3 pt3 :
  pt_ext lo s1 pt1 s2 pt2 → pt_ext lo s2 pt2 s3 pt3 → pt_ext lo s1 pt1 s3 pt3.
Proof.
  intros [R1 F1 N1 M1 U1 E1 A1 C1] [R2 F2 N2 M2 U2 E2 A2 C2]. split; [congruence|auto| | | |congruence|lia|auto].
  - intros p Hp. destruct (N2 p Hp) as [H2|H2]; [by apply N1|]. right. intros Hu. apply H2, U1. by left.
  - intros p Hp. rewrite M2 by done. apply M1. auto.
  - intros p. rewrite U2, U1. split; [|tauto]. intros [[?|?]|?]; auto.
Qed.

Lemma pt_ext_refl lo s pt t1 t2 : pt_inv lo s pt t1 t2 → pt_ext lo s pt s pt.
Proof.
  intros [_ _ _ Hu]. split; try done; [by left|]. intros p. split; [tauto|]. intros [?|?]; auto.
Qed.

(** Setting an entry of a table. *)
Lemma pt_ext_set lo s pt t1 t2 p i v :
  pt_inv lo s pt t1 t2 → p ∈ frames pt → pt_ext lo s pt (with_mem (set_word p i v (mem s)) s) pt.
Proof.
  intros [_ _ _ Hu] Hp. split; try done; simpl; [by left|..].
  - intros q Hq. apply set_word_ne. naive_solver.
  - intros q. split; [tauto|]. intros [?|?]; auto.
Qed.

Definition add_table (p i : Z) (pt : PageTable) : M mm (PageTable * Z) :=
  r ← frame_alloc; frame ← unwrap r;
  let pte := pte_new frame FLAG_V in
  write_pte p i pte;;
  mret (mkPageTable (root_ppn pt) (frames pt ++ [frame]), pte).

Lemma add_table_ok lo s pt t1 t2 p i :
  pt_inv lo s pt t1 t2 → p ∈ frames pt → 0 ≤ i < 512 → (0 < avail (frame_allocator s))%nat →
  ∃ f fa', let s' := mkMm (link_table (mem s) p i f) fa' in
    let pt' := mkPageTable (root_ppn pt) (frames pt ++ [f]) in
    add_table p i pt s = Ok (s', (pt', pte_new f FLAG_V)) ∧
    f ∉ frames pt ∧ 0 ≤ f < 2 ^ 44 ∧ mm_ok lo s' ∧ pt_ext lo s pt s' pt' ∧
    avail (frame_allocator s) = S (avail fa').
Proof.
  intros Hinv Hp Hi Hav. pose proof Hinv as [Hmm Ht [Hnd Hfr] Hu].
  destruct (frame_alloc_ok lo s Hmm) as (s1 & r & Hr & Hmm1 & He1 & Hs1).
  destruct r as [f|]; [|lia]. destruct Hs1 as (Hf & Hnu & Hm1 & Hav1 & Hu1).
  pose proof (fa_range _ _ (mm_fa _ _ Hmm)) as Hrg.
  assert (f ∉ frames pt) as Hff by (intros Hin; by apply Hnu, Hu).
  assert (has_page (mem s) p) as Hpp.
  { apply Hfr in Hp. destruct Ht as [? Hp1 Hp2 _ _ _ _ _ _ _].
    destruct Hp as [->|[[k Hk]|[[k l] Hk]]]; [done|by apply (Hp1 k)|by apply (Hp2 k l)]. }
  assert (p ≠ f) as Hpf by congruence.
  assert (has_page (mem s1) p) as Hpp1.
  { destruct Hpp as (b & Hb & Hl). exists b. by rewrite Hm1, lookup_insert_ne. }
  exists f, (frame_allocator s1). cbn zeta.
  assert (with_mem (set_word p i (pte_new f FLAG_V) (mem s1)) s1 =
    mkMm (link_table (mem s) p i f) (frame_allocator s1)) as Heq by (unfold with_mem, link_table; by rewrite Hm1).
  split_and!; [|done|lia|lia| | |done].
  - unfold add_table. erewrite bind_ok by exact Hr. erewrite bind_ok by apply unwrap_some.
    erewrite bind_ok by (by apply write_pte_ok). by rewrite Heq.
  - rewrite <-Heq. by apply mm_ok_set.
  - split; simpl; [done| | | | |done|rewrite length_app; simpl; lia|by eapply frame_alloc_norec].
    + intros q Hq. apply elem_of_app. by left.
    + intros q. rewrite elem_of_app, list_elem_of_singleton. intros [?| ->]; auto.
    + intros q Hq. rewrite elem_of_app, list_elem_of_singleton in Hq. unfold link_table.
      rewrite set_word_ne by naive_solver. by rewrite lookup_insert_ne by naive_solver.
    + intros q. rewrite Hu1, elem_of_app, list_elem_of_singleton. split; [naive_solver|].
      intros [?|[?|?]]; auto.
Qed.

(** One level of [find_pte_create]. *)
Definition ensure (p i : Z) (pt : PageTable) : M mm (PageTable * Z) :=
  pte ← read_pte p i;
  if negb (pte_is_valid pte) then add_table p i pt else mret (pt, pte).

Lemma create_level i idx idxs pt p s s' pt' pte :
  i ≠ 2 → ensure p idx pt s = Ok (s', (pt', pte)) →
  find_pte_create_loop i (idx :: idxs) pt p s = find_pte_create_loop (i + 1) idxs pt' (pte_ppn pte) s'.
Proof.
  intros Hi. unfold ensure. cbn [find_pte_create_loop]. unfold mbind, M_bind at 1 2.
  destruct (read_pte p idx s) as [[s1 w]|]; [|done]. rewrite (proj2 (Z.eqb_neq _ _) Hi).
  unfold add_table, mbind, M_bind. intros He.
  destruct (negb (pte_is_valid w)); [|by injection He as <- <- <-].
  destruct (frame_alloc s1) as [[s2 r]|]; [|done]. destruct ((unwrap r : M mm Z) s2) as [[s3 f]|]; [|done].
  destruct (write_pte p idx (pte_new f FLAG_V) s3) as [[s4 []]|]; [|done].
  by injection He as <- <- <-.
Qed.

(** The frames after a table was added. *)
Lemma frames_add root t1 t2 t1' t2' fr f :
  NoDup fr ∧ (∀ p, p ∈ fr ↔ is_table root t1 t2 p) → f ∉ fr →
  (∀ p, is_table root t1' t2' p ↔ is_table root t1 t2 p ∨ p = f) →
  NoDup (fr ++ [f]) ∧ ∀ p, p ∈ fr ++ [f] ↔ is_table root t1' t2' p.
Proof.
  intros [Hnd Hfr] Hf Ht. split.
  - apply NoDup_app. split_and!; [done| |apply NoDup_singleton]. intros x Hx ->%list_elem_of_singleton. done.
  - intros p. by rewrite elem_of_app, list_elem_of_singleton, Ht, Hfr.
Qed.

Lemma is_table_insert1 root t1 t2 i f p :
  t1 !! i = None → is_table root (<[i := f]> t1) t2 p ↔ is_table root t1 t2 p ∨ p = f.
Proof.
  intros Hn. unfold is_table. split.
  - intros [?|[[k [[? ?]|[? ?]]%lookup_insert_Some]|?]]; eauto 6.
  - intros [[?|[[k Hk]|?]]| ->]; [by left| |by right; right|].
    + right; left. exists k. rewrite lookup_insert_ne; congruence.
    + right; left. exists i. by rewrite lookup_insert_eq.
Qed.

Lemma is_table_insert2 root t1 t2 x f p :
  t2 !! x = None → is_table root t1 (<[x := f]> t2) p ↔ is_table root t1 t2 p ∨ p = f.
Proof.
  intros Hn. unfold is_table. split.
  - intros [?|[?|[k [[? ?]|[? ?]]%lookup_insert_Some]]]; eauto 6.
  - intros [[?|[?|[k Hk]]]| ->]; [by left|by right; left| |].
    + right; right. exists k. rewrite lookup_insert_ne; congruence.
    + right; right. exists x. by rewrite lookup_insert_eq.
Qed.

(** The state after a level of the walk: the second-level table for [i] exists. *)
Lemma ensure1_ok lo s pt t1 t2 i n :
  pt_inv lo s pt t1 t2 → 0 ≤ i < 512 → (S n ≤ avail (frame_allocator s))%nat →
  ∃ s' pt' t1' pte, ensure (root_ppn pt) i pt s = Ok (s', (pt', pte)) ∧
    pt_inv lo s' pt' t1' t2 ∧ t1' !! i = Some (pte_ppn pte) ∧ pt_ext lo s pt s' pt' ∧
    (∀ v, leaf (mem s') t2 v = leaf (mem s) t2 v) ∧ (∀ k, is_Some (t1' !! k) → k = i ∨ is_Some (t1 !! k)) ∧
    (n ≤ avail (frame_allocator s') ∧ length (frames pt') ≤ S (length (frames pt)))%nat.
Proof.
  intros Hinv Hi Hav. pose proof Hinv as [Hmm Ht Hfr Hu]. unfold ensure.
  erewrite bind_ok by (apply read_pte_ok; [apply Ht|done]).
  pose proof (tree_l0 _ _ _ _ Ht i Hi) as Hl0. destruct (t1 !! i) as [p|] eqn:Hp.
  - destruct Hl0 as [-> Hpp]. cbn [negb]. exists s, pt, t1, (word (mem s) (root_ppn pt) i).
    rewrite Hpp. split_and!; [done|done|done|by eapply pt_ext_refl|done|by right|lia|lia].
  - rewrite Hl0. cbn [negb].
    destruct (add_table_ok lo s pt t1 t2 (root_ppn pt) i) as (f & fa' & He & Hf & Hf2 & Hmm' & Hext & Hav');
      [done|apply Hfr; by left|done|lia|].
    assert (¬ is_table (root_ppn pt) t1 t2 f) as Hnt by (by rewrite <-(proj2 Hfr)).
    destruct (tree_link1 _ _ _ _ _ _ Ht Hi Hp Hnt Hf2) as [Ht' Hleaf].
    eexists _, _, (<[i := f]> t1), _. split; [exact He|].
    rewrite pte_ppn_new by (done || (unfold FLAG_V; lia)).
    split; [|split_and!; [by rewrite lookup_insert_eq|done|done| |simpl; lia|simpl; rewrite length_app; simpl; lia];
      intros k [?|[_ ?]]%lookup_insert_is_Some; auto].
    split; [done|done| |].
    + apply (frames_add _ t1 t2); [done|done|]. intros p. by apply is_table_insert1.
    + intros p Hp'. apply (ext_used _ _ _ _ _ Hext). by right.
Qed.

(** The third-level table for [(i, j)] exists. *)
Lemma ensure2_ok lo s pt t1 t2 i p j n :
  pt_inv lo s pt t1 t2 → t1 !! i = Some p → 0 ≤ j < 512 → (S n ≤ avail (frame_allocator s))%nat →
  ∃ s' pt' t2' pte, ensure p j pt s = Ok (s', (pt', pte)) ∧
    pt_inv lo s' pt' t1 t2' ∧ t2' !! (i, j) = Some (pte_ppn pte) ∧ pt_ext lo s pt s' pt' ∧
    (∀ v, leaf (mem s') t2' v = leaf (mem s) t2 v) ∧ (∀ x, is_Some (t2' !! x) → x = (i, j) ∨ is_Some (t2 !! x)) ∧
    (n ≤ avail (frame_allocator s') ∧ length (frames pt') ≤ S (length (frames pt)))%nat.
Proof.
  intros Hinv Hp Hj Hav. pose proof Hinv as [Hmm Ht Hfr Hu]. unfold ensure.
  erewrite bind_ok by (apply read_pte_ok; [by apply (tree_page1 _ _ _ _ Ht i)|done]).
  pose proof (tree_l1 _ _ _ _ Ht i p j Hp Hj) as Hl1. destruct (t2 !! (i, j)) as [q|] eqn:Hq.
  - destruct Hl1 as [-> Hpp]. cbn [negb]. exists s, pt, t2, (word (mem s) p j).
    rewrite Hpp. split_and!; [done|done|done|by eapply pt_ext_refl|done|by right|lia|lia].
  - rewrite Hl1. cbn [negb].
    destruct (add_table_ok lo s pt t1 t2 p j) as (f & fa' & He & Hf & Hf2 & Hmm' & Hext & Hav');
      [done|apply Hfr; right; left; eauto|done|lia|].
    assert (¬ is_table (root_ppn pt) t1 t2 f) as Hnt by (by rewrite <-(proj2 Hfr)).
    destruct (tree_link2 _ _ _ _ _ _ _ _ Ht Hp Hj Hq Hnt Hf2) as [Ht' Hleaf].
    eexists _, _, (<[(i, j) := f]> t2), _. split; [exact He|].
    rewrite pte_ppn_new by (done || (unfold FLAG_V; lia)).
    split; [|split_and!; [by rewrite lookup_insert_eq|done|done| |simpl; lia|simpl; rewrite length_app; simpl; lia];
      intros x [?|[_ ?]]%lookup_insert_is_Some; auto].
    split; [done|done| |].
    + apply (frames_add _ t1 t2); [done|done|]. intros p'. by apply is_table_insert2.
    + intros p' Hp'. apply (ext_used _ _ _ _ _ Hext). by right.
Qed.

(** [find_pte_create] finds the entry, making the missing tables. *)
Lemma find_pte_create_ok lo s pt t1 t2 vpn :
  pt_inv lo s pt t1 t2 → (2 ≤ avail (frame_allocator s))%nat →
  ∃ s' pt' t1' t2' q, find_pte_create vpn pt s = Ok (s', (pt', Some (q, vpn mod 512))) ∧
    pt_inv lo s' pt' t1' t2' ∧ t2' !! ((vpn / 2 ^ 18) mod 512, (vpn / 2 ^ 9) mod 512) = Some q ∧
    pt_ext lo s pt s' pt' ∧ (length (frames pt') ≤ length (frames pt) + 2)%nat ∧
    (∀ v, leaf (mem s') t2' v = leaf (mem s) t2 v) ∧
    (∀ k, is_Some (t1' !! k) → k = (vpn / 2 ^ 18) mod 512 ∨ is_Some (t1 !! k)) ∧
    ∀ x, is_Some (t2' !! x) → x = ((vpn / 2 ^ 18) mod 512, (vpn / 2 ^ 9) mod 512) ∨ is_Some (t2 !! x).
Proof.
  intros Hinv Hav. unfold find_pte_create. rewrite indexes_digits.
  set (i0 := (vpn / 2 ^ 18) mod 512). set (i1 := (vpn / 2 ^ 9) mod 512).
  assert (0 ≤ i0 < 512) as H0 by lia. assert (0 ≤ i1 < 512) as H1 by lia.
  destruct (ensure1_ok lo s pt t1 t2 i0 1 Hinv H0 Hav) as (s1 & pt1 & t1' & w1 & He1 & Hinv1 & Hp & Hext1 & Hlf1 & Hd1 & Hav1 & Hfl1).
  destruct (ensure2_ok lo s1 pt1 t1' t2 i0 _ i1 0 Hinv1 Hp H1 Hav1)
    as (s2 & pt2 & t2' & w2 & He2 & Hinv2 & Hq & Hext2 & Hlf2 & Hd2 & _ & Hfl2).
  exists s2, pt2, t1', t2', (pte_ppn w2).
  rewrite (create_level 0 _ _ _ _ _ _ _ _ ltac:(done) He1).
  rewrite (create_level 1 _ _ _ _ _ _ _ _ ltac:(done) He2). cbn [find_pte_create_loop].
  destruct (tree_page2 _ _ _ _ (inv_tree _ _ _ _ _ Hinv2) i0 i1 _ Hq) as (_ & _ & Hqq).
  erewrite bind_ok by (apply read_pte_ok; [done|lia]). split; [done|].
  split_and!; [done|done|by eapply pt_ext_trans|lia| |done|done]. intros v. by rewrite Hlf2, Hlf1.
Qed.

(** ** The operations on the abstract table *)

(** Setting a leaf entry. *)
Lemma inv_set_leaf lo s pt t1 t2 x q i v :
  pt_inv lo s pt t1 t2 → t2 !! x = Some q → 0 ≤ i < 512 → is_u64 v →
  pt_inv lo (with_mem (set_word q i v (mem s)) s) pt t1 t2.
Proof.
  intros [Hmm Ht Hfr Hu] Hq Hi Hv. pose proof Ht as [Hr Hp1 Hp2 Hl0 Hl1 Hi1 Hi2 Hr1 Hr2 H12].
  destruct x as [a b]. destruct (Hp2 a b q Hq) as (_ & _ & Hqq).
  split; [by apply mm_ok_set| |done|done]. simpl. split.
  - by apply has_page_set.
  - intros k p Hk. destruct (Hp1 k p Hk). split; [done|by apply has_page_set].
  - intros k l p Hk. destruct (Hp2 k l p Hk) as (? & ? & ?). split; [done|]. split; [done|by apply has_page_set].
  - intros k Hk. rewrite word_set by (done || lia). rewrite decide_False; [by apply Hl0|].
    intros [<- _]. by apply (Hr2 _ Hq).
  - intros k p l Hk Hl. rewrite word_set by (done || lia). rewrite decide_False; [by apply Hl1|].
    intros [-> _]. by apply (H12 _ _ _ Hk Hq).
  - done.
  - done.
  - done.
  - done.
  - done.
Qed.

Definition valid_word (w : Z) : option Z := if pte_is_valid w then Some w else None.

Lemma leaf_set lo s pt t1 t2 q v vpn v' :
  pt_inv lo s pt t1 t2 → t2 !! ((vpn / 2 ^ 18) mod 512, (vpn / 2 ^ 9) mod 512) = Some q →
  is_u64 v → 0 ≤ vpn < 2 ^ 27 → 0 ≤ v' < 2 ^ 27 →
  leaf (set_word q (vpn mod 512) v (mem s)) t2 v' =
    if decide (v' = vpn) then valid_word v else leaf (mem s) t2 v'.
Proof.
  intros [Hmm Ht Hfr Hu] Hq Hv Hvp Hv'. destruct (tree_page2 _ _ _ _ Ht _ _ _ Hq) as (_ & _ & Hqq).
  unfold leaf. case_decide as Hc.
  - subst v'. rewrite Hq, word_set by (done || lia). by rewrite decide_True.
  - destruct (t2 !! ((v' / 2 ^ 18) mod 512, _)) as [q'|] eqn:Hq'; [|done]. cbn zeta.
    rewrite word_set by (done || lia). rewrite decide_False; [done|]. intros [-> Hm].
    pose proof (tree_inj2 _ _ _ _ Ht _ _ _ Hq Hq') as [= ? ?]. lia.
Qed.

Lemma leaf_word m t2 vpn q :
  t2 !! ((vpn / 2 ^ 18) mod 512, (vpn / 2 ^ 9) mod 512) = Some q → leaf m t2 vpn = valid_word (word m q (vpn mod 512)).
Proof. unfold leaf. by intros ->. Qed.

(** The abstract table after a leaf entry was set. *)
Lemma rep_set P1 P2 lo s pt t1 t2 q v vpn (tr : gmap Z Z) :
  pt_inv lo s pt t1 t2 → t2 !! ((vpn / 2 ^ 18) mod 512, (vpn / 2 ^ 9) mod 512) = Some q →
  is_u64 v → 0 ≤ vpn < 2 ^ 27 →
  (∀ v', tr !! v' = if decide (0 ≤ v' < 2 ^ 27) then leaf (mem s) t2 v' else None) →
  (∀ i, is_Some (t1 !! i) → P1 i) → (∀ x, is_Some (t2 !! x) → P2 x) →
  pt_shape P1 P2 lo (with_mem (set_word q (vpn mod 512) v (mem s)) s) pt (partial_alter (λ _, valid_word v) vpn tr).
Proof.
  intros Hinv Hq Hv Hvp Htr H1 H2. exists t1, t2. split; [eapply inv_set_leaf; (done || lia)|]. split; [|done]. simpl. intros v'.
  destruct (decide (v' = vpn)) as [->|Hne].
  - rewrite lookup_partial_alter_eq, decide_True by done. erewrite leaf_set by done. by rewrite decide_True.
  - rewrite lookup_partial_alter_ne, Htr by done. case_decide; [|done].
    erewrite leaf_set by done. by rewrite decide_False.
Qed.

(** The entry [find_pte_create] gives, in terms of the abstract table. *)
Lemma pt_entry_key P1 P2 lo s pt tr vpn :
  pt_shape P1 P2 lo s pt tr → (2 ≤ avail (frame_allocator s))%nat → 0 ≤ vpn < 2 ^ 27 →
  P1 ((vpn / 2 ^ 18) mod 512) → P2 ((vpn / 2 ^ 18) mod 512, (vpn / 2 ^ 9) mod 512) →
  ∃ s' pt' q, find_pte_create vpn pt s = Ok (s', (pt', Some (q, vpn mod 512))) ∧
    pt_shape P1 P2 lo s' pt' tr ∧ pt_ext lo s pt s' pt' ∧ (length (frames pt') ≤ length (frames pt) + 2)%nat ∧ has_page (mem s') q ∧
    tr !! vpn = valid_word (word (mem s') q (vpn mod 512)) ∧
    ∀ v, is_u64 v → let s'' := with_mem (set_word q (vpn mod 512) v (mem s')) s' in
      pt_shape P1 P2 lo s'' pt' (partial_alter (λ _, valid_word v) vpn tr) ∧ pt_ext lo s pt s'' pt'.
Proof.
  intros (t1 & t2 & Hinv & Htr & H1 & H2) Hav Hv HP1 HP2.
  destruct (find_pte_create_ok lo s pt t1 t2 vpn Hinv Hav) as (s' & pt' & t1' & t2' & q & He & Hinv' & Hq & Hext & Hfl & Hlf & Hd1 & Hd2).
  assert (∀ i, is_Some (t1' !! i) → P1 i) as H1' by (intros i [->|?]%Hd1; auto).
  assert (∀ x, is_Some (t2' !! x) → P2 x) as H2' by (intros x [->|?]%Hd2; auto).
  assert (∀ v', tr !! v' = if decide (0 ≤ v' < 2 ^ 27) then leaf (mem s') t2' v' else None) as Htr'
    by (intros v'; rewrite Htr; by case_decide; rewrite ?Hlf).
  exists s', pt', q. split; [done|]. split; [by exists t1', t2'|]. split; [done|]. split; [done|].
  split; [by apply (tree_page2 _ _ _ _ (inv_tree _ _ _ _ _ Hinv') _ _ _ Hq)|].
  split; [rewrite Htr', decide_True by done; by apply leaf_word|].
  intros v Hu. cbn zeta. split; [by eapply rep_set|].
  eapply pt_ext_trans; [done|]. eapply pt_ext_set; [done|].
  apply (proj2 (inv_frames _ _ _ _ _ Hinv')). right; right. eauto.
Qed.

(** The page table sees the 27 low bits of a page number. *)
Lemma indexes_key vpn : indexes vpn = indexes (page_key vpn).
Proof. apply indexes_inj. unfold page_key. by rewrite Z.mod_mod. Qed.

(** The indexes that lead to the tables of a page. *)
Definition index1 (vpn : Z) : Z := (vpn / 2 ^ 18) mod 512.
Definition index2 (vpn : Z) : Z * Z := (index1 vpn, (vpn / 2 ^ 9) mod 512).

Lemma pt_entry P1 P2 lo s pt tr vpn :
  pt_shape P1 P2 lo s pt tr → (2 ≤ avail (frame_allocator s))%nat → P1 (index1 vpn) → P2 (index2 vpn) →
  ∃ s' pt' q i, find_pte_create vpn pt s = Ok (s', (pt', Some (q, i))) ∧ 0 ≤ i < 512 ∧
    pt_shape P1 P2 lo s' pt' tr ∧ pt_ext lo s pt s' pt' ∧ (length (frames pt') ≤ length (frames pt) + 2)%nat ∧ has_page (mem s') q ∧
    tr !! page_key vpn = valid_word (word (mem s') q i) ∧
    ∀ v, is_u64 v → let s'' := with_mem (set_word q i v (mem s')) s' in
      pt_shape P1 P2 lo s'' pt' (partial_alter (λ _, valid_word v) (page_key vpn) tr) ∧ pt_ext lo s pt s'' pt'.
Proof.
  intros Hrep Hav H1 H2. unfold index2, index1 in *.
  destruct (pt_entry_key P1 P2 lo s pt tr (page_key vpn) Hrep Hav) as (s' & pt' & q & He & H).
  { unfold page_key. lia. }
  { replace ((page_key vpn / 2 ^ 18) mod 512) with ((vpn / 2 ^ 18) mod 512); [done|unfold page_key; lia]. }
  { replace ((page_key vpn / 2 ^ 18) mod 512) with ((vpn / 2 ^ 18) mod 512) by (unfold page_key; lia).
    replace ((page_key vpn / 2 ^ 9) mod 512) with ((vpn / 2 ^ 9) mod 512); [done|unfold page_key; lia]. }
  exists s', pt', q, (page_key vpn mod 512). unfold find_pte_create in *. rewrite indexes_key.
  split; [done|]. split; [lia|done].
Qed.

Lemma run_map_shape P1 P2 lo s pt tr vpn ppn flags :
  pt_shape P1 P2 lo s pt tr → (2 ≤ avail (frame_allocator s))%nat → P1 (index1 vpn) → P2 (index2 vpn) →
  0 ≤ ppn < 2 ^ 44 → 0 ≤ flags < 2 ^ 8 →
  ∃ s' pt', pt_ext lo s pt s' pt' ∧ (length (frames pt') ≤ length (frames pt) + 2)%nat ∧
    map vpn ppn flags pt s = Ok (s', (pt', if tr !! page_key vpn then -1 else 0)) ∧
    pt_shape P1 P2 lo s' pt'
      (if tr !! page_key vpn then tr else <[page_key vpn := pte_new ppn (Z.lor flags FLAG_V)]> tr).
Proof.
  intros Hrep Hav H1 H2 Hp Hf.
  destruct (pt_entry P1 P2 lo s pt tr vpn Hrep Hav H1 H2) as (s' & pt' & q & i & He & Hi & Hrep' & Hext & Hfl & Hpg & Hw & Hset).
  unfold map. erewrite bind_ok by exact He. cbn iota beta. erewrite bind_ok by apply unwrap_some. cbn iota beta.
  erewrite bind_ok by (apply read_pte_ok; [done|done]). rewrite Hw. unfold valid_word.
  destruct (pte_is_valid (word (mem s') q i)) eqn:Hvw; cbn [negb]; [by exists s', pt'|].
  erewrite bind_ok by (apply write_pte_ok; [done|lia]).
  destruct (Hset (pte_new ppn (Z.lor flags FLAG_V))) as [Hr Hx].
  { apply pte_new_u64; [done|]. apply lor_flags; [done|unfold FLAG_V; lia]. }
  unfold valid_word in Hr. rewrite pte_valid_new in Hr by done. eexists _, _. split; [exact Hx|]. by split_and!.
Qed.

Lemma run_map lo s pt tr vpn ppn flags :
  pt_rep lo s pt tr → (2 ≤ avail (frame_allocator s))%nat →
  0 ≤ ppn < 2 ^ 44 → 0 ≤ flags < 2 ^ 8 →
  ∃ s' pt', pt_ext lo s pt s' pt' ∧ (length (frames pt') ≤ length (frames pt) + 2)%nat ∧
    map vpn ppn flags pt s = Ok (s', (pt', if tr !! page_key vpn then -1 else 0)) ∧
    pt_rep lo s' pt'
      (if tr !! page_key vpn then tr else <[page_key vpn := pte_new ppn (Z.lor flags FLAG_V)]> tr).
Proof.
  intros Hrep%rep_shape Hav Hp Hf.
  destruct (run_map_shape _ _ lo s pt tr vpn ppn flags Hrep Hav I I Hp Hf) as (s' & pt' & Hext & Hl & Hr & Hs).
  exists s', pt'. split_and!; try done. by eapply shape_rep.
Qed.

(** The walk of a mapped page makes no table. *)
Lemma find_pte_create_found lo s pt t1 t2 vpn q :
  pt_inv lo s pt t1 t2 → t2 !! ((vpn / 2 ^ 18) mod 512, (vpn / 2 ^ 9) mod 512) = Some q →
  find_pte_create vpn pt s = Ok (s, (pt, Some (q, vpn mod 512))).
Proof.
  intros [_ Ht _ _] Hq. unfold find_pte_create. rewrite indexes_digits.
  set (i0 := (vpn / 2 ^ 18) mod 512) in *. set (i1 := (vpn / 2 ^ 9) mod 512) in *.
  assert (0 ≤ i0 < 512) as H0 by lia. assert (0 ≤ i1 < 512) as H1 by lia.
  destruct (tree_page2 _ _ _ _ Ht i0 i1 q Hq) as (_ & [p Hp] & Hqq).
  destruct (tree_page1 _ _ _ _ Ht i0 p Hp) as [_ Hpp].
  pose proof (tree_l0 _ _ _ _ Ht i0 H0) as Hl0. rewrite Hp in Hl0. destruct Hl0 as [Hv0 Hp0].
  pose proof (tree_l1 _ _ _ _ Ht i0 p i1 Hp H1) as Hl1. rewrite Hq in Hl1. destruct Hl1 as [Hv1 Hp1].
  rewrite (create_level 0 _ _ pt _ s s pt (word (mem s) (root_ppn pt) i0)); [|done|].
  - rewrite Hp0. rewrite (create_level 1 _ _ pt _ s s pt (word (mem s) p i1)); [|done|].
    + rewrite Hp1. cbn [find_pte_create_loop]. by erewrite bind_ok by (apply read_pte_ok; [done|lia]).
    + unfold ensure. erewrite bind_ok by (by apply read_pte_ok). by rewrite Hv1.
  - unfold ensure. erewrite bind_ok by (apply read_pte_ok; [apply Ht|done]). by rewrite Hv0.
Qed.

Lemma run_unmap lo s pt tr vpn w :
  pt_rep lo s pt tr → tr !! page_key vpn = Some w →
  ∃ s', unmap vpn pt s = Ok (s', pt) ∧ pt_ext lo s pt s' pt ∧ pt_rep lo s' pt (delete (page_key vpn) tr).
Proof.
  intros (t1 & t2 & Hinv & Htr) Hw. pose proof Hw as Hw'. rewrite Htr, decide_True in Hw' by (unfold page_key; lia).
  unfold leaf in Hw'. destruct (t2 !! _) as [q|] eqn:Hq; [|done]. cbn zeta in Hw'.
  destruct (pte_is_valid (word (mem s) q (page_key vpn mod 512))) eqn:Hv; [|done].
  unfold unmap. unfold find_pte_create at 1. rewrite indexes_key. fold (find_pte_create (page_key vpn) pt).
  erewrite bind_ok by (by eapply find_pte_create_found). cbn iota beta.
  erewrite bind_ok by apply unwrap_some. cbn iota beta.
  destruct (tree_page2 _ _ _ _ (inv_tree _ _ _ _ _ Hinv) _ _ _ Hq) as (_ & _ & Hqq).
  erewrite bind_ok by (apply read_pte_ok; [done|lia]). rewrite Hv. cbn [assert_]. erewrite bind_ok by done.
  erewrite bind_ok by (apply write_pte_ok; [done|lia]). eexists. split; [done|].
  split.
  - eapply pt_ext_set; [done|]. apply (proj2 (inv_frames _ _ _ _ _ Hinv)). right; right. eauto.
  - eapply (shape_rep (λ _, True) (λ _, True)), (rep_set _ _ lo s pt t1 t2 q pte_empty (page_key vpn) tr);
      [done|done|unfold pte_empty, is_u64; lia|unfold page_key; lia|done..].
Qed.

Lemma run_unmap_missing lo s pt tr vpn :
  pt_rep lo s pt tr → (2 ≤ avail (frame_allocator s))%nat → tr !! page_key vpn = None →
  unmap vpn pt s = Err AssertFailed.
Proof.
  intros Hrep%rep_shape Hav Hn.
  destruct (pt_entry _ _ lo s pt tr vpn Hrep Hav I I) as (s' & pt' & q & i & He & Hi & Hrep' & Hext & Hfl & Hpg & Hw & Hset).
  unfold unmap. erewrite bind_ok by exact He. cbn iota beta. erewrite bind_ok by apply unwrap_some. cbn iota beta.
  erewrite bind_ok by (apply read_pte_ok; [done|done]). rewrite Hn in Hw. unfold valid_word in Hw.
  by destruct (pte_is_valid (word (mem s') q i)).
Qed.

(** A mapped page is translated to its entry; for a page that is not mapped the
    result is none or an entry that is not valid. *)
Lemma run_translate lo s pt tr vpn :
  pt_rep lo s pt tr →
  ∃ r, translate vpn pt s = Ok (s, r) ∧ tr !! page_key vpn = (r ≫= valid_word).
Proof.
  intros (t1 & t2 & Hinv & Htr). rewrite Htr, decide_True by (unfold page_key; lia).
  unfold translate, leaf. unfold find_pte at 1. rewrite indexes_key. fold (find_pte (page_key vpn) pt).
  erewrite bind_ok by (by eapply find_pte_ok). destruct (t2 !! (_, _)) as [q|] eqn:Hq; cbn; [|by exists None].
  destruct (tree_page2 _ _ _ _ (inv_tree _ _ _ _ _ Hinv) _ _ _ Hq) as (_ & _ & Hqq).
  erewrite bind_ok by (apply read_pte_ok; [done|lia]). by eexists (Some _).
Qed.

Lemma run_translate_mapped lo s pt tr vpn w :
  pt_rep lo s pt tr → tr !! page_key vpn = Some w → translate vpn pt s = Ok (s, Some w).
Proof.
  intros Hrep Hw. destruct (run_translate lo s pt tr vpn Hrep) as (r & Hr & He). rewrite Hw in He.
  destruct r as [w'|]; [|done]. cbn in He. unfold valid_word in He.
  destruct (pte_is_valid w'); [by injection He as <-|done].
Qed.

(** The table of a token is the one the token was made from. *)
Lemma from_token_ok pt : 0 ≤ root_ppn pt < 2 ^ 44 → root_ppn (from_token (token pt)) = root_ppn pt.
Proof.
  intros Hr. unfold from_token, token. cbn [root_ppn]. rewrite land_mod by lia.
  change (wrap64 (Z.shiftl 8 60)) with (2 ^ 63).
  rewrite <-Z.land_ones, Z.land_lor_distr_l, !Z.land_ones by lia.
  rewrite (Z.mod_small (root_ppn pt)) by lia. done.
Qed.

Lemma run_pt_new lo s :
  mm_ok lo s → (0 < avail (frame_allocator s))%nat →
  ∃ s' pt, pt_new s = Ok (s', pt) ∧ pt_rep lo s' pt ∅ ∧ frames pt = [root_ppn pt] ∧
    ¬ in_use lo (frame_allocator s) (root_ppn pt) ∧ (∀ p, p ≠ root_ppn pt → mem s' !! p = mem s !! p) ∧
    (∀ p, in_use lo (frame_allocator s') p ↔ p = root_ppn pt ∨ in_use lo (frame_allocator s) p) ∧
    end_ (frame_allocator s') = end_ (frame_allocator s) ∧
    avail (frame_allocator s) = S (avail (frame_allocator s')).
Proof.
  intros Hmm Hav. destruct (frame_alloc_ok lo s Hmm) as (s1 & r & Hr & Hmm1 & He1 & Hs1).
  destruct r as [f|]; [|lia]. destruct Hs1 as (Hf & Hnu & Hm1 & Hav1 & Hu1).
  assert (mem s1 !! f = Some zero_page) as Hz by (by rewrite Hm1, lookup_insert_eq).
  exists s1, (mkPageTable f [f]). unfold pt_new. erewrite bind_ok by exact Hr.
  erewrite bind_ok by apply unwrap_some. split; [done|]. split.
  - exists ∅, ∅. split; [|intros v; rewrite lookup_empty; unfold leaf; rewrite lookup_empty; by case_decide].
    split; [done| | |].
    + split; simpl; try (intros; by simplify_map_eq).
      * exists zero_page. split; [done|]. apply length_replicate.
      * intros i Hi. rewrite lookup_empty. by rewrite word_zero.
    + split; [apply NoDup_singleton|]. intros p. cbn [frames root_ppn]. rewrite list_elem_of_singleton. unfold is_table.
      split; [by left|]. intros [?|[[? ?]|[? ?]]]; [done|by simplify_map_eq..].
    + intros p. cbn [frames]. rewrite list_elem_of_singleton. intros ->. apply Hu1. by left.
  - split_and!; [done|done| |done|done|done]. intros p Hp. by rewrite Hm1, lookup_insert_ne.
Qed.

(** The physical address of [va]. *)
Definition phys (pte va : Z) : Z := pte_ppn pte * 4096 + va mod 4096.

Lemma pte_ppn_range w : 0 ≤ pte_ppn w < 2 ^ 44.
Proof. unfold pte_ppn. rewrite land_mod by lia. lia. Qed.

Lemma run_translate_va lo s pt tr va pte :
  pt_rep lo s pt tr → tr !! page_key (floor va) = Some pte →
  translate_va va pt s = Ok (s, Some (phys pte va)).
Proof.
  intros Hrep Hpte. pose proof (run_translate_mapped lo s pt tr (floor va) pte Hrep Hpte) as Hr.
  unfold translate, translate_va in *. unfold mbind, M_bind in *.
  destruct (find_pte (floor va) pt s) as [[s1 [[q i]|]]|]; [|done|done].
  destruct (read_pte q i s1) as [[s2 w]|]; [|done]. injection Hr as -> ->.
  pose proof (pte_ppn_range pte). rewrite addr_of_page_mul, page_offset_mod, wrap64_small by (unfold is_u64; lia).
  done.
Qed.

(** Walks depend on the root only, so a table made from a token walks the same way. *)
Lemma translate_token vpn pt :
  0 ≤ root_ppn pt < 2 ^ 44 → translate vpn (from_token (token pt)) = translate vpn pt.
Proof. intros Hr. unfold translate, find_pte. by rewrite from_token_ok. Qed.

Lemma translate_va_token va pt :
  0 ≤ root_ppn pt < 2 ^ 44 → translate_va va (from_token (token pt)) = translate_va va pt.
Proof. intros Hr. unfold translate_va, find_pte. by rewrite from_token_ok. Qed.

Lemma rep_root_range lo s pt tr : pt_rep lo s pt tr → 0 ≤ root_ppn pt < 2 ^ 44.
Proof.
  intros (t1 & t2 & [Hmm _ [_ Hfr] Hu] & _). destruct (Hu (root_ppn pt)) as [Hlt _]; [apply Hfr; by left|].
  pose proof (fa_range _ _ (mm_fa _ _ Hmm)). lia.
Qed.

(** ** Other memory *)

(** The tables' words are all that counts. *)
Lemma pt_tree_ext m m' root t1 t2 :
  (∀ p, is_table root t1 t2 p → m' !! p = m !! p) → pt_tree m root t1 t2 →
  pt_tree m' root t1 t2 ∧ ∀ v, leaf m' t2 v = leaf m t2 v.
Proof.
  intros Hm [Hr Hp1 Hp2 Hl0 Hl1 Hi1 Hi2 Hr1 Hr2 H12].
  assert (∀ p, is_table root t1 t2 p → has_page m p → has_page m' p) as Hpg.
  { intros p Ht (b & Hb & Hl). exists b. by rewrite Hm. }
  assert (∀ i p, t1 !! i = Some p → is_table root t1 t2 p) as Ht1 by (intros i p ?; right; left; eauto).
  assert (∀ x p, t2 !! x = Some p → is_table root t1 t2 p) as Ht2 by (intros x p ?; right; right; eauto).
  split; [split; try done|].
  - apply Hpg; [by left|done].
  - intros i p Hi. destruct (Hp1 i p Hi). eauto.
  - intros i j p Hi. destruct (Hp2 i j p Hi) as (? & ? & ?). eauto.
  - intros i Hi. rewrite (word_ext m m') by (apply Hm; by left). by apply Hl0.
  - intros i p j Hi Hj. rewrite (word_ext m m') by (by eapply Hm, Ht1). by apply (Hl1 i).
  - intros v. unfold leaf. destruct (t2 !! _) as [q|] eqn:Hq; [|done].
    by rewrite (word_ext m m') by (by eapply Hm, Ht2).
Qed.

(** A table does not depend on the pages that are not its own. *)
Lemma pt_rep_other lo s pt tr p b :
  pt_rep lo s pt tr → p ∉ frames pt → length b = 4096%nat →
  pt_rep lo (with_mem (<[p := b]> (mem s)) s) pt tr.
Proof.
  intros (t1 & t2 & [Hmm Ht Hfr Hu] & Htr) Hp Hb.
  destruct (pt_tree_ext (mem s) (<[p := b]> (mem s)) (root_ppn pt) t1 t2) as [Ht' Hl]; [|done|].
  { intros q Hq%(proj2 Hfr). rewrite lookup_insert_ne; [done|]. by intros <-. }
  exists t1, t2. split; [|intros v; rewrite Htr; simpl; by rewrite Hl].
  split; [by apply mm_ok_write|done|done|done].
Qed.

Lemma rep_frames_range lo s pt tr p : pt_rep lo s pt tr → p ∈ frames pt → lo ≤ p < end_ (frame_allocator s).
Proof.
  intros (t1 & t2 & [Hmm _ _ Hu] & _) [Hlt _]%Hu. pose proof (fa_range _ _ (mm_fa _ _ Hmm)). lia.
Qed.

(** As a step of the owner of the tables. *)
Lemma pt_step lo s pt s' pt' tr' :
  pt_ext lo s pt s' pt' → pt_rep lo s' pt' tr' → mm_step lo s (frames pt) s' (frames pt').
Proof.
  intros [Hr Hf Hn Hm Hu He Ha _] (t1 & t2 & [Hmm _ [Hnd _] Hu'] & _).
  split; [done|done|done|done| | | |done].
  - intros p Hp Hp'. rewrite Hu. tauto.
  - intros p Hp Hp'. by apply Hf in Hp.
  - intros p [Hp Hq]. apply Hm. intros Hin. destruct (Hn p Hin) as [?|Hni]; [done|].
    destruct Hq as [?|Hq]; [done|]. apply Hq. rewrite <-He. apply in_use_managed, Hu'; done.
Qed.

Lemma rep_owns lo s pt tr : pt_rep lo s pt tr → mm_ok lo s ∧ owns lo s (frames pt).
Proof. intros (t1 & t2 & [Hmm _ [Hnd _] Hu] & _). done. Qed.

(** A table keeps its entries while others work. *)
Lemma pt_rep_step lo s own s' own' pt tr :
  mm_step lo s own s' own' → pt_rep lo s pt tr → (∀ p, p ∈ frames pt → p ∉ own) → pt_rep lo s' pt tr.
Proof.
  intros Hs (t1 & t2 & [Hmm Ht Hfr Hu] & Htr) Hdj.
  assert (∀ p, p ∈ frames pt → foreign lo s own p) as Hf by (intros p Hp; split; [by apply Hdj|left; by apply Hu]).
  destruct (pt_tree_ext (mem s) (mem s') (root_ppn pt) t1 t2) as [Ht' Hl]; [|done|].
  { intros q Hq%(proj2 Hfr). by eapply step_mem, Hf. }
  exists t1, t2. split; [|intros v; rewrite Htr; by rewrite Hl].
  split; [by eapply step_ok|done|done|]. intros p Hp.
  pose proof (step_foreign _ _ _ _ _ _ Hs (Hf p Hp)) as [Hp' _].
  apply (step_used _ _ _ _ _ Hs); [by apply Hdj|done|by apply Hu].
Qed.

(** C16: [map] of a page that is not mapped adds its entry, and answers 0; a page that is
    mapped keeps its entry, and the answer is -1.  No other page's entry changes,
    missing tables are taken from the frame allocator, and memory outside the table's
    own frames keeps its contents.  Only the 27 low bits of the page number count. *)
Theorem map_inserts lo s pt tr vpn ppn flags :
  pt_rep lo s pt tr → (2 ≤ avail (frame_allocator s))%nat →
  0 ≤ ppn < 2 ^ 44 → 0 ≤ flags < 2 ^ 8 →
  ∃ s' pt', pt_ext lo s pt s' pt' ∧ (length (frames pt') ≤ length (frames pt) + 2)%nat ∧
    map vpn ppn flags pt s = Ok (s', (pt', if tr !! page_key vpn then -1 else 0)) ∧
    pt_rep lo s' pt'
      (if tr !! page_key vpn then tr else <[page_key vpn := pte_new ppn (Z.lor flags FLAG_V)]> tr).
Proof. intros. by apply run_map. Qed.

(** C17: [unmap] of a mapped page removes its entry and no other; of a page that is not
    mapped it is a failed assertion. *)
Theorem unmap_deletes lo s pt tr vpn :
  pt_rep lo s pt tr →
  match tr !! page_key vpn with
  | Some _ => ∃ s', unmap vpn pt s = Ok (s', pt) ∧ pt_ext lo s pt s' pt ∧ pt_rep lo s' pt (delete (page_key vpn) tr)
  | None => (2 ≤ avail (frame_allocator s))%nat → unmap vpn pt s = Err AssertFailed
  end.
Proof.
  intros Hrep. destruct (tr !! page_key vpn) as [w|] eqn:Hw; [by eapply run_unmap|].
  intros Hav. by eapply run_unmap_missing.
Qed.

(** C18: translation through the token.  The table the kernel makes from a process's
    token translates an address of a mapped page to the page's frame and the offset;
    for a page that is not mapped [translate] gives none or an entry that is not valid. *)
Theorem token_translates lo s pt tr va :
  pt_rep lo s pt tr →
  match tr !! page_key (floor va) with
  | Some pte => translate (floor va) (from_token (token pt)) s = Ok (s, Some pte) ∧
      translate_va va (from_token (token pt)) s = Ok (s, Some (pte_ppn pte * 4096 + va mod 4096))
  | None => ∃ r, translate (floor va) (from_token (token pt)) s = Ok (s, r) ∧
      ∀ pte, r = Some pte → pte_is_valid pte = false
  end.
Proof.
  intros Hrep. pose proof (rep_root_range _ _ _ _ Hrep) as Hr.
  rewrite translate_token, translate_va_token by done.
  destruct (tr !! page_key (floor va)) as [pte|] eqn:Hpte.
  - split; [by eapply run_translate_mapped|by eapply run_translate_va].
  - destruct (run_translate lo s pt tr (floor va) Hrep) as (r & Htr & He). rewrite Hpte in He. exists r. split; [done|]. intros pte ->. cbn in He. unfold valid_word in He. by destruct (pte_is_valid pte).
Qed.

(** A new table, and one with a page. *)
Lemma demo_empty_table :
  ∃ s pt, pt_rep 0x80400 s pt ∅ ∧ avail (frame_allocator s) = 15%nat ∧ frames pt = [root_ppn pt] ∧
    end_ (frame_allocator s) = 0x80410.
Proof.
  destruct (run_pt_new 0x80400 (demo_mm 0x80400 0x80410)) as (s & pt & _ & Hrep & Hf & _ & _ & _ & He & Hav);
    [apply demo_mm_ok; lia|rewrite demo_mm_avail; lia|].
  rewrite demo_mm_avail in Hav. exists s, pt. split; [done|]. split; [lia|]. split; [done|]. by rewrite He.
Qed.

Definition demo_pte : Z := pte_new 0x80777 (Z.lor (Z.lor FLAG_R FLAG_U) FLAG_V).

Lemma demo_table :
  ∃ s pt, pt_rep 0x80400 s pt {[ 5 := demo_pte ]} ∧ (2 ≤ avail (frame_allocator s))%nat ∧
    end_ (frame_allocator s) = 0x80410.
Proof.
  destruct demo_empty_table as (s & pt & Hrep & Hav & Hf & He).
  destruct (run_map 0x80400 s pt ∅ 5 0x80777 (Z.lor FLAG_R FLAG_U) Hrep) as (s' & pt' & Hext & Hl & _ & Hrep');
    [lia|lia|by vm_compute|].
  exists s', pt'. split; [exact Hrep'|]. pose proof (ext_avail _ _ _ _ _ Hext) as Ha. rewrite Hf in *. simpl in *.
  split; [lia|]. by rewrite (ext_end _ _ _ _ _ Hext).
Qed.

Lemma map_inserts_witness :
  ∃ s pt s' pt', map 5 0x80777 (Z.lor FLAG_R FLAG_U) pt s = Ok (s', (pt', 0)) ∧
    pt_rep 0x80400 s' pt' {[ 5 := demo_pte ]}.
Proof.
  destruct demo_empty_table as (s & pt & Hrep & Hav & _).
  destruct (map_inserts 0x80400 s pt ∅ 5 0x80777 (Z.lor FLAG_R FLAG_U) Hrep) as (s' & pt' & _ & _ & Hr & Hrep');
    [rewrite Hav; lia|lia|vm_compute; split; congruence|].
  exists s, pt, s', pt'. split; [exact Hr|exact Hrep'].
Defined.

Lemma unmap_deletes_witness :
  ∃ s pt, unmap 6 pt s = Err AssertFailed ∧ ∃ s' pt', unmap 5 pt s = Ok (s', pt') ∧ pt_rep 0x80400 s' pt' ∅.
Proof.
  destruct demo_table as (s & pt & Hrep & Hav & _). exists s, pt. split.
  - exact (unmap_deletes 0x80400 s pt _ 6 Hrep Hav).
  - pose proof (unmap_deletes 0x80400 s pt _ 5 Hrep) as H. change (page_key 5) with 5 in H.
    rewrite lookup_singleton_eq in H. destruct H as (s' & Hr & _ & Hrep'). exists s', pt.
    split; [exact Hr|]. rewrite delete_singleton_eq in Hrep'. exact Hrep'.
Defined.

Lemma token_translates_witness :
  ∃ s pt, translate_va 0x5123 (from_token (token pt)) s = Ok (s, Some 0x80777123).
Proof.
  destruct demo_table as (s & pt & Hrep & _). exists s, pt.
  pose proof (token_translates 0x80400 s pt _ 0x5123 Hrep) as H. change (page_key (floor 0x5123)) with 5 in H.
  rewrite lookup_singleton_eq in H. destruct H as [_ H]. exact H.
Defined.
