(* ===== verification/UserBuf.v ===== *)
(** * Buffers of user memory ([os/src/mm/page_table.rs])

    The kernel reaches an application's memory through the application's page
    table.  A slice of a page of physical memory is its page number and its
    bounds; a pointer is a physical address.

    [translated_byte_buffer] gives slices that together are the buffer's bytes in
    order; [UserBufferIterator] visits them all once; [translated_str] reads the
    bytes up to the first zero. *)

From S2P Require Import Prelude Bytes Address FrameAlloc PageTable.

Local Ltac Zify.zify_post_hook ::= Z.to_euclidean_division_equations.

(** [&mut ppn.get_bytes_array()[from..to]] *)
Record page_slice := mkSlice { sl_ppn : Z; sl_from : Z; sl_to : Z }.

Definition slice_page (ppn from to : Z) : M mm page_slice :=
  if (0 <=? from) && (from <=? to) && (to <=? 4096) then mret (mkSlice ppn from to)
  else mthrow OutOfBounds.

(** ** [translated_byte_buffer] *)
Definition buffer_body (page_table : PageTable) (end_ : Z) (st : Z * list page_slice) :
    M mm (Z * list page_slice) :=
  let '(start, v) := st in
  let start_va := start in
  let vpn := floor start_va in
  r ← translate vpn page_table; pte ← unwrap r;
  let ppn := pte_ppn pte in
  let vpn := step vpn in
  let end_va := addr_of_page vpn in
  let end_va := Z.min end_va end_ in
  sl ← (if page_offset end_va =? 0 then slice_page ppn (page_offset start_va) 4096
        else slice_page ppn (page_offset start_va) (page_offset end_va));
  mret (end_va, v ++ [sl]).

Definition translated_byte_buffer (token ptr len : Z) : M mm (list page_slice) :=
  let page_table := from_token token in
  let start := ptr in
  let end_ := wrap64 (start + len) in
  '(_, v) ← while_ (Z.to_nat (len / PAGE_SIZE) + 2) (λ st, fst st <? end_)
              (buffer_body page_table end_) (start, []);
  mret v.

(** ** [translated_str] *)

(** [PhysAddr::get_mut::<u8>]: the reference to address 0 is [None]; then the read. *)
Definition read_byte (pa : Z) : M mm byte :=
  if pa =? 0 then mthrow UnwrapNone else
  p ← read_page (pa / PAGE_SIZE); index p (pa mod PAGE_SIZE).

(** [String::push(ch as char)]: UTF-8 of a code point below 256 *)
Definition push_char (string : list byte) (ch : byte) : list byte :=
  let c := byte.unsigned ch in
  string ++ (if c <? 128 then [ch]
             else [byte.of_Z (Z.lor 0xC0 (Z.shiftr c 6)); byte.of_Z (Z.lor 0x80 (Z.land c 0x3F))]).

(** The loop, at most [fuel] bytes. *)
Fixpoint str_loop (fuel : nat) (page_table : PageTable) (va : Z) (string : list byte) : M mm (list byte) :=
  match fuel with
  | O => mthrow OutOfFuel
  | S fuel =>
      r ← translate_va va page_table; pa ← unwrap r;
      ch ← read_byte pa;
      if byte.unsigned ch =? 0 then mret string
      else str_loop fuel page_table (wrap64 (va + 1)) (push_char string ch)
  end.

Definition translated_str (fuel : nat) (token ptr : Z) : M mm (list byte) :=
  str_loop fuel (from_token token) ptr [].

(** [translated_ref], [translated_refmut]: the address of the reference *)
Definition translated_refmut (token ptr : Z) : M mm Z :=
  r ← translate_va ptr (from_token token); pa ← unwrap r;
  if pa =? 0 then mthrow UnwrapNone else mret pa.

(** ** [UserBuffer] *)

(** The addresses of a slice's bytes. *)
Definition slice_addrs (sl : page_slice) : list Z :=
  (λ o, sl_ppn sl * 4096 + o) <$> range (sl_from sl) (sl_to sl).

(** [UserBuffer::len]; the buffers are given by the addresses of their bytes. *)
Definition buffer_len (buffers : list (list Z)) : Z :=
  foldl (λ total b, wrap64 (total + Z.of_nat (length b))) 0 buffers.

Record UserBufferIterator := mkIter { buffers : list (list Z); current_buffer : Z; current_idx : Z }.

Definition into_iter (bs : list (list Z)) : UserBufferIterator := mkIter bs 0 0.

Definition iter_next (it : UserBufferIterator) : res (UserBufferIterator * option Z) :=
  if Z.of_nat (length (buffers it)) <=? current_buffer it then mret (it, None) else
  b ← index (buffers it) (current_buffer it);
  r ← index b (current_idx it);
  let it' :=
    if current_idx it + 1 =? Z.of_nat (length b)
    then mkIter (buffers it) (current_buffer it + 1) 0
    else mkIter (buffers it) (current_buffer it) (current_idx it + 1) in
  mret (it', Some r).

(** The pointers a [for] loop over the buffer sees, at most [fuel]. *)
Fixpoint iter_collect (fuel : nat) (it : UserBufferIterator) : res (list Z) :=
  match fuel with
  | O => mthrow OutOfFuel
  | S fuel =>
      '(it, r) ← iter_next it;
      match r with
      | None => mret []
      | Some p => ps ← iter_collect fuel it; mret (p :: ps)
      end
  end.

(** ** The bytes of a buffer *)

(** The physical address [va] is mapped to. *)
Definition phys_of (tr : gmap Z Z) (va : Z) : Z :=
  match tr !! page_key (floor va) with Some pte => phys pte va | None => 0 end.

(** The user memory from [ptr] to [hi] is mapped. *)
Definition mapped (tr : gmap Z Z) (ptr hi : Z) : Prop :=
  ∀ va, ptr ≤ va < hi → is_Some (tr !! page_key (floor va)).

Lemma range_fmap_add {A} (f g : Z → A) k lo hi :
  (∀ o, lo ≤ o < hi → f o = g (k + o)) → f <$> range lo hi = g <$> range (k + lo) (k + hi).
Proof.
  intros Hfg. unfold range. replace (k + hi - (k + lo)) with (hi - lo) by lia.
  rewrite <-fmap_add_seqZ, <-list_fmap_compose. apply list_fmap_ext.
  intros i o Ho%lookup_seqZ. apply Hfg. lia.
Qed.

(** A slice of one page, as part of the buffer. *)
Lemma slice_phys tr pte start stop :
  tr !! page_key (floor start) = Some pte → 0 ≤ start < stop → stop ≤ (start / 4096 + 1) * 4096 →
  slice_addrs (mkSlice (pte_ppn pte) (start mod 4096) (stop - start / 4096 * 4096)) =
    phys_of tr <$> range start stop.
Proof.
  intros Hpte Hs He. unfold slice_addrs. simpl.
  replace (range start stop) with
    (range (start / 4096 * 4096 + start mod 4096) (start / 4096 * 4096 + (stop - start / 4096 * 4096)))
    by (f_equal; lia).
  apply range_fmap_add. intros o Ho. unfold phys_of, phys, floor, PAGE_SIZE in *.
  replace ((start / 4096 * 4096 + o) / 4096) with (start / 4096) by lia. rewrite Hpte. lia.
Qed.

(** One turn of the loop takes the rest of the page. *)
Lemma buffer_body_ok lo s pt tr end_ start v pte :
  pt_rep lo s pt tr → 0 ≤ start < end_ → end_ ≤ 2 ^ 64 - 4096 → tr !! page_key (floor start) = Some pte →
  let stop := Z.min ((start / 4096 + 1) * 4096) end_ in
  buffer_body pt end_ (start, v) s =
    Ok (s, (stop, v ++ [mkSlice (pte_ppn pte) (start mod 4096) (stop - start / 4096 * 4096)])).
Proof.
  intros Hrep Hs He Hpte stop. unfold buffer_body.
  erewrite bind_ok by (by eapply run_translate_mapped). erewrite bind_ok by apply unwrap_some.
  assert (addr_of_page (step (floor start)) = (start / 4096 + 1) * 4096) as ->.
  { unfold step, floor, PAGE_SIZE. rewrite wrap64_small by (unfold is_u64; lia). apply addr_of_page_mul. lia. }
  fold stop. rewrite !page_offset_mod.
  assert ((if stop mod 4096 =? 0 then slice_page (pte_ppn pte) (start mod 4096) 4096
     else slice_page (pte_ppn pte) (start mod 4096) (stop mod 4096)) s =
    Ok (s, mkSlice (pte_ppn pte) (start mod 4096) (stop - start / 4096 * 4096))) as Hsl.
  { unfold slice_page. destruct (Z.eqb_spec (stop mod 4096) 0) as [Hz|Hz].
    - rewrite !(proj2 (Z.leb_le _ _)) by lia. cbn. unfold mret, M_ret. do 3 f_equal. lia.
    - rewrite !(proj2 (Z.leb_le _ _)) by lia. cbn. unfold mret, M_ret. do 3 f_equal. lia. }
  by erewrite bind_ok by exact Hsl.
Qed.

Lemma run_translated_byte_buffer lo s pt tr ptr len :
  pt_rep lo s pt tr → 0 ≤ ptr → 0 ≤ len → ptr + len ≤ 2 ^ 64 - 4096 → mapped tr ptr (ptr + len) →
  ∃ v, translated_byte_buffer (token pt) ptr len s = Ok (s, v) ∧
    concat (slice_addrs <$> v) = phys_of tr <$> range ptr (ptr + len) ∧
    Forall (λ sl, 0 ≤ sl_from sl < sl_to sl ∧ sl_to sl ≤ 4096) v.
Proof.
  intros Hrep Hp Hl Hb Hm. pose proof (rep_root_range _ _ _ _ Hrep) as Hroot.
  unfold translated_byte_buffer. rewrite wrap64_small by (unfold is_u64; lia).
  set (I := λ (st : Z * list page_slice) s', s' = s ∧ ptr ≤ st.1 ≤ ptr + len ∧
    concat (slice_addrs <$> st.2) = phys_of tr <$> range ptr st.1 ∧
    Forall (λ sl, 0 ≤ sl_from sl < sl_to sl ∧ sl_to sl ≤ 4096) st.2).
  pose proof (wp_while I (λ st, Z.to_nat (if st.1 <? ptr + len then (ptr + len - 1) / 4096 + 1 - st.1 / 4096 else 0))
    (λ st, st.1 <? ptr + len) (buffer_body (from_token (token pt)) (ptr + len))
    (Z.to_nat (len / PAGE_SIZE) + 2) (ptr, []) s) as Hw.
  apply wp_ok in Hw as ([stop v] & s' & Hrun & (-> & Hr & Hc & Hf) & Hcond).
  - exists v. rewrite (bind_ok _ _ _ _ _ Hrun). split; [done|]. simpl in *. apply Z.ltb_ge in Hcond.
    replace stop with (ptr + len) in Hc by lia. done.
  - clear Hw. intros [start v] s' (-> & Hr & Hc & Hf) Hlt. cbn [fst snd] in *. apply Z.ltb_lt in Hlt.
    destruct (Hm start ltac:(lia)) as [pte Hpte].
    assert (buffer_body (from_token (token pt)) (ptr + len) (start, v) = buffer_body pt (ptr + len) (start, v))
      as -> by (unfold buffer_body; by rewrite translate_token).
    eapply wp_eq; [eapply buffer_body_ok; [done|lia|lia|done]|].
    set (stop := Z.min _ _). split; [split; [done|]; simpl; split; [lia|split]|].
    + rewrite fmap_app, concat_app, Hc. simpl. rewrite app_nil_r.
      rewrite (slice_phys tr) by (done || lia). rewrite <-fmap_app, <-range_split by lia. done.
    + apply Forall_app. split; [done|]. apply Forall_singleton. simpl. lia.
    + simpl. destruct (Z.ltb_spec start (ptr + len)); [|lia]. destruct (Z.ltb_spec stop (ptr + len)); lia.
  - split; [done|]. simpl. rewrite range_nil by lia. split; [lia|]. by split.
  - unfold PAGE_SIZE. simpl. destruct (Z.ltb_spec ptr (ptr + len)); [|lia]. lia.
Qed.

(** ** Strings *)

(** The byte of user memory at [va]. *)
Definition user_byte (m : gmap Z page) (tr : gmap Z Z) (va : Z) : option byte :=
  pte ← tr !! page_key (floor va);
  p ← m !! pte_ppn pte;
  p !! Z.to_nat (va mod 4096).

(** The code does not follow a pointer to the physical page 0. *)
Definition no_page_zero (tr : gmap Z Z) : Prop := ∀ v pte, tr !! v = Some pte → pte_ppn pte ≠ 0.

Lemma read_user_byte lo s pt tr va b :
  pt_rep lo s pt tr → no_page_zero tr → user_byte (mem s) tr va = Some b →
  ∃ pa, translate_va va pt s = Ok (s, Some pa) ∧ read_byte pa s = Ok (s, b).
Proof.
  intros Hrep Hz Hb. unfold user_byte in Hb. apply bind_Some in Hb as (pte & Hpte & (p & Hp & Hb)%bind_Some).
  exists (phys pte va). split; [by eapply run_translate_va|]. pose proof (pte_ppn_range pte). pose proof (Hz _ _ Hpte).
  unfold read_byte, phys. rewrite (proj2 (Z.eqb_neq _ _)) by lia.
  replace ((pte_ppn pte * 4096 + va mod 4096) / PAGE_SIZE) with (pte_ppn pte) by (unfold PAGE_SIZE; lia).
  erewrite bind_ok by (by apply read_page_ok). apply index_ok; [unfold PAGE_SIZE; lia|].
  rewrite <-Hb. f_equal. unfold PAGE_SIZE. lia.
Qed.

(** [str]'s bytes are at [va], ended by a zero. *)
Fixpoint str_at (m : gmap Z page) (tr : gmap Z Z) (va : Z) (str : list byte) : Prop :=
  match str with
  | [] => user_byte m tr va = Some Byte.x00
  | c :: str => user_byte m tr va = Some c ∧ c ≠ Byte.x00 ∧ str_at m tr (va + 1) str
  end.

Lemma str_loop_ok lo s pt tr va str acc fuel :
  pt_rep lo s pt tr → no_page_zero tr → str_at (mem s) tr va str → 0 ≤ va →
  va + Z.of_nat (length str) < 2 ^ 64 → (length str < fuel)%nat →
  str_loop fuel pt va acc s = Ok (s, foldl push_char acc str).
Proof.
  intros Hrep Hz. revert va acc fuel. induction str as [|c str IH]; intros va acc fuel Hs Hva Hlt Hf;
    (destruct fuel as [|fuel]; [simpl in Hf; lia|]); cbn [str_loop str_at foldl length] in *.
  - destruct (read_user_byte lo s pt tr va _ Hrep Hz Hs) as (pa & Ht & Hr).
    erewrite bind_ok by exact Ht. erewrite bind_ok by apply unwrap_some. by erewrite bind_ok by exact Hr.
  - destruct Hs as (Hc & Hne & Hs). destruct (read_user_byte lo s pt tr va _ Hrep Hz Hc) as (pa & Ht & Hr).
    erewrite bind_ok by exact Ht. erewrite bind_ok by apply unwrap_some. erewrite bind_ok by exact Hr.
    assert (byte.unsigned c ≠ 0) as Hu by (intros Hu; apply Hne; rewrite <-(byte.of_Z_unsigned c), Hu; done).
    rewrite (proj2 (Z.eqb_neq _ _)) by done. rewrite wrap64_small by (unfold is_u64; lia).
    apply IH; (done || lia).
Qed.

(** Bytes below 128 are pushed as they are. *)
Lemma push_ascii acc str :
  Forall (λ c, byte.unsigned c < 128) str → foldl push_char acc str = acc ++ str.
Proof.
  revert acc. induction str as [|c str IH]; intros acc Hc; simpl; [by rewrite app_nil_r|].
  apply Forall_cons in Hc as [Hc Hstr]. rewrite IH by done. unfold push_char.
  rewrite (proj2 (Z.ltb_lt _ _)) by done. by rewrite <-app_assoc.
Qed.

Lemma str_loop_token fuel pt va acc s :
  0 ≤ root_ppn pt < 2 ^ 44 → str_loop fuel (from_token (token pt)) va acc s = str_loop fuel pt va acc s.
Proof.
  intros Hr. revert va acc s. induction fuel as [|fuel IH]; intros va acc s; [done|]. cbn [str_loop].
  rewrite translate_va_token by done. unfold mbind, M_bind.
  destruct (translate_va va pt s) as [[s1 r1]|]; [|done]. destruct ((unwrap r1 : M mm Z) s1) as [[s2 pa]|]; [|done].
  destruct (read_byte pa s2) as [[s3 ch]|]; [|done]. by destruct (byte.unsigned ch =? 0).
Qed.

Lemma run_translated_str lo s pt tr va str fuel :
  pt_rep lo s pt tr → no_page_zero tr → str_at (mem s) tr va str → 0 ≤ va →
  va + Z.of_nat (length str) < 2 ^ 64 → (length str < fuel)%nat →
  translated_str fuel (token pt) va s = Ok (s, foldl push_char [] str).
Proof.
  intros Hrep ?????. unfold translated_str. rewrite str_loop_token by (by eapply rep_root_range).
  by eapply str_loop_ok.
Qed.

(** ** The iterator *)

(** What is left to visit. *)
Definition iter_rest (it : UserBufferIterator) : list Z :=
  match drop (Z.to_nat (current_buffer it)) (buffers it) with
  | [] => []
  | b :: bs => drop (Z.to_nat (current_idx it)) b ++ concat bs
  end.

(** The position is inside a buffer, or after the last; no buffer is empty. *)
Record iter_ok (it : UserBufferIterator) : Prop := {
  iter_pos : 0 ≤ current_buffer it ∧ 0 ≤ current_idx it;
  iter_in : ∀ b, buffers it !! Z.to_nat (current_buffer it) = Some b → current_idx it < Z.of_nat (length b);
  iter_nonempty : Forall (λ b, b ≠ []) (buffers it);
}.

Lemma iter_rest_start (bs : list (list Z)) c :
  0 ≤ c → iter_rest (mkIter bs c 0) = concat (drop (Z.to_nat c) bs).
Proof. intros Hc. unfold iter_rest. simpl. by destruct (drop (Z.to_nat c) bs). Qed.

Lemma iter_next_ok it :
  iter_ok it →
  match iter_rest it with
  | [] => iter_next it = Ok (it, None)
  | p :: ps => ∃ it', iter_next it = Ok (it', Some p) ∧ iter_ok it' ∧ iter_rest it' = ps
  end.
Proof.
  intros [[Hcb Hci] Hin Hne]. destruct it as [bs cb ci]. cbn [buffers current_buffer current_idx] in *.
  unfold iter_next, iter_rest at 1. cbn [buffers current_buffer current_idx].
  destruct (Z.leb_spec (Z.of_nat (length bs)) cb) as [Hle|Hlt]; [by rewrite drop_ge by lia|].
  destruct (lookup_lt_is_Some_2 bs (Z.to_nat cb)) as [b Hb]; [lia|]. pose proof (Hin b Hb) as Hlt'.
  rewrite (drop_S _ _ _ Hb). destruct (lookup_lt_is_Some_2 b (Z.to_nat ci)) as [p Hp]; [lia|].
  rewrite (drop_S _ _ _ Hp). cbn [app].
  unfold index. rewrite !(proj2 (Z.leb_le _ _)), Hb by done.
  cbn [mbind res_bind mret res_ret]. rewrite Hp. cbn [mbind res_bind mret res_ret].
  eexists. split; [done|]. destruct (Z.eqb_spec (ci + 1) (Z.of_nat (length b))) as [He|He].
  - split; [split; simpl; [lia| |done]|].
    + intros b' Hb'. apply (Forall_lookup_1 _ _ _ _ Hne) in Hb'. destruct b'; [done|simpl; lia].
    + rewrite iter_rest_start by lia. rewrite (drop_ge b) by lia. simpl. do 2 f_equal. lia.
  - split; [split; simpl; [lia| |done]|].
    + rewrite Hb. intros b' [= <-]. lia.
    + unfold iter_rest. simpl. rewrite (drop_S _ _ _ Hb). repeat f_equal. lia.
Qed.

Lemma iter_collect_ok fuel it :
  iter_ok it → (length (iter_rest it) < fuel)%nat → iter_collect fuel it = Ok (iter_rest it).
Proof.
  revert it. induction fuel as [|fuel IH]; intros it Hok Hf; [lia|]. cbn [iter_collect].
  pose proof (iter_next_ok it Hok) as Hn. destruct (iter_rest it) as [|p ps] eqn:Hr; [by rewrite Hn|].
  destruct Hn as (it' & -> & Hok' & Hr'). cbn. simpl in Hf. rewrite IH by (done || rewrite Hr'; lia).
  by rewrite Hr'.
Qed.

Lemma into_iter_ok bs : Forall (λ b, b ≠ []) bs → iter_ok (into_iter bs) ∧ iter_rest (into_iter bs) = concat bs.
Proof.
  intros Hne. split; [split; simpl; [lia| |done]|].
  - intros b Hb. apply (Forall_lookup_1 _ _ _ _ Hne) in Hb. destruct b; [done|simpl; lia].
  - unfold into_iter. rewrite iter_rest_start by lia. done.
Qed.

(** C19: [translated_byte_buffer] covers the buffer.  When the buffer's pages are mapped,
    the call returns slices that together are the physical addresses of the buffer's
    bytes, in order, each once; no slice is empty or leaves its page. *)
Theorem byte_buffer_covers lo s pt tr ptr len :
  pt_rep lo s pt tr → 0 ≤ ptr → 0 ≤ len → ptr + len ≤ 2 ^ 64 - 4096 → mapped tr ptr (ptr + len) →
  ∃ v, translated_byte_buffer (token pt) ptr len s = Ok (s, v) ∧
    concat (slice_addrs <$> v) = phys_of tr <$> range ptr (ptr + len) ∧
    Forall (λ sl, 0 ≤ sl_from sl < sl_to sl ∧ sl_to sl ≤ 4096) v.
Proof. intros. by apply (run_translated_byte_buffer lo). Qed.

(** C40: [UserBufferIterator] visits every byte of the buffers once, in order, and ends. *)
Theorem user_buffer_iterates bs :
  Forall (λ b, b ≠ []) bs → iter_collect (S (length (concat bs))) (into_iter bs) = Ok (concat bs).
Proof.
  intros Hne. destruct (into_iter_ok bs Hne) as [Hok Hr]. rewrite <-Hr at 2.
  apply iter_collect_ok; [done|]. rewrite Hr. lia.
Qed.

(** [translated_str] returns the bytes before the first zero, for a string of ASCII
    bytes; every other byte becomes the two bytes of its code point. *)
Theorem translated_str_reads lo s pt tr va str fuel :
  pt_rep lo s pt tr → no_page_zero tr → str_at (mem s) tr va str → 0 ≤ va →
  va + Z.of_nat (length str) < 2 ^ 64 → (length str < fuel)%nat →
  translated_str fuel (token pt) va s = Ok (s, foldl push_char [] str) ∧
  (Forall (λ c, byte.unsigned c < 128) str → foldl push_char [] str = str).
Proof.
  intros. split; [by eapply run_translated_str|]. intros Ha. by rewrite push_ascii.
Qed.

Lemma byte_buffer_covers_witness :
  ∃ s pt v, translated_byte_buffer (token pt) 0x5ffe 2 s = Ok (s, v) ∧
    concat (slice_addrs <$> v) = [0x80777ffe; 0x80777fff].
Proof.
  destruct demo_table as (s & pt & Hrep & _). exists s, pt.
  destruct (byte_buffer_covers 0x80400 s pt _ 0x5ffe 2 Hrep) as (v & Hr & Hc & _); [lia|lia|lia| |].
  - intros va Hva. exists demo_pte. replace (page_key (floor va)) with 5; [apply lookup_singleton_eq|].
    unfold page_key, floor, PAGE_SIZE. lia.
  - exists v. split; [exact Hr|]. rewrite Hc. vm_compute. reflexivity.
Defined.

Lemma user_buffer_iterates_witness : iter_collect 5 (into_iter [[7]; [3; 4; 5]]) = Ok [7; 3; 4; 5].
Proof.
  apply (user_buffer_iterates [[7]; [3; 4; 5]]). apply Forall_cons. split; [discriminate|].
  apply Forall_cons. split; [discriminate|]. apply Forall_nil. exact I.
Defined.

(** The page of the table holds the bytes [hi] and a zero. *)
Definition demo_page : page := [Byte.x68; Byte.x69; Byte.x00] ++ replicate 4093 Byte.xff.

Lemma demo_user_memory :
  ∃ s pt, pt_rep 0x80400 s pt {[ 5 := demo_pte ]} ∧
    ∀ o c, demo_page !! Z.to_nat o = Some c → 0 ≤ o < 4096 →
      user_byte (mem s) {[ 5 := demo_pte ]} (0x5000 + o) = Some c.
Proof.
  destruct demo_table as (s & pt & Hrep & _ & He). exists (with_mem (<[0x80777 := demo_page]> (mem s)) s), pt. split.
  { apply pt_rep_other; [exact Hrep| |reflexivity]. intros Hin%(rep_frames_range _ _ _ _ _ Hrep). lia. }
  intros o c Hc Ho. unfold user_byte. replace (page_key (floor (0x5000 + o))) with 5
    by (unfold page_key, floor, PAGE_SIZE; lia).
  rewrite lookup_singleton_eq. cbn [mbind option_bind]. change (pte_ppn demo_pte) with 0x80777.
  cbn [with_mem mem]. rewrite lookup_insert_eq. cbn [mbind option_bind].
  by replace ((0x5000 + o) mod 4096) with o by lia.
Qed.

Lemma translated_str_reads_witness :
  ∃ s pt, translated_str 3 (token pt) 0x5000 s = Ok (s, [Byte.x68; Byte.x69]).
Proof.
  destruct demo_user_memory as (s' & pt & Hrep' & Hbyte). exists s', pt.
  apply (translated_str_reads 0x80400 s' pt {[ 5 := demo_pte ]} 0x5000 [Byte.x68; Byte.x69] 3).
  - exact Hrep'.
  - intros v pte [_ <-]%lookup_singleton_Some. discriminate.
  - split; [apply (Hbyte 0); [reflexivity|lia]|]. split; [discriminate|].
    split; [apply (Hbyte 1); [reflexivity|lia]|]. split; [discriminate|].
    apply (Hbyte 2); [reflexivity|lia].
  - lia.
  - simpl. lia.
  - simpl. lia.
Defined.
