(* ===== verification/MemorySet.v ===== *)
(** * Address spaces ([os/src/mm/memory_set.rs])

    A [MapArea] is a range of pages with the frames it owns; a [MemorySet] is a
    page table with its areas.  A [FrameTracker] gives its frame back when it is
    dropped, so that an area that is dropped, a key that is overwritten in or
    removed from [data_frames], and a page table that is dropped call
    [frame_dealloc]: the calls are written out where the source drops a value.

    Symbols of the linker script and the ELF reader are parameters. *)

From S2P Require Import Prelude Bytes Address FrameAlloc PageTable.

(** ** Data *)
Inductive MapType := Identical | Framed.

#[export] Instance MapType_eq_dec : EqDecision MapType.
Proof. solve_decision. Defined.

(** [MapPermission], its bits *)
Definition PERM_R : Z := 2.
Definition PERM_W : Z := 4.
Definition PERM_X : Z := 8.
Definition PERM_U : Z := 16.

(** [BTreeMap<VirtPageNum, FrameTracker>]: the pairs in the order of their keys *)
Definition btree := list (Z * Z).

Fixpoint btree_insert (k v : Z) (t : btree) : btree * option Z :=
  match t with
  | [] => ([(k, v)], None)
  | (k', v') :: t' =>
      if k <? k' then ((k, v) :: t, None)
      else if k =? k' then ((k, v) :: t', Some v')
      else let '(t'', old) := btree_insert k v t' in ((k', v') :: t'', old)
  end.

Fixpoint btree_remove (k : Z) (t : btree) : btree * option Z :=
  match t with
  | [] => ([], None)
  | (k', v') :: t' =>
      if k =? k' then (t', Some v')
      else let '(t'', old) := btree_remove k t' in ((k', v') :: t'', old)
  end.

Record MapArea := mkArea {
  vpn_range : SimpleRange;
  data_frames : btree;
  map_type : MapType;
  map_perm : Z;
}.

Record MemorySet := mkMemorySet { page_table : PageTable; areas : list MapArea }.

Definition with_frames (t : btree) (a : MapArea) : MapArea :=
  mkArea (vpn_range a) t (map_type a) (map_perm a).

(** The frames of an area. *)
Definition area_frames (a : MapArea) : list Z := (data_frames a).*2.

(** ** Dropping *)
Definition drop_option (o : option Z) : M mm unit :=
  match o with Some f => frame_dealloc f | None => mret tt end.

Definition drop_frames (fs : list Z) : M mm unit := for_ fs (λ _ f, frame_dealloc f) tt.

Definition drop_area (a : MapArea) : M mm unit := drop_frames (area_frames a).
Definition drop_areas (l : list MapArea) : M mm unit := for_ l (λ _ a, drop_area a) tt.

(** Fields in the order of the declaration. *)
Definition drop_memory_set (ms : MemorySet) : M mm unit :=
  drop_frames (frames (page_table ms));; drop_areas (areas ms).

(** ** [MapArea] *)
Definition area_of (start_vpn end_vpn : Z) (ty : MapType) (perm : Z) : M mm MapArea :=
  assert_ (start_vpn <=? end_vpn);;
  mret (mkArea (mkRange start_vpn end_vpn) [] ty perm).

Definition area_new (start_va end_va : Z) (ty : MapType) (perm : Z) : M mm MapArea :=
  area_of (floor start_va) (ceil end_va) ty perm.

Definition from_another (another : MapArea) : M mm MapArea :=
  area_of (l (vpn_range another)) (r (vpn_range another)) (map_type another) (map_perm another).

Definition map_one (vpn : Z) (a : MapArea) (pt : PageTable) : M mm (MapArea * PageTable * Z) :=
  '(a, ppn) ← (match map_type a with
               | Identical => mret (a, vpn)
               | Framed =>
                   r ← frame_alloc; frame ← unwrap r;
                   let '(t, old) := btree_insert vpn frame (data_frames a) in
                   drop_option old;;
                   mret (with_frames t a, frame)
               end);
  '(pt, r) ← map vpn ppn (map_perm a) pt;
  mret (a, pt, r).

Definition unmap_one (vpn : Z) (a : MapArea) (pt : PageTable) : M mm (MapArea * PageTable) :=
  a ← (match map_type a with
       | Framed => let '(t, old) := btree_remove vpn (data_frames a) in
                   drop_option old;;
                   mret (with_frames t a)
       | Identical => mret a
       end);
  pt ← unmap vpn pt;
  mret (a, pt).

(** The loop of [map]; it stops at the first page that is mapped already. *)
Fixpoint area_map_loop (vpns : list Z) (a : MapArea) (pt : PageTable) : M mm (MapArea * PageTable * Z) :=
  match vpns with
  | [] => mret (a, pt, 0)
  | vpn :: vpns =>
      '(a, pt, r) ← map_one vpn a pt;
      if r =? -1 then mret (a, pt, -1) else area_map_loop vpns a pt
  end.

Definition area_map (a : MapArea) (pt : PageTable) : M mm (MapArea * PageTable * Z) :=
  area_map_loop (range_pages (vpn_range a)) a pt.

Definition area_unmap (a : MapArea) (pt : PageTable) : M mm (MapArea * PageTable) :=
  for_ (range_pages (vpn_range a)) (λ '(a, pt) vpn, unmap_one vpn a pt) (a, pt).

(** The loop of [copy_data], at most [fuel] pages. *)
Fixpoint copy_loop (fuel : nat) (pt : PageTable) (data : list byte) (start current_vpn : Z) : M mm unit :=
  match fuel with
  | O => mthrow OutOfFuel
  | S fuel =>
      let len := Z.of_nat (length data) in
      src ← slice data start (Z.min len (start + PAGE_SIZE));
      r ← translate current_vpn pt; pte ← unwrap r;
      page ← read_page (pte_ppn pte);
      dst ← copy_into page 0 (Z.of_nat (length src)) src;
      write_page (pte_ppn pte) dst;;
      let start := start + PAGE_SIZE in
      if len <=? start then mret tt
      else copy_loop fuel pt data start (step current_vpn)
  end.

Definition copy_data (a : MapArea) (pt : PageTable) (data : list byte) : M mm unit :=
  assert_ (bool_decide (map_type a = Framed));;
  copy_loop (S (Z.to_nat (Z.of_nat (length data) / PAGE_SIZE))) pt data 0 (l (vpn_range a)).

(** ** [MemorySet] *)
Definition new_bare : M mm MemorySet :=
  pt ← pt_new; mret (mkMemorySet pt []).

Definition ms_token (ms : MemorySet) : Z := token (page_table ms).

Definition ms_translate (vpn : Z) (ms : MemorySet) : M mm (option Z) := translate vpn (page_table ms).

Definition push (a : MapArea) (data : option (list byte)) (ms : MemorySet) : M mm (MemorySet * Z) :=
  '(a, pt, r) ← area_map a (page_table ms);
  if r =? -1 then
    drop_area a;;
    mret (mkMemorySet pt (areas ms), -1)
  else
    match data with Some data => copy_data a pt data | None => mret tt end;;
    mret (mkMemorySet pt (areas ms ++ [a]), 0).

(** Assume that no conflicts. *)
Definition insert_framed_area (start_va end_va permission : Z) (ms : MemorySet) : M mm (MemorySet * Z) :=
  a ← area_new start_va end_va Framed permission;
  push a None ms.

Definition remove_framed_area (start_va end_va : Z) (ms : MemorySet) : M mm (MemorySet * Z) :=
  let start_vpn := floor start_va in
  let end_vpn := ceil end_va in
  '(ms, len) ←
    (match find_idx (λ a, (start_vpn <=? l (vpn_range a)) && (r (vpn_range a) <=? end_vpn)) (areas ms) with
     | Some (idx, a) =>
         let len := wrap64 (r (vpn_range a) - l (vpn_range a)) in
         '(a, pt) ← area_unmap a (page_table ms);
         drop_area a;;
         mret (mkMemorySet pt (remove_nth idx (areas ms)), len)
     | None => mret (ms, 0)
     end);
  mret (ms, if len =? wrap64 (end_vpn - start_vpn) then 0 else -1).

Definition remove_area_with_start_vpn (start_vpn : Z) (ms : MemorySet) : M mm MemorySet :=
  match find_idx (λ a, l (vpn_range a) =? start_vpn) (areas ms) with
  | Some (idx, a) =>
      '(a, pt) ← area_unmap a (page_table ms);
      drop_area a;;
      mret (mkMemorySet pt (remove_nth idx (areas ms)))
  | None => mret ms
  end.

Definition recycle_data_pages (ms : MemorySet) : M mm MemorySet :=
  drop_areas (areas ms);;
  mret (mkMemorySet (page_table ms) []).

Section symbols.
Context (strampoline : Z).

(** Mention that trampoline is not collected by areas. *)
Definition map_trampoline (ms : MemorySet) : M mm MemorySet :=
  assert_ (page_offset TRAMPOLINE =? 0);;
  assert_ (page_offset strampoline =? 0);;
  '(pt, _) ← map (floor TRAMPOLINE) (floor strampoline) (Z.lor FLAG_R FLAG_X) (page_table ms);
  mret (mkMemorySet pt (areas ms)).

(** [MapArea::new] and [push], the result ignored *)
Definition push_new (start_va end_va : Z) (ty : MapType) (perm : Z) (data : option (list byte))
    (ms : MemorySet) : M mm MemorySet :=
  a ← area_new start_va end_va ty perm;
  '(ms, _) ← push a data ms;
  mret ms.

(** The sections of the kernel. *)
Record kernel_symbols := mkSymbols {
  stext : Z; etext : Z; srodata : Z; erodata : Z; sdata : Z; edata : Z;
  sbss_with_stack : Z; ebss : Z; ekernel : Z;
}.

Definition MMIO : list (Z * Z) := [(0x10001000, 0x1000)].

(** Without kernel stacks. *)
Definition new_kernel (k : kernel_symbols) : M mm MemorySet :=
  ms ← new_bare;
  ms ← map_trampoline ms;
  ms ← push_new (stext k) (etext k) Identical (Z.lor PERM_R PERM_X) None ms;
  ms ← push_new (srodata k) (erodata k) Identical PERM_R None ms;
  ms ← push_new (sdata k) (edata k) Identical (Z.lor PERM_R PERM_W) None ms;
  ms ← push_new (sbss_with_stack k) (ebss k) Identical (Z.lor PERM_R PERM_W) None ms;
  ms ← push_new (ekernel k) MEMORY_END Identical (Z.lor PERM_R PERM_W) None ms;
  for_ MMIO (λ ms pair,
    push_new (fst pair) (wrap64 (fst pair + snd pair)) Identical (Z.lor PERM_R PERM_W) None ms) ms.

(** What the kernel reads of an ELF file: program headers, magic and entry point, as
    [xmas_elf] reports them; [None] where it reports an error. *)
Record ProgramHeader := mkPh {
  ph_load : option bool; ph_virtual_addr : Z; ph_mem_size : Z; ph_offset : Z; ph_file_size : Z;
  ph_read : bool; ph_write : bool; ph_execute : bool;
}.
Record ElfFile := mkElf { elf_magic : list Z; elf_phs : list (option ProgramHeader); elf_entry : Z }.

Section elf.
Context (elf_new : list byte → option ElfFile).

Definition ph_perm (ph : ProgramHeader) : Z :=
  let map_perm := PERM_U in
  let map_perm := if ph_read ph then Z.lor map_perm PERM_R else map_perm in
  let map_perm := if ph_write ph then Z.lor map_perm PERM_W else map_perm in
  if ph_execute ph then Z.lor map_perm PERM_X else map_perm.

Definition load_segment (elf_data : list byte) (st : MemorySet * Z) (oph : option ProgramHeader) :
    M mm (MemorySet * Z) :=
  let '(ms, max_end_vpn) := st in
  ph ← unwrap oph;
  load ← unwrap (ph_load ph);
  if (load : bool) then
    let start_va := ph_virtual_addr ph in
    let end_va := wrap64 (ph_virtual_addr ph + ph_mem_size ph) in
    a ← area_new start_va end_va Framed (ph_perm ph);
    let max_end_vpn := r (vpn_range a) in
    data ← slice elf_data (ph_offset ph) (wrap64 (ph_offset ph + ph_file_size ph));
    '(ms, _) ← push a (Some data) ms;
    mret (ms, max_end_vpn)
  else mret (ms, max_end_vpn).

(** Include sections in elf and trampoline and TrapContext and user stack,
    also returns user_sp and entry point. *)
Definition from_elf (elf_data : list byte) : M mm (MemorySet * Z * Z) :=
  ms ← new_bare;
  ms ← map_trampoline ms;
  elf ← unwrap (elf_new elf_data);
  assert_ (bool_decide (elf_magic elf = [0x7f; 0x45; 0x4c; 0x46]));;
  '(ms, max_end_vpn) ← for_ (elf_phs elf) (load_segment elf_data) (ms, 0);
  let user_stack_bottom := wrap64 (addr_of_page max_end_vpn + PAGE_SIZE) in
  let user_stack_top := wrap64 (user_stack_bottom + USER_STACK_SIZE) in
  ms ← push_new user_stack_bottom user_stack_top Framed (Z.lor (Z.lor PERM_R PERM_W) PERM_U) None ms;
  ms ← push_new TRAP_CONTEXT TRAMPOLINE Framed (Z.lor PERM_R PERM_W) None ms;
  mret (ms, user_stack_top, elf_entry elf).
End elf.

(** [dst.get_bytes_array().copy_from_slice(src.get_bytes_array())] *)
Definition copy_page (user_space ms : MemorySet) (vpn : Z) : M mm unit :=
  r ← ms_translate vpn user_space; src ← unwrap r;
  r ← ms_translate vpn ms; dst ← unwrap r;
  page ← read_page (pte_ppn src);
  write_page (pte_ppn dst) page.

Definition copy_area (user_space : MemorySet) (ms : MemorySet) (a : MapArea) : M mm MemorySet :=
  new_area ← from_another a;
  '(ms, _) ← push new_area None ms;
  for_ (range_pages (vpn_range a)) (λ _ vpn, copy_page user_space ms vpn) tt;;
  mret ms.

(** Copy an identical user_space *)
Definition from_existed_user (user_space : MemorySet) : M mm MemorySet :=
  ms ← new_bare;
  ms ← map_trampoline ms;
  for_ (areas user_space) (copy_area user_space) ms.
End symbols.
