(* ===== verification/MemSpec.v ===== *)
(** * What address spaces promise

    An address space owns the frames of its page table and of its areas
    ([ms_inv]): all distinct, all in use, and every page of an area is mapped to
    the frame the area holds for it, with the area's permissions.

    Mapping an area gives zeroed frames that nobody used; removing one gives its
    frames back and unmaps its pages; copying an address space, as [fork] does,
    gives equal pages in other frames.  Frames of others keep their bytes
    throughout ([mm_step]).

    A request that meets a page mapped already is refused, but the pages before
    it stay mapped to frames that were given back. *)

From S2P Require Import Prelude Bytes Address FrameAlloc PageTable MemorySet.

Local Ltac Zify.zify_post_hook ::= Z.to_euclidean_division_equations.

(** ** Maps with the keys in order *)
Lemma btree_insert_last k v t :
  Forall (λ kv : Z * Z, kv.1 < k) t → btree_insert k v t = (t ++ [(k, v)], None).
Proof.
  induction 1 as [|[k' v'] t Hk Ht IH]; [done|]. simpl in *.
  rewrite (proj2 (Z.ltb_ge _ _)), (proj2 (Z.eqb_neq _ _)) by lia. by rewrite IH.
Qed.

Lemma btree_remove_first k v t : btree_remove k ((k, v) :: t) = (t, Some v).
Proof. simpl. by rewrite Z.eqb_refl. Qed.

(** ** One page *)

(** The table has at most [n] more frames and the same root. *)
Definition grows (n : nat) (pt pt' : PageTable) : Prop :=
  (length (frames pt') ≤ length (frames pt) + n)%nat ∧ (∀ p, p ∈ frames pt → p ∈ frames pt') ∧ root_ppn pt' = root_ppn pt.

Definition area_pte (a : MapArea) (f : Z) : Z := pte_new f (Z.lor (map_perm a) FLAG_V).

Lemma map_one_framed lo s pt tr rest vpn a :
  pt_rep lo s pt tr → owns lo s (frames pt ++ rest) → (3 ≤ avail (frame_allocator s))%nat →
  map_type a = Framed → 0 ≤ map_perm a < 2 ^ 8 → Forall (λ kv, kv.1 < vpn) (data_frames a) →
  ∃ s' pt' f,
    map_one vpn a pt s = Ok (s', (with_frames (data_frames a ++ [(vpn, f)]) a, pt', if tr !! page_key vpn then -1 else 0)) ∧
    mm_step lo s (frames pt ++ rest) s' (frames pt' ++ f :: rest) ∧
    pt_rep lo s' pt' (if tr !! page_key vpn then tr else <[page_key vpn := area_pte a f]> tr) ∧
    mem s' !! f = Some zero_page ∧ 0 ≤ f < 2 ^ 44 ∧ grows 2 pt pt' ∧
    ∀ p, p ∈ rest → mem s' !! p = mem s !! p.
Proof.
  intros Hrep Ho Hav Hty Hperm Hk. pose proof (rep_owns _ _ _ _ Hrep) as [Hmm _].
  destruct (frame_alloc_step lo s [] Hmm) as (s1 & f & Hr1 & Hs1 & _ & Hf & Hm1);
    [split; [apply NoDup_nil_2|intros p Hp; by apply elem_of_nil in Hp]|lia|].
  pose proof (fa_range _ _ (mm_fa _ _ Hmm)) as Hrg.
  assert (pt_rep lo s1 pt tr) as Hrep1 by (eapply pt_rep_step; [done|done|intros; apply not_elem_of_nil]).
  pose proof (mm_step_frame lo s [] s1 [f] (frames pt ++ rest) Hs1 Ho) as Hs1'.
  apply (mm_step_perm _ _ _ _ _ (frames pt ++ f :: rest)) in Hs1'; [|simpl; by rewrite Permutation_middle].
  pose proof (step_avail _ _ _ _ _ Hs1) as Ha1. simpl in Ha1.
  destruct (run_map lo s1 pt tr vpn f (map_perm a) Hrep1) as (s2 & pt2 & Hext & Hlen & Hr2 & Hrep2); [lia|lia|done|].
  pose proof (pt_step _ _ _ _ _ _ Hext Hrep2) as Hs2.
  pose proof (mm_step_frame _ _ _ _ _ _ Hs2 (step_owns _ _ _ _ _ Hs1')) as Hs2'.
  assert (∀ p, p ∈ f :: rest → mem s2 !! p = mem s1 !! p) as Hm2.
  { intros p Hp. apply (step_mem _ _ _ _ _ Hs2). destruct (step_owns _ _ _ _ _ Hs1') as [Hnd Hu].
    apply NoDup_app in Hnd as (_ & Hdj & _). split; [intros Hin; by apply (Hdj p)|].
    left. apply Hu. rewrite elem_of_app. by right. }
  exists s2, pt2, f. split; [|split; [by eapply mm_step_trans|split; [done|split; [|split; [lia|split;
    [split; [done|split; apply Hext]|]]]]]].
  - unfold map_one. rewrite Hty.
    erewrite bind_ok; [|erewrite bind_ok by exact Hr1; erewrite bind_ok by apply unwrap_some;
      rewrite btree_insert_last by done; cbn [drop_option]; by erewrite bind_ok by done].
    cbn iota beta. by erewrite bind_ok by exact Hr2.
  - rewrite Hm2, Hm1 by (by left). by rewrite lookup_insert_eq.
  - intros p Hp. rewrite Hm2 by (by right). rewrite Hm1, lookup_insert_ne; [done|].
    intros <-. destruct (step_owns _ _ _ _ _ Hs1') as [Hnd _].
    apply NoDup_app in Hnd as (_ & _ & [Hni _]%NoDup_cons). done.
Qed.

(** ** Areas *)

(** The abstract table after the pages of an area were mapped. *)
Definition map_pages (a : MapArea) (kvs : list (Z * Z)) (tr : gmap Z Z) : gmap Z Z :=
  foldl (λ tr kv, <[page_key kv.1 := area_pte a kv.2]> tr) tr kvs.

Lemma page_key_ne v w : 0 < w - v < 2 ^ 27 → page_key w ≠ page_key v.
Proof. unfold page_key. lia. Qed.

Lemma range_S l n : range l (l + Z.of_nat (S n)) = l :: range (l + 1) (l + 1 + Z.of_nat n).
Proof. rewrite range_cons by lia. f_equal. f_equal. lia. Qed.

Lemma area_map_framed n : ∀ lo s pt tr rest l a,
  pt_rep lo s pt tr → owns lo s (frames pt ++ rest) → (3 * n ≤ avail (frame_allocator s))%nat →
  map_type a = Framed → 0 ≤ map_perm a < 2 ^ 8 → Forall (λ kv, kv.1 < l) (data_frames a) →
  (∀ v, l ≤ v < l + Z.of_nat n → tr !! page_key v = None) → Z.of_nat n ≤ 2 ^ 27 →
  ∃ s' pt' fs, let kvs := zip (range l (l + Z.of_nat n)) fs in
    area_map_loop (range l (l + Z.of_nat n)) a pt s = Ok (s', (with_frames (data_frames a ++ kvs) a, pt', 0)) ∧
    length fs = n ∧ mm_step lo s (frames pt ++ rest) s' (frames pt' ++ fs ++ rest) ∧
    pt_rep lo s' pt' (map_pages a kvs tr) ∧
    Forall (λ f, mem s' !! f = Some zero_page ∧ 0 ≤ f < 2 ^ 44) fs ∧
    grows (2 * n) pt pt' ∧
    ∀ p, p ∈ rest → mem s' !! p = mem s !! p.
Proof.
  induction n as [|n IH]; intros lo s pt tr rest l a Hrep Ho Hav Hty Hp Hk Hn Hb.
  { exists s, pt, []. rewrite range_nil by lia. cbn zeta. simpl. rewrite app_nil_r.
    destruct (rep_owns _ _ _ _ Hrep) as [Hmm _]. split_and!; try done; [by destruct a|by apply mm_step_refl|split; [lia|done]]. }
  destruct (map_one_framed lo s pt tr rest l a Hrep Ho) as
    (s1 & pt1 & f & Hr1 & Hs1 & Hrep1 & Hz1 & Hf1 & [Hl1 Hg1] & Hm1); [lia|done..|].
  rewrite (Hn l) in Hr1, Hrep1 by lia.
  pose proof (step_avail _ _ _ _ _ Hs1) as Ha. rewrite !length_app in Ha. simpl in Ha.
  destruct (IH lo s1 pt1 (<[page_key l := area_pte a f]> tr) (f :: rest) (l + 1)
    (with_frames (data_frames a ++ [(l, f)]) a)) as (s2 & pt2 & fs & Hr2 & Hlen & Hs2 & Hrep2 & Hz2 & [Hl2 Hg2] & Hm2).
  - done.
  - apply (step_owns _ _ _ _ _ Hs1).
  - lia.
  - done.
  - done.
  - simpl. apply Forall_app. split; [eapply Forall_impl; [exact Hk|simpl; lia]|]. apply Forall_singleton. simpl. lia.
  - intros v Hv. rewrite lookup_insert_ne; [apply Hn; lia|]. intros He. apply (page_key_ne l v); [lia|done].
  - lia.
  - exists s2, pt2, (f :: fs). rewrite range_S. cbn [zip zip_with area_map_loop].
    split; [|split; [|split; [|split; [|split; [|split]]]]].
    + erewrite bind_ok by exact Hr1. cbn iota beta. change (0 =? -1) with false. cbn iota.
      rewrite Hr2. cbn zeta. simpl. unfold with_frames. simpl. by rewrite <-app_assoc.
    + simpl. lia.
    + eapply mm_step_trans; [exact Hs1|]. eapply mm_step_perm; [|exact Hs2].
      by rewrite <-Permutation_middle.
    + exact Hrep2.
    + apply Forall_cons. split; [|done]. split; [|done]. rewrite Hm2 by (by left). done.
    + destruct Hg1 as [Hg1 He1], Hg2 as [Hg2 He2]. split; [lia|]. split; [auto|congruence].
    + intros p Hpr. rewrite Hm2 by (by right). by apply Hm1.
Qed.

(** A run over a prefix. *)
Lemma area_map_app xs ys a pt s s' a' pt' :
  area_map_loop xs a pt s = Ok (s', (a', pt', 0)) →
  area_map_loop (xs ++ ys) a pt s = area_map_loop ys a' pt' s'.
Proof.
  revert a pt s. induction xs as [|x xs IH]; intros a pt s; cbn [app area_map_loop].
  { by intros [= -> -> ->]. }
  unfold mbind, M_bind. destruct (map_one x a pt s) as [[s1 [[a1 pt1] r1]]|]; [|done].
  destruct (r1 =? -1); [done|]. apply IH.
Qed.

(** Giving frames back. *)
Lemma drop_frames_ok lo fs : ∀ s rest,
  mm_ok lo s → owns lo s (fs ++ rest) →
  ∃ s', drop_frames fs s = Ok (s', tt) ∧ mm_step lo s (fs ++ rest) s' rest ∧ mem s' = mem s.
Proof.
  induction fs as [|f fs IH]; intros s rest Hmm Ho.
  { exists s. split; [done|]. split; [by apply mm_step_refl|done]. }
  destruct (frame_dealloc_step lo s f (fs ++ rest) Hmm Ho) as (s1 & Hr1 & Hs1 & Hm1).
  destruct (IH s1 rest (step_ok _ _ _ _ _ Hs1) (step_owns _ _ _ _ _ Hs1)) as (s2 & Hr2 & Hs2 & Hm2).
  exists s2. split; [|split; [by eapply mm_step_trans|congruence]].
  unfold drop_frames. cbn [for_]. by erewrite bind_ok by exact Hr1.
Qed.

Lemma lookup_map_pages_ne a kvs tr k :
  (∀ kv, kv ∈ kvs → page_key kv.1 ≠ k) → map_pages a kvs tr !! k = tr !! k.
Proof.
  revert tr. induction kvs as [|kv kvs IH]; intros tr Hk; [done|]. cbn [map_pages foldl].
  fold (map_pages a kvs (<[page_key kv.1 := area_pte a kv.2]> tr)).
  rewrite IH by (intros; apply Hk; by right). apply lookup_insert_ne. apply Hk. by left.
Qed.

Lemma lookup_map_pages a kvs tr kv :
  NoDup (page_key <$> kvs.*1) → kv ∈ kvs → map_pages a kvs tr !! page_key kv.1 = Some (area_pte a kv.2).
Proof.
  revert tr. induction kvs as [|kv' kvs IH]; intros tr Hnd Hin; [by apply elem_of_nil in Hin|].
  cbn [fmap list_fmap] in Hnd. apply NoDup_cons in Hnd as [Hni Hnd]. cbn [map_pages foldl].
  fold (map_pages a kvs (<[page_key kv'.1 := area_pte a kv'.2]> tr)).
  apply elem_of_cons in Hin as [->|Hin]; [|by apply IH].
  rewrite lookup_map_pages_ne; [by rewrite lookup_insert_eq|].
  intros kv Hkv He. apply Hni. rewrite <-He. apply list_elem_of_fmap_2. by apply list_elem_of_fmap_2.
Qed.

(** ** Address spaces *)
Definition area_pages (a : MapArea) : list Z := range (l (vpn_range a)) (r (vpn_range a)).
Definition area_keys (a : MapArea) : list Z := page_key <$> area_pages a.

(** The pages of an area with the frames behind them. *)
Definition area_map_of (a : MapArea) : list (Z * Z) :=
  match map_type a with Framed => data_frames a | Identical => (λ v, (v, v)) <$> area_pages a end.

Record area_ok (tr : gmap Z Z) (a : MapArea) : Prop := {
  ar_range : 0 ≤ l (vpn_range a) ≤ r (vpn_range a) ∧ r (vpn_range a) < 2 ^ 64;
  ar_small : r (vpn_range a) - l (vpn_range a) ≤ 2 ^ 27;
  ar_perm : 0 ≤ map_perm a < 2 ^ 8;
  ar_pages : (area_map_of a).*1 = area_pages a;
  ar_ident : map_type a = Identical → data_frames a = [];
  ar_frames : ∀ f, f ∈ area_frames a → 0 ≤ f < 2 ^ 44;
  ar_ptes : ∀ kv, kv ∈ area_map_of a → tr !! page_key kv.1 = Some (area_pte a kv.2);
}.

Definition owned (ms : MemorySet) : list Z := frames (page_table ms) ++ concat (area_frames <$> areas ms).

Record ms_inv (lo : Z) (s : mm) (ms : MemorySet) (tr : gmap Z Z) : Prop := {
  ms_pt : pt_rep lo s (page_table ms) tr;
  ms_owns : owns lo s (owned ms);
  ms_areas : Forall (area_ok tr) (areas ms);
  ms_keys : NoDup (concat (area_keys <$> areas ms));
}.

(** A framed area that is not mapped yet. *)
Record area_fresh (tr : gmap Z Z) (a : MapArea) : Prop := {
  fr_range : 0 ≤ l (vpn_range a) ≤ r (vpn_range a) ∧ r (vpn_range a) < 2 ^ 64;
  fr_small : r (vpn_range a) - l (vpn_range a) ≤ 2 ^ 27;
  fr_perm : 0 ≤ map_perm a < 2 ^ 8;
  fr_type : map_type a = Framed;
  fr_empty : data_frames a = [];
  fr_free : ∀ v, v ∈ area_pages a → tr !! page_key v = None;
}.

(** Frames an area may need: one for each page and two for its tables. *)
Definition area_need (a : MapArea) : nat := 3 * length (area_pages a).

Lemma NoDup_page_keys l r : r - l ≤ 2 ^ 27 → NoDup (page_key <$> range l r).
Proof.
  intros Hb. apply NoDup_fmap_2_strong; [|apply NoDup_seqZ].
  intros x y Hx%elem_of_range Hy%elem_of_range. unfold page_key. lia.
Qed.

Lemma length_area_pages a : length (area_pages a) = Z.to_nat (r (vpn_range a) - l (vpn_range a)).
Proof. unfold area_pages, range. by rewrite length_seqZ. Qed.

(** An area that is mapped has its keys in the table. *)
Lemma area_ok_keys tr a k : area_ok tr a → k ∈ area_keys a → is_Some (tr !! k).
Proof.
  intros [_ _ _ Hp _ _ Ht] Hk. unfold area_keys in Hk. rewrite <-Hp in Hk.
  apply list_elem_of_fmap in Hk as (v & -> & Hv). apply list_elem_of_fmap in Hv as (kv & -> & Hkv). eauto.
Qed.

Lemma area_map_of_keys tr a kv : area_ok tr a → kv ∈ area_map_of a → page_key kv.1 ∈ area_keys a.
Proof.
  intros [_ _ _ Hp _ _ _] Hkv. unfold area_keys. rewrite <-Hp. apply list_elem_of_fmap_2. by apply list_elem_of_fmap_2.
Qed.

Lemma area_ok_ext tr tr' a :
  (∀ k, k ∈ area_keys a → tr' !! k = tr !! k) → area_ok tr a → area_ok tr' a.
Proof.
  intros Hk Ha. pose proof Ha as [? ? ? ? ? ? Ht]. split; try done.
  intros kv Hkv. rewrite Hk; [by apply Ht|]. by eapply area_map_of_keys.
Qed.

Lemma area_map_ok lo s ms tr a :
  ms_inv lo s ms tr → area_fresh tr a → (area_need a ≤ avail (frame_allocator s))%nat →
  ∃ s' pt' fs, let a' := with_frames (zip (area_pages a) fs) a in
    let ms' := mkMemorySet pt' (areas ms ++ [a']) in
    let tr' := map_pages a (zip (area_pages a) fs) tr in
    area_map a (page_table ms) s = Ok (s', (a', pt', 0)) ∧ length fs = length (area_pages a) ∧
    mm_step lo s (owned ms) s' (owned ms') ∧ ms_inv lo s' ms' tr' ∧
    Forall (λ f, mem s' !! f = Some zero_page) fs ∧
    grows (2 * length fs) (page_table ms) pt' ∧
    ∀ p, p ∈ concat (area_frames <$> areas ms) → mem s' !! p = mem s !! p.
Proof.
  intros [Hpt Ho Har Hks] [Hr Hsm Hpm Hty Hem Hfree] Hav. pose proof (length_area_pages a) as Hlp.
  destruct (area_map_framed (length (area_pages a)) lo s (page_table ms) tr (concat (area_frames <$> areas ms))
    (l (vpn_range a)) a Hpt Ho Hav Hty Hpm) as (s' & pt' & fs & Hrun & Hlen & Hs & Hrep & Hz & [Hl Hg] & Hm).
  { rewrite Hem. constructor. }
  { intros v Hv. apply Hfree, elem_of_range. lia. }
  { lia. }
  replace (l (vpn_range a) + Z.of_nat (length (area_pages a))) with (r (vpn_range a)) in * by lia.
  fold (area_pages a) in *. rewrite Hem in Hrun. cbn [app] in Hrun.
  assert ((zip (area_pages a) fs).*1 = area_pages a) as Hk1 by (rewrite fst_zip; [done|lia]).
  assert ((zip (area_pages a) fs).*2 = fs) as Hk2 by (rewrite snd_zip; [done|lia]).
  assert (NoDup (area_keys a)) as Hnd by (by apply NoDup_page_keys).
  exists s', pt', fs. cbn zeta.
  split; [unfold area_map; rewrite range_pages_range by lia; exact Hrun|]. split; [done|].
  assert (frames pt' ++ fs ++ concat (area_frames <$> areas ms) ≡ₚ
    owned (mkMemorySet pt' (areas ms ++ [with_frames (zip (area_pages a) fs) a]))) as Hperm.
  { unfold owned. simpl. rewrite fmap_app, concat_app. simpl. unfold area_frames at 3. simpl.
    rewrite Hk2, app_nil_r. apply Permutation_app_head, Permutation_app_comm. }
  split; [by eapply mm_step_perm|].
  split; [|split; [eapply Forall_impl; [exact Hz|]; tauto|split; [split; [lia|done]|done]]].
  split; [done|by eapply owns_perm, step_owns| |]; simpl.
  - apply Forall_app. split.
    + eapply Forall_impl; [exact Har|]. intros a0 Ha0. eapply area_ok_ext; [|exact Ha0].
      intros k Hk. apply lookup_map_pages_ne. intros kv Hkv He. destruct (area_ok_keys _ _ _ Ha0 Hk) as [w Hw].
      assert (kv.1 ∈ area_pages a) as Hp by (rewrite <-Hk1; by apply list_elem_of_fmap_2).
      rewrite <-He, (Hfree _ Hp) in Hw. done.
    + apply Forall_singleton. split; [done|done|done| | | |]; unfold area_map_of; simpl; rewrite ?Hty; try done.
      * intros f Hf. unfold area_frames in Hf. simpl in Hf. rewrite Hk2 in Hf.
        rewrite Forall_forall in Hz. by apply Hz.
      * intros kv Hkv. rewrite lookup_map_pages; [done| |done]. by rewrite Hk1.
  - rewrite fmap_app, concat_app. simpl. rewrite app_nil_r. apply NoDup_app. split_and!; [done| |done].
    intros k Hk Hin. apply elem_of_concat_fmap in Hk as (a0 & Ha0 & Hk).
    rewrite Forall_forall in Har. destruct (area_ok_keys _ _ _ (Har _ Ha0) Hk) as [w Hw].
    apply list_elem_of_fmap in Hin as (v & -> & Hv). rewrite (Hfree v Hv) in Hw. done.
Qed.

(** ** Filling pages *)
Lemma write_page_step lo s own p b :
  mm_ok lo s → owns lo s own → p ∈ own → length b = 4096%nat →
  ∃ s', write_page p b s = Ok (s', tt) ∧ mm_step lo s own s' own ∧ s' = with_mem (<[p := b]> (mem s)) s.
Proof.
  intros Hmm Ho Hp Hb. destruct (mm_mem _ _ Hmm p) as (b0 & Hb0 & _); [by apply in_use_managed, Ho|].
  eexists. split; [by apply (write_page_ok p b0)|]. split; [|done].
  split; simpl; try done; [by apply mm_ok_write|by left|].
  intros q [Hq _]. apply lookup_insert_ne. by intros <-.
Qed.

(** A page of an area is written. *)
Lemma ms_inv_write lo s ms tr p b :
  ms_inv lo s ms tr → p ∈ concat (area_frames <$> areas ms) → length b = 4096%nat →
  ms_inv lo (with_mem (<[p := b]> (mem s)) s) ms tr.
Proof.
  intros [Hpt Ho Har Hk] Hp Hb. split; [|done..]. apply pt_rep_other; [done| |done].
  destruct Ho as [Hnd _]. apply NoDup_app in Hnd as (_ & Hdj & _). intros Hin. by apply (Hdj p).
Qed.

Lemma area_pte_ppn a f : 0 ≤ f < 2 ^ 44 → 0 ≤ map_perm a < 2 ^ 8 → pte_ppn (area_pte a f) = f.
Proof. intros Hf Hp. apply pte_ppn_new; [done|]. apply lor_flags; [done|unfold FLAG_V; lia]. Qed.

(** Page [k] of an area. *)
Lemma area_page lo s ms tr a (k : nat) f :
  ms_inv lo s ms tr → a ∈ areas ms → map_type a = Framed → area_frames a !! k = Some f →
  translate (l (vpn_range a) + Z.of_nat k) (page_table ms) s = Ok (s, Some (area_pte a f)) ∧
  pte_ppn (area_pte a f) = f ∧ f ∈ concat (area_frames <$> areas ms) ∧ ∃ b, mem s !! f = Some b ∧ length b = 4096%nat.
Proof.
  intros [Hpt Ho Har _] Ha Hty Hk. rewrite Forall_forall in Har. destruct (Har a Ha) as [_ _ Hpm Hp _ Hfr Ht].
  unfold area_map_of in *. rewrite Hty in *.
  unfold area_frames in Hk. apply list_lookup_fmap_Some in Hk as ([v f'] & -> & Hkv). simpl.
  assert (v = l (vpn_range a) + Z.of_nat k) as ->.
  { assert ((data_frames a).*1 !! k = Some v) as Hv by (by rewrite list_lookup_fmap, Hkv).
    rewrite Hp in Hv. unfold area_pages, range in Hv. apply lookup_seqZ in Hv. lia. }
  pose proof (list_elem_of_lookup_2 _ _ _ Hkv) as Hin. pose proof (Ht _ Hin) as Hpte. simpl in Hpte.
  assert (f' ∈ area_frames a) as Hf' by (by apply (list_elem_of_fmap_2 snd) in Hin).
  assert (f' ∈ concat (area_frames <$> areas ms)) as Hc by (apply elem_of_concat_fmap; eauto).
  split; [by eapply run_translate_mapped|]. split; [apply area_pte_ppn; auto|]. split; [done|].
  destruct (rep_owns _ _ _ _ Hpt) as [Hmm _]. apply (mm_mem _ _ Hmm). apply in_use_managed; [done|].
  apply Ho. unfold owned. rewrite elem_of_app. by right.
Qed.

(** Bytes [4096 k ..] of [data], filled with zeros to a page. *)
Definition chunk (data : list byte) (k : nat) : list byte :=
  let c := take 4096 (drop (4096 * k) data) in c ++ replicate (4096 - length c) Byte.x00.

Lemma length_chunk data k : length (chunk data k) = 4096%nat.
Proof. unfold chunk. rewrite length_app, length_replicate, length_take. lia. Qed.

Lemma chunk_past data k : (length data ≤ 4096 * k)%nat → chunk data k = zero_page.
Proof. intros Hl. unfold chunk. rewrite drop_ge by done. done. Qed.

Section copy.
Context (lo : Z) (ms : MemorySet) (tr : gmap Z Z) (a : MapArea) (data : list byte).
Context (Ha : a ∈ areas ms) (Hty : map_type a = Framed).
Context (Hlen : (length data ≤ 4096 * length (area_frames a))%nat).

Lemma copy_loop_ok fuel : ∀ (k : nat) s,
  ms_inv lo s ms tr → (k < length (area_frames a))%nat → (k = 0 ∨ 4096 * k < length data)%nat →
  (length data < 4096 * (k + fuel))%nat →
  (∀ j f, (k ≤ j)%nat → area_frames a !! j = Some f → mem s !! f = Some zero_page) →
  ∃ s', copy_loop fuel (page_table ms) data (4096 * Z.of_nat k) (l (vpn_range a) + Z.of_nat k) s = Ok (s', tt) ∧
    ms_inv lo s' ms tr ∧ mm_step lo s (owned ms) s' (owned ms) ∧
    (∀ j f, area_frames a !! j = Some f →
       mem s' !! f = if decide (k ≤ j)%nat then Some (chunk data j) else mem s !! f) ∧
    ∀ p, p ∉ area_frames a → mem s' !! p = mem s !! p.
Proof.
  induction fuel as [|fuel IH]; intros k s Hinv Hk Hst Hfuel Hz.
  { destruct (decide (k = 0%nat)); lia. }
  destruct (lookup_lt_is_Some_2 (area_frames a) k Hk) as [f Hf].
  destruct (area_page lo s ms tr a k f Hinv Ha Hty Hf) as (Htr & Hppn & Hfo & _).
  assert (NoDup (area_frames a)) as Hnd.
  { destruct (ms_owns _ _ _ _ Hinv) as [Hnd _]. apply NoDup_app in Hnd as (_ & _ & Hnd).
    apply list_elem_of_lookup in Ha as [i Hi]. rewrite <-(take_drop_middle _ _ _ Hi), fmap_app in Hnd.
    simpl in Hnd. rewrite concat_app in Hnd. simpl in Hnd.
    apply NoDup_app in Hnd as (_ & _ & [Hnd _]%NoDup_app). done. }
  set (src := take 4096 (drop (4096 * k) data)).
  destruct (write_page_step lo s (owned ms) f (chunk data k)) as (s1 & Hw & Hs1 & Hs1');
    [by apply (rep_owns _ _ _ _ (ms_pt _ _ _ _ Hinv))|apply Hinv|unfold owned; rewrite elem_of_app; by right
    |apply length_chunk|].
  assert (ms_inv lo s1 ms tr) as Hinv1 by (rewrite Hs1'; apply ms_inv_write; [done|done|apply length_chunk]).
  assert (mem s1 = <[f := chunk data k]> (mem s)) as Hm1 by (by rewrite Hs1').
  assert (∀ j g, area_frames a !! j = Some g → g = f → j = k) as Hinj.
  { intros j g Hg ->. by eapply NoDup_lookup. }
  cbn [copy_loop].
  erewrite bind_ok; [|apply slice_ok; unfold PAGE_SIZE; lia].
  replace (take _ _) with src.
  2: { unfold src. replace (Z.to_nat (4096 * Z.of_nat k)) with (4096 * k)%nat by lia.
       destruct (Z.le_gt_cases (4096 * Z.of_nat k + 4096) (Z.of_nat (length data))).
       - f_equal. unfold PAGE_SIZE. lia.
       - rewrite !take_ge; [done|rewrite length_drop; unfold PAGE_SIZE; lia|rewrite length_drop; lia]. }
  erewrite bind_ok by exact Htr. erewrite bind_ok by apply unwrap_some. rewrite Hppn.
  erewrite bind_ok by (apply read_page_ok, (Hz k f); [lia|done]).
  erewrite bind_ok; [|apply copy_into_ok; [lia| |lia]].
  2: { unfold zero_page, src. rewrite length_replicate, length_take. lia. }
  replace (take (Z.to_nat 0) zero_page ++ src ++ drop (Z.to_nat (Z.of_nat (length src))) zero_page) with (chunk data k).
  2: { unfold chunk. fold src. rewrite Nat2Z.id. simpl. f_equal. unfold zero_page. by rewrite drop_replicate. }
  erewrite bind_ok by exact Hw.
  destruct (Z.leb_spec (Z.of_nat (length data)) (4096 * Z.of_nat k + PAGE_SIZE)) as [Hle|Hgt]; unfold PAGE_SIZE in *.
  - exists s1. split; [done|]. split; [done|]. split; [done|]. rewrite Hm1. split.
    + intros j g Hg. destruct (decide (g = f)) as [->|Hne].
      * rewrite (Hinj j f) by done. by rewrite lookup_insert_eq, decide_True.
      * rewrite lookup_insert_ne by done. case_decide; [|done]. rewrite chunk_past; [by apply (Hz j)|].
        assert (j ≠ k) by (intros ->; congruence). lia.
    + intros p Hp. rewrite lookup_insert_ne; [done|]. intros <-. apply Hp. by eapply list_elem_of_lookup_2.
  - replace (4096 * Z.of_nat k + 0x1000) with (4096 * Z.of_nat (S k)) by lia.
    assert (step (l (vpn_range a) + Z.of_nat k) = l (vpn_range a) + Z.of_nat (S k)) as ->.
    { pose proof (ms_areas _ _ _ _ Hinv) as Har. rewrite Forall_forall in Har. destruct (Har a Ha) as [Hr _ _ Hp _ _ _].
      assert (length (area_frames a) = Z.to_nat (r (vpn_range a) - l (vpn_range a))) as Hlf.
      { unfold area_map_of in Hp. rewrite Hty in Hp. unfold area_frames. rewrite length_fmap.
        rewrite <-length_area_pages, <-Hp, length_fmap. done. }
      unfold step. rewrite wrap64_small by (unfold is_u64; lia). lia. }
    destruct (IH (S k) s1 Hinv1) as (s2 & Hr2 & Hinv2 & Hs2 & Hd2 & Ho2); [lia|lia|lia| |].
    { intros j g Hj Hg. rewrite Hm1, lookup_insert_ne; [apply (Hz j); [lia|done]|].
      intros ->. pose proof (Hinj j g Hg eq_refl). lia. }
    exists s2. split; [done|]. split; [done|]. split; [by eapply mm_step_trans|]. split.
    + intros j g Hg. rewrite (Hd2 j g Hg). destruct (decide (g = f)) as [->|Hne].
      * rewrite (Hinj j f) by done. rewrite decide_False, decide_True by lia. by rewrite Hm1, lookup_insert_eq.
      * assert (j ≠ k) by (intros ->; congruence). rewrite Hm1, lookup_insert_ne by done.
        destruct (decide (S k ≤ j)%nat), (decide (k ≤ j)%nat); (done || lia).
    + intros p Hp. rewrite Ho2, Hm1, lookup_insert_ne; [done| |done].
      intros <-. apply Hp. by eapply list_elem_of_lookup_2.
Qed.
End copy.

(** ** [push] *)

(** The contents of page [j] of a new area. *)
Definition page_init (data : option (list byte)) (j : nat) : list byte :=
  match data with Some d => chunk d j | None => zero_page end.

(** The data fits the area. *)
Definition data_fits (data : option (list byte)) (a : MapArea) : Prop :=
  match data with
  | Some d => area_pages a ≠ [] ∧ (length d ≤ 4096 * length (area_pages a))%nat
  | None => True
  end.

Lemma run_push lo s ms tr a data :
  ms_inv lo s ms tr → area_fresh tr a → (area_need a ≤ avail (frame_allocator s))%nat → data_fits data a →
  ∃ s' pt' fs, let ms' := mkMemorySet pt' (areas ms ++ [with_frames (zip (area_pages a) fs) a]) in
    push a data ms s = Ok (s', (ms', 0)) ∧ length fs = length (area_pages a) ∧
    mm_step lo s (owned ms) s' (owned ms') ∧ ms_inv lo s' ms' (map_pages a (zip (area_pages a) fs) tr) ∧
    (∀ j f, fs !! j = Some f → mem s' !! f = Some (page_init data j)) ∧
    grows (2 * length fs) (page_table ms) pt' ∧
    ∀ p, p ∈ concat (area_frames <$> areas ms) → mem s' !! p = mem s !! p.
Proof.
  intros Hinv Hfr Hav Hfit.
  destruct (area_map_ok lo s ms tr a Hinv Hfr Hav) as (s1 & pt1 & fs & Hr & Hlen & Hs1 & Hinv1 & Hz & Hl & Hm1).
  set (a' := with_frames (zip (area_pages a) fs) a) in *. set (ms' := mkMemorySet pt1 (areas ms ++ [a'])) in *.
  assert (area_frames a' = fs) as Haf by (unfold area_frames; simpl; rewrite snd_zip by lia; done).
  assert (a' ∈ areas ms') as Hin by (simpl; rewrite elem_of_app; right; by left).
  unfold push. erewrite bind_ok by exact Hr. cbn iota beta. change (0 =? -1) with false. cbn iota.
  destruct data as [d|]; cbn [data_fits page_init] in *.
  - destruct Hfit as [Hne Hd]. assert (0 < length (area_pages a))%nat by (destruct (area_pages a); [done|simpl; lia]).
    destruct (copy_loop_ok lo ms' (map_pages a (zip (area_pages a) fs) tr) a' d Hin (fr_type _ _ Hfr))
      with (fuel := S (Z.to_nat (Z.of_nat (length d) / PAGE_SIZE))) (k := 0%nat) (s := s1)
      as (s2 & Hr2 & Hinv2 & Hs2 & Hd2 & Ho2).
    + rewrite Haf. lia.
    + done.
    + rewrite Haf. lia.
    + by left.
    + unfold PAGE_SIZE. lia.
    + rewrite Haf. intros j f _ Hf. rewrite Forall_forall in Hz. apply Hz. by eapply list_elem_of_lookup_2.
    + exists s2, pt1, fs. cbn zeta. fold a'. fold ms'. split; [|split; [done|split; [by eapply mm_step_trans|split; [done|split; [|split; [done|]]]]]].
      * unfold copy_data. rewrite bool_decide_true by apply (fr_type _ _ Hfr).
        erewrite bind_ok; [|erewrite bind_ok by done; rewrite <-Hr2; f_equal; simpl; lia]. done.
      * intros j f Hf. rewrite (Hd2 j f) by (by rewrite Haf). by rewrite decide_True by lia.
      * intros p Hp. rewrite Ho2; [by apply Hm1|]. rewrite Haf. intros Hin'.
        destruct (ms_owns _ _ _ _ Hinv1) as [Hnd _]. apply NoDup_app in Hnd as (_ & _ & Hnd). simpl in Hnd.
        rewrite fmap_app, concat_app in Hnd. apply NoDup_app in Hnd as (_ & Hdj & _). apply (Hdj p Hp).
        simpl. by rewrite Haf, app_nil_r.
  - erewrite bind_ok by done. exists s1, pt1, fs. cbn zeta.
    split; [done|split; [done|split; [done|split; [done|split; [|split; [done|done]]]]]].
    intros j f Hf. rewrite Forall_forall in Hz. apply Hz. by eapply list_elem_of_lookup_2.
Qed.

(** A page of the area is mapped already: the request is refused, and the pages before
    it stay in the table with frames that are free. *)
Lemma run_push_conflict lo s ms tr a data c w :
  ms_inv lo s ms tr → map_type a = Framed → 0 ≤ map_perm a < 2 ^ 8 → data_frames a = [] →
  0 ≤ l (vpn_range a) ≤ c → c < r (vpn_range a) < 2 ^ 64 → c - l (vpn_range a) ≤ 2 ^ 27 →
  (∀ v, l (vpn_range a) ≤ v < c → tr !! page_key v = None) → tr !! page_key c = Some w →
  (3 * S (Z.to_nat (c - l (vpn_range a))) ≤ avail (frame_allocator s))%nat →
  ∃ s' pt' fs, let kvs := zip (range (l (vpn_range a)) c) fs in
    push a data ms s = Ok (s', (mkMemorySet pt' (areas ms), -1)) ∧
    length fs = Z.to_nat (c - l (vpn_range a)) ∧ pt_rep lo s' pt' (map_pages a kvs tr) ∧
    (∀ f, f ∈ fs → ¬ in_use lo (frame_allocator s') f) ∧
    mm_step lo s (owned ms) s' (owned (mkMemorySet pt' (areas ms))).
Proof.
  intros [Hpt Ho _ _] Hty Hpm Hem Hl Hr Hsm Hn Hc Hav.
  set (n := Z.to_nat (c - l (vpn_range a))) in *. set (rest := concat (area_frames <$> areas ms)).
  destruct (area_map_framed n lo s (page_table ms) tr rest (l (vpn_range a)) a Hpt Ho) as
    (s1 & pt1 & fs & Hr1 & Hlen & Hs1 & Hrep1 & Hz & [Hl1 _] & Hm1); [lia|done|done|rewrite Hem; constructor| |lia|].
  { intros v Hv. apply Hn. lia. }
  replace (l (vpn_range a) + Z.of_nat n) with c in * by lia. rewrite Hem in Hr1. cbn [app] in Hr1. cbn zeta in Hrep1.
  set (kvs := zip (range (l (vpn_range a)) c) fs) in *.
  assert (length (range (l (vpn_range a)) c) = n) as Hrl by (unfold range; rewrite length_seqZ; lia).
  assert (kvs.*1 = range (l (vpn_range a)) c) as Hk1 by (unfold kvs; rewrite fst_zip; [done|lia]).
  assert (kvs.*2 = fs) as Hk2 by (unfold kvs; rewrite snd_zip; [done|lia]).
  assert (map_pages a kvs tr !! page_key c = Some w) as Hc1.
  { rewrite lookup_map_pages_ne; [done|]. intros kv Hkv He.
    assert (kv.1 ∈ range (l (vpn_range a)) c) as Hin by (rewrite <-Hk1; by apply list_elem_of_fmap_2).
    apply elem_of_range in Hin. apply (Hn (kv.1)) in Hin. congruence. }
  pose proof (step_avail _ _ _ _ _ Hs1) as Ha. rewrite !length_app in Ha.
  destruct (map_one_framed lo s1 pt1 (map_pages a kvs tr) (fs ++ rest) c (with_frames kvs a) Hrep1) as
    (s2 & pt2 & f & Hr2 & Hs2 & Hrep2 & _ & _ & Hl2 & _); [by apply (step_owns _ _ _ _ _ Hs1)|lia|done|done| |].
  { simpl. apply Forall_forall. intros kv Hkv. apply (list_elem_of_fmap_2 fst) in Hkv. rewrite Hk1 in Hkv.
    apply elem_of_range in Hkv. lia. }
  rewrite Hc1 in Hr2, Hrep2. cbn [with_frames data_frames] in Hr2.
  assert (frames pt2 ++ f :: fs ++ rest ≡ₚ (fs ++ [f]) ++ (frames pt2 ++ rest)) as Hperm.
  { rewrite <-app_assoc. cbn [app]. rewrite <-!Permutation_middle. by rewrite Permutation_app_swap_app. }
  pose proof (owns_perm _ _ _ _ Hperm (step_owns _ _ _ _ _ Hs2)) as Ho2.
  destruct (drop_frames_ok lo (fs ++ [f]) s2 []) as (s3 & Hr3 & Hs3 & Hm3);
    [apply (step_ok _ _ _ _ _ Hs2)|rewrite app_nil_r; by eapply owns_app_l|].
  rewrite app_nil_r in Hs3. pose proof (mm_step_frame _ _ _ _ _ _ Hs3 Ho2) as Hs3'. cbn [app] in Hs3'.
  exists s3, pt2, fs. cbn zeta. split_and!.
  - unfold push, area_map. rewrite range_pages_range by lia.
    rewrite (range_split _ c) by lia. rewrite (range_cons c) by lia.
    erewrite bind_ok; [|rewrite (area_map_app _ _ _ _ _ _ _ _ Hr1); cbn [area_map_loop];
      by erewrite bind_ok by exact Hr2]. cbn iota beta. change (-1 =? -1) with true. cbn iota.
    erewrite bind_ok; [done|]. rewrite <-Hr3. unfold drop_area, area_frames. simpl.
    by rewrite fmap_app, Hk2.
  - done.
  - eapply pt_rep_step; [exact Hs3|done|]. intros p Hp Hin. destruct Ho2 as [Hnd _].
    apply NoDup_app in Hnd as (_ & Hdj & _). apply (Hdj p Hin). rewrite elem_of_app. by left.
  - intros g Hg. apply (step_freed _ _ _ _ _ Hs3); [rewrite elem_of_app; by left|apply not_elem_of_nil].
  - eapply mm_step_trans; [exact Hs1|]. eapply mm_step_trans; [exact Hs2|].
    eapply mm_step_perm_l; [|exact Hs3']. by symmetry.
Qed.

(** ** Removing an area *)
Lemma unmap_one_framed lo s pt tr rest vpn a f t w :
  pt_rep lo s pt tr → owns lo s (frames pt ++ f :: rest) → map_type a = Framed →
  data_frames a = (vpn, f) :: t → tr !! page_key vpn = Some w →
  ∃ s', unmap_one vpn a pt s = Ok (s', (with_frames t a, pt)) ∧
    mm_step lo s (frames pt ++ f :: rest) s' (frames pt ++ rest) ∧ pt_rep lo s' pt (delete (page_key vpn) tr).
Proof.
  intros Hrep Ho Hty Hdf Hw. pose proof (rep_owns _ _ _ _ Hrep) as [Hmm _].
  assert (frames pt ++ f :: rest ≡ₚ f :: frames pt ++ rest) as Hperm by (by rewrite <-Permutation_middle).
  pose proof (owns_perm _ _ _ _ Hperm Ho) as Ho'.
  destruct (frame_dealloc_step lo s f [] Hmm) as (s1 & Hr1 & Hs1 & _).
  { change [f] with ([f] ++ []). apply (owns_app_l _ _ _ (frames pt ++ rest)). by rewrite app_nil_r. }
  pose proof (mm_step_frame _ _ _ _ _ _ Hs1 Ho') as Hs1'. cbn [app] in Hs1'.
  assert (pt_rep lo s1 pt tr) as Hrep1.
  { eapply pt_rep_step; [exact Hs1|done|]. intros p Hp ->%list_elem_of_singleton. destruct Ho' as [Hnd _].
    apply NoDup_cons in Hnd as [Hni _]. apply Hni. rewrite elem_of_app. by left. }
  destruct (run_unmap lo s1 pt tr vpn w Hrep1 Hw) as (s2 & Hr2 & Hext & Hrep2).
  pose proof (pt_step _ _ _ _ _ _ Hext Hrep2) as Hs2.
  pose proof (mm_step_frame _ _ _ _ _ _ Hs2 (step_owns _ _ _ _ _ Hs1')) as Hs2'.
  exists s2. split; [|split; [|done]].
  - unfold unmap_one. rewrite Hty, Hdf, btree_remove_first.
    erewrite bind_ok; [|cbn [drop_option]; by erewrite bind_ok by exact Hr1]. by erewrite bind_ok by exact Hr2.
  - eapply mm_step_trans; [|exact Hs2']. eapply mm_step_perm_l; [|exact Hs1']. by symmetry.
Qed.

Definition unmap_pages (ks : list Z) (tr : gmap Z Z) : gmap Z Z := foldl (λ tr k, delete k tr) tr ks.

Lemma lookup_unmap_pages ks tr k :
  unmap_pages ks tr !! k = if decide (k ∈ ks) then None else tr !! k.
Proof.
  revert tr. induction ks as [|k' ks IH]; intros tr; cbn [unmap_pages foldl]; [by rewrite decide_False by apply not_elem_of_nil|].
  fold (unmap_pages ks (delete k' tr)). rewrite IH. destruct (decide (k ∈ ks)) as [Hin|Hni].
  - rewrite decide_True; [done|]. by right.
  - destruct (decide (k = k')) as [->|Hne].
    + rewrite lookup_delete_eq, decide_True; [done|]. by left.
    + rewrite lookup_delete_ne by done. rewrite decide_False; [done|]. rewrite elem_of_cons. tauto.
Qed.

Lemma area_unmap_framed kvs : ∀ lo s pt tr rest a,
  pt_rep lo s pt tr → owns lo s (frames pt ++ kvs.*2 ++ rest) → map_type a = Framed → data_frames a = kvs →
  NoDup (page_key <$> kvs.*1) → (∀ kv, kv ∈ kvs → is_Some (tr !! page_key kv.1)) →
  ∃ s', for_ kvs.*1 (λ '(a, pt) vpn, unmap_one vpn a pt) (a, pt) s = Ok (s', (with_frames [] a, pt)) ∧
    mm_step lo s (frames pt ++ kvs.*2 ++ rest) s' (frames pt ++ rest) ∧
    pt_rep lo s' pt (unmap_pages (page_key <$> kvs.*1) tr).
Proof.
  induction kvs as [|[v f] kvs IH]; intros lo s pt tr rest a Hrep Ho Hty Hdf Hnd Hks.
  { exists s. split; [destruct a; by simpl in *; subst|]. split; [|done].
    apply mm_step_refl; [|done]. by apply (rep_owns _ _ _ _ Hrep). }
  simpl in Ho, Hnd. apply NoDup_cons in Hnd as [Hni Hnd].
  destruct (Hks (v, f)) as [w Hw]; [by left|]. simpl in Hw.
  destruct (unmap_one_framed lo s pt tr (kvs.*2 ++ rest) v a f kvs w Hrep Ho Hty Hdf Hw) as (s1 & Hr1 & Hs1 & Hrep1).
  destruct (IH lo s1 pt (delete (page_key v) tr) rest (with_frames kvs a) Hrep1) as (s2 & Hr2 & Hs2 & Hrep2);
    [apply (step_owns _ _ _ _ _ Hs1)|done|done|done| |].
  { intros kv Hkv. rewrite lookup_delete_ne; [apply Hks; by right|]. intros He. apply Hni. rewrite He.
    apply list_elem_of_fmap_2. by apply list_elem_of_fmap_2. }
  exists s2. split; [|split; [by eapply mm_step_trans|done]].
  cbn [fmap list_fmap for_]. by erewrite bind_ok by exact Hr1.
Qed.

Lemma find_area ms start_vpn :
  match find_idx (λ a, l (vpn_range a) =? start_vpn) (areas ms) with
  | Some (idx, a) => areas ms !! idx = Some a ∧ l (vpn_range a) = start_vpn
  | None => ∀ a, a ∈ areas ms → l (vpn_range a) ≠ start_vpn
  end.
Proof.
  destruct (find_idx _ (areas ms)) as [[idx a]|] eqn:Hf.
  - apply find_idx_Some in Hf as (Hi & Hp & _). by apply Z.eqb_eq in Hp.
  - intros a Ha. apply (proj1 (find_idx_None _ _) Hf) in Ha. by apply Z.eqb_neq in Ha.
Qed.

(** Unmapping an area and dropping it. *)
Lemma run_remove_area lo s ms tr idx a :
  ms_inv lo s ms tr → areas ms !! idx = Some a → map_type a = Framed →
  ∃ s', let ms' := mkMemorySet (page_table ms) (remove_nth idx (areas ms)) in
    ('(a, pt) ← area_unmap a (page_table ms); drop_area a;;
     mret (mkMemorySet pt (remove_nth idx (areas ms)))) s = Ok (s', ms') ∧
    ms_inv lo s' ms' (unmap_pages (area_keys a) tr) ∧ mm_step lo s (owned ms) s' (owned ms').
Proof.
  intros [Hpt Ho Har Hks] Hi Hty. pose proof (list_elem_of_lookup_2 _ _ _ Hi) as Ha.
  pose proof (proj1 (Forall_forall _ _) Har a Ha) as Haok. pose proof Haok as [Hr Hsm Hpm Hp _ Hfr Ht].
  unfold area_map_of in Hp, Ht. rewrite Hty in Hp, Ht.
  set (rest := concat (area_frames <$> remove_nth idx (areas ms))).
  assert (owned ms ≡ₚ frames (page_table ms) ++ (data_frames a).*2 ++ rest) as Hperm.
  { unfold owned, rest, remove_nth. rewrite <-(take_drop_middle _ _ _ Hi) at 1. rewrite !fmap_app, !concat_app.
    simpl. unfold area_frames at 2. apply Permutation_app_head. by rewrite Permutation_app_swap_app. }
  assert (concat (area_keys <$> areas ms) ≡ₚ area_keys a ++ concat (area_keys <$> remove_nth idx (areas ms))) as Hkp.
  { unfold remove_nth. rewrite <-(take_drop_middle _ _ _ Hi) at 1. rewrite !fmap_app, !concat_app.
    simpl. by rewrite Permutation_app_swap_app. }
  rewrite Hkp in Hks. apply NoDup_app in Hks as (Hnd & Hdj & Hks').
  destruct (area_unmap_framed (data_frames a) lo s (page_table ms) tr rest a Hpt (owns_perm _ _ _ _ Hperm Ho) Hty eq_refl)
    as (s1 & Hr1 & Hs1 & Hrep1).
  { by rewrite Hp. }
  { intros kv Hkv. eauto. }
  rewrite Hp in Hr1, Hrep1. fold (area_keys a) in Hrep1.
  exists s1. cbn zeta. split; [|split].
  - unfold area_unmap. rewrite range_pages_range by lia. fold (area_pages a).
    erewrite bind_ok by exact Hr1. cbn iota beta. by erewrite bind_ok by done.
  - split; simpl; [done|apply (step_owns _ _ _ _ _ Hs1)| |done].
    apply Forall_forall. intros a0 Ha0. eapply area_ok_ext.
    2: { assert (Forall (area_ok tr) (remove_nth idx (areas ms))) as Har'
           by (apply Forall_app; split; [by apply Forall_take|by apply Forall_drop]).
         by apply (proj1 (Forall_forall _ _) Har'). }
    intros k Hk. rewrite lookup_unmap_pages, decide_False; [done|]. intros Hin.
    apply (Hdj k Hin). apply elem_of_concat_fmap. eauto.
  - eapply mm_step_perm_l; [|exact Hs1]. by symmetry.
Qed.
