(* ===== verification/ForkSpec.v ===== *)
(** * Copying an address space

    [MemorySet::from_existed_user], the memory side of [fork]: the copy has the
    same areas with the same permissions, every page of it holds the bytes of the
    original's page in a frame of its own, and the original is as it was. *)

From S2P Require Import Prelude Bytes Address FrameAlloc PageTable MemorySet MemSpec.

Local Ltac Zify.zify_post_hook ::= Z.to_euclidean_division_equations.

(** An address space while others work. *)
Lemma ms_inv_step lo s own s' own' ms tr :
  mm_step lo s own s' own' → ms_inv lo s ms tr → (∀ p, p ∈ owned ms → p ∉ own) →
  ms_inv lo s' ms tr ∧ (∀ p, p ∈ owned ms → p ∉ own') ∧ ∀ p, p ∈ owned ms → mem s' !! p = mem s !! p.
Proof.
  intros Hs [Hpt [Hnd Ho] Har Hk] Hdj.
  assert (∀ p, p ∈ owned ms → foreign lo s own p) as Hf by (intros p Hp; split; [by apply Hdj|left; by apply Ho]).
  assert (∀ p, p ∈ owned ms → p ∉ own') as Hdj' by (intros p Hp; by apply (step_foreign _ _ _ _ _ _ Hs (Hf p Hp))).
  split; [|split; [done|]].
  - split; [| |done|done].
    + eapply pt_rep_step; [done|done|]. intros p Hp. apply Hdj. unfold owned. rewrite elem_of_app. by left.
    + split; [done|]. intros p Hp. apply (step_used _ _ _ _ _ Hs); auto.
  - intros p Hp. by eapply step_mem, Hf.
Qed.

(** ** A new address space *)
Lemma run_new_bare lo s :
  mm_ok lo s → (0 < avail (frame_allocator s))%nat →
  ∃ s' ms, new_bare s = Ok (s', ms) ∧ ms_inv lo s' ms ∅ ∧ areas ms = [] ∧ length (frames (page_table ms)) = 1%nat ∧
    mm_step lo s [] s' (owned ms).
Proof.
  intros Hmm Hav. destruct (run_pt_new lo s Hmm Hav) as (s' & pt & Hr & Hrep & Hf & Hni & Hm & Hu & He & Ha).
  destruct (rep_owns _ _ _ _ Hrep) as [Hmm' Ho'].
  assert (owned (mkMemorySet pt []) = frames pt) as Hown by (unfold owned; simpl; by rewrite app_nil_r).
  exists s', (mkMemorySet pt []). split; [unfold new_bare; by erewrite bind_ok by exact Hr|].
  split; [split; rewrite ?Hown; simpl; try done; apply NoDup_nil_2|]. split; [done|]. rewrite Hown. cbn [page_table]. rewrite Hf.
  split; [done|]. split; [done|by rewrite <-Hf|done| | | | |simpl; lia].
  - intros p ->%list_elem_of_singleton. by right.
  - intros p _ Hp. rewrite list_elem_of_singleton in Hp. rewrite Hu. tauto.
  - intros p Hp. by apply elem_of_nil in Hp.
  - intros p [_ Hp]. apply Hm. intros ->. destruct Hp as [?|Hp]; [done|]. apply Hp. rewrite <-He.
    apply in_use_managed; [done|]. apply Hu. by left.
Qed.

Definition TRAMPOLINE_KEY : Z := page_key (floor TRAMPOLINE).

(** The trampoline's page in memory. *)
Definition trampoline_ok (strampoline : Z) : Prop := page_offset strampoline = 0 ∧ 0 ≤ strampoline < 2 ^ 56.

Definition trampoline_pte (strampoline : Z) : Z :=
  pte_new (floor strampoline) (Z.lor (Z.lor FLAG_R FLAG_X) FLAG_V).

Lemma run_map_trampoline lo s ms st :
  ms_inv lo s ms ∅ → areas ms = [] → (2 ≤ avail (frame_allocator s))%nat → trampoline_ok st →
  ∃ s' pt', map_trampoline st ms s = Ok (s', mkMemorySet pt' []) ∧
    ms_inv lo s' (mkMemorySet pt' []) {[ TRAMPOLINE_KEY := trampoline_pte st ]} ∧
    (length (frames pt') ≤ length (frames (page_table ms)) + 2)%nat ∧
    mm_step lo s (owned ms) s' (owned (mkMemorySet pt' [])).
Proof.
  intros [Hpt Ho Har Hk] Hem Hav [Hal Hst].
  destruct (run_map lo s (page_table ms) ∅ (floor TRAMPOLINE) (floor st) (Z.lor FLAG_R FLAG_X) Hpt Hav) as
    (s' & pt' & Hext & Hl & Hr & Hrep).
  { unfold floor, PAGE_SIZE. lia. }
  { by vm_compute. }
  rewrite lookup_empty in Hr, Hrep. pose proof (pt_step _ _ _ _ _ _ Hext Hrep) as Hs.
  assert (∀ pt, owned (mkMemorySet pt []) = frames pt) as Hown by (intros; unfold owned; simpl; by rewrite app_nil_r).
  exists s', pt'. split; [|split; [|split; [done|]]].
  - unfold map_trampoline. erewrite bind_ok by (by apply assert_true).
    erewrite bind_ok by (apply assert_true; by rewrite Hal). erewrite bind_ok by exact Hr. by rewrite Hem.
  - split; rewrite ?Hown; simpl; [exact Hrep|by apply (rep_owns _ _ _ _ Hrep)|constructor|apply NoDup_nil_2].
  - rewrite Hown. unfold owned. rewrite Hem. simpl. by rewrite app_nil_r.
Qed.

(** ** Pages *)
Section pages.
Context (lo : Z) (user : MemorySet) (tru : gmap Z Z) (new : MemorySet) (trn : gmap Z Z).
Context (a a' : MapArea) (Ha : a ∈ areas user) (Ha' : a' ∈ areas new).
Context (Hty : map_type a = Framed) (Hty' : map_type a' = Framed) (Hvr : vpn_range a' = vpn_range a).
Context (Hdj : ∀ p, p ∈ owned user → p ∉ owned new).

(** The frames of the first [k] pages of [a] were copied. *)
Definition copied (k : nat) (s0 s : mm) : Prop :=
  ∀ j f g, (j < k)%nat → area_frames a !! j = Some f → area_frames a' !! j = Some g → mem s !! g = mem s0 !! f.

Lemma copy_page_ok s0 s k f g :
  ms_inv lo s user tru → ms_inv lo s new trn → (∀ p, p ∉ area_frames a' → mem s !! p = mem s0 !! p) →
  copied k s0 s → area_frames a !! k = Some f → area_frames a' !! k = Some g →
  ∃ s', copy_page user new (l (vpn_range a) + Z.of_nat k) s = Ok (s', tt) ∧
    ms_inv lo s' user tru ∧ ms_inv lo s' new trn ∧ mm_step lo s (owned new) s' (owned new) ∧
    (∀ p, p ∉ area_frames a' → mem s' !! p = mem s0 !! p) ∧ copied (S k) s0 s'.
Proof.
  intros Hu Hn Hm Hc Hf Hg.
  destruct (area_page lo s user tru a k f Hu Ha Hty Hf) as (Htf & Hpf & Hcf & b & Hb & Hbl).
  destruct (area_page lo s new trn a' k g Hn Ha' Hty' Hg) as (Htg & Hpg & Hcg & _). rewrite Hvr in Htg.
  assert (g ∈ owned new) as Hgo by (unfold owned; rewrite elem_of_app; by right).
  assert (f ∈ owned user) as Hfo by (unfold owned; rewrite elem_of_app; by right).
  destruct (write_page_step lo s (owned new) g b) as (s' & Hw & Hs & Hs');
    [by apply (rep_owns _ _ _ _ (ms_pt _ _ _ _ Hn))|apply Hn|done|done|].
  destruct (ms_inv_step _ _ _ _ _ _ _ Hs Hu Hdj) as (Hu' & _ & _).
  assert (∀ j g', area_frames a' !! j = Some g' → g' = g → j = k) as Hinj.
  { intros j g' Hg' ->. destruct (ms_owns _ _ _ _ Hn) as [Hnd _]. apply NoDup_app in Hnd as (_ & _ & Hnd).
    apply list_elem_of_lookup in Ha' as [i Hi]. rewrite <-(take_drop_middle _ _ _ Hi), fmap_app, concat_app in Hnd.
    simpl in Hnd. apply NoDup_app in Hnd as (_ & _ & [Hnd _]%NoDup_app). by eapply NoDup_lookup. }
  assert (mem s !! f = mem s0 !! f) as Hmf.
  { apply Hm. intros Hin. apply (Hdj f Hfo). unfold owned. rewrite elem_of_app. right.
    apply elem_of_concat_fmap. eauto. }
  exists s'. split; [|split_and!; [done| |done| |]].
  - unfold copy_page, ms_translate. erewrite bind_ok by exact Htf. erewrite bind_ok by apply unwrap_some.
    erewrite bind_ok by exact Htg. erewrite bind_ok by apply unwrap_some. rewrite Hpf, Hpg.
    by erewrite bind_ok by (by apply read_page_ok).
  - rewrite Hs'. by apply ms_inv_write.
  - intros p Hp. rewrite Hs'. simpl. rewrite lookup_insert_ne; [by apply Hm|].
    intros <-. apply Hp. by eapply list_elem_of_lookup_2.
  - intros j f' g' Hj Hf' Hg'. rewrite Hs'. simpl. destruct (decide (g' = g)) as [->|Hne].
    + pose proof (Hinj j g Hg' eq_refl) as ->. rewrite Hf in Hf'. injection Hf' as <-.
      by rewrite lookup_insert_eq, <-Hmf.
    + rewrite lookup_insert_ne by done. apply (Hc j); [|done|done].
      assert (j ≠ k) by (intros ->; congruence). lia.
Qed.

Lemma copy_pages_ok s0 :
  ms_inv lo s0 user tru → ms_inv lo s0 new trn → length (area_frames a) = length (area_pages a) →
  length (area_frames a') = length (area_pages a) →
  ∃ s', for_ (area_pages a) (λ _ vpn, copy_page user new vpn) tt s0 = Ok (s', tt) ∧
    ms_inv lo s' user tru ∧ ms_inv lo s' new trn ∧ mm_step lo s0 (owned new) s' (owned new) ∧
    (∀ p, p ∉ area_frames a' → mem s' !! p = mem s0 !! p) ∧ copied (length (area_pages a)) s0 s'.
Proof.
  intros Hu Hn Hlf Hlg.
  pose proof (wp_for (λ (pre : list Z) (u : unit) s, ms_inv lo s user tru ∧ ms_inv lo s new trn ∧
    mm_step lo s0 (owned new) s (owned new) ∧ (∀ p, p ∉ area_frames a' → mem s !! p = mem s0 !! p) ∧
    copied (length pre) s0 s) (λ _ vpn, copy_page user new vpn) (area_pages a) tt s0) as Hw.
  apply wp_ok in Hw as ([] & s' & Hr & H); [by exists s'|..].
  - clear Hw. intros pre v post [] s Hl (Hu1 & Hn1 & Hs1 & Hm1 & Hc1).
    assert (v = l (vpn_range a) + Z.of_nat (length pre) ∧ (length pre < length (area_pages a))%nat) as [-> Hlt].
    { rewrite Hl, length_app. split; [|simpl; lia]. assert (area_pages a !! length pre = Some v) as Hv
        by (by rewrite Hl, lookup_app_r, Nat.sub_diag by lia).
      unfold area_pages, range in Hv. apply lookup_seqZ in Hv. lia. }
    destruct (lookup_lt_is_Some_2 (area_frames a) (length pre)) as [f Hf]; [lia|].
    destruct (lookup_lt_is_Some_2 (area_frames a') (length pre)) as [g Hg]; [lia|].
    destruct (copy_page_ok s0 s (length pre) f g) as (s1 & Hr & Hu2 & Hn2 & Hs2 & Hm2 & Hc2); [done..|].
    eapply wp_eq; [exact Hr|]. rewrite length_app, Nat.add_comm. split_and!; [done|done|by eapply mm_step_trans|done|done].
  - split_and!; try done; [|intros j f g; simpl; lia].
    apply mm_step_refl; [|apply Hn]. by apply (rep_owns _ _ _ _ (ms_pt _ _ _ _ Hn)).
Qed.
End pages.

(** ** Areas *)

(** [a'] is a copy of [a]. *)
Record same_area (s : mm) (a a' : MapArea) : Prop := {
  same_range : vpn_range a' = vpn_range a;
  same_type : map_type a' = map_type a;
  same_perm : map_perm a' = map_perm a;
  same_len : length (area_frames a') = length (area_frames a);
  same_bytes : ∀ j f g, area_frames a !! j = Some f → area_frames a' !! j = Some g → mem s !! g = mem s !! f;
}.

Lemma same_area_step s s' a a' :
  (∀ p, p ∈ area_frames a → mem s' !! p = mem s !! p) → (∀ p, p ∈ area_frames a' → mem s' !! p = mem s !! p) →
  same_area s a a' → same_area s' a a'.
Proof.
  intros H1 H2 [? ? ? ? Hb]. split; try done. intros j f g Hf Hg.
  rewrite (H1 f), (H2 g) by (by eapply list_elem_of_lookup_2). by eapply Hb.
Qed.

Lemma ok_area_frames tr a : area_ok tr a → map_type a = Framed → length (area_frames a) = length (area_pages a).
Proof.
  intros [_ _ _ Hp _ _ _] Hty. unfold area_map_of in Hp. rewrite Hty in Hp. unfold area_frames.
  rewrite length_fmap, <-Hp, length_fmap. done.
Qed.

Lemma from_another_ok a s :
  l (vpn_range a) ≤ r (vpn_range a) →
  from_another a s = Ok (s, mkArea (vpn_range a) [] (map_type a) (map_perm a)).
Proof.
  intros Hr. unfold from_another, area_of. erewrite bind_ok by (by apply assert_true, Z.leb_le).
  by destruct (vpn_range a).
Qed.

(** One area. *)
Lemma copy_area_ok lo s user tru new trn a :
  ms_inv lo s user tru → ms_inv lo s new trn → (∀ p, p ∈ owned user → p ∉ owned new) →
  a ∈ areas user → map_type a = Framed → (∀ k, k ∈ area_keys a → trn !! k = None) →
  (area_need a ≤ avail (frame_allocator s))%nat →
  ∃ s' pt' a' trn', let new' := mkMemorySet pt' (areas new ++ [a']) in
    copy_area user new a s = Ok (s', new') ∧ ms_inv lo s' user tru ∧ ms_inv lo s' new' trn' ∧
    mm_step lo s (owned new) s' (owned new') ∧ same_area s' a a' ∧
    (length (owned new') ≤ length (owned new) + 3 * length (area_pages a))%nat ∧
    (∀ k, k ∉ area_keys a → trn' !! k = trn !! k) ∧
    (∀ p, p ∈ concat (area_frames <$> areas new) → mem s' !! p = mem s !! p).
Proof.
  intros Hu Hn Hdj Ha Hty Hfree Hav.
  pose proof (proj1 (Forall_forall _ _) (ms_areas _ _ _ _ Hu) a Ha) as Haok. pose proof Haok as [Hr Hsm Hpm Hp _ _ _].
  set (a0 := mkArea (vpn_range a) [] (map_type a) (map_perm a)).
  assert (area_fresh trn a0) as Hfr.
  { split; simpl; try done. intros v Hv. apply Hfree. by apply list_elem_of_fmap_2. }
  destruct (run_push lo s new trn a0 None Hn Hfr Hav) as (s1 & pt1 & fs & Hr1 & Hlen & Hs1 & Hn1 & Hz & [Hl1 _] & Hm1);
    [done|]. change (area_pages a0) with (area_pages a) in *.
  set (a' := with_frames (zip (area_pages a) fs) a0) in *. set (new1 := mkMemorySet pt1 (areas new ++ [a'])) in *.
  assert (area_frames a' = fs) as Haf by (unfold area_frames; simpl; rewrite snd_zip by lia; done).
  destruct (ms_inv_step _ _ _ _ _ _ _ Hs1 Hu Hdj) as (Hu1 & Hdj1 & Hmu1).
  pose proof (ok_area_frames _ _ Haok Hty) as Hlf.
  destruct (copy_pages_ok lo user tru new1 (map_pages a0 (zip (area_pages a) fs) trn) a a') with (s0 := s1)
    as (s2 & Hr2 & Hu2 & Hn2 & Hs2 & Hm2 & Hc2);
    [done|simpl; rewrite elem_of_app; right; by left|done|done|done|done|done|done|done|rewrite Haf; lia|].
  destruct (ms_inv_step _ _ _ _ _ _ _ Hs2 Hu1 Hdj1) as (_ & _ & Hmu2).
  assert (∀ p, p ∈ area_frames a → p ∈ owned user) as Hao.
  { intros p Hpa. unfold owned. rewrite elem_of_app. right. apply elem_of_concat_fmap. eauto. }
  exists s2, pt1, a', (map_pages a0 (zip (area_pages a) fs) trn). cbn zeta. fold new1.
  split; [|split; [done|split; [done|split; [by eapply mm_step_trans|split; [split|split; [|split]]]]]].
  - unfold copy_area. erewrite bind_ok by (apply from_another_ok; lia). erewrite bind_ok by exact Hr1. cbn iota beta.
    rewrite range_pages_range by lia. fold (area_pages a). fold a'. fold new1. by erewrite bind_ok by exact Hr2.
  - done.
  - done.
  - done.
  - rewrite Haf. lia.
  - intros j f g Hf Hg. rewrite (Hc2 j f g); [|apply lookup_lt_Some in Hf; lia|done|done].
    symmetry. apply Hmu2, Hao. by eapply list_elem_of_lookup_2.
  - unfold owned. simpl. rewrite fmap_app, concat_app, !length_app. simpl. rewrite Haf, app_nil_r. lia.
  - intros k Hk. apply lookup_map_pages_ne. intros kv Hkv <-. apply Hk. apply list_elem_of_fmap_2.
    apply (list_elem_of_fmap_2 fst) in Hkv. rewrite fst_zip in Hkv by lia. done.
  - intros p Hpc. rewrite Hm2; [by apply Hm1|]. rewrite Haf. intros Hin.
    destruct (ms_owns _ _ _ _ Hn1) as [Hnd _]. apply NoDup_app in Hnd as (_ & _ & Hnd). simpl in Hnd.
    rewrite fmap_app, concat_app in Hnd. apply NoDup_app in Hnd as (_ & Hdj2 & _). apply (Hdj2 p Hpc).
    simpl. by rewrite Haf, app_nil_r.
Qed.

(** Pages of a list of areas. *)
Definition npages (l : list MapArea) : nat := length (concat (area_pages <$> l)).

Lemma run_from_existed_user lo s user tru st :
  ms_inv lo s user tru → Forall (λ a, map_type a = Framed) (areas user) →
  TRAMPOLINE_KEY ∉ concat (area_keys <$> areas user) → trampoline_ok st →
  (3 + 3 * npages (areas user) ≤ avail (frame_allocator s))%nat →
  ∃ s' new trn, from_existed_user st user s = Ok (s', new) ∧ ms_inv lo s' new trn ∧ ms_inv lo s' user tru ∧
    mm_step lo s [] s' (owned new) ∧ Forall2 (same_area s') (areas user) (areas new) ∧
    trn !! TRAMPOLINE_KEY = Some (trampoline_pte st) ∧ (∀ p, p ∈ owned user → mem s' !! p = mem s !! p) ∧
    (length (owned new) ≤ 3 + 3 * npages (areas user))%nat.
Proof.
  intros Hu Hty Htk Hst Hav. pose proof (rep_owns _ _ _ _ (ms_pt _ _ _ _ Hu)) as [Hmm _].
  destruct (run_new_bare lo s Hmm) as (s1 & ms1 & Hr1 & Hn1 & Hem1 & Hl1 & Hs1); [lia|].
  pose proof (step_avail _ _ _ _ _ Hs1) as Ha1. unfold owned in Ha1. rewrite Hem1 in Ha1. simpl in Ha1.
  rewrite app_nil_r in Ha1.
  destruct (run_map_trampoline lo s1 ms1 st Hn1 Hem1) as (s2 & pt2 & Hr2 & Hn2 & Hl2 & Hs2); [lia|done|].
  pose proof (mm_step_trans _ _ _ _ _ _ _ Hs1 Hs2) as Hs12.
  destruct (ms_inv_step _ _ _ _ _ _ _ Hs12 Hu) as (Hu2 & Hdj2 & Hmu2); [intros; apply not_elem_of_nil|].
  assert (length (owned (mkMemorySet pt2 [])) ≤ 3)%nat as Hown2 by (unfold owned; simpl; rewrite app_nil_r; lia).
  set (I := λ (pre : list MapArea) (new : MemorySet) s', ms_inv lo s' user tru ∧
    (∃ trn, ms_inv lo s' new trn ∧ trn !! TRAMPOLINE_KEY = Some (trampoline_pte st) ∧
      ∀ k, is_Some (trn !! k) → k = TRAMPOLINE_KEY ∨ k ∈ concat (area_keys <$> pre)) ∧
    mm_step lo s [] s' (owned new) ∧ (length (owned new) ≤ 3 + 3 * npages pre)%nat ∧
    Forall2 (same_area s') pre (areas new)).
  pose proof (wp_for I (copy_area user) (areas user) (mkMemorySet pt2 []) s2) as Hw.
  apply wp_ok in Hw as (new & s' & Hr & Hu' & (trn & Hn' & Htr & _) & Hs' & Hlen & Hf2).
  - exists s', new, trn. unfold from_existed_user. erewrite bind_ok by exact Hr1. erewrite bind_ok by exact Hr2.
    split; [done|]. split; [done|]. split; [done|]. split; [done|]. split; [done|]. split; [done|]. split; [|done].
    apply (ms_inv_step _ _ _ _ _ _ _ Hs' Hu). intros; apply not_elem_of_nil.
  - clear Hw. intros pre a post new s' Hl (Hu' & (trn & Hn' & Htr & Hks) & Hs' & Hlen & Hf2).
    assert (a ∈ areas user) as Ha by (rewrite Hl, elem_of_app; right; by left).
    destruct (ms_inv_step _ _ _ _ _ _ _ Hs' Hu) as (_ & Hdj' & _); [intros; apply not_elem_of_nil|].
    pose proof (step_avail _ _ _ _ _ Hs') as Hav'. simpl in Hav'.
    assert (npages (areas user) = npages pre + length (area_pages a) + npages post)%nat as Hnp.
    { rewrite Hl. unfold npages. rewrite fmap_app, concat_app, length_app, fmap_cons. cbn [concat].
      rewrite length_app. lia. }
    assert (∀ k, k ∈ area_keys a → k ≠ TRAMPOLINE_KEY ∧ k ∉ concat (area_keys <$> pre)) as Hka.
    { intros k Hk. split; [intros ->; apply Htk, elem_of_concat_fmap; eauto|]. intros Hin.
      pose proof (ms_keys _ _ _ _ Hu) as Hnd. rewrite Hl, fmap_app, concat_app in Hnd. simpl in Hnd.
      apply NoDup_app in Hnd as (_ & Hd & _). apply (Hd k Hin). rewrite elem_of_app. by left. }
    destruct (copy_area_ok lo s' user tru new trn a) as
      (s3 & pt3 & a' & trn' & Hr & Hu3 & Hn3 & Hs3 & Hsame & Hl3 & Htr3 & Hm3); try done.
    { by apply (proj1 (Forall_forall _ _) Hty). }
    { intros k Hk. apply eq_None_not_Some. intros Hin. destruct (Hka k Hk). destruct (Hks k Hin); done. }
    { unfold area_need. lia. }
    destruct (ms_inv_step _ _ _ _ _ _ _ Hs3 Hu' Hdj') as (_ & _ & Hmu3).
    eapply wp_eq; [exact Hr|]. split; [done|]. split; [|split; [by eapply mm_step_trans|split]].
    + exists trn'. split; [done|]. split; [rewrite Htr3; [done|]; intros Hk; by destruct (Hka _ Hk)|].
      intros k Hk. rewrite fmap_app, concat_app, elem_of_app. simpl. rewrite app_nil_r.
      destruct (decide (k ∈ area_keys a)); [auto|]. rewrite Htr3 in Hk by done. destruct (Hks k Hk); auto.
    + unfold npages in *. rewrite fmap_app, concat_app, length_app. simpl. rewrite app_nil_r. lia.
    + cbn [areas]. apply Forall2_app; [|by constructor]. apply Forall2_same_length_lookup.
      pose proof (Forall2_length _ _ _ Hf2) as Hfl. split; [done|]. intros i x y Hx Hy.
      eapply same_area_step; [| |by eapply Forall2_lookup_lr].
      * intros p Hp. apply Hmu3. unfold owned. rewrite elem_of_app. right. apply elem_of_concat_fmap.
        exists x. split; [|done]. rewrite Hl, elem_of_app. left. by eapply list_elem_of_lookup_2.
      * intros p Hp. apply Hm3, elem_of_concat_fmap. exists y. split; [by eapply list_elem_of_lookup_2|done].
  - split; [done|]. split; [|split; [done|split; [simpl; lia|constructor]]].
    exists {[ TRAMPOLINE_KEY := trampoline_pte st ]}. split; [done|]. split; [by rewrite lookup_singleton_eq|].
    intros k [w Hw']. apply lookup_singleton_Some in Hw' as [<- _]. by left.
Qed.
