(* ===== verification/AddrSpace.v ===== *)
(** * Address spaces of processes: mapping, unmapping, copying, loading

    The theorems on [MemorySet] that the system calls rest on, stated on user
    addresses: [insert_framed_area] ([mmap]), [remove_framed_area] ([munmap]),
    [from_existed_user] ([fork]) and [from_elf] ([exec], [spawn]). *)

From S2P Require Import Prelude Bytes Address FrameAlloc PageTable UserBuf MemorySet MemSpec ForkSpec.

Local Ltac Zify.zify_post_hook ::= Z.to_euclidean_division_equations.

(** ** Areas given by addresses *)
Lemma area_new_ok start_va end_va ty perm s :
  floor start_va ≤ ceil end_va →
  area_new start_va end_va ty perm s =
    Ok (s, mkArea (mkRange (floor start_va) (ceil end_va)) [] ty perm).
Proof. intros Hle. unfold area_new, area_of. by erewrite bind_ok by (by apply assert_true, Z.leb_le). Qed.

Lemma zip_area_pages a (fs : list Z) :
  length fs = length (area_pages a) →
  (zip (area_pages a) fs).*1 = area_pages a ∧ (zip (area_pages a) fs).*2 = fs.
Proof. intros Hl. rewrite fst_zip, snd_zip by lia. done. Qed.

(** The table after an area was mapped: its pages, and the others as before. *)
Lemma lookup_mapped_page tr a fs (j : nat) f :
  r (vpn_range a) - l (vpn_range a) ≤ 2 ^ 27 → length fs = length (area_pages a) → fs !! j = Some f →
  map_pages a (zip (area_pages a) fs) tr !! page_key (l (vpn_range a) + Z.of_nat j) = Some (area_pte a f).
Proof.
  intros Hsm Hl Hj. destruct (zip_area_pages a fs Hl) as [H1 H2].
  pose proof (lookup_lt_Some _ _ _ Hj) as Hlt. rewrite length_area_pages in Hl.
  assert (area_pages a !! j = Some (l (vpn_range a) + Z.of_nat j)) as Hp.
  { unfold area_pages, range. apply lookup_seqZ. lia. }
  apply (lookup_map_pages a _ tr (l (vpn_range a) + Z.of_nat j, f)).
  - rewrite H1. unfold area_pages. by apply NoDup_page_keys.
  - apply (list_elem_of_lookup_2 _ j), lookup_zip_with_Some. eauto.
Qed.

Lemma lookup_other_page tr a fs k :
  length fs = length (area_pages a) → k ∉ area_keys a → map_pages a (zip (area_pages a) fs) tr !! k = tr !! k.
Proof.
  intros Hl Hk. destruct (zip_area_pages a fs Hl) as [H1 _]. apply lookup_map_pages_ne.
  intros kv Hkv <-. apply Hk. unfold area_keys. apply list_elem_of_fmap_2. rewrite <-H1. by apply list_elem_of_fmap_2.
Qed.

(** ** [mmap] *)

(** A request for user memory that can be granted. *)
Record mmap_ok (tr : gmap Z Z) (s : mm) (start_va end_va perm : Z) : Prop := {
  mo_range : 0 ≤ start_va ∧ 0 < end_va ≤ 2 ^ 64 - 4096;
  mo_order : floor start_va ≤ ceil end_va ≤ floor start_va + 2 ^ 27;
  mo_perm : 0 ≤ perm < 2 ^ 8;
  mo_free : ∀ v, floor start_va ≤ v < ceil end_va → tr !! page_key v = None;
  mo_avail : 3 * (ceil end_va - floor start_va) ≤ Z.of_nat (avail (frame_allocator s));
}.

Lemma run_insert_framed_area lo s ms tr start_va end_va perm :
  ms_inv lo s ms tr → mmap_ok tr s start_va end_va perm →
  ∃ s' ms' tr' fs, insert_framed_area start_va end_va perm ms s = Ok (s', (ms', 0)) ∧
    ms_inv lo s' ms' tr' ∧ mm_step lo s (owned ms) s' (owned ms') ∧
    NoDup fs ∧ Z.of_nat (length fs) = ceil end_va - floor start_va ∧
    (∀ j f, fs !! j = Some f →
       ¬ in_use lo (frame_allocator s) f ∧ in_use lo (frame_allocator s') f ∧ mem s' !! f = Some zero_page ∧
       tr' !! page_key (floor start_va + Z.of_nat j) = Some (pte_new f (Z.lor perm FLAG_V))) ∧
    (∀ k, (∀ v, floor start_va ≤ v < ceil end_va → k ≠ page_key v) → tr' !! k = tr !! k) ∧
    root_ppn (page_table ms') = root_ppn (page_table ms) ∧
    (length (owned ms') ≤ length (owned ms) + 3 * length fs)%nat ∧
    areas ms' = areas ms ++ [mkArea (mkRange (floor start_va) (ceil end_va)) (zip (range (floor start_va) (ceil end_va)) fs) Framed perm] ∧
    ∀ p, p ∈ concat (area_frames <$> areas ms) → mem s' !! p = mem s !! p.
Proof.
  intros Hinv [Hr Ho Hp Hfree Hav]. set (a := mkArea (mkRange (floor start_va) (ceil end_va)) [] Framed perm).
  assert (length (area_pages a) = Z.to_nat (ceil end_va - floor start_va)) as Hla by apply length_area_pages.
  destruct (run_push lo s ms tr a None Hinv) as (s' & pt' & fs & Hpush & Hl & Hs & Hinv' & Hz & (Hgl & Hg & Hroot) & Hkeep).
  - split; simpl; try done; [|lia|]; [unfold floor, ceil, PAGE_SIZE, wrap64 in *; lia|].
    intros v Hv%elem_of_range. by apply Hfree.
  - unfold area_need. lia.
  - done.
  - eexists s', _, _, fs. split; [|split; [exact Hinv'|split; [exact Hs|]]].
    { unfold insert_framed_area. erewrite bind_ok by (apply area_new_ok; lia). exact Hpush. }
    destruct (zip_area_pages a fs Hl) as [_ H2].
    pose proof (step_owns _ _ _ _ _ Hs) as [Hnd Hu]. unfold owned in Hnd, Hu. cbn [areas page_table] in Hnd, Hu.
    rewrite fmap_app, concat_app in Hnd, Hu. cbn [fmap list_fmap concat] in Hnd, Hu.
    unfold area_frames in Hnd at 2, Hu at 2. cbn [with_frames data_frames] in Hnd, Hu.
    rewrite H2, app_nil_r, app_assoc in Hnd, Hu. apply NoDup_app in Hnd as (_ & Hdj & Hnd).
    split; [done|]. split; [lia|]. split.
    + intros j f Hj. pose proof (list_elem_of_lookup_2 _ _ _ Hj) as Hin.
      split_and!; [|apply Hu; rewrite elem_of_app; by right|by apply (Hz j)|by apply (lookup_mapped_page tr a); [simpl; lia|..]].
      destruct (step_new _ _ _ _ _ Hs f) as [Hold|]; [|exfalso|done].
      * unfold owned. cbn [areas page_table]. rewrite fmap_app, concat_app. cbn [fmap list_fmap concat].
        unfold area_frames at 2. cbn [with_frames data_frames]. rewrite H2, !elem_of_app. auto.
      * apply (Hdj f); [|done]. unfold owned in Hold. rewrite elem_of_app in Hold |- *. naive_solver.
    + split; [|split; [exact Hroot|split; [|by split]]].
      * intros k Hk. apply lookup_other_page; [done|]. unfold area_keys. rewrite list_elem_of_fmap.
        intros (v & -> & Hv%elem_of_range). by apply (Hk v).
      * unfold owned. cbn [areas page_table]. rewrite fmap_app, concat_app, !length_app. cbn [fmap list_fmap concat].
        unfold area_frames at 2. cbn [with_frames data_frames]. rewrite H2, app_nil_r. lia.
Qed.

(** C20: [insert_framed_area] maps the pages of the request, each to a frame of its own
    that was not in use and is filled with zeros, with the permissions asked for, and records them
    as a new area.  All other pages of the address space keep their entries, the frames of its other areas
    keep their bytes, and no frame of anybody else changes. *)
Theorem insert_framed_area_maps lo s ms tr start_va end_va perm :
  ms_inv lo s ms tr → mmap_ok tr s start_va end_va perm →
  ∃ s' ms' tr' fs, insert_framed_area start_va end_va perm ms s = Ok (s', (ms', 0)) ∧
    ms_inv lo s' ms' tr' ∧ mm_step lo s (owned ms) s' (owned ms') ∧
    NoDup fs ∧ Z.of_nat (length fs) = ceil end_va - floor start_va ∧
    (∀ j f, fs !! j = Some f →
       ¬ in_use lo (frame_allocator s) f ∧ in_use lo (frame_allocator s') f ∧ mem s' !! f = Some zero_page ∧
       tr' !! page_key (floor start_va + Z.of_nat j) = Some (pte_new f (Z.lor perm FLAG_V))) ∧
    (∀ k, (∀ v, floor start_va ≤ v < ceil end_va → k ≠ page_key v) → tr' !! k = tr !! k) ∧
    areas ms' = areas ms ++ [mkArea (mkRange (floor start_va) (ceil end_va)) (zip (range (floor start_va) (ceil end_va)) fs) Framed perm] ∧
    ∀ p, p ∈ concat (area_frames <$> areas ms) → mem s' !! p = mem s !! p.
Proof.
  intros Hinv Hok. destruct (run_insert_framed_area _ _ _ _ _ _ _ Hinv Hok) as (s' & ms' & tr' & fs & H). exists s', ms', tr', fs. tauto.
Qed.

(** C22: a request that meets a page mapped already is refused with -1, but not undone: the
    pages before that page stay mapped, with the permissions asked for, to frames that
    were given back to the allocator and will be handed to somebody else. *)
Theorem insert_framed_area_conflict lo s ms tr start_va end_va perm c w :
  ms_inv lo s ms tr → 0 ≤ start_va → 0 ≤ end_va < 2 ^ 64 → 0 ≤ perm < 2 ^ 8 →
  floor start_va ≤ c < ceil end_va → c - floor start_va ≤ 2 ^ 27 →
  (∀ v, floor start_va ≤ v < c → tr !! page_key v = None) → tr !! page_key c = Some w →
  3 * (c - floor start_va + 1) ≤ Z.of_nat (avail (frame_allocator s)) →
  ∃ s' pt' tr', insert_framed_area start_va end_va perm ms s = Ok (s', (mkMemorySet pt' (areas ms), -1)) ∧
    pt_rep lo s' pt' tr' ∧
    ∀ v, floor start_va ≤ v < c → ∃ f,
      tr' !! page_key v = Some (pte_new f (Z.lor perm FLAG_V)) ∧ ¬ in_use lo (frame_allocator s') f.
Proof.
  intros Hinv Hs0 He0 Hp Hc Hsm Hn Hw Hav.
  set (a := mkArea (mkRange (floor start_va) (ceil end_va)) [] Framed perm).
  destruct (run_push_conflict lo s ms tr a None c w Hinv) as (s' & pt' & fs & Hr & Hl & Hrep & Hf & _);
    simpl; try done; [unfold floor, PAGE_SIZE in *; lia|unfold ceil, PAGE_SIZE, wrap64 in *; lia|lia|].
  simpl in Hl, Hrep. eexists s', pt', _. split; [|split; [exact Hrep|]].
  { unfold insert_framed_area. erewrite bind_ok by (apply area_new_ok; lia). exact Hr. }
  set (kvs := zip (range (floor start_va) c) fs). intros v Hv.
  assert (length (range (floor start_va) c) = length fs) as Hlr by (unfold range; rewrite length_seqZ; lia).
  destruct (lookup_lt_is_Some_2 fs (Z.to_nat (v - floor start_va))) as [f Hj]; [lia|].
  exists f. split; [|apply Hf; by eapply list_elem_of_lookup_2].
  apply (lookup_map_pages a kvs tr (v, f)).
  - unfold kvs. rewrite fst_zip by lia. by apply NoDup_page_keys.
  - apply (list_elem_of_lookup_2 _ (Z.to_nat (v - floor start_va))), lookup_zip_with_Some. exists v, f.
    split; [done|]. split; [|done]. unfold range. apply lookup_seqZ. lia.
Qed.

(** ** [munmap] *)
Definition inside (start_vpn end_vpn : Z) (a : MapArea) : bool :=
  (start_vpn <=? l (vpn_range a)) && (r (vpn_range a) <=? end_vpn).

Lemma wrap64_diff_eqb a b c d :
  0 ≤ a ≤ b → b < 2 ^ 64 → 0 ≤ c ≤ d → d < 2 ^ 64 → (wrap64 (b - a) =? wrap64 (d - c)) = (b - a =? d - c).
Proof. intros. rewrite !wrap64_small by (unfold is_u64; lia). done. Qed.

(** C21: [remove_framed_area] on every branch.  The first area that lies inside the range is
    unmapped and its frames are given back; the answer is 0 only if it spans the whole
    range.  Without such an area nothing changes, and the answer is -1 unless the range
    is empty. *)
Theorem remove_framed_area_unmaps lo s ms tr start_va end_va :
  ms_inv lo s ms tr → Forall (λ a, map_type a = Framed) (areas ms) →
  0 ≤ start_va → 0 ≤ end_va < 2 ^ 64 → floor start_va ≤ ceil end_va →
  match find_idx (inside (floor start_va) (ceil end_va)) (areas ms) with
  | None => remove_framed_area start_va end_va ms s =
      Ok (s, (ms, if ceil end_va - floor start_va =? 0 then 0 else -1))
  | Some (idx, a) => ∃ s' ms', remove_framed_area start_va end_va ms s =
        Ok (s', (ms', if r (vpn_range a) - l (vpn_range a) =? ceil end_va - floor start_va then 0 else -1)) ∧
      areas ms' = remove_nth idx (areas ms) ∧
      ms_inv lo s' ms' (unmap_pages (area_keys a) tr) ∧ mm_step lo s (owned ms) s' (owned ms') ∧
      ∀ f, f ∈ area_frames a → ¬ in_use lo (frame_allocator s') f
  end.
Proof.
  intros Hinv Hty Hs0 He0 Hle.
  assert (0 ≤ floor start_va ∧ ceil end_va < 2 ^ 64) as Hrg by (unfold floor, ceil, wrap64, PAGE_SIZE in *; lia).
  unfold remove_framed_area. fold (inside (floor start_va) (ceil end_va)).
  destruct (find_idx (inside (floor start_va) (ceil end_va)) (areas ms)) as [[idx a]|] eqn:Hf.
  - apply find_idx_Some in Hf as (Hi & Hin & _). pose proof (list_elem_of_lookup_2 _ _ _ Hi) as Ha.
    pose proof (proj1 (Forall_forall _ _) (ms_areas _ _ _ _ Hinv) a Ha) as Haok.
    pose proof (proj1 (Forall_forall _ _) Hty a Ha) as Hta.
    destruct (run_remove_area lo s ms tr idx a Hinv Hi Hta) as (s' & Hr & Hinv' & Hs).
    exists s'. eexists. split; [|split; [|split; [exact Hinv'|split; [exact Hs|]]]]; [|done|].
    + apply bind_ok_inv in Hr as (s1 & [a1 pt1] & Hr1 & Hr). apply bind_ok_inv in Hr as (s2 & [] & Hr2 & [= <- ->]).
      erewrite bind_ok; [|erewrite bind_ok by exact Hr1; cbn iota beta; by erewrite bind_ok by exact Hr2].
      cbn iota beta. rewrite wrap64_diff_eqb; [done|..]; pose proof (ar_range _ _ Haok); lia.
    + intros f Hfa. apply (step_freed _ _ _ _ _ Hs).
      * unfold owned. rewrite elem_of_app. right. apply elem_of_concat_fmap. eauto.
      * destruct (ms_owns _ _ _ _ Hinv) as [Hnd _]. unfold owned in *. cbn [areas page_table].
        rewrite <-(take_drop_middle _ _ _ Hi), fmap_app, concat_app, fmap_cons in Hnd. cbn [concat] in Hnd.
        unfold remove_nth. rewrite fmap_app, concat_app, !elem_of_app.
        rewrite app_assoc in Hnd. apply NoDup_app in Hnd as (_ & H1 & (_ & H2 & _)%NoDup_app).
        specialize (H2 f Hfa). specialize (λ Hx, H1 f Hx). rewrite !elem_of_app in H1. tauto.
  - erewrite bind_ok by done. cbn iota beta. do 4 f_equal.
    rewrite wrap64_small by (unfold is_u64; lia). rewrite Z.eqb_sym. done.
Qed.

(** ** [fork] *)

(** The page of [va] in an area: its entry, its frame and its bytes. *)
Lemma area_va lo s ms tr a va :
  ms_inv lo s ms tr → a ∈ areas ms → map_type a = Framed → floor va ∈ area_pages a →
  ∃ f pg, area_frames a !! Z.to_nat (floor va - l (vpn_range a)) = Some f ∧
    tr !! page_key (floor va) = Some (area_pte a f) ∧ pte_ppn (area_pte a f) = f ∧
    mem s !! f = Some pg ∧ length pg = 4096%nat.
Proof.
  intros Hinv Ha Hty Hva%elem_of_range. pose proof (ms_areas _ _ _ _ Hinv) as Har. rewrite Forall_forall in Har.
  pose proof (Har a Ha) as Hok. pose proof (ok_area_frames _ _ Hok Hty) as Hlen. rewrite length_area_pages in Hlen.
  destruct (lookup_lt_is_Some_2 (area_frames a) (Z.to_nat (floor va - l (vpn_range a)))) as [f Hf]; [lia|].
  destruct (area_page _ _ _ _ _ _ _ Hinv Ha Hty Hf) as (_ & Hp & _ & pg & Hpg & Hl).
  exists f, pg. split; [done|]. split; [|done]. unfold area_frames in Hf.
  apply list_lookup_fmap_Some in Hf as ([v f'] & -> & Hkv). destruct Hok as [_ _ _ Hpages _ _ Ht].
  unfold area_map_of in *. rewrite Hty in *. pose proof (Ht _ (list_elem_of_lookup_2 _ _ _ Hkv)) as Hpte. simpl in *.
  assert ((data_frames a).*1 !! Z.to_nat (floor va - l (vpn_range a)) = Some v) as Hv by (by rewrite list_lookup_fmap, Hkv).
  rewrite Hpages in Hv. unfold area_pages, range in Hv. apply lookup_seqZ in Hv.
  by replace (floor va) with v by lia.
Qed.

Lemma user_byte_page m tr va pte pg :
  tr !! page_key (floor va) = Some pte → m !! pte_ppn pte = Some pg →
  user_byte m tr va = pg !! Z.to_nat (va mod 4096).
Proof. intros Hp Hg. unfold user_byte. rewrite Hp. cbn. by rewrite Hg. Qed.

(** What [from_existed_user] needs: areas of frames below the trampoline, and enough frames. *)
Record fork_ok (s : mm) (user : MemorySet) (strampoline : Z) : Prop := {
  fo_framed : Forall (λ a, map_type a = Framed) (areas user);
  fo_below : TRAMPOLINE_KEY ∉ concat (area_keys <$> areas user);
  fo_tramp : trampoline_ok strampoline;
  fo_avail : (3 + 3 * npages (areas user) ≤ avail (frame_allocator s))%nat;
}.

(** Pages of a space have frames of their own. *)
Lemma area_va_inj lo s ms tr a b va vb f :
  ms_inv lo s ms tr → a ∈ areas ms → b ∈ areas ms →
  area_frames a !! Z.to_nat (floor va - l (vpn_range a)) = Some f → area_frames b !! Z.to_nat (floor vb - l (vpn_range b)) = Some f →
  floor va ∈ area_pages a → floor vb ∈ area_pages b → floor va = floor vb.
Proof.
  intros Hinv [i Hi]%list_elem_of_lookup [j Hj]%list_elem_of_lookup Ha Hb Hva%elem_of_range Hvb%elem_of_range.
  pose proof (ms_owns _ _ _ _ Hinv) as [Hnd _]. unfold owned in Hnd. apply NoDup_app in Hnd as (_ & _ & Hnd).
  destruct (NoDup_concat_lookup (area_frames <$> areas ms) i j (area_frames a) (area_frames b)
    (Z.to_nat (floor va - l (vpn_range a))) (Z.to_nat (floor vb - l (vpn_range b))) f Hnd) as [-> Hp];
    [by rewrite list_lookup_fmap, Hi|done|by rewrite list_lookup_fmap, Hj|done|]. rewrite Hi in Hj. injection Hj as <-. lia.
Qed.

(** The pages of the original and of the copy. *)
Lemma fork_pages lo user tru s' new trn a va :
  ms_inv lo s' user tru → ms_inv lo s' new trn → Forall (λ a, map_type a = Framed) (areas user) →
  Forall2 (same_area s') (areas user) (areas new) → a ∈ areas user → floor va ∈ area_pages a →
  ∃ f g pg a', a' ∈ areas new ∧ map_type a' = Framed ∧ floor va ∈ area_pages a' ∧
    area_frames a' !! Z.to_nat (floor va - l (vpn_range a')) = Some g ∧
    tru !! page_key (floor va) = Some (area_pte a f) ∧ trn !! page_key (floor va) = Some (area_pte a g) ∧
    pte_ppn (area_pte a f) = f ∧ pte_ppn (area_pte a g) = g ∧ mem s' !! f = Some pg ∧ mem s' !! g = Some pg ∧ length pg = 4096%nat ∧
    f ∈ owned user.
Proof.
  intros Hu Hn Hty Hf2 Ha Hva. pose proof (proj1 (Forall_forall _ _) Hty a Ha) as Hta. simpl in Hta.
  pose proof Ha as [i Hi]%list_elem_of_lookup. destruct (Forall2_lookup_l _ _ _ _ _ Hf2 Hi) as (a' & Hi' & [Hrg Ht Hpm _ Hb]).
  pose proof (list_elem_of_lookup_2 _ _ _ Hi') as Ha'.
  assert (floor va ∈ area_pages a') as Hva' by (unfold area_pages in *; by rewrite Hrg).
  destruct (area_va lo s' user tru a va Hu Ha Hta Hva) as (f & pg & Hf & Htf & Hpf & Hmf & Hlf).
  destruct (area_va lo s' new trn a' va Hn Ha' ltac:(congruence) Hva') as (g & pg' & Hg & Htg & Hpg & Hmg & Hlg).
  assert (area_pte a' g = area_pte a g) as Hpe by (unfold area_pte; by rewrite Hpm). rewrite Hpe in *.
  pose proof Hg as Hg'. rewrite Hrg in Hg'. pose proof (Hb _ _ _ Hf Hg') as He. rewrite Hmf, Hmg in He. injection He as ->.
  exists f, g, pg, a'. split_and!; try done; [congruence|]. unfold owned. rewrite elem_of_app. right.
  apply elem_of_concat_fmap. exists a. split; [done|by eapply list_elem_of_lookup_2].
Qed.

Lemma fork_copies lo s user tru st :
  ms_inv lo s user tru → fork_ok s user st →
  ∃ s' new trn, from_existed_user st user s = Ok (s', new) ∧ ms_inv lo s' new trn ∧ ms_inv lo s' user tru ∧
    mm_step lo s [] s' (owned new) ∧
    (∀ p, p ∈ owned user → p ∉ owned new ∧ mem s' !! p = mem s !! p) ∧
    trn !! TRAMPOLINE_KEY = Some (trampoline_pte st) ∧
    ∀ a va, a ∈ areas user → floor va ∈ area_pages a → ∃ f g b,
      tru !! page_key (floor va) = Some (area_pte a f) ∧ trn !! page_key (floor va) = Some (area_pte a g) ∧
      user_byte (mem s') tru va = Some b ∧ user_byte (mem s') trn va = Some b.
Proof.
  intros Hinv [Hty Htk Hst Hav].
  destruct (run_from_existed_user lo s user tru st Hinv Hty Htk Hst Hav) as (s' & new & trn & Hr & Hn & Hu & Hs & Hf2 & Htr & Hm & _).
  exists s', new, trn. do 4 (split; [done|]). split.
  { intros p Hp. split; [|by apply Hm]. destruct (ms_inv_step _ _ _ _ _ _ _ Hs Hinv) as (_ & Hdj & _); [|by apply Hdj].
    intros; apply not_elem_of_nil. }
  split; [done|]. intros a va Ha Hva.
  destruct (fork_pages lo user tru s' new trn a va Hu Hn Hty Hf2 Ha Hva) as (f & g & pg & a' & _ & _ & _ & _ & Htf & Htg & Hpf & Hpg & Hmf & Hmg & Hl & _).
  destruct (lookup_lt_is_Some_2 pg (Z.to_nat (va mod 4096))) as [b Hb']; [lia|].
  exists f, g, b. do 2 (split; [done|]). split.
  - rewrite (user_byte_page _ _ _ _ pg Htf); [done|by rewrite Hpf].
  - rewrite (user_byte_page _ _ _ _ pg Htg); [done|by rewrite Hpg].
Qed.

(** C6: [from_existed_user] copies an address space.  Every byte of the user's areas is
    found at the same address in the copy, with the same permissions; the copy shares
    no frame with the original, so that neither sees what the other writes later; the
    original keeps its frames and its bytes. *)
Theorem from_existed_user_copies lo s user tru st :
  ms_inv lo s user tru → fork_ok s user st →
  ∃ s' new trn, from_existed_user st user s = Ok (s', new) ∧ ms_inv lo s' new trn ∧ ms_inv lo s' user tru ∧
    mm_step lo s [] s' (owned new) ∧
    (∀ p, p ∈ owned user → p ∉ owned new ∧ mem s' !! p = mem s !! p) ∧
    trn !! TRAMPOLINE_KEY = Some (trampoline_pte st) ∧
    ∀ a va, a ∈ areas user → floor va ∈ area_pages a → ∃ f g b,
      tru !! page_key (floor va) = Some (area_pte a f) ∧ trn !! page_key (floor va) = Some (area_pte a g) ∧
      user_byte (mem s') tru va = Some b ∧ user_byte (mem s') trn va = Some b.
Proof. apply fork_copies. Qed.

(** ** Concrete address spaces *)
Lemma demo_space :
  ∃ s ms, ms_inv 0x80400 s ms ∅ ∧ areas ms = [] ∧ avail (frame_allocator s) = 63%nat.
Proof.
  destruct (run_new_bare 0x80400 (demo_mm 0x80400 0x80440)) as (s & ms & _ & Hinv & Hem & Hl & Hs);
    [apply demo_mm_ok; lia|rewrite demo_mm_avail; lia|].
  exists s, ms. split; [done|]. split; [done|]. pose proof (step_avail _ _ _ _ _ Hs) as Ha.
  rewrite demo_mm_avail in Ha. unfold owned in Ha. rewrite Hem in Ha. simpl in Ha. rewrite app_nil_r in Ha. lia.
Qed.

Lemma demo_mmap_ok s : avail (frame_allocator s) = 63%nat → mmap_ok ∅ s 0x10000 0x12000 22.
Proof. intros Ha. split; rewrite ?Ha; vm_compute; try (split; congruence); done. Qed.

Lemma insert_framed_area_maps_witness :
  ∃ s ms s' ms', insert_framed_area 0x10000 0x12000 22 ms s = Ok (s', (ms', 0)).
Proof.
  destruct demo_space as (s & ms & Hinv & _ & Ha).
  destruct (insert_framed_area_maps 0x80400 s ms ∅ 0x10000 0x12000 22 Hinv (demo_mmap_ok s Ha))
    as (s' & ms' & _ & _ & Hr & _).
  exists s, ms, s', ms'. exact Hr.
Defined.

(** Two pages, at 0x10000. *)
Lemma demo_space_mapped :
  ∃ s ms tr, ms_inv 0x80400 s ms tr ∧ Forall (λ a, map_type a = Framed) (areas ms) ∧
    (50 ≤ avail (frame_allocator s))%nat ∧
    (∃ fs, areas ms = [mkArea (mkRange 0x10 0x12) (zip [0x10; 0x11] fs) Framed 22] ∧ length fs = 2%nat) ∧
    is_Some (tr !! 0x10) ∧ tr !! 0xf = None.
Proof.
  destruct demo_space as (s & ms & Hinv & Hem & Ha).
  set (a := mkArea (mkRange 0x10 0x12) [] Framed 22).
  destruct (run_push 0x80400 s ms ∅ a None Hinv) as (s' & pt' & fs & _ & Hl & Hs & Hinv' & _ & [Hg _] & _);
    [split; by vm_compute|rewrite Ha; vm_compute; lia|done|].
  rewrite Hem in Hinv', Hs. eexists s', _, _. split; [exact Hinv'|]. split; [by repeat constructor|]. split; [|split; [|split]].
  - pose proof (step_avail _ _ _ _ _ Hs) as Hav. unfold owned in Hav. rewrite Hem in Hav. cbn [areas page_table] in Hav.
    change (length (area_pages a)) with 2%nat in Hl. destruct fs as [|f [|g [|]]]; try done.
    rewrite !length_app in Hav. simpl in Hav, Hg. lia.
  - exists fs. split; [done|]. exact Hl.
  - destruct fs as [|f fs]; [done|]. exists (area_pte a f).
    by apply (lookup_mapped_page ∅ a (f :: fs) 0 f); [vm_compute; congruence|..].
  - rewrite lookup_other_page; [done|done|]. change (area_keys a) with [0x10; 0x11]. rewrite !elem_of_cons.
    intros [?|[?|?%elem_of_nil]]; done.
Qed.

Lemma insert_framed_area_conflict_witness :
  ∃ s ms s' ms', insert_framed_area 0xf000 0x12000 22 ms s = Ok (s', (ms', -1)).
Proof.
  destruct demo_space_mapped as (s & ms & tr & Hinv & _ & Ha & _ & [w Hw] & Hn).
  destruct (insert_framed_area_conflict 0x80400 s ms tr 0xf000 0x12000 22 0x10 w) as (s' & pt' & _ & Hr & _).
  - exact Hinv.
  - lia.
  - lia.
  - lia.
  - vm_compute. split; congruence.
  - vm_compute. congruence.
  - intros v Hv. change (floor 0xf000) with 0xf in Hv. replace v with 0xf by lia. exact Hn.
  - exact Hw.
  - change (floor 0xf000) with 0xf. lia.
  - exists s, ms, s'. eexists. exact Hr.
Defined.

Lemma remove_framed_area_unmaps_witness :
  ∃ s ms s' ms', remove_framed_area 0x10000 0x12000 ms s = Ok (s', (ms', 0)) ∧ areas ms' = [].
Proof.
  destruct demo_space_mapped as (s & ms & tr & Hinv & Hty & _ & (fs & Hms & _) & _).
  pose proof (remove_framed_area_unmaps 0x80400 s ms tr 0x10000 0x12000 Hinv Hty ltac:(lia) ltac:(lia)
    ltac:(vm_compute; congruence)) as H.
  rewrite Hms in H. change (find_idx _ _) with
    (Some (0%nat, mkArea (mkRange 0x10 0x12) (zip [0x10; 0x11] fs) Framed 22)) in H. cbn iota beta in H.
  destruct H as (s' & ms' & Hr & Hem & _). exists s, ms, s', ms'. split; [exact Hr|exact Hem].
Defined.

Lemma from_existed_user_copies_witness :
  ∃ s user s' new tru trn b, from_existed_user 0x80200000 user s = Ok (s', new) ∧
    user_byte (mem s') tru 0x10123 = Some b ∧ user_byte (mem s') trn 0x10123 = Some b.
Proof.
  destruct demo_space_mapped as (s & ms & tr & Hinv & Hty & Ha & (fs & Hms & _) & _).
  destruct (from_existed_user_copies 0x80400 s ms tr 0x80200000 Hinv) as (s' & new & trn & Hr & _ & _ & _ & _ & _ & Hb).
  - split; [exact Hty| | |].
    + rewrite Hms. change (concat _) with [0x10; 0x11]. rewrite !elem_of_cons.
      intros [?|[?|?%elem_of_nil]]; done.
    + split; vm_compute; [reflexivity|split; congruence].
    + rewrite Hms. change (npages _) with 2%nat. lia.
  - destruct (Hb (mkArea (mkRange 0x10 0x12) (zip [0x10; 0x11] fs) Framed 22) 0x10123) as (_ & _ & b & _ & _ & H1 & H2).
    + rewrite Hms. left.
    + apply elem_of_range. vm_compute. split; congruence.
    + exists s, ms, s', new, tr, trn, b. split; [exact Hr|]. split; [exact H1|exact H2].
Defined.
