(* ===== verification/Loader.v ===== *)
(** * Loading programs ([MemorySet::from_elf])

    [from_elf] builds the address space of a program: trampoline, one area for
    each loadable segment, a user stack above a page that stays unmapped, and the
    page of the trap context.  The ELF reader is a parameter; for a file whose
    segments are in ascending order ([elf_ok]) the loader returns, every page of
    every segment holds the segment's bytes, and nothing else is mapped. *)

From S2P Require Import Prelude Bytes Address FrameAlloc PageTable UserBuf MemorySet MemSpec ForkSpec AddrSpace.

Local Ltac Zify.zify_post_hook ::= Z.to_euclidean_division_equations.

(** ** Segments *)

(** Pages to map, with their permissions and initial bytes. *)
Record seg := mkSeg { sg_l : Z; sg_r : Z; sg_perm : Z; sg_data : option (list byte) }.

Definition seg_area (sg : seg) : MapArea := mkArea (mkRange (sg_l sg) (sg_r sg)) [] Framed (sg_perm sg).
Definition seg_keys (sg : seg) : list Z := area_keys (seg_area sg).

(** The area holds the segment. *)
Record loaded (s : mm) (sg : seg) (a : MapArea) : Prop := {
  ld_range : vpn_range a = mkRange (sg_l sg) (sg_r sg);
  ld_type : map_type a = Framed;
  ld_perm : map_perm a = sg_perm sg;
  ld_bytes : ∀ j f, area_frames a !! j = Some f → mem s !! f = Some (page_init (sg_data sg) j);
}.

Lemma loaded_step s s' sg a :
  (∀ p, p ∈ area_frames a → mem s' !! p = mem s !! p) → loaded s sg a → loaded s' sg a.
Proof.
  intros Hm [? ? ? Hb]. split; try done. intros j f Hj. rewrite Hm; [by apply Hb|by eapply list_elem_of_lookup_2].
Qed.

Lemma loaded_segs_step s s' P l :
  (∀ p, p ∈ concat (area_frames <$> l) → mem s' !! p = mem s !! p) → Forall2 (loaded s) P l → Forall2 (loaded s') P l.
Proof.
  intros Hm Hf. induction Hf as [|sg a P l Ha Hf IH]; [constructor|]. cbn [fmap list_fmap concat] in Hm. constructor.
  - eapply loaded_step; [|done]. intros p Hp. apply Hm. rewrite elem_of_app. by left.
  - apply IH. intros p Hp. apply Hm. rewrite elem_of_app. by right.
Qed.

(** A segment that can be mapped beside the segments [P]. *)
Record seg_fits (P : list seg) (sg : seg) : Prop := {
  sf_range : 0 ≤ sg_l sg ≤ sg_r sg ∧ sg_r sg < 2 ^ 64;
  sf_small : sg_r sg - sg_l sg ≤ 2 ^ 27;
  sf_perm : 0 ≤ sg_perm sg < 2 ^ 8;
  sf_data : data_fits (sg_data sg) (seg_area sg);
  sf_free : ∀ k, k ∈ seg_keys sg → k ≠ TRAMPOLINE_KEY ∧ k ∉ concat (seg_keys <$> P);
}.

Definition seg_pages (P : list seg) : nat := length (concat (seg_keys <$> P)).

Section loading.
Context (lo strampoline : Z) (s0 : mm).

(** The address space [ms] holds the trampoline, the segments [P] and nothing else. *)
Record holds (P : list seg) (ms : MemorySet) (tr : gmap Z Z) (s : mm) : Prop := {
  ho_inv : ms_inv lo s ms tr;
  ho_step : mm_step lo s0 [] s (owned ms);
  ho_len : (length (owned ms) ≤ 3 + 3 * seg_pages P)%nat;
  ho_segs : Forall2 (loaded s) P (areas ms);
  ho_tramp : tr !! TRAMPOLINE_KEY = Some (trampoline_pte strampoline);
  ho_exact : ∀ k, is_Some (tr !! k) → k = TRAMPOLINE_KEY ∨ k ∈ concat (seg_keys <$> P);
}.

Lemma push_seg P ms tr s sg :
  holds P ms tr s → seg_fits P sg → (3 + 3 * seg_pages (P ++ [sg]) ≤ avail (frame_allocator s0))%nat →
  ∃ s' ms' tr', push (seg_area sg) (sg_data sg) ms s = Ok (s', (ms', 0)) ∧ holds (P ++ [sg]) ms' tr' s'.
Proof.
  intros [Hinv Hstep Hlen Hsegs Htr Hex] [Hr Hsm Hp Hd Hfree] Hav.
  assert (length (area_pages (seg_area sg)) = length (seg_keys sg)) as Hlk by (unfold seg_keys, area_keys; by rewrite length_fmap).
  unfold seg_pages in *. rewrite fmap_app, concat_app, length_app in Hav. cbn [fmap list_fmap concat] in Hav.
  rewrite app_nil_r in Hav.
  pose proof (step_avail _ _ _ _ _ Hstep) as Ha. simpl in Ha.
  destruct (run_push lo s ms tr (seg_area sg) (sg_data sg) Hinv) as (s' & pt' & fs & Hrun & Hl & Hs & Hinv' & Hz & [Hg _] & Hm).
  - split; simpl; try done. intros v Hv. apply eq_None_not_Some. intros Hk.
    destruct (Hfree (page_key v)) as [H1 H2]; [by apply list_elem_of_fmap_2|]. destruct (Hex _ Hk); done.
  - unfold area_need. lia.
  - done.
  - destruct (zip_area_pages (seg_area sg) fs Hl) as [H1 H2].
    eexists s', _, _. split; [exact Hrun|]. split; [exact Hinv'|by eapply mm_step_trans| | | |].
    + unfold owned, seg_pages in *. cbn [areas page_table]. rewrite !fmap_app, !concat_app, !length_app in *.
      cbn [fmap list_fmap concat]. rewrite !app_nil_r. unfold area_frames at 2. cbn [with_frames data_frames].
      rewrite H2. lia.
    + cbn [areas]. apply Forall2_app.
      * apply Forall2_same_length_lookup. split; [by eapply Forall2_length|]. intros i x y Hx Hy.
        eapply loaded_step; [|by eapply Forall2_lookup_lr]. intros p Hp'. apply Hm, elem_of_concat_fmap.
        exists y. split; [by eapply list_elem_of_lookup_2|done].
      * constructor; [|constructor]. split; try done. unfold area_frames. cbn [with_frames data_frames]. by rewrite H2.
    + rewrite lookup_other_page; [done|done|]. intros Hin. by destruct (Hfree _ Hin).
    + intros k Hk. rewrite fmap_app, concat_app, elem_of_app. cbn [fmap list_fmap concat]. rewrite app_nil_r.
      destruct (decide (k ∈ seg_keys sg)); [auto|]. rewrite lookup_other_page in Hk by done. destruct (Hex _ Hk); auto.
Qed.

Lemma push_new_seg P ms tr s start_va end_va perm :
  let sg := mkSeg (floor start_va) (ceil end_va) perm None in
  holds P ms tr s → seg_fits P sg → (3 + 3 * seg_pages (P ++ [sg]) ≤ avail (frame_allocator s0))%nat →
  ∃ s' ms' tr', push_new start_va end_va Framed perm None ms s = Ok (s', ms') ∧ holds (P ++ [sg]) ms' tr' s'.
Proof.
  intros sg Hh Hf Hav. destruct (push_seg P ms tr s sg Hh Hf Hav) as (s' & ms' & tr' & Hr & Hh').
  exists s', ms', tr'. split; [|done]. unfold push_new.
  erewrite bind_ok by (apply area_new_ok; by apply Hf). by run Hr.
Qed.

(** ** Segments of a file *)
Section file.
Context (elf_data : list byte).

(** The segment of a program header. *)
Definition ph_seg (ph : ProgramHeader) : seg :=
  mkSeg (floor (ph_virtual_addr ph)) (ceil (ph_virtual_addr ph + ph_mem_size ph)) (ph_perm ph)
    (Some (take (Z.to_nat (ph_file_size ph)) (drop (Z.to_nat (ph_offset ph)) elf_data))).

Definition ph_segs (phs : list (option ProgramHeader)) : list seg :=
  omap (λ oph, match oph with
               | Some ph => match ph_load ph with Some true => Some (ph_seg ph) | _ => None end
               | None => None
               end) phs.

(** Pages below [2^26], at or above [e]. *)
Fixpoint ascending (e : Z) (P : list seg) : Prop :=
  match P with
  | [] => e ≤ 2 ^ 26
  | sg :: P => e ≤ sg_l sg ∧ sg_l sg < sg_r sg ∧ ascending (sg_r sg) P
  end.

(** The end of the last segment. *)
Definition last_end (P : list seg) : Z := foldl (λ _ sg, sg_r sg) 0 P.

(** A header that the loader can use. *)
Definition ph_ok (oph : option ProgramHeader) : Prop :=
  match oph with
  | None => False
  | Some ph =>
      match ph_load ph with
      | None => False
      | Some false => True
      | Some true =>
          0 ≤ ph_virtual_addr ph ∧ 0 < ph_mem_size ph ∧ ph_virtual_addr ph + ph_mem_size ph ≤ 2 ^ 38 ∧
          0 ≤ ph_offset ph ∧ 0 ≤ ph_file_size ph ≤ ph_mem_size ph ∧
          ph_offset ph + ph_file_size ph ≤ Z.of_nat (length elf_data)
      end
  end.

Lemma seg_keys_low sg k : 0 ≤ sg_l sg → sg_r sg ≤ 2 ^ 27 → k ∈ seg_keys sg ↔ sg_l sg ≤ k < sg_r sg.
Proof.
  intros H0 Hr. unfold seg_keys, area_keys, area_pages. simpl. rewrite list_elem_of_fmap. split.
  - intros (v & -> & Hv%elem_of_range). unfold page_key. rewrite Z.mod_small; lia.
  - intros Hk. exists k. rewrite elem_of_range. split; [|done]. unfold page_key. rewrite Z.mod_small; lia.
Qed.

Lemma ascending_bound P : ∀ e, ascending e P → e ≤ 2 ^ 26.
Proof. induction P as [|sg P IH]; intros e; simpl; [done|]. intros (? & ? & ?%IH). lia. Qed.

(** What comes before a segment in the list is below it. *)
Lemma ascending_mid P1 : ∀ e sg P2, 0 ≤ e → ascending e (P1 ++ sg :: P2) →
  e ≤ sg_l sg < sg_r sg ∧ sg_r sg ≤ 2 ^ 26 ∧ ∀ k, k ∈ concat (seg_keys <$> P1) → e ≤ k < sg_l sg.
Proof.
  induction P1 as [|x P1 IH]; intros e sg P2 He; simpl.
  - intros (? & ? & ?%ascending_bound). split; [lia|]. split; [lia|]. intros k Hk. by apply elem_of_nil in Hk.
  - intros (H1 & H2 & H3). destruct (IH (sg_r x) sg P2 ltac:(lia) H3) as (H4 & H5 & H6). split; [lia|]. split; [lia|].
    intros k [Hk|Hk]%elem_of_app; [|specialize (H6 k Hk); lia]. apply seg_keys_low in Hk; lia.
Qed.

Lemma last_end_app P sg : last_end (P ++ [sg]) = sg_r sg.
Proof. unfold last_end. by rewrite foldl_app. Qed.

Lemma ascending_last P : ∀ e, 0 ≤ e → ascending e P →
  (P = [] ∨ e ≤ last_end P) ∧ 0 ≤ last_end P ≤ 2 ^ 26 ∧ ∀ k, k ∈ concat (seg_keys <$> P) → 0 ≤ k < last_end P.
Proof.
  destruct P as [|sg P _] using rev_ind; intros e He Ha.
  - simpl in *. unfold last_end. simpl. split; [by left|]. split; [lia|]. intros k Hk. by apply elem_of_nil in Hk.
  - rewrite last_end_app. destruct (ascending_mid P e sg [] He Ha) as (H1 & H2 & H3).
    split; [right; lia|]. split; [lia|]. intros k. rewrite fmap_app, concat_app, elem_of_app. cbn [fmap list_fmap concat].
    rewrite app_nil_r. intros [Hk|Hk]; [specialize (H3 k Hk); lia|]. apply seg_keys_low in Hk; lia.
Qed.

Lemma ph_perm_range ph : 0 ≤ ph_perm ph < 2 ^ 8.
Proof. unfold ph_perm. destruct (ph_read ph), (ph_write ph), (ph_execute ph); vm_compute; split; congruence. Qed.

Lemma ph_seg_fits P ph :
  ph_ok (Some ph) → ph_load ph = Some true →
  sg_l (ph_seg ph) < sg_r (ph_seg ph) ∧ (sg_r (ph_seg ph) ≤ 2 ^ 26 →
    (∀ k, k ∈ concat (seg_keys <$> P) → k < sg_l (ph_seg ph)) → seg_fits P (ph_seg ph)).
Proof.
  cbn [ph_ok]. intros Hok Hl. rewrite Hl in Hok. destruct Hok as (H1 & H2 & H3 & H4 & H5 & H6).
  pose proof (ceil_up (ph_virtual_addr ph + ph_mem_size ph) ltac:(lia)) as Hc.
  split; [cbn [ph_seg sg_l sg_r]; unfold floor, PAGE_SIZE; lia|]. intros Hr Hk.
  split; cbn [ph_seg sg_l sg_r sg_perm sg_data] in *; unfold floor, PAGE_SIZE in *.
  - lia.
  - lia.
  - apply ph_perm_range.
  - assert (length (area_pages (seg_area (ph_seg ph))) =
      Z.to_nat (ceil (ph_virtual_addr ph + ph_mem_size ph) - ph_virtual_addr ph / 4096)) as Hp.
    { rewrite length_area_pages. done. }
    split; [intros He; rewrite He in Hp; simpl in Hp; lia|]. rewrite Hp, length_take. lia.
  - intros k. rewrite seg_keys_low; [|simpl; unfold floor, PAGE_SIZE; lia|simpl; lia]. intros Hk'. split.
    + intros ->. change TRAMPOLINE_KEY with (2 ^ 27 - 1) in Hk'. simpl in Hk'. lia.
    + intros Hin. specialize (Hk k Hin). cbn [ph_seg sg_l] in Hk'. unfold floor, PAGE_SIZE in Hk'. lia.
Qed.

(** The loop over the program headers. *)
Lemma load_segments phs ms tr s :
  holds [] ms tr s → Forall ph_ok phs → ascending 0 (ph_segs phs) → Z.of_nat (length elf_data) < 2 ^ 63 →
  (3 + 3 * seg_pages (ph_segs phs) ≤ avail (frame_allocator s0))%nat →
  ∃ s' ms' tr', for_ phs (load_segment elf_data) (ms, 0) s = Ok (s', (ms', last_end (ph_segs phs))) ∧
    holds (ph_segs phs) ms' tr' s'.
Proof.
  intros Hh Hok Hasc Hlen Hav.
  pose proof (wp_for (λ pre (st : MemorySet * Z) s, st.2 = last_end (ph_segs pre) ∧ ∃ tr, holds (ph_segs pre) st.1 tr s)
    (load_segment elf_data) phs (ms, 0) s) as Hw.
  apply wp_ok in Hw as ([ms' mx] & s' & Hr & Hmx & tr' & Hh'); [simpl in *; subst; eauto| |simpl; eauto].
  clear Hw. intros pre oph post [ms1 mx] s1 Hl [Hmx [tr1 Hh1]]. simpl in Hmx, Hh1. subst mx.
  assert (ph_ok oph) as Hop by (apply (proj1 (Forall_forall _ _) Hok); rewrite Hl, elem_of_app; right; by left).
  destruct oph as [ph|]; [|done]. assert (ph_ok (Some ph)) as Hop' by done. simpl in Hop.
  destruct (ph_load ph) as [[|]|] eqn:Hld; [| |done].
  2:{ eapply wp_eq; [unfold load_segment; simpl; unfold mbind, M_bind; simpl; rewrite Hld; done|].
      unfold ph_segs. rewrite omap_app. simpl. rewrite Hld, app_nil_r. eauto. }
  assert (ph_segs (pre ++ [Some ph]) = ph_segs pre ++ [ph_seg ph]) as Hp1 by (unfold ph_segs; rewrite omap_app; simpl; by rewrite Hld).
  assert (ph_segs phs = ph_segs pre ++ ph_seg ph :: ph_segs post) as Hp2 by (rewrite Hl; unfold ph_segs; rewrite omap_app; simpl; by rewrite Hld).
  rewrite Hp2 in Hasc, Hav. destruct (ascending_mid _ 0 _ _ ltac:(lia) Hasc) as (Ha1 & Ha2 & Ha3).
  destruct (ph_seg_fits (ph_segs pre) ph Hop' Hld) as [_ Hfit].
  destruct (push_seg (ph_segs pre) ms1 tr1 s1 (ph_seg ph) Hh1) as (s2 & ms2 & tr2 & Hpush & Hh2).
  { apply Hfit; [lia|]. intros k Hk. by apply Ha3. }
  { unfold seg_pages in *. rewrite fmap_app, concat_app, length_app, fmap_cons in Hav |- *. cbn [concat] in *.
    rewrite length_app in *. cbn [fmap list_fmap concat length]. lia. }
  rewrite Hp1, last_end_app. destruct Hop as (Hv & Hm & Hvm & Ho & Hf & Hof).
  apply (wp_eq _ _ s2 (ms2, sg_r (ph_seg ph))); [|split; [done|by exists tr2]].
  unfold load_segment. erewrite bind_ok by apply unwrap_some. rewrite Hld. erewrite bind_ok by apply unwrap_some. cbn iota.
  rewrite !wrap64_small by (unfold is_u64; lia).
  erewrite bind_ok by (apply area_new_ok; simpl in Ha1; lia). cbn zeta.
  erewrite bind_ok by (apply slice_ok; lia). replace (ph_offset ph + ph_file_size ph - ph_offset ph) with (ph_file_size ph) by lia.
  by run Hpush.
Qed.
End file.
End loading.

(** ** The whole address space *)

(** The stack begins one page after the last segment; the trap context is below the
    trampoline. *)
Definition stack_seg (e : Z) : seg := mkSeg (e + 1) (e + 3) (Z.lor (Z.lor PERM_R PERM_W) PERM_U) None.
Definition trap_seg : seg := mkSeg (floor TRAP_CONTEXT) (ceil TRAMPOLINE) (Z.lor PERM_R PERM_W) None.

Definition elf_segs (elf_data : list byte) (elf : ElfFile) : list seg :=
  let P := ph_segs elf_data (elf_phs elf) in P ++ [stack_seg (last_end P); trap_seg].

(** A program file that can be loaded: segments in ascending order below [2^38]. *)
Record elf_ok (elf_data : list byte) (elf : ElfFile) : Prop := {
  eo_magic : elf_magic elf = [0x7f; 0x45; 0x4c; 0x46];
  eo_len : Z.of_nat (length elf_data) < 2 ^ 63;
  eo_phs : Forall (ph_ok elf_data) (elf_phs elf);
  eo_asc : ascending 0 (ph_segs elf_data (elf_phs elf));
}.

Lemma run_bare_space lo st s :
  mm_ok lo s → trampoline_ok st → (3 ≤ avail (frame_allocator s))%nat →
  ∃ s' ms' tr, (ms ← new_bare; map_trampoline st ms) s = Ok (s', ms') ∧ holds lo st s [] ms' tr s'.
Proof.
  intros Hmm Hst Hav. destruct (run_new_bare lo s Hmm) as (s1 & ms1 & Hr1 & Hn1 & Hem1 & Hl1 & Hs1); [lia|].
  pose proof (step_avail _ _ _ _ _ Hs1) as Ha1. unfold owned in Ha1. rewrite Hem1 in Ha1. simpl in Ha1.
  rewrite app_nil_r in Ha1.
  destruct (run_map_trampoline lo s1 ms1 st Hn1 Hem1) as (s2 & pt2 & Hr2 & Hn2 & Hl2 & Hs2); [lia|done|].
  exists s2, (mkMemorySet pt2 []), {[ TRAMPOLINE_KEY := trampoline_pte st ]}. split; [by run Hr1|].
  split; [done|by eapply mm_step_trans| |constructor|by rewrite lookup_singleton_eq|].
  - unfold owned. simpl. rewrite app_nil_r. lia.
  - intros k [w Hw]. apply lookup_singleton_Some in Hw as [<- _]. by left.
Qed.

Lemma stack_fits P : ascending 0 P → seg_fits P (stack_seg (last_end P)).
Proof.
  intros Hasc. destruct (ascending_last P 0 ltac:(lia) Hasc) as (_ & Hl & Hk). split; simpl; [lia|lia|by vm_compute|done|].
  intros k Hin. rewrite seg_keys_low in Hin by (simpl; lia). simpl in Hin. split.
  - intros ->. change TRAMPOLINE_KEY with (2 ^ 27 - 1) in Hin. lia.
  - intros Hin'. specialize (Hk k Hin'). lia.
Qed.

Lemma trap_fits P : ascending 0 P → seg_fits (P ++ [stack_seg (last_end P)]) trap_seg.
Proof.
  intros Hasc. destruct (ascending_last P 0 ltac:(lia) Hasc) as (_ & Hl & Hk).
  split; [by vm_compute|by vm_compute|by vm_compute|done|].
  change (seg_keys trap_seg) with [2 ^ 27 - 2]. intros k ->%list_elem_of_singleton. split; [by vm_compute|].
  rewrite fmap_app, concat_app, elem_of_app. cbn [fmap list_fmap concat]. rewrite app_nil_r. intros [Hin|Hin].
  - specialize (Hk _ Hin). lia.
  - rewrite seg_keys_low in Hin by (simpl; lia). simpl in Hin. lia.
Qed.

Lemma run_from_elf lo st s elf_new elf_data elf :
  mm_ok lo s → trampoline_ok st → elf_new elf_data = Some elf → elf_ok elf_data elf →
  (3 + 3 * seg_pages (elf_segs elf_data elf) ≤ avail (frame_allocator s))%nat →
  let e := last_end (ph_segs elf_data (elf_phs elf)) in
  ∃ s' ms tr, from_elf st elf_new elf_data s = Ok (s', (ms, (e + 3) * 4096, elf_entry elf)) ∧
    holds lo st s (elf_segs elf_data elf) ms tr s'.
Proof.
  intros Hmm Hst Helf [Hmg Hlen Hphs Hasc] Hav e. set (P := ph_segs elf_data (elf_phs elf)) in *.
  destruct (ascending_last P 0 ltac:(lia) Hasc) as (_ & Hl & _). fold e in Hl.
  assert (elf_segs elf_data elf = (P ++ [stack_seg e]) ++ [trap_seg]) as Hsegs by (unfold elf_segs; by rewrite <-app_assoc).
  assert (∀ Q R, seg_pages (Q ++ R) = seg_pages Q + seg_pages R)%nat as Happ.
  { intros Q R. unfold seg_pages. by rewrite fmap_app, concat_app, length_app. }
  rewrite Hsegs, !Happ in Hav.
  destruct (run_bare_space lo st s Hmm Hst) as (s1 & ms1 & tr1 & Hr1 & Hh1); [lia|].
  destruct (load_segments lo st s elf_data (elf_phs elf) ms1 tr1 s1 Hh1 Hphs Hasc Hlen) as (s2 & ms2 & tr2 & Hr2 & Hh2);
    [fold P; lia|]. fold P e in Hr2, Hh2.
  assert (addr_of_page e = e * 4096) as Hae by (apply addr_of_page_mul; lia).
  assert (wrap64 (addr_of_page e + PAGE_SIZE) = (e + 1) * 4096) as Hb 
    by (rewrite Hae, wrap64_small by (unfold is_u64, PAGE_SIZE; lia); unfold PAGE_SIZE; lia).
  assert (wrap64 ((e + 1) * 4096 + USER_STACK_SIZE) = (e + 3) * 4096) as Ht
    by (unfold USER_STACK_SIZE; rewrite wrap64_small by (unfold is_u64; lia); lia).
  assert (mkSeg (floor ((e + 1) * 4096)) (ceil ((e + 3) * 4096)) (Z.lor (Z.lor PERM_R PERM_W) PERM_U) None = stack_seg e) as Hse.
  { unfold stack_seg. rewrite ceil_up by lia. unfold floor, PAGE_SIZE. f_equal; lia. }
  destruct (push_new_seg lo st s P ms2 tr2 s2 ((e + 1) * 4096) ((e + 3) * 4096) (Z.lor (Z.lor PERM_R PERM_W) PERM_U))
    as (s3 & ms3 & tr3 & Hr3 & Hh3); [done|rewrite Hse; by apply stack_fits|rewrite Hse, Happ; lia|]. rewrite Hse in Hh3.
  destruct (push_new_seg lo st s (P ++ [stack_seg e]) ms3 tr3 s3 TRAP_CONTEXT TRAMPOLINE (Z.lor PERM_R PERM_W))
    as (s4 & ms4 & tr4 & Hr4 & Hh4); [done|by apply trap_fits|fold trap_seg; rewrite !Happ; lia|].
  exists s4, ms4, tr4. split; [|by rewrite Hsegs].
  apply bind_ok_inv in Hr1 as (s1' & ms1' & Hb1 & Hb2).
  unfold from_elf. run Hb1. run Hb2. rewrite Helf. erewrite bind_ok by apply unwrap_some.
  erewrite bind_ok by (apply assert_true, bool_decide_true; done). run Hr2. cbn zeta. rewrite Hb, Ht. run Hr3. by run Hr4.
Qed.

(** The byte of user memory at an address of a segment. *)
Lemma loaded_byte lo s ms tr a sg va :
  ms_inv lo s ms tr → a ∈ areas ms → loaded s sg a → sg_l sg ≤ floor va < sg_r sg →
  ∃ f, tr !! page_key (floor va) = Some (pte_new f (Z.lor (sg_perm sg) FLAG_V)) ∧
    user_byte (mem s) tr va = page_init (sg_data sg) (Z.to_nat (floor va - sg_l sg)) !! Z.to_nat (va mod 4096).
Proof.
  intros Hinv Ha [Hr Ht Hp Hb] Hva.
  destruct (area_va lo s ms tr a va Hinv Ha Ht) as (f & pg & Hf & Htf & Hpf & Hmf & _); [apply elem_of_range; by rewrite Hr|].
  exists f. unfold area_pte in *. rewrite Hp in *. rewrite Hr in Hf. split; [done|].
  rewrite (user_byte_page _ _ _ _ pg Htf) by (by rewrite Hpf). specialize (Hb _ _ Hf). simpl in *. congruence.
Qed.

Lemma lookup_zero_page (o : nat) : (o < 4096)%nat → zero_page !! o = Some Byte.x00.
Proof. intros Ho. by apply lookup_replicate_2. Qed.

Lemma lookup_chunk d (j o : nat) :
  (o < 4096)%nat → chunk d j !! o = Some (default Byte.x00 (d !! (4096 * j + o)%nat)).
Proof.
  intros Ho. unfold chunk. destruct (Nat.lt_ge_cases (4096 * j + o) (length d)) as [Hlt|Hge].
  - rewrite lookup_app_l by (rewrite length_take, length_drop; lia). rewrite lookup_take_lt, lookup_drop by lia.
    by destruct (lookup_lt_is_Some_2 d (4096 * j + o)%nat Hlt) as [b ->].
  - rewrite lookup_app_r by (rewrite length_take, length_drop; lia). rewrite (lookup_ge_None_2 d) by lia.
    apply lookup_replicate_2. rewrite length_take, length_drop. lia.
Qed.

(** A loaded program in the address space [tr] over memory [m]: every byte of a page-aligned
    segment, from the file as far as the file goes and zero after that; a zeroed stack
    of the user below [user_sp], above an unmapped page; the page of the trap context and the
    trampoline, which are not the user's. *)
Record program_at (elf_data : list byte) (elf : ElfFile) (st : Z) (m : gmap Z page) (tr : gmap Z Z) (user_sp : Z) : Prop := {
  pa_segments : ∀ ph va, Some ph ∈ elf_phs elf → ph_load ph = Some true → ph_virtual_addr ph mod 4096 = 0 →
    ph_virtual_addr ph ≤ va < ph_virtual_addr ph + ph_mem_size ph →
    (∃ f, tr !! page_key (floor va) = Some (pte_new f (Z.lor (ph_perm ph) FLAG_V))) ∧
    user_byte m tr va = Some (default Byte.x00
      (take (Z.to_nat (ph_file_size ph)) (drop (Z.to_nat (ph_offset ph)) elf_data) !! Z.to_nat (va - ph_virtual_addr ph)));
  pa_stack : ∀ va, user_sp - USER_STACK_SIZE ≤ va < user_sp →
    (∃ f, tr !! page_key (floor va) = Some (pte_new f (Z.lor (Z.lor (Z.lor PERM_R PERM_W) PERM_U) FLAG_V))) ∧
    user_byte m tr va = Some Byte.x00;
  pa_guard : tr !! page_key (floor (user_sp - USER_STACK_SIZE) - 1) = None;
  pa_trap : ∃ f, tr !! page_key (floor TRAP_CONTEXT) = Some (pte_new f (Z.lor (Z.lor PERM_R PERM_W) FLAG_V));
  pa_trampoline : tr !! page_key (floor TRAMPOLINE) = Some (trampoline_pte st);
}.

(** The same by areas, for any contents of the page of the trap context. *)
Definition program_end (elf_data : list byte) (elf : ElfFile) : Z := last_end (ph_segs elf_data (elf_phs elf)).

Definition program_segs (elf_data : list byte) (elf : ElfFile) : list seg :=
  ph_segs elf_data (elf_phs elf) ++ [stack_seg (program_end elf_data elf)].

Record program_space (lo st : Z) (elf_data : list byte) (elf : ElfFile) (s : mm) (ms : MemorySet) (tr : gmap Z Z) : Prop := {
  ps_inv : ms_inv lo s ms tr;
  ps_areas : ∃ l a, areas ms = l ++ [a] ∧ Forall2 (loaded s) (program_segs elf_data elf) l ∧
    vpn_range a = mkRange (sg_l trap_seg) (sg_r trap_seg) ∧ map_type a = Framed ∧ map_perm a = sg_perm trap_seg;
  ps_tramp : tr !! TRAMPOLINE_KEY = Some (trampoline_pte st);
  ps_exact : ∀ k, is_Some (tr !! k) → k = TRAMPOLINE_KEY ∨ k ∈ concat (seg_keys <$> elf_segs elf_data elf);
}.

Lemma holds_program lo st s0 s elf_data elf ms tr :
  holds lo st s0 (elf_segs elf_data elf) ms tr s → program_space lo st elf_data elf s ms tr.
Proof.
  intros [Hinv _ _ Hsegs Htr Hex]. split; [done| |done|done].
  assert (elf_segs elf_data elf = program_segs elf_data elf ++ [trap_seg]) as He
    by (unfold elf_segs, program_segs, program_end; by rewrite <-app_assoc).
  rewrite He in Hsegs. apply Forall2_app_inv_l in Hsegs as (l & l' & Hl & Hl' & Hm).
  apply Forall2_cons_inv_l in Hl' as (a & l'' & [Hr Ht Hp _] & Hn & ->). apply Forall2_nil_inv_l in Hn as ->. by exists l, a.
Qed.

Lemma program_space_step lo st elf_data elf s s' ms tr :
  program_space lo st elf_data elf s ms tr → ms_inv lo s' ms tr → (∀ p, p ∈ owned ms → mem s' !! p = mem s !! p) →
  program_space lo st elf_data elf s' ms tr.
Proof.
  intros [_ (l & a & Hl & Hf & Ha) Htr Hex] Hinv Hm. split; [done| |done|done]. exists l, a. split; [done|]. split; [|done].
  eapply loaded_segs_step; [|exact Hf]. intros p Hp. apply Hm. unfold owned. rewrite Hl, fmap_app, concat_app, !elem_of_app. auto.
Qed.

(** The page of the trap context and a new context on it. *)
Lemma program_trap_page lo st elf_data elf s ms tr :
  program_space lo st elf_data elf s ms tr →
  ∃ f pg, tr !! page_key (floor TRAP_CONTEXT) = Some (pte_new f (Z.lor (sg_perm trap_seg) FLAG_V)) ∧
    pte_ppn (pte_new f (Z.lor (sg_perm trap_seg) FLAG_V)) = f ∧ mem s !! f = Some pg ∧ length pg = 4096%nat ∧
    f ∈ owned ms ∧
    ∀ pg', length pg' = 4096%nat → program_space lo st elf_data elf (with_mem (<[f := pg']> (mem s)) s) ms tr.
Proof.
  intros [Hinv (l & a & Hl & Hf & Hr & Ht & Hp) Htr Hex].
  assert (a ∈ areas ms) as Ha by (rewrite Hl, elem_of_app; right; by left).
  destruct (area_va lo s ms tr a TRAP_CONTEXT Hinv Ha Ht) as (f & pg & Hfr & Htf & Hpf & Hmf & Hlf);
    [apply elem_of_range; rewrite Hr; by vm_compute|].
  unfold area_pte in *. rewrite Hp in *. apply list_elem_of_lookup_2 in Hfr.
  assert (f ∈ concat (area_frames <$> areas ms)) as Hin by (apply elem_of_concat_fmap; eauto).
  exists f, pg. do 4 (split; [done|]). split; [unfold owned; rewrite elem_of_app; by right|]. intros pg' Hl'.
  split; [by apply ms_inv_write| |done|done]. exists l, a. split; [done|]. split; [|done].
  eapply loaded_segs_step; [|exact Hf]. intros p Hp'. cbn. apply lookup_insert_ne. intros <-.
  pose proof (ms_owns _ _ _ _ Hinv) as [Hnd _]. unfold owned in Hnd. rewrite Hl, fmap_app, concat_app in Hnd.
  apply NoDup_app in Hnd as (_ & _ & Hnd). apply NoDup_app in Hnd as (_ & Hd & _). apply (Hd f); [done|].
  cbn. by rewrite app_nil_r.
Qed.

Lemma program_space_at lo st elf_data elf s ms tr :
  elf_ok elf_data elf → program_space lo st elf_data elf s ms tr →
  program_at elf_data elf st (mem s) tr ((program_end elf_data elf + 3) * 4096).
Proof.
  intros Hok Hps. pose proof Hps as [Hinv (l & a & Hl & Hf & Hr & Ht & Hp) Htr Hex].
  destruct (ascending_last _ 0 ltac:(lia) (eo_asc _ _ Hok)) as (_ & Hle & Hk). fold (program_end elf_data elf) in Hle, Hk.
  set (e := program_end elf_data elf) in *. unfold program_segs in Hf. fold e in Hf.
  assert (∀ sg va, sg ∈ ph_segs elf_data (elf_phs elf) ++ [stack_seg e] → sg_l sg ≤ floor va < sg_r sg →
    ∃ f, tr !! page_key (floor va) = Some (pte_new f (Z.lor (sg_perm sg) FLAG_V)) ∧
      user_byte (mem s) tr va = page_init (sg_data sg) (Z.to_nat (floor va - sg_l sg)) !! Z.to_nat (va mod 4096)) as Hbyte.
  { intros sg va [i Hi]%list_elem_of_lookup Hva. destruct (Forall2_lookup_l _ _ _ _ _ Hf Hi) as (b & Hb & Hld).
    apply (loaded_byte lo s ms tr b); try done. rewrite Hl, elem_of_app. left. by eapply list_elem_of_lookup_2. }
  split.
  - intros ph va Hin Hld Hal Hva.
    assert (ph_ok elf_data (Some ph)) as Hph by (by apply (proj1 (Forall_forall _ _) (eo_phs _ _ Hok))).
    simpl in Hph. rewrite Hld in Hph. destruct Hph as (H1 & H2 & H3 & _).
    pose proof (ceil_up (ph_virtual_addr ph + ph_mem_size ph) ltac:(lia)) as Hc.
    destruct (Hbyte (ph_seg elf_data ph) va) as (f & Hpf & Hb).
    { rewrite elem_of_app. left. apply list_elem_of_omap. exists (Some ph). by rewrite Hld. }
    { simpl. rewrite Hc. unfold floor, PAGE_SIZE. lia. }
    split; [by exists f|]. rewrite Hb. simpl. rewrite lookup_chunk by lia. do 2 f_equal. f_equal.
    unfold floor, PAGE_SIZE. lia.
  - unfold USER_STACK_SIZE. intros va Hva. destruct (Hbyte (stack_seg e) va) as (f & Hpf & Hb).
    { rewrite elem_of_app. right. by left. }
    { simpl. unfold floor, PAGE_SIZE. lia. }
    split; [by exists f|]. rewrite Hb. apply lookup_zero_page. lia.
  - unfold USER_STACK_SIZE. replace (floor ((e + 3) * 4096 - 4096 * 2) - 1) with e by (unfold floor, PAGE_SIZE; lia).
    replace (page_key e) with e by (unfold page_key; rewrite Z.mod_small; lia).
    apply eq_None_not_Some. intros Hs. destruct (Hex e Hs) as [He|He].
    + change TRAMPOLINE_KEY with (2 ^ 27 - 1) in He. lia.
    + unfold elf_segs in He. fold (program_end elf_data elf) in He. fold e in He. rewrite fmap_app, concat_app, elem_of_app in He.
      change (concat (seg_keys <$> [stack_seg e; trap_seg])) with (seg_keys (stack_seg e) ++ [2 ^ 27 - 2] ++ []) in He.
      rewrite !elem_of_app, list_elem_of_singleton, elem_of_nil in He.
      destruct He as [He|[He|[He|[]]]]; [specialize (Hk e He); lia| |lia]. rewrite seg_keys_low in He; simpl in *; lia.
  - destruct (program_trap_page _ _ _ _ _ _ _ Hps) as (f & _ & Htf & _). by exists f.
  - done.
Qed.

(** Its areas are the segments. *)
Lemma program_areas lo st elf_data elf s ms tr :
  elf_ok elf_data elf → program_space lo st elf_data elf s ms tr →
  Forall (λ a, map_type a = Framed) (areas ms) ∧ area_keys <$> areas ms = seg_keys <$> elf_segs elf_data elf ∧
  TRAMPOLINE_KEY ∉ concat (area_keys <$> areas ms) ∧
  ∃ ta, ta ∈ areas ms ∧ floor TRAP_CONTEXT ∈ area_pages ta ∧ map_perm ta = Z.lor PERM_R PERM_W.
Proof.
  intros Hok [Hinv (l & a & Hl & Hf & Hr & Ht & Hp) Htr Hex].
  assert (elf_segs elf_data elf = program_segs elf_data elf ++ [trap_seg]) as He
    by (unfold elf_segs, program_segs, program_end; by rewrite <-app_assoc).
  assert (∀ P l', Forall2 (loaded s) P l' → Forall (λ a, map_type a = Framed) l' ∧ area_keys <$> l' = seg_keys <$> P) as Hk.
  { intros P l' Hf'. induction Hf' as [|sg b P l' [Hrg Hty _ _] Hf' [IH1 IH2]]; [by split; [constructor|]|].
    split; [by constructor|]. rewrite !fmap_cons, IH2. f_equal. unfold seg_keys, area_keys, area_pages. by rewrite Hrg. }
  assert (area_keys <$> areas ms = seg_keys <$> elf_segs elf_data elf) as Hkeys.
  { rewrite Hl, He, !fmap_app. destruct (Hk _ _ Hf) as [_ ->]. f_equal. cbn [fmap list_fmap]. f_equal.
    unfold seg_keys, area_keys, area_pages. by rewrite Hr. }
  split; [rewrite Hl; apply Forall_app; split; [by eapply Hk|by apply Forall_singleton]|]. split; [done|]. split.
  - rewrite Hkeys. destruct (stack_fits _ (eo_asc _ _ Hok)) as [_ _ _ _ Hs]. destruct (trap_fits _ (eo_asc _ _ Hok)) as [_ _ _ _ Hc].
    destruct (ascending_last _ 0 ltac:(lia) (eo_asc _ _ Hok)) as (_ & Hle & Hlow).
    unfold elf_segs. rewrite fmap_app, concat_app. cbn [fmap list_fmap concat]. rewrite app_nil_r, !elem_of_app.
    intros [Hin|[Hin|Hin]]; [specialize (Hlow _ Hin); change TRAMPOLINE_KEY with (2 ^ 27 - 1) in Hlow; lia|by apply Hs in Hin as []|by apply Hc in Hin as []].
  - exists a. split; [rewrite Hl, elem_of_app; right; by left|]. split; [apply elem_of_range; rewrite Hr; by vm_compute|exact Hp].
Qed.

(** C11: [from_elf] loads a program.  For a file with ascending segments it returns, with
    the program and its stack in an address space of their own; all its frames were
    free before. *)
Theorem from_elf_loads lo st s elf_new elf_data elf :
  mm_ok lo s → trampoline_ok st → elf_new elf_data = Some elf → elf_ok elf_data elf →
  (3 + 3 * seg_pages (elf_segs elf_data elf) ≤ avail (frame_allocator s))%nat →
  ∃ s' ms tr user_sp, from_elf st elf_new elf_data s = Ok (s', (ms, user_sp, elf_entry elf)) ∧
    ms_inv lo s' ms tr ∧ mm_step lo s [] s' (owned ms) ∧ program_at elf_data elf st (mem s') tr user_sp.
Proof.
  intros Hmm Hst Helf Hok Hav. destruct (run_from_elf lo st s elf_new elf_data elf Hmm Hst Helf Hok Hav) as (s' & ms & tr & Hr & Hh).
  exists s', ms, tr. eexists. split; [exact Hr|]. split; [apply Hh|]. split; [apply Hh|].
  by eapply (program_space_at lo), holds_program.
Qed.

(** ** A concrete program: three bytes at 0x10000, 5000 bytes in memory *)
Definition demo_ph : ProgramHeader := mkPh (Some true) 0x10000 5000 0 3 true false true.
Definition demo_elf : ElfFile := mkElf [0x7f; 0x45; 0x4c; 0x46] [Some demo_ph] 0x10000.
Definition demo_image : list byte := [Byte.x13; Byte.x05; Byte.x00].

Lemma demo_elf_ok : elf_ok demo_image demo_elf.
Proof.
  split; [reflexivity|vm_compute; reflexivity| |].
  - apply Forall_singleton. vm_compute. repeat split; congruence.
  - vm_compute. repeat split; congruence.
Qed.

Lemma from_elf_loads_witness :
  ∃ s' ms tr, from_elf 0x80200000 (λ _, Some demo_elf) demo_image (demo_mm 0x80400 0x80440) =
      Ok (s', (ms, 0x15000, 0x10000)) ∧
    user_byte (mem s') tr 0x10001 = Some Byte.x05 ∧ user_byte (mem s') tr 0x11000 = Some Byte.x00.
Proof.
  destruct (from_elf_loads 0x80400 0x80200000 (demo_mm 0x80400 0x80440) (λ _, Some demo_elf) demo_image demo_elf)
    as (s' & ms & tr & sp & Hr & _ & _ & [Hb _ _ _ _]).
  - apply demo_mm_ok; lia.
  - split; vm_compute; [reflexivity|split; congruence].
  - reflexivity.
  - exact demo_elf_ok.
  - rewrite demo_mm_avail. vm_compute. lia.
  - destruct (run_from_elf 0x80400 0x80200000 (demo_mm 0x80400 0x80440) (λ _, Some demo_elf) demo_image demo_elf)
      as (s2 & ms2 & _ & Hr2 & _);
      [apply demo_mm_ok; lia|split; vm_compute; [reflexivity|split; congruence]|reflexivity|exact demo_elf_ok|rewrite demo_mm_avail; vm_compute; lia|].
    rewrite Hr2 in Hr. injection Hr as -> -> <-.
    exists s', ms, tr. split; [exact Hr2|].
    split; [apply (Hb demo_ph 0x10001)|apply (Hb demo_ph 0x11000)]; first [lia|reflexivity|by left|vm_compute; split; congruence].
Defined.
