(* ===== verification/Context.v ===== *)
(** * Saved registers ([os/src/trap/context.rs], [os/src/task/context.rs])

    A [TrapContext] holds the user's registers while the kernel runs; it lies at
    the start of a page of its own in the user's address space, and the kernel
    reaches it through the page's frame ([get_cx], [set_cx]).  A [TaskContext]
    holds the callee-saved registers of a kernel thread while another one runs. *)

From S2P Require Import Prelude Bytes Address FrameAlloc PageTable.

(** ** [TrapContext] *)
Record TrapContext := mkTrapContext {
  x : list Z;            (* General-Purpose Register x0-31 *)
  sstatus : Z;
  sepc : Z;
  kernel_satp : Z;       (* Token of kernel address space *)
  kernel_sp : Z;         (* Kernel stack pointer of the current application *)
  trap_handler : Z;      (* Virtual address of trap handler entry point in kernel *)
}.

Definition with_x (l : list Z) (cx : TrapContext) : TrapContext :=
  mkTrapContext l (sstatus cx) (sepc cx) (kernel_satp cx) (kernel_sp cx) (trap_handler cx).
Definition with_sepc (v : Z) (cx : TrapContext) : TrapContext :=
  mkTrapContext (x cx) (sstatus cx) v (kernel_satp cx) (kernel_sp cx) (trap_handler cx).
Definition with_kernel_sp (v : Z) (cx : TrapContext) : TrapContext :=
  mkTrapContext (x cx) (sstatus cx) (sepc cx) (kernel_satp cx) v (trap_handler cx).

(** [cx.x[i] = v], for an index below 32 *)
Definition set_x (i : nat) (v : Z) (cx : TrapContext) : TrapContext := with_x (<[i := v]> (x cx)) cx.

Definition set_sp (sp : Z) (cx : TrapContext) : TrapContext := set_x 2 sp cx.

(** [sstatus_user]: [sstatus::read()] after [set_spp(SPP::User)] *)
Definition app_init_context (sstatus_user entry sp kernel_satp kernel_sp trap_handler : Z) : TrapContext :=
  let cx := mkTrapContext (replicate 32 0) sstatus_user entry kernel_satp kernel_sp trap_handler in
  set_sp sp cx.

(** [#[repr(C)]]: 37 words *)
Definition CX_WORDS : nat := 37.

Definition cx_words (cx : TrapContext) : list Z :=
  x cx ++ [sstatus cx; sepc cx; kernel_satp cx; kernel_sp cx; trap_handler cx].

Definition cx_of_words (ws : list Z) : TrapContext :=
  mkTrapContext (take 32 ws) (nth 32 ws 0) (nth 33 ws 0) (nth 34 ws 0) (nth 35 ws 0) (nth 36 ws 0).

(** [*trap_cx_ppn.get_mut::<TrapContext>()], read and written *)
Definition get_cx (ppn : Z) : M mm TrapContext :=
  p ← read_page ppn;
  mret (cx_of_words (le_words 8 CX_WORDS p)).

Definition set_cx (ppn : Z) (cx : TrapContext) : M mm unit :=
  p ← read_page ppn;
  write_page ppn (le_bytes 8 (cx_words cx) ++ drop (8 * CX_WORDS) p).

(** ** [TaskContext] *)
Record TaskContext := mkTaskContext {
  ra : Z;                (* Ret position after task switching *)
  sp : Z;                (* Stack pointer *)
  s : list Z;            (* s0-11 register, callee saved *)
}.

Definition zero_init : TaskContext := mkTaskContext 0 0 (replicate 12 0).

(** [trap_return]: the address of the function *)
Definition goto_trap_return (trap_return kstack_ptr : Z) : TaskContext :=
  mkTaskContext trap_return kstack_ptr (replicate 12 0).

Definition task_words (cx : TaskContext) : list Z := ra cx :: sp cx :: s cx.

(** ** Round trip *)

(** 32 registers, all words of 64 bits. *)
Definition cx_ok (cx : TrapContext) : Prop := length (x cx) = 32%nat ∧ Forall is_u64 (cx_words cx).

Lemma length_cx_words cx : cx_ok cx → length (cx_words cx) = CX_WORDS.
Proof. intros [Hl _]. unfold cx_words. rewrite length_app, Hl. done. Qed.

Lemma cx_of_words_words cx : cx_ok cx → cx_of_words (cx_words cx) = cx.
Proof.
  intros [Hl _]. unfold cx_of_words, cx_words. rewrite take_app_length' by done.
  rewrite !app_nth2 by lia. rewrite Hl. simpl. by destruct cx.
Qed.

Lemma get_cx_ok ppn p s : mem s !! ppn = Some p → get_cx ppn s = Ok (s, cx_of_words (le_words 8 CX_WORDS p)).
Proof. intros Hp. unfold get_cx. by run (read_page_ok ppn p s Hp). Qed.

(** The context of a page. *)
Definition cx_page (cx : TrapContext) (p : page) : Prop := le_words 8 CX_WORDS p = cx_words cx.

Lemma set_cx_ok ppn p s cx :
  mem s !! ppn = Some p → length p = 4096%nat → cx_ok cx →
  ∃ p', set_cx ppn cx s = Ok (with_mem (<[ppn := p']> (mem s)) s, tt) ∧ cx_page cx p' ∧ length p' = 4096%nat ∧
    drop (8 * CX_WORDS) p' = drop (8 * CX_WORDS) p.
Proof.
  intros Hp Hl Hcx. pose proof (length_cx_words cx Hcx) as Hw.
  exists (le_bytes 8 (cx_words cx) ++ drop (8 * CX_WORDS) p). split; [|split; [|split]].
  - unfold set_cx. run (read_page_ok ppn p s Hp). by rewrite (write_page_ok ppn p).
  - unfold cx_page. rewrite <-Hw at 1. apply le_words_bytes.
    eapply Forall_impl; [apply Hcx|]. intros w Hx. exact Hx.
  - rewrite length_app, length_le_bytes, length_drop, Hw. unfold CX_WORDS. lia.
  - rewrite drop_app_length'; [done|]. by rewrite length_le_bytes, Hw.
Qed.

Lemma get_cx_page ppn p s cx : mem s !! ppn = Some p → cx_page cx p → cx_ok cx → get_cx ppn s = Ok (s, cx).
Proof. intros Hp Hcx Hok. rewrite (get_cx_ok ppn p s Hp). unfold cx_page in Hcx. rewrite Hcx, cx_of_words_words; done. Qed.

(** Any page holds some context. *)
Lemma page_cx p : let cx := cx_of_words (le_words 8 CX_WORDS p) in cx_page cx p ∧ cx_ok cx.
Proof.
  cbn zeta. pose proof (length_le_words 8 CX_WORDS p) as Hl. pose proof (le_words_fit 8 CX_WORDS p) as Hf.
  set (ws := le_words 8 CX_WORDS p) in *. assert (cx_words (cx_of_words ws) = ws) as Hw.
  { unfold cx_words, cx_of_words. cbn [x sstatus sepc kernel_satp kernel_sp trap_handler].
    clearbody ws. do 37 (destruct ws as [|? ws]; [done|]). by destruct ws. }
  split; [by unfold cx_page; rewrite Hw|]. split; [cbn; rewrite length_take, Hl; done|]. rewrite Hw.
  eapply Forall_impl; [exact Hf|]. intros w Hx. exact Hx.
Qed.

Lemma cx_ok_set_x i v cx : cx_ok cx → is_u64 v → cx_ok (set_x i v cx).
Proof.
  intros [Hl Hf] Hv. split; [cbn; by rewrite length_insert|]. unfold cx_words in *. cbn. apply Forall_app in Hf as [Hx Hr].
  apply Forall_app. split; [by apply Forall_insert|done].
Qed.

Lemma cx_ok_kernel_sp v cx : cx_ok cx → is_u64 v → cx_ok (with_kernel_sp v cx).
Proof.
  intros [Hl Hf] Hv. split; [done|]. unfold cx_words in *. cbn. apply Forall_app in Hf as [Hx Hr]. apply Forall_app. split; [done|].
  do 5 (apply Forall_cons in Hr as [? Hr]). by repeat (apply Forall_cons; split; [done|]).
Qed.

Lemma app_init_context_ok st entry usp ksatp ksp th :
  is_u64 st → is_u64 entry → is_u64 usp → is_u64 ksatp → is_u64 ksp → is_u64 th →
  cx_ok (app_init_context st entry usp ksatp ksp th).
Proof.
  intros. split; [done|]. unfold cx_words, app_init_context. simpl. unfold is_u64 in *.
  repeat (apply Forall_cons; split; [lia|]). constructor.
Qed.
