(* ===== verification/Asm.v ===== *)
(** * Context switches in assembly ([os/src/task/switch.S], [os/src/trap/trap.S])

    The instructions the two files use, on a machine with 32 registers, the four
    control registers they touch and a memory of words; [switch_code], [alltraps_code] and
    [restore_code] are the text of the files with the macros expanded.

    The theorems say what the routines do to registers and memory: [__switch]
    stores the callee-saved registers of one kernel thread and continues another
    where it left off; [__alltraps] stores the user's registers as a
    [TrapContext] and enters the kernel; [__restore] after it brings all of them
    back. *)

From S2P Require Import Prelude Bytes Address FrameAlloc PageTable Context.

(** ** The machine *)
Inductive csr := SSTATUS | SEPC | SSCRATCH | SATP.

#[export] Instance csr_eq_dec : EqDecision csr.
Proof. solve_decision. Defined.

(** [pc]: where control goes when the routine is left. *)
Inductive target := Next | Jump (addr : Z) | UserReturn (addr : Z).

Record machine := mkMachine {
  gpr : Z → Z;
  csrs : csr → Z;
  words : gmap Z Z;      (* memory, by the physical address of an aligned word *)
}.

Inductive instr :=
  | Sd (rs : Z) (off : Z) (rb : Z)      (* sd rs, off(rb) *)
  | Ld (rd : Z) (off : Z) (rb : Z)      (* ld rd, off(rb) *)
  | Csrrw (rd : Z) (c : csr) (rs : Z)
  | Csrr (rd : Z) (c : csr)
  | Csrw (c : csr) (rs : Z)
  | Mv (rd rs : Z)
  | SfenceVma
  | Jr (rs : Z)
  | Ret
  | Sret.

(** Register numbers *)
Definition RA : Z := 1.
Definition SP : Z := 2.
Definition T0 : Z := 5.
Definition T1 : Z := 6.
Definition T2 : Z := 7.
Definition A0 : Z := 10.
Definition A1 : Z := 11.
(** s0, s1 are x8, x9; s2-s11 are x18-x27 *)
Definition S_ (n : Z) : Z := if n <? 2 then 8 + n else 16 + n.

(** x0 is always zero. *)
Definition set_gpr (r v : Z) (g : Z → Z) : Z → Z := λ q, if (q =? r) && negb (q =? 0) then v else g q.
Definition set_csr (c : csr) (v : Z) (f : csr → Z) : csr → Z := λ d, if decide (d = c) then v else f d.

(** ** Code *)
Definition switch_code : list instr :=
  [Sd SP 8 A0; Sd RA 0 A0] ++ ((λ n, Sd (S_ n) ((n + 2) * 8) A0) <$> range 0 12) ++
  [Ld RA 0 A1] ++ ((λ n, Ld (S_ n) ((n + 2) * 8) A1) <$> range 0 12) ++ [Ld SP 8 A1; Ret].

Definition alltraps_code : list instr :=
  [Csrrw SP SSCRATCH SP; Sd 1 (1 * 8) SP; Sd 3 (3 * 8) SP] ++ ((λ n, Sd n (n * 8) SP) <$> range 5 32) ++
  [Csrr T0 SSTATUS; Csrr T1 SEPC; Sd T0 (32 * 8) SP; Sd T1 (33 * 8) SP; Csrr T2 SSCRATCH; Sd T2 (2 * 8) SP;
   Ld T0 (34 * 8) SP; Ld T1 (36 * 8) SP; Ld SP (35 * 8) SP; Csrw SATP T0; SfenceVma; Jr T1].

Definition restore_code : list instr :=
  [Csrw SATP A1; SfenceVma; Csrw SSCRATCH A0; Mv SP A0; Ld T0 (32 * 8) SP; Ld T1 (33 * 8) SP;
   Csrw SSTATUS T0; Csrw SEPC T1; Ld 1 (1 * 8) SP; Ld 3 (3 * 8) SP] ++ ((λ n, Ld n (n * 8) SP) <$> range 5 32) ++
  [Ld SP (2 * 8) SP; Sret].

(** ** Execution *)
Section run.
(** The address translation of the processor: token and virtual address to physical
    address. *)
Context (pa : Z → Z → Z).

Definition address (m : machine) (rb off : Z) : Z := pa (csrs m SATP) (wrap64 (gpr m rb + off)).

Definition step_instr (i : instr) : M machine target := λ m,
  match i with
  | Sd rs off rb =>
      if decide (is_Some (words m !! address m rb off))
      then Ok (mkMachine (gpr m) (csrs m) (<[address m rb off := gpr m rs]> (words m)), Next)
      else Err Panicked
  | Ld rd off rb =>
      match words m !! address m rb off with
      | Some v => Ok (mkMachine (set_gpr rd v (gpr m)) (csrs m) (words m), Next)
      | None => Err Panicked
      end
  | Csrrw rd c rs =>
      Ok (mkMachine (set_gpr rd (csrs m c) (gpr m)) (set_csr c (gpr m rs) (csrs m)) (words m), Next)
  | Csrr rd c => Ok (mkMachine (set_gpr rd (csrs m c) (gpr m)) (csrs m) (words m), Next)
  | Csrw c rs => Ok (mkMachine (gpr m) (set_csr c (gpr m rs) (csrs m)) (words m), Next)
  | Mv rd rs => Ok (mkMachine (set_gpr rd (gpr m rs) (gpr m)) (csrs m) (words m), Next)
  | SfenceVma => Ok (m, Next)
  | Jr rs => Ok (m, Jump (gpr m rs))
  | Ret => Ok (m, Jump (gpr m RA))
  | Sret => Ok (m, UserReturn (csrs m SEPC))
  end.

Fixpoint run_code (c : list instr) : M machine target :=
  match c with
  | [] => mret Next
  | i :: c => t ← step_instr i; match t with Next => run_code c | _ => mret t end
  end.

Lemma run_code_app c1 c2 m m' :
  run_code c1 m = Ok (m', Next) → run_code (c1 ++ c2) m = run_code c2 m'.
Proof.
  revert m. induction c1 as [|i c1 IH]; intros m; cbn [run_code app]; [by intros [= ->]|].
  unfold mbind, M_bind. destruct (step_instr i m) as [[m1 t]|]; [|done]. destruct t; [apply IH|done|done].
Qed.

Lemma run_code_next i c m m' : step_instr i m = Ok (m', Next) → run_code (i :: c) m = run_code c m'.
Proof. intros Hi. cbn [run_code]. by run Hi. Qed.

(** ** Blocks of stores and loads

    [l]: pairs of a register and the number of a word.  The words lie at [base] in
    physical memory. *)
Definition stores (rb : Z) (l : list (Z * Z)) : list instr := (λ p, Sd p.1 (p.2 * 8) rb) <$> l.
Definition loads (rb : Z) (l : list (Z * Z)) : list instr := (λ p, Ld p.1 (p.2 * 8) rb) <$> l.

(** The first [n] words at the address in register [rb] are the words at [base]. *)
Definition window (n base : Z) (tok ptr : Z) : Prop := ∀ i, 0 ≤ i < n → pa tok (wrap64 (ptr + i * 8)) = base + i * 8.
Definition present (n base : Z) (w : gmap Z Z) : Prop := ∀ i, 0 ≤ i < n → is_Some (w !! (base + i * 8)).

Fixpoint store_words (base : Z) (g : Z → Z) (l : list (Z * Z)) (w : gmap Z Z) : gmap Z Z :=
  match l with [] => w | p :: l => store_words base g l (<[base + p.2 * 8 := g p.1]> w) end.
Fixpoint load_regs (base : Z) (w : gmap Z Z) (l : list (Z * Z)) (g : Z → Z) : Z → Z :=
  match l with [] => g | p :: l => load_regs base w l (set_gpr p.1 (default 0 (w !! (base + p.2 * 8))) g) end.

Lemma present_insert n base w a v : present n base w → present n base (<[a := v]> w).
Proof. intros Hp i Hi. rewrite lookup_insert_is_Some'. right. by apply Hp. Qed.

Lemma run_stores n base rb l : ∀ m,
  window n base (csrs m SATP) (gpr m rb) → present n base (words m) → Forall (λ p, 0 ≤ p.2 < n) l →
  run_code (stores rb l) m = Ok (mkMachine (gpr m) (csrs m) (store_words base (gpr m) l (words m)), Next).
Proof.
  induction l as [|p l IH]; intros m Hw Hp Hl; [by destruct m|]. apply Forall_cons in Hl as [Hl1 Hl].
  cbn [stores fmap list_fmap store_words].
  assert (address m rb (p.2 * 8) = base + p.2 * 8) as Ha by (by apply Hw).
  erewrite run_code_next; [|unfold step_instr; rewrite Ha, decide_True by (by apply Hp); done].
  change (list_fmap _ _ _ l) with (stores rb l). rewrite IH; [done|done|by apply present_insert|done].
Qed.

Lemma set_gpr_ne r v g q : q ≠ r → set_gpr r v g q = g q.
Proof. intros Hne. unfold set_gpr. by rewrite (proj2 (Z.eqb_neq _ _)). Qed.

Lemma set_gpr_eq r v g : r ≠ 0 → set_gpr r v g r = v.
Proof. intros Hne. unfold set_gpr. by rewrite Z.eqb_refl, (proj2 (Z.eqb_neq _ _)). Qed.

Lemma run_loads n base rb l : ∀ m,
  window n base (csrs m SATP) (gpr m rb) → present n base (words m) →
  Forall (λ p, 0 ≤ p.2 < n ∧ p.1 ≠ rb) l →
  run_code (loads rb l) m = Ok (mkMachine (load_regs base (words m) l (gpr m)) (csrs m) (words m), Next).
Proof.
  induction l as [|p l IH]; intros m Hw Hp Hl; [by destruct m|]. apply Forall_cons in Hl as [[Hl1 Hne] Hl].
  cbn [loads fmap list_fmap load_regs].
  assert (address m rb (p.2 * 8) = base + p.2 * 8) as Ha by (by apply Hw). destruct (Hp p.2 Hl1) as [v Hv].
  erewrite run_code_next; [|unfold step_instr; rewrite Ha, Hv; done].
  change (list_fmap _ _ _ l) with (loads rb l). rewrite Hv, IH; [done| |done|done].
  simpl. by rewrite set_gpr_ne by done.
Qed.

Lemma load_regs_ne base w l : ∀ g q, q ∉ l.*1 → load_regs base w l g q = g q.
Proof.
  induction l as [|p l IH]; intros g q Hq; [done|]. cbn [load_regs fmap list_fmap] in *.
  rewrite elem_of_cons in Hq. rewrite IH by tauto. apply set_gpr_ne. tauto.
Qed.

Lemma load_regs_in base w l : ∀ g r i,
  NoDup l.*1 → (r, i) ∈ l → r ≠ 0 → load_regs base w l g r = default 0 (w !! (base + i * 8)).
Proof.
  induction l as [|p l IH]; intros g r i Hnd Hin Hr; [by apply elem_of_nil in Hin|].
  cbn [load_regs fmap list_fmap] in *. apply NoDup_cons in Hnd as [Hni Hnd].
  apply elem_of_cons in Hin as [<-|Hin]; [|by apply IH]. simpl in *.
  rewrite load_regs_ne by done. by apply set_gpr_eq.
Qed.

Lemma store_words_ne base g l : ∀ w a, (∀ p, p ∈ l → a ≠ base + p.2 * 8) → store_words base g l w !! a = w !! a.
Proof.
  induction l as [|p l IH]; intros w a Ha; [done|]. cbn [store_words].
  rewrite IH by (intros; apply Ha; by right). apply lookup_insert_ne. intros He. by apply (Ha p); [left|].
Qed.

Lemma store_words_in base g l : ∀ w r i,
  NoDup l.*2 → (r, i) ∈ l → store_words base g l w !! (base + i * 8) = Some (g r).
Proof.
  induction l as [|p l IH]; intros w r i Hnd Hin; [by apply elem_of_nil in Hin|].
  cbn [store_words fmap list_fmap] in *. apply NoDup_cons in Hnd as [Hni Hnd].
  apply elem_of_cons in Hin as [<-|Hin]; [|by apply IH]. simpl in *.
  rewrite store_words_ne, lookup_insert_eq; [done|]. intros q Hq He. apply Hni.
  replace i with q.2 by lia. by apply list_elem_of_fmap_2.
Qed.

Lemma present_stores n base b g l w : present n b w → present n b (store_words base g l w).
Proof.
  revert w. induction l as [|p l IH]; intros w Hp; [done|]. cbn [store_words]. apply IH. by apply present_insert.
Qed.

(** ** [__switch] *)

(** The registers a [TaskContext] holds. *)
Definition regs_of (g : Z → Z) : TaskContext := mkTaskContext (g RA) (g SP) ((λ n, g (S_ n)) <$> range 0 12).

(** The context [cx] lies at [base]. *)
Definition task_at (base : Z) (cx : TaskContext) (w : gmap Z Z) : Prop :=
  ∀ i v, task_words cx !! i = Some v → w !! (base + Z.of_nat i * 8) = Some v.

Definition callee_saved : list (Z * Z) := ((λ n, (S_ n, n + 2)) <$> range 0 12).

Lemma switch_code_blocks :
  switch_code = stores A0 ((SP, 1) :: (RA, 0) :: callee_saved) ++ loads A1 ((RA, 0) :: callee_saved ++ [(SP, 1)]) ++ [Ret].
Proof. reflexivity. Qed.

Lemma Forall_dec_list {A} (P : A → Prop) `{∀ a, Decision (P a)} l : bool_decide (Forall P l) = true → Forall P l.
Proof. apply bool_decide_eq_true. Qed.

Lemma run_code_ret m : run_code [Ret] m = Ok (m, Jump (gpr m RA)).
Proof. done. Qed.

Lemma NoDup_dec_list (l : list Z) : bool_decide (NoDup l) = true → NoDup l.
Proof. apply bool_decide_eq_true. Qed.

(** Words below [n] at two places that do not overlap. *)
Definition apart (n b1 b2 : Z) : Prop := b1 + n * 8 ≤ b2 ∨ b2 + n * 8 ≤ b1.

Lemma task_words_regs g i r :
  (r, i) ∈ (RA, 0) :: callee_saved ++ [(SP, 1)] → task_words (regs_of g) !! Z.to_nat i = Some (g r).
Proof.
  intros Hin. unfold task_words, regs_of. cbn [ra sp s].
  apply list_elem_of_lookup in Hin as [k Hk]. do 14 (destruct k as [|k]; [by injection Hk as <- <-|]). done.
Qed.

Lemma switch_ok m cb nb next :
  let tok := csrs m SATP in
  window 14 cb tok (gpr m A0) → window 14 nb tok (gpr m A1) → present 14 cb (words m) →
  apart 14 cb nb → length (s next) = 12%nat → task_at nb next (words m) →
  ∃ m', run_code switch_code m = Ok (m', Jump (ra next)) ∧ regs_of (gpr m') = next ∧
    task_at cb (regs_of (gpr m)) (words m') ∧ csrs m' = csrs m ∧
    (∀ a, (∀ i, 0 ≤ i < 14 → a ≠ cb + i * 8) → words m' !! a = words m !! a).
Proof.
  intros tok Hwc Hwn Hpc Hap Hs Hat. set (sv := (SP, 1) :: (RA, 0) :: callee_saved).
  set (ld := (RA, 0) :: callee_saved ++ [(SP, 1)]).
  set (w := store_words cb (gpr m) sv (words m)).
  assert (∀ a, (∀ i, 0 ≤ i < 14 → a ≠ cb + i * 8) → w !! a = words m !! a) as Hw.
  { intros a Ha. apply store_words_ne. intros p Hp. apply Ha.
    assert (Forall (λ p : Z * Z, 0 ≤ p.2 < 14) sv) as Hall by (by apply (Forall_dec_list _)).
    by apply (proj1 (Forall_forall _ _) Hall). }
  assert (∀ i v, task_words next !! i = Some v → w !! (nb + Z.of_nat i * 8) = Some v) as Hat'.
  { intros i v Hi. rewrite Hw; [by apply Hat|]. apply lookup_lt_Some in Hi. unfold task_words in Hi. simpl in Hi.
    intros j Hj. destruct Hap; lia. }
  assert (length (task_words next) = 14%nat) as Hl14 by (unfold task_words; simpl; lia).
  exists (mkMachine (load_regs nb w ld (gpr m)) (csrs m) w).
  assert (∀ r i, (r, i) ∈ ld → task_words next !! Z.to_nat i = Some (load_regs nb w ld (gpr m) r)) as Hld.
  { intros r i Hin.
    assert (Forall (λ p : Z * Z, 0 ≤ p.2 < 14 ∧ p.1 ≠ 0) ld) as Hall by (by apply (Forall_dec_list _)).
    destruct (proj1 (Forall_forall _ _) Hall _ Hin) as [Hi Hr0]. simpl in Hi, Hr0.
    rewrite (load_regs_in nb w ld (gpr m) r i); [|apply NoDup_dec_list; reflexivity|done|done].
    destruct (lookup_lt_is_Some_2 (task_words next) (Z.to_nat i)) as [v Hv]; [lia|]. rewrite Hv.
    specialize (Hat' _ _ Hv). rewrite Z2Nat.id in Hat' by lia. by rewrite Hat'. }
  split_and!.
  - rewrite switch_code_blocks. fold sv ld.
    erewrite run_code_app; [|apply (run_stores 14 cb); [done|done|by apply (Forall_dec_list _)]].
    erewrite run_code_app; [|apply (run_loads 14 nb); [done| |by apply (Forall_dec_list _)]].
    + cbn [gpr csrs words]. fold w. rewrite run_code_ret. cbn [gpr].
      assert (load_regs nb w ld (gpr m) RA = ra next) as Hra
        by (apply (inj Some); symmetry; apply (Hld RA 0); by left).
      by rewrite Hra.
    + intros i Hi. cbn [words]. fold w. destruct (lookup_lt_is_Some_2 (task_words next) (Z.to_nat i)) as [v Hv]; [lia|].
      apply Hat' in Hv. rewrite Z2Nat.id in Hv by lia. eauto.
  - cbn [gpr]. assert (task_words (regs_of (load_regs nb w ld (gpr m))) = task_words next) as He.
    { apply list_eq_same_length with 14%nat; [done|by unfold task_words, regs_of; simpl|]. intros i a b Hi Ha Hb.
      assert (Forall (λ k : nat, ∃ r, (r, Z.of_nat k) ∈ ld) (seq 0 14)) as Hall.
      { repeat (apply Forall_cons; split; [eexists; repeat (first [by left|right])|]). constructor. }
      destruct (proj1 (Forall_forall _ _) Hall i) as [r Hr]; [apply elem_of_seq; lia|].
      pose proof (Hld _ _ Hr) as H1. pose proof (task_words_regs (load_regs nb w ld (gpr m)) _ _ Hr) as H2.
      rewrite Nat2Z.id in H1, H2. congruence. }
    destruct next as [nra nsp ns]. unfold task_words in He. unfold regs_of in *. cbn [ra sp s] in He. congruence.
  - intros i v Hi. cbn [words].
    assert (Forall (λ k : nat, ∃ r, (r, Z.of_nat k) ∈ ld ∧ (r, Z.of_nat k) ∈ sv) (seq 0 14)) as Hall.
    { repeat (apply Forall_cons; split; [eexists; split; repeat (first [by left|right])|]). constructor. }
    pose proof (lookup_lt_Some _ _ _ Hi) as Hlt. change (length (task_words (regs_of (gpr m)))) with 14%nat in Hlt.
    destruct (proj1 (Forall_forall _ _) Hall i) as (r & Hr1 & Hr2); [apply elem_of_seq; lia|].
    unfold w. rewrite (store_words_in cb (gpr m) sv _ r); [|apply NoDup_dec_list; reflexivity|done].
    pose proof (task_words_regs (gpr m) _ _ Hr1) as H2. rewrite Nat2Z.id in H2. congruence.
  - done.
  - done.
Qed.

(** ** [__alltraps] and [__restore] *)

(** The context [cx] lies at [base]. *)
Definition cx_at (base : Z) (cx : TrapContext) (w : gmap Z Z) : Prop :=
  ∀ i v, cx_words cx !! i = Some v → w !! (base + Z.of_nat i * 8) = Some v.

(** Registers that are saved and restored one after the other: all but x0, sp and tp. *)
Definition gp_nums : list Z := 1 :: 3 :: range 5 32.
Definition gp : list (Z * Z) := (λ n, (n, n)) <$> gp_nums.

(** What [__alltraps] leaves in the context: the user's registers, except that the words
    of x0 and tp are not written. *)
Definition trap_saved (m : machine) (cx : TrapContext) : TrapContext :=
  mkTrapContext ((λ i, if bool_decide (i = 0 ∨ i = 4) then nth (Z.to_nat i) (x cx) 0 else gpr m i) <$> range 0 32)
    (csrs m SSTATUS) (csrs m SEPC) (kernel_satp cx) (kernel_sp cx) (trap_handler cx).

Lemma alltraps_code_blocks :
  alltraps_code = [Csrrw SP SSCRATCH SP] ++ stores SP gp ++ [Csrr T0 SSTATUS; Csrr T1 SEPC] ++
    stores SP [(T0, 32); (T1, 33)] ++ [Csrr T2 SSCRATCH] ++ stores SP [(T2, 2)] ++ loads SP [(T0, 34); (T1, 36)] ++
    [Ld SP (35 * 8) SP; Csrw SATP T0; SfenceVma; Jr T1].
Proof. reflexivity. Qed.

Lemma restore_code_blocks :
  restore_code = [Csrw SATP A1; SfenceVma; Csrw SSCRATCH A0; Mv SP A0] ++ loads SP [(T0, 32); (T1, 33)] ++
    [Csrw SSTATUS T0; Csrw SEPC T1] ++ loads SP gp ++ [Ld SP (2 * 8) SP; Sret].
Proof. reflexivity. Qed.

Lemma gp_fst : gp.*1 = gp_nums.
Proof. reflexivity. Qed.
Lemma gp_snd : gp.*2 = gp_nums.
Proof. reflexivity. Qed.
Lemma gp_nodup : NoDup gp_nums.
Proof. apply NoDup_dec_list. reflexivity. Qed.
Lemma elem_of_gp_nums i : i ∈ gp_nums ↔ i = 1 ∨ i = 3 ∨ 5 ≤ i < 32.
Proof. unfold gp_nums. rewrite !elem_of_cons, elem_of_range. lia. Qed.

Lemma lookup_store_gp base g w i :
  store_words base g gp w !! (base + i * 8) = if decide (i ∈ gp_nums) then Some (g i) else w !! (base + i * 8).
Proof.
  case_decide as Hi.
  - apply store_words_in; [rewrite gp_snd; apply gp_nodup|]. unfold gp. apply list_elem_of_fmap. by exists i.
  - apply store_words_ne. intros p Hp He. apply Hi. replace i with p.2 by lia. rewrite <-gp_snd.
    by apply list_elem_of_fmap_2.
Qed.

Lemma lookup_store_one base r j g w i :
  store_words base g [(r, j)] w !! (base + i * 8) = if decide (i = j) then Some (g r) else w !! (base + i * 8).
Proof.
  cbn [store_words fst snd]. case_decide as Hi; [subst; apply lookup_insert_eq|]. apply lookup_insert_ne. lia.
Qed.

Lemma cx_words_lookup m cx i v :
  length (x cx) = 32%nat → cx_words (trap_saved m cx) !! i = Some v →
  (i < 32)%nat ∧ v = (if bool_decide (i = 0 ∨ i = 4)%nat then nth i (x cx) 0 else gpr m (Z.of_nat i)) ∨
  (i, v) ∈ [(32%nat, csrs m SSTATUS); (33%nat, csrs m SEPC); (34%nat, kernel_satp cx); (35%nat, kernel_sp cx);
            (36%nat, trap_handler cx)].
Proof.
  intros Hl Hi. unfold cx_words, trap_saved in Hi. cbn [x sstatus sepc kernel_satp kernel_sp trap_handler] in Hi.
  destruct (decide (i < 32)%nat) as [Hlt|Hge].
  - left. split; [done|]. rewrite lookup_app_l in Hi by (rewrite length_fmap; unfold range; rewrite length_seqZ; lia).
    apply list_lookup_fmap_Some in Hi as (z & -> & Hz). unfold range in Hz. apply lookup_seqZ in Hz as [-> _].
    replace (Z.to_nat (0 + Z.of_nat i)) with i by lia. replace (0 + Z.of_nat i) with (Z.of_nat i) by lia.
    rewrite (bool_decide_ext (Z.of_nat i = 0 ∨ Z.of_nat i = 4) (i = 0 ∨ i = 4)%nat) by lia. done.
  - right. rewrite lookup_app_r in Hi by (rewrite length_fmap; unfold range; rewrite length_seqZ; lia).
    rewrite length_fmap in Hi. unfold range in Hi. rewrite length_seqZ in Hi. change (Z.to_nat (32 - 0)) with 32%nat in Hi.
    remember (i - 32)%nat as k eqn:Hk.
    do 5 (destruct k as [|k]; [injection Hi as <-; replace i with (32 + (i - 32))%nat by lia; rewrite <-Hk;
      simpl; repeat (first [by left|right])|]). done.
Qed.

Lemma old_word base cx w i v :
  cx_at base cx w → length (x cx) = 32%nat → (i < 32)%nat → nth i (x cx) 0 = v → w !! (base + Z.of_nat i * 8) = Some v.
Proof.
  intros Hat Hl Hi <-. apply Hat. unfold cx_words. rewrite lookup_app_l by lia.
  destruct (lookup_lt_is_Some_2 (x cx) i) as [u Hu]; [lia|]. rewrite Hu. f_equal. symmetry. by apply nth_lookup_Some.
Qed.

Lemma cx_fields base cx w :
  cx_at base cx w → length (x cx) = 32%nat →
  w !! (base + 34 * 8) = Some (kernel_satp cx) ∧ w !! (base + 35 * 8) = Some (kernel_sp cx) ∧
  w !! (base + 36 * 8) = Some (trap_handler cx).
Proof.
  intros Hat Hl. unfold cx_at, cx_words in Hat.
  split_and!; [apply (Hat 34%nat)|apply (Hat 35%nat)|apply (Hat 36%nat)]; by rewrite lookup_app_r by lia; rewrite Hl.
Qed.

Lemma cx_present base cx w : cx_at base cx w → length (x cx) = 32%nat → present 37 base w.
Proof.
  intros Hat Hl i Hi. assert (length (cx_words cx) = 37%nat) as Hlc by (unfold cx_words; rewrite length_app, Hl; done).
  destruct (lookup_lt_is_Some_2 (cx_words cx) (Z.to_nat i)) as [v Hv]; [lia|].
  specialize (Hat _ _ Hv). rewrite Z2Nat.id in Hat by lia. eauto.
Qed.

Lemma alltraps_ok m base cx :
  window 37 base (csrs m SATP) (csrs m SSCRATCH) → length (x cx) = 32%nat → cx_at base cx (words m) →
  ∃ m', run_code alltraps_code m = Ok (m', Jump (trap_handler cx)) ∧
    cx_at base (trap_saved m cx) (words m') ∧
    (∀ a, (∀ i, 0 ≤ i < 37 → a ≠ base + i * 8) → words m' !! a = words m !! a) ∧
    gpr m' SP = kernel_sp cx ∧ csrs m' SATP = kernel_satp cx.
Proof.
  intros Hw Hl Hat. pose proof (cx_present _ _ _ Hat Hl) as Hp.
  set (g1 := set_gpr SP (csrs m SSCRATCH) (gpr m)). set (c1 := set_csr SSCRATCH (gpr m SP) (csrs m)).
  set (w1 := store_words base g1 gp (words m)).
  set (g2 := set_gpr T1 (csrs m SEPC) (set_gpr T0 (csrs m SSTATUS) g1)).
  set (w2 := store_words base g2 [(T0, 32); (T1, 33)] w1).
  set (g3 := set_gpr T2 (gpr m SP) g2). set (w3 := store_words base g3 [(T2, 2)] w2).
  assert (∀ i, w3 !! (base + i * 8) = if decide (i = 2) then Some (gpr m SP)
    else if decide (i = 33) then Some (csrs m SEPC) else if decide (i = 32) then Some (csrs m SSTATUS)
    else if decide (i ∈ gp_nums) then Some (gpr m i) else words m !! (base + i * 8)) as Hw3.
  { intros i. unfold w3. rewrite lookup_store_one. case_decide; [done|]. unfold w2.
    change (store_words base g2 [(T0, 32); (T1, 33)] w1) with (store_words base g2 [(T1, 33)] (store_words base g2 [(T0, 32)] w1)).
    rewrite !lookup_store_one. case_decide; [done|]. case_decide; [done|]. unfold w1. rewrite lookup_store_gp.
    case_decide; [|done]. f_equal. apply set_gpr_ne. unfold SP. lia. }
  assert (∀ i, i = 34 ∨ i = 35 ∨ i = 36 → w3 !! (base + i * 8) = words m !! (base + i * 8)) as Hk.
  { intros i Hi. rewrite Hw3, !decide_False; [done|rewrite elem_of_gp_nums|..]; lia. }
  destruct (cx_fields _ _ _ Hat Hl) as (H34 & H35 & H36).
  exists (mkMachine (set_gpr SP (kernel_sp cx) (set_gpr T1 (trap_handler cx) (set_gpr T0 (kernel_satp cx) g3)))
    (set_csr SATP (kernel_satp cx) c1) w3).
  assert (window 37 base (c1 SATP) (csrs m SSCRATCH)) as Hw1 by done.
  split_and!.
  - rewrite alltraps_code_blocks. cbn [app].
    erewrite run_code_next by reflexivity. fold g1 c1.
    erewrite run_code_app; [|apply (run_stores 37 base); [done|done|by apply (Forall_dec_list _)]]. cbn [gpr csrs words]. fold w1.
    erewrite run_code_next by reflexivity. erewrite run_code_next by reflexivity. cbn [gpr csrs words].
    change (c1 SSTATUS) with (csrs m SSTATUS). change (c1 SEPC) with (csrs m SEPC). fold g2.
    erewrite run_code_app; [|apply (run_stores 37 base); [done|by apply present_stores|by apply (Forall_dec_list _)]].
    cbn [gpr csrs words]. fold w2.
    erewrite run_code_next by reflexivity. cbn [gpr csrs words]. change (c1 SSCRATCH) with (gpr m SP). fold g3.
    erewrite run_code_app; [|apply (run_stores 37 base); [done|by do 2 apply present_stores|by apply (Forall_dec_list _)]].
    cbn [gpr csrs words]. fold w3.
    erewrite run_code_app; [|apply (run_loads 37 base); [done|by do 3 apply present_stores|by apply (Forall_dec_list _)]].
    cbn [gpr csrs words load_regs fst snd]. rewrite !Hk by lia. rewrite H34, H36. cbn [default from_option id].
    assert (∀ f, address (mkMachine (set_gpr T1 f (set_gpr T0 (kernel_satp cx) g3)) c1 w3) SP (35 * 8) = base + 35 * 8) as Had.
    { intros f. unfold address. cbn [gpr csrs]. apply Hw. lia. }
    erewrite run_code_next; [|unfold step_instr; rewrite Had; cbn [words]; rewrite Hk, H35 by lia; reflexivity].
    reflexivity.
  - intros i v Hi. cbn [words]. destruct (cx_words_lookup _ _ _ _ Hl Hi) as [[Hlt ->]|Hin].
    + rewrite Hw3. case_bool_decide as Hb.
      * rewrite !decide_False; [by eapply old_word|rewrite elem_of_gp_nums|..]; lia.
      * case_decide as H2; [by replace (Z.of_nat i) with SP by (unfold SP; lia)|].
        rewrite (decide_False (P := _ = 33)), (decide_False (P := _ = 32)) by lia.
        rewrite decide_True; [done|]. rewrite elem_of_gp_nums. lia.
    + rewrite !elem_of_cons, elem_of_nil in Hin.
      destruct Hin as [[= -> ->]|[[= -> ->]|[[= -> ->]|[[= -> ->]|[[= -> ->]|[]]]]]].
      * rewrite Hw3. by rewrite !decide_False by lia.
      * rewrite Hw3. by rewrite decide_False by lia.
      * by rewrite Hk by lia.
      * by rewrite Hk by lia.
      * by rewrite Hk by lia.
  - intros a Ha. cbn [words]. unfold w3, w2, w1.
    rewrite !store_words_ne; [done|..]; intros p Hp'; apply Ha.
    + assert (Forall (λ p : Z * Z, 0 ≤ p.2 < 37) gp) as Hall by (by apply (Forall_dec_list _)).
      by apply (proj1 (Forall_forall _ _) Hall).
    + rewrite !elem_of_cons, elem_of_nil in Hp'. destruct Hp' as [->|[->|[]]]; simpl; lia.
    + rewrite list_elem_of_singleton in Hp'. subst. simpl. lia.
  - done.
  - done.
Qed.

Lemma cx_word base cx w i d :
  cx_at base cx w → (i < length (cx_words cx))%nat → w !! (base + Z.of_nat i * 8) = Some (nth i (cx_words cx) d).
Proof.
  intros Hat Hi. apply Hat. destruct (lookup_lt_is_Some_2 (cx_words cx) i Hi) as [v Hv]. rewrite Hv. f_equal.
  symmetry. by apply nth_lookup_Some.
Qed.

Lemma restore_ok m base cx :
  window 37 base (gpr m A1) (gpr m A0) → length (x cx) = 32%nat → cx_at base cx (words m) →
  ∃ m', run_code restore_code m = Ok (m', UserReturn (sepc cx)) ∧
    (∀ i, 1 ≤ i < 32 → i ≠ 4 → gpr m' i = nth (Z.to_nat i) (x cx) 0) ∧ gpr m' 4 = gpr m 4 ∧
    csrs m' SSTATUS = sstatus cx ∧ csrs m' SEPC = sepc cx ∧ csrs m' SATP = gpr m A1 ∧ csrs m' SSCRATCH = gpr m A0 ∧
    words m' = words m.
Proof.
  intros Hw Hl Hat. pose proof (cx_present _ _ _ Hat Hl) as Hp.
  assert (length (cx_words cx) = 37%nat) as Hlc by (unfold cx_words; rewrite length_app, Hl; done).
  assert (∀ k, nth (32 + k) (cx_words cx) 0 = nth k [sstatus cx; sepc cx; kernel_satp cx; kernel_sp cx; trap_handler cx] 0) as Hn.
  { intros k. unfold cx_words. rewrite app_nth2 by lia. f_equal. lia. }
  pose proof (cx_word base cx (words m) 32 0 Hat ltac:(lia)) as H32. pose proof (cx_word base cx (words m) 33 0 Hat ltac:(lia)) as H33.
  assert (nth 32 (cx_words cx) 0 = sstatus cx) as N32 by apply (Hn 0%nat). rewrite N32 in H32.
  assert (nth 33 (cx_words cx) 0 = sepc cx) as N33 by apply (Hn 1%nat). rewrite N33 in H33.
  change (Z.of_nat 32) with 32 in H32. change (Z.of_nat 33) with 33 in H33.
  set (c1 := set_csr SSCRATCH (gpr m A0) (set_csr SATP (gpr m A1) (csrs m))).
  set (g1 := set_gpr SP (gpr m A0) (gpr m)). set (g2 := set_gpr T1 (sepc cx) (set_gpr T0 (sstatus cx) g1)).
  set (c2 := set_csr SEPC (sepc cx) (set_csr SSTATUS (sstatus cx) c1)).
  set (g3 := load_regs base (words m) gp g2).
  assert (g3 SP = gpr m A0) as Hsp.
  { unfold g3. rewrite load_regs_ne; [done|]. rewrite gp_fst, elem_of_gp_nums. unfold SP. lia. }
  assert (∀ i, (i < 32)%nat → words m !! (base + Z.of_nat i * 8) = Some (nth i (x cx) 0)) as Hx by (intros i Hi; by eapply old_word).
  exists (mkMachine (set_gpr SP (nth 2 (x cx) 0) g3) c2 (words m)). split_and!.
  - rewrite restore_code_blocks. cbn [app]. do 4 (erewrite run_code_next by reflexivity). cbn [gpr csrs words]. fold c1 g1.
    erewrite run_code_app; [|apply (run_loads 37 base); [done|done|by apply (Forall_dec_list _)]].
    cbn [gpr csrs words load_regs fst snd]. rewrite H32, H33. cbn [default from_option id]. fold g2.
    do 2 (erewrite run_code_next by reflexivity). cbn [gpr csrs words]. change (g2 T0) with (sstatus cx).
    change (g2 T1) with (sepc cx). fold c2.
    erewrite run_code_app; [|apply (run_loads 37 base); [done|done|by apply (Forall_dec_list _)]]. cbn [gpr csrs words]. fold g3.
    assert (address (mkMachine g3 c2 (words m)) SP (2 * 8) = base + 2 * 8) as Had.
    { unfold address. cbn [gpr csrs]. rewrite Hsp. apply Hw. lia. }
    erewrite run_code_next; [|unfold step_instr; rewrite Had; cbn [words]; rewrite (Hx 2%nat ltac:(lia) : words m !! (base + 2 * 8) = _); reflexivity].
    reflexivity.
  - intros i Hi Hne. cbn [gpr]. destruct (decide (i = SP)) as [->|Hsp']; [by rewrite set_gpr_eq|].
    rewrite set_gpr_ne by done. unfold g3. rewrite (load_regs_in _ _ _ _ i i).
    + pose proof (Hx (Z.to_nat i) ltac:(lia)) as Hxi. rewrite Z2Nat.id in Hxi by lia. by rewrite Hxi.
    + rewrite gp_fst. apply gp_nodup.
    + unfold gp. apply list_elem_of_fmap. exists i. split; [done|]. rewrite elem_of_gp_nums. unfold SP in Hsp'. lia.
    + lia.
  - cbn [gpr]. rewrite set_gpr_ne by done. unfold g3. rewrite load_regs_ne; [done|]. rewrite gp_fst, elem_of_gp_nums. lia.
  - done.
  - done.
  - done.
  - done.
  - done.
Qed.

(** ** Round trips *)

(** C26: a kernel thread that is switched away continues where it was.  [__switch] stores
    its callee-saved registers and jumps to the return address of the next thread with
    that thread's registers.  Whatever runs then, if it leaves the stored context alone
    and switches back to it, the thread finds its registers and its stack as they were
    and continues after its call. *)
Theorem switch_there_and_back m cb nb next m2 ob :
  let tok := csrs m SATP in
  window 14 cb tok (gpr m A0) → window 14 nb tok (gpr m A1) → present 14 cb (words m) →
  apart 14 cb nb → length (s next) = 12%nat → task_at nb next (words m) →
  ∃ m1, run_code switch_code m = Ok (m1, Jump (ra next)) ∧ regs_of (gpr m1) = next ∧
    ((∀ i, 0 ≤ i < 14 → words m2 !! (cb + i * 8) = words m1 !! (cb + i * 8)) →
     csrs m2 SATP = tok → window 14 ob tok (gpr m2 A0) → present 14 ob (words m2) → apart 14 ob cb → gpr m2 A1 = gpr m A0 →
     ∃ m3, run_code switch_code m2 = Ok (m3, Jump (gpr m RA)) ∧ regs_of (gpr m3) = regs_of (gpr m)).
Proof.
  intros tok Hwc Hwn Hpc Hap Hs Hat.
  destruct (switch_ok m cb nb next Hwc Hwn Hpc Hap Hs Hat) as (m1 & Hr & Hreg & Hsaved & _).
  exists m1. split; [done|]. split; [done|]. intros Hsame Htok Hwo Hpo Hap' Ha1.
  destruct (switch_ok m2 ob cb (regs_of (gpr m))) as (m3 & Hr3 & Hreg3 & _); rewrite ?Htok, ?Ha1; try done; [|eauto].
  intros i v Hi. rewrite Hsame; [by apply Hsaved|]. apply lookup_lt_Some in Hi.
  change (length (task_words (regs_of (gpr m)))) with 14%nat in Hi. lia.
Qed.

(** C25: a trap is invisible to the user.  [__alltraps] stores the user's registers in the
    trap context and enters [trap_handler] on the kernel's stack and page table.  If the
    kernel leaves the context as it is and calls [__restore] with its address and the
    user's token, all registers but [tp], and all control registers, are at its [sret] what they were
    when the trap was taken, and control returns to [sepc].  (What taking a trap and [sret] do to the mode
    bits of [sstatus] is the hardware's.) *)
Theorem trap_roundtrip m base cx m2 :
  window 37 base (csrs m SATP) (csrs m SSCRATCH) → length (x cx) = 32%nat → cx_at base cx (words m) →
  ∃ m1, run_code alltraps_code m = Ok (m1, Jump (trap_handler cx)) ∧
    gpr m1 SP = kernel_sp cx ∧ csrs m1 SATP = kernel_satp cx ∧ cx_at base (trap_saved m cx) (words m1) ∧
    ((∀ i, 0 ≤ i < 37 → words m2 !! (base + i * 8) = words m1 !! (base + i * 8)) →
     gpr m2 A0 = csrs m SSCRATCH → gpr m2 A1 = csrs m SATP →
     ∃ m3, run_code restore_code m2 = Ok (m3, UserReturn (csrs m SEPC)) ∧
       (∀ i, 1 ≤ i < 32 → i ≠ 4 → gpr m3 i = gpr m i) ∧ ∀ c, csrs m3 c = csrs m c).
Proof.
  intros Hw Hl Hat. destruct (alltraps_ok m base cx Hw Hl Hat) as (m1 & Hr & Hsaved & _ & Hsp & Hsatp).
  exists m1. do 4 (split; [done|]). intros Hsame Ha0 Ha1.
  assert (length (x (trap_saved m cx)) = 32%nat) as Hl' by done.
  destruct (restore_ok m2 base (trap_saved m cx)) as (m3 & Hr3 & Hx & _ & H1 & H2 & H3 & H4 & _);
    [by rewrite Ha0, Ha1|done| |].
  - intros i v Hi. rewrite Hsame; [by apply Hsaved|]. apply lookup_lt_Some in Hi.
    change (length (cx_words (trap_saved m cx))) with 37%nat in Hi. lia.
  - exists m3. split; [done|]. split.
    + intros i Hi Hne. rewrite Hx by done. unfold trap_saved. cbn [x].
      apply nth_lookup_Some. rewrite list_lookup_fmap. unfold range.
      rewrite (proj2 (lookup_seqZ 0 (32 - 0) (Z.to_nat i) i)) by lia. cbn. by rewrite bool_decide_false by lia.
    + intros []; rewrite ?H1, ?H2, ?H3, ?H4; done.
Qed.
End run.

(** ** Concrete machines: physical addresses are virtual addresses *)
Definition demo_words (bases : list Z) : gmap Z Z :=
  list_to_map (concat ((λ b, (λ i, (b + i * 8, i)) <$> range 0 40) <$> bases)).

Definition demo_machine (a0 a1 scratch : Z) : machine :=
  mkMachine (λ r, if r =? 0 then 0 else if r =? A0 then a0 else if r =? A1 then a1 else 1000 + r)
    (λ c, match c with SSTATUS => 0x100 | SEPC => 0x10004 | SSCRATCH => scratch | SATP => 7 end)
    (demo_words [0x1000; 0x2000; 0x3000]).

Definition state_after (c : list instr) (m : machine) : machine :=
  match run_code (λ _ va, va) c m with Ok (m', _) => m' | Err _ => m end.

Lemma demo_window n b : 0 ≤ b → 0 ≤ n → b + n * 8 < 2 ^ 64 → window (λ _ va, va) n b 7 b.
Proof. intros Hb Hn Hl i Hi. apply wrap64_small. unfold is_u64. lia. Qed.

Lemma demo_present (P : gmap Z Z) n b : bool_decide (Forall (λ i, is_Some (P !! (b + i * 8))) (range 0 n)) = true → present n b P.
Proof.
  intros H%bool_decide_eq_true i Hi. apply (proj1 (Forall_forall _ _) H). by apply elem_of_range.
Qed.

Definition demo_cx : TrapContext := mkTrapContext (range 0 32) 32 33 34 35 36.

Lemma demo_cx_at : cx_at 0x1000 demo_cx (demo_words [0x1000; 0x2000; 0x3000]).
Proof.
  intros i v Hi. pose proof (lookup_lt_Some _ _ _ Hi) as Hl. change (length (cx_words demo_cx)) with 37%nat in Hl.
  do 37 (destruct i as [|i]; [injection Hi as <-; vm_compute; reflexivity|]). lia.
Qed.

Definition demo_resumed (a0 a1 : Z) (m1 : machine) : machine :=
  mkMachine (gpr (demo_machine a0 a1 0)) (csrs m1) (words m1).

Lemma demo_task_at : task_at 0x2000 (mkTaskContext 0 1 (range 2 14)) (words (demo_machine 0x1000 0x2000 0)).
Proof.
  intros i v Hi. pose proof (lookup_lt_Some _ _ _ Hi) as Hl.
  do 14 (destruct i as [|i]; [injection Hi as <-; vm_compute; reflexivity|]). simpl in Hl. lia.
Qed.

Lemma demo_state_after c m m1 t : run_code (λ _ va, va) c m = Ok (m1, t) → state_after c m = m1.
Proof. intros Hr. unfold state_after. by rewrite Hr. Qed.

Lemma switch_there_and_back_witness :
  ∃ m3, run_code (λ _ va, va) switch_code
      (demo_resumed 0x3000 0x1000 (state_after switch_code (demo_machine 0x1000 0x2000 0))) = Ok (m3, Jump 1001) ∧
    regs_of (gpr m3) = regs_of (gpr (demo_machine 0x1000 0x2000 0)).
Proof.
  destruct (switch_there_and_back (λ _ va, va) (demo_machine 0x1000 0x2000 0) 0x1000 0x2000
    (mkTaskContext 0 1 (range 2 14)) (demo_resumed 0x3000 0x1000 (state_after switch_code (demo_machine 0x1000 0x2000 0))) 0x3000)
    as (m1 & Hr & _ & H).
  - apply (demo_window 14 0x1000); lia.
  - apply (demo_window 14 0x2000); lia.
  - apply demo_present. vm_compute. reflexivity.
  - left. lia.
  - reflexivity.
  - exact demo_task_at.
  - apply H.
    + rewrite (demo_state_after _ _ _ _ Hr). intros i Hi. exact eq_refl.
    + vm_compute. reflexivity.
    + apply (demo_window 14 0x3000); lia.
    + apply demo_present. vm_compute. reflexivity.
    + right. lia.
    + vm_compute. reflexivity.
Defined.

Lemma trap_roundtrip_witness :
  ∃ m3, run_code (λ _ va, va) restore_code
      (demo_resumed 0x1000 7 (state_after alltraps_code (demo_machine 5 6 0x1000))) = Ok (m3, UserReturn 0x10004) ∧
    gpr m3 SP = 1002.
Proof.
  destruct (trap_roundtrip (λ _ va, va) (demo_machine 5 6 0x1000) 0x1000 demo_cx
    (demo_resumed 0x1000 7 (state_after alltraps_code (demo_machine 5 6 0x1000)))) as (m1 & Hr & _ & _ & _ & H).
  - apply (demo_window 37 0x1000); lia.
  - reflexivity.
  - exact demo_cx_at.
  - destruct H as (m3 & Hr3 & Hx & _).
    + rewrite (demo_state_after _ _ _ _ Hr). intros i Hi. exact eq_refl.
    + vm_compute. reflexivity.
    + vm_compute. reflexivity.
    + exists m3. split; [exact Hr3|]. apply (Hx 2); lia.
Defined.
