(* ===== verification/Pid.v ===== *)
(** * Process identifiers and kernel stacks ([os/src/task/pid.rs])

    [PidAllocator] hands out identifiers, recycled ones first; the kernel stack of
    a process is at a place of the kernel's address space given by its identifier.

    The abstract allocator is the set of identifiers in use ([pid_used]): the one
    [alloc] gives was not in use, so that no two live processes share an
    identifier, and the stacks of distinct identifiers are apart with a page
    between them that is never mapped. *)

From S2P Require Import Prelude Address FrameAlloc.

Record PidAllocator := mkPidAllocator { pid_current : Z; pid_recycled : list Z }.

Definition pid_new : PidAllocator := mkPidAllocator 0 [].

Definition pid_alloc (pa : PidAllocator) : PidAllocator * Z :=
  match pop (pid_recycled pa) with
  | Some (pid, rest) => (mkPidAllocator (pid_current pa) rest, pid)
  | None => let current := wrap64 (pid_current pa + 1) in
            (mkPidAllocator current (pid_recycled pa), wrap64 (current - 1))
  end.

Definition pid_dealloc (pid : Z) (pa : PidAllocator) : res PidAllocator :=
  assert_ (pid <? pid_current pa);;
  assert_ (negb (bool_decide (Exists (λ ppid, ppid = pid) (pid_recycled pa))));;
  mret (mkPidAllocator (pid_current pa) (pid_recycled pa ++ [pid])).

(** (bottom, top) of a kernel stack in kernel space *)
Definition kernel_stack_position (app_id : Z) : Z * Z :=
  let top := wrap64 (TRAMPOLINE - wrap64 (app_id * (KERNEL_STACK_SIZE + PAGE_SIZE))) in
  let bottom := wrap64 (top - KERNEL_STACK_SIZE) in
  (bottom, top).

(** [KernelStack::get_top] *)
Definition get_top (pid : Z) : Z := let '(_, kernel_stack_top) := kernel_stack_position pid in kernel_stack_top.

(** ** The identifiers in use *)
Record pid_ok (pa : PidAllocator) : Prop := {
  pid_range : 0 ≤ pid_current pa;
  pid_nodup : NoDup (pid_recycled pa);
  pid_rec : Forall (λ p, 0 ≤ p < pid_current pa) (pid_recycled pa);
}.

Definition pid_used (pa : PidAllocator) (pid : Z) : Prop := 0 ≤ pid < pid_current pa ∧ pid ∉ pid_recycled pa.

#[export] Instance pid_used_dec pa pid : Decision (pid_used pa pid).
Proof. unfold pid_used. apply _. Defined.

Lemma pid_new_ok : pid_ok pid_new ∧ ∀ p, ¬ pid_used pid_new p.
Proof. split; [split; simpl; [lia|constructor|constructor]|]. intros p [? _]. simpl in *. lia. Qed.

Lemma pid_alloc_spec pa :
  pid_ok pa → pid_current pa < 2 ^ 64 - 1 →
  let '(pa', pid) := pid_alloc pa in
  pid_ok pa' ∧ ¬ pid_used pa pid ∧ pid_current pa' ≤ pid_current pa + 1 ∧
  ∀ p, pid_used pa' p ↔ p = pid ∨ pid_used pa p.
Proof.
  intros [Hr Hnd Hrec] Hmax. unfold pid_alloc. pose proof (pop_spec (pid_recycled pa)) as Hp.
  destruct (pop (pid_recycled pa)) as [[pid rest]|].
  - rewrite Hp in Hnd, Hrec. apply NoDup_app in Hnd as (Hnd & Hdj & _).
    apply Forall_app in Hrec as [Hrec [Hx _]%Forall_cons].
    assert (pid ∉ rest) as Hni by (intros Hin; apply (Hdj pid Hin), list_elem_of_singleton; done).
    split; [by split|]. split; [|split; [simpl; lia|]].
    + intros [_ Hn]. apply Hn. rewrite Hp, elem_of_app, list_elem_of_singleton. by right.
    + intros p. unfold pid_used. simpl. rewrite Hp, elem_of_app, list_elem_of_singleton.
      destruct (decide (p = pid)) as [->|]; [|tauto]. tauto.
  - rewrite !wrap64_small by (unfold is_u64; rewrite ?wrap64_small by (unfold is_u64; lia); lia).
    replace (pid_current pa + 1 - 1) with (pid_current pa) by lia.
    split; [split; simpl; rewrite ?Hp; [lia|constructor|constructor]|].
    split; [intros [? _]; lia|]. split; [simpl; lia|].
    intros p. unfold pid_used. simpl. rewrite Hp. pose proof (not_elem_of_nil p).
    destruct (decide (p = pid_current pa)) as [->|].
    + split; [by left|]. intros _. split; [lia|done].
    + split; [intros [? _]; right; split; [lia|done]|]. intros [?|[? _]]; [done|]. split; [lia|done].
Qed.

Lemma pid_dealloc_spec pa pid :
  pid_ok pa → 0 ≤ pid →
  if decide (pid_used pa pid)
  then ∃ pa', pid_dealloc pid pa = Ok pa' ∧ pid_ok pa' ∧ ∀ p, pid_used pa' p ↔ p ≠ pid ∧ pid_used pa p
  else pid_dealloc pid pa = Err AssertFailed.
Proof.
  intros [Hr Hnd Hrec] Hp0. unfold pid_dealloc.
  assert (Exists (λ ppid, ppid = pid) (pid_recycled pa) ↔ pid ∈ pid_recycled pa) as Hex.
  { rewrite Exists_exists. naive_solver. }
  case_decide as Hu.
  - destruct Hu as [Hlt Hn]. rewrite (proj2 (Z.ltb_lt _ _)) by lia.
    rewrite bool_decide_false by (by rewrite Hex). cbn. eexists. split; [done|]. split; [split; simpl|].
    + done.
    + apply NoDup_app. split_and!; [done| |apply NoDup_singleton]. intros x Hx ->%list_elem_of_singleton. done.
    + apply Forall_app. split; [done|]. apply Forall_singleton. lia.
    + intros p. unfold pid_used. simpl. rewrite elem_of_app, list_elem_of_singleton. tauto.
  - destruct (Z.ltb_spec pid (pid_current pa)); [|done]. cbn.
    rewrite bool_decide_true; [done|]. apply Hex. apply dec_stable. intros Hn. apply Hu. by split.
Qed.

(** ** Kernel stacks *)
Lemma kernel_stack_pos pid :
  0 ≤ pid < 2 ^ 50 →
  kernel_stack_position pid = (2 ^ 64 - 4096 - pid * 12288 - 8192, 2 ^ 64 - 4096 - pid * 12288).
Proof.
  intros Hp. unfold kernel_stack_position, TRAMPOLINE, USIZE_MAX, KERNEL_STACK_SIZE, PAGE_SIZE.
  rewrite !(wrap64_small (pid * _)) by (unfold is_u64; lia).
  rewrite !wrap64_small by (unfold is_u64; rewrite ?wrap64_small by (unfold is_u64; lia); lia).
  f_equal; lia.
Qed.

(** [PidAllocator::alloc] gives an identifier that is not in use and marks it used. *)
Theorem pid_alloc_unique pa :
  pid_ok pa → pid_current pa < 2 ^ 64 - 1 →
  let '(pa', pid) := pid_alloc pa in
  pid_ok pa' ∧ ¬ pid_used pa pid ∧ ∀ p, pid_used pa' p ↔ p = pid ∨ pid_used pa p.
Proof.
  intros Hok Hmax. pose proof (pid_alloc_spec pa Hok Hmax) as H. destruct (pid_alloc pa). tauto.
Qed.

(** [dealloc] takes an identifier in use back, and only that one; it fails an
    assertion for any other. *)
Theorem pid_dealloc_checks pa pid :
  pid_ok pa → 0 ≤ pid →
  if decide (pid_used pa pid)
  then ∃ pa', pid_dealloc pid pa = Ok pa' ∧ pid_ok pa' ∧ ∀ p, pid_used pa' p ↔ p ≠ pid ∧ pid_used pa p
  else pid_dealloc pid pa = Err AssertFailed.
Proof. apply pid_dealloc_spec. Qed.

(** Kernel stacks are apart.  The stack of a process is [KERNEL_STACK_SIZE] bytes
    below its top, page-aligned, below the trampoline; the stack of a later process
    ends at least one page below it. *)
Theorem kernel_stacks_apart p q :
  0 ≤ p < q → q < 2 ^ 50 →
  let '(bottom_p, top_p) := kernel_stack_position p in
  let '(bottom_q, top_q) := kernel_stack_position q in
  top_p - bottom_p = KERNEL_STACK_SIZE ∧ bottom_p mod PAGE_SIZE = 0 ∧ 0 < bottom_p ∧ top_p ≤ TRAMPOLINE ∧
  top_q + PAGE_SIZE ≤ bottom_p.
Proof.
  intros Hp Hq. rewrite !kernel_stack_pos by lia.
  unfold KERNEL_STACK_SIZE, TRAMPOLINE, USIZE_MAX, PAGE_SIZE. split_and!; [lia| |lia..].
  replace (2 ^ 64 - 4096 - p * 12288 - 8192) with ((2 ^ 52 - 3 - p * 3) * 0x1000) by lia.
  by rewrite Z.mod_mul.
Qed.

Lemma pid_alloc_unique_witness : let '(pa', pid) := pid_alloc (mkPidAllocator 3 [1]) in pid = 1 ∧ pid_used pa' 1.
Proof.
  assert (pid_ok (mkPidAllocator 3 [1])) as Hok.
  { split; simpl; [lia|apply NoDup_singleton|]. apply Forall_cons. split; [lia|constructor]. }
  pose proof (pid_alloc_unique (mkPidAllocator 3 [1]) Hok ltac:(simpl; lia)) as (_ & _ & H).
  split; [reflexivity|]. apply H. left. reflexivity.
Defined.

Lemma pid_dealloc_checks_witness :
  pid_dealloc 1 (mkPidAllocator 3 [1]) = Err AssertFailed.
Proof.
  assert (pid_ok (mkPidAllocator 3 [1])) as Hok.
  { split; simpl; [lia|apply NoDup_singleton|]. apply Forall_cons. split; [lia|constructor]. }
  pose proof (pid_dealloc_checks (mkPidAllocator 3 [1]) 1 Hok ltac:(lia)) as H.
  rewrite decide_False in H; [exact H|]. intros [_ Hn]. apply Hn, list_elem_of_singleton. reflexivity.
Defined.

Lemma kernel_stacks_apart_witness :
  let '(bottom_p, top_p) := kernel_stack_position 0 in
  let '(bottom_q, top_q) := kernel_stack_position 1 in top_q + PAGE_SIZE ≤ bottom_p.
Proof. apply (kernel_stacks_apart 0 1); lia. Defined.
