(* ===== verification/Kernel.v ===== *)
(** * The state of the kernel

    All of the kernel's state in one record: physical memory, the kernel's own
    address space, the process table behind the [Arc<TaskControlBlock>]s, the
    ready queue, the processor's current task, the file objects, the file system
    behind its block cache, the calls of the firmware, and the control registers
    [stvec], [satp] and [sie] as far as the Rust code writes them.

    [Arc<TaskControlBlock>] and [Arc<OSInode>] are handles, numbers under which
    the objects are kept; clones of an [Arc] are equal handles, so that a change
    through one is seen through all.  [UPSafeCell] is a [RefCell]: [borrow]ing it
    twice is a fault. *)

From S2P Require Import Prelude Bytes Console BlockCache Address FrameAlloc PageTable UserBuf MemorySet Context Pid Efs Vfs.

(** ** Data of processes ([os/src/task/task.rs]) *)
Inductive TaskStatus := UnInit | Ready | Running | Zombie.

#[export] Instance TaskStatus_eq_dec : EqDecision TaskStatus.
Proof. solve_decision. Defined.

(** [Arc<dyn File>]: the three implementations of the trait *)
Inductive FileRef := Stdin | Stdout | OSInodeRef (id : nat).

(** Where a kernel thread continues: the start of a new task, or a call of [schedule]
    that was left: the timer interrupt, [sys_yield], [Stdin::read] with its buffer. *)
Inductive kthread :=
  | Fresh (cx : TaskContext)
  | InTimer
  | InYield
  | InStdin (buffers : list page_slice).

Definition MAX_SYSCALL_NUM : Z := 500.
Definition BIG_STRIDE : Z := 88888888.

(** Structure containing more process content *)
Record TaskControlBlockInner := mkInner {
  trap_cx_ppn : Z;
  base_size : Z;
  task_cx : kthread;
  task_status : TaskStatus;
  task_begin_time : Z;
  task_syscall_times : list Z;
  task_priority : Z;
  task_stride : Z;
  memory_set : MemorySet;
  parent : option nat;
  children : list nat;
  exit_code : Z;
  fd_table : list (option FileRef);
}.

(** [UPSafeCell<T>] ([os/src/sync/up.rs]) *)
Record UPSafeCell (A : Type) := mkCell { value : A; borrowed : bool }.
Arguments mkCell {A} value borrowed.
Arguments value {A} u.
Arguments borrowed {A} u.

(** [UPSafeCell::new] *)
Definition cell_new {A} (v : A) : UPSafeCell A := mkCell v false.

(** [UPSafeCell::exclusive_access]: the value, and the cell while it is borrowed *)
Definition exclusive_access {A} (c : UPSafeCell A) : res (UPSafeCell A * A) :=
  if borrowed c then Err AlreadyBorrowed else Ok (mkCell (value c) true, value c).

(** [KernelStack] holds nothing but the process identifier. *)
Record TaskControlBlock := mkTcb { tcb_pid : Z; inner : UPSafeCell TaskControlBlockInner }.

(** ** Data of open files ([os/src/fs/inode.rs]) *)
Record OSInode := mkOSInode { readable : bool; writable : bool; offset : Z; inode : Inode }.

(** [scause.cause()] *)
Inductive Cause :=
  | UserEnvCall | StoreFault | StorePageFault | InstructionFault | InstructionPageFault | LoadFault | LoadPageFault
  | IllegalInstruction | SupervisorTimer | OtherCause.

#[global] Instance Cause_eq_dec : EqDecision Cause.
Proof. solve_decision. Defined.

(** ** What the kernel runs on

    The addresses of its symbols, the ELF reader, the value of [sstatus] for user mode,
    the readings of the clock and of the console in the order they are made, how the
    compiler lays out [TaskInfo] (a structure without [repr(C)]), how the crate [riscv]
    prints a cause, the pages the crate
    [virtio_drivers] asks for, and the number of iterations after which the model gives a string or
    a file of the user up. *)
Class Platform := {
  strampoline : Z;
  elf_new : list byte → option ElfFile;
  trap_handler_entry : Z;
  trap_return_entry : Z;
  trap_from_kernel_entry : Z;
  sstatus_user : Z;
  time_read : nat → Z;
  console_getchar : nat → Z;
  task_info_bytes : TaskStatus → list Z → Z → list byte;
  cause_debug : Cause → list byte;
  virtio_queues : list Z;
  loop_fuel : nat;
}.

Section kernel.
Context {D : Type} `{BlockDevice D}.

Record kernel := mkKernel {
  k_mm : mm;                               (* physical memory, FRAME_ALLOCATOR *)
  KERNEL_SPACE : MemorySet;
  PID_ALLOCATOR : PidAllocator;
  tcbs : gmap nat TaskControlBlock;
  next_tcb : nat;
  ready_queue : list nat;                  (* TASK_MANAGER *)
  current_ : option nat;                   (* PROCESSOR.current *)
  INITPROC : option nat;
  os_inodes : list OSInode;
  k_fs : Cache.state D;                    (* BLOCK_CACHE_MANAGER, BLOCK_DEVICE *)
  k_efs : EasyFileSystem;
  k_sbi : list sbi_call;                   (* calls of the firmware *)
  k_reads : nat;                           (* readings of the clock *)
  k_inputs : nat;                          (* readings of the console *)
  k_stvec : Z;                             (* where traps enter *)
  QUEUE_FRAMES : list Z;                   (* frames of the block driver *)
  k_satp : Z;                              (* the page table of the kernel's code *)
  k_stimer : bool;                         (* timer interrupts are enabled *)
}.

Definition set_mm (v : mm) (k : kernel) : kernel :=
  mkKernel v (KERNEL_SPACE k) (PID_ALLOCATOR k) (tcbs k) (next_tcb k) (ready_queue k) (current_ k) (INITPROC k)
    (os_inodes k) (k_fs k) (k_efs k) (k_sbi k) (k_reads k) (k_inputs k) (k_stvec k) (QUEUE_FRAMES k) (k_satp k) (k_stimer k).
Definition set_kernel_space (v : MemorySet) (k : kernel) : kernel :=
  mkKernel (k_mm k) v (PID_ALLOCATOR k) (tcbs k) (next_tcb k) (ready_queue k) (current_ k) (INITPROC k)
    (os_inodes k) (k_fs k) (k_efs k) (k_sbi k) (k_reads k) (k_inputs k) (k_stvec k) (QUEUE_FRAMES k) (k_satp k) (k_stimer k).
Definition set_pids (v : PidAllocator) (k : kernel) : kernel :=
  mkKernel (k_mm k) (KERNEL_SPACE k) v (tcbs k) (next_tcb k) (ready_queue k) (current_ k) (INITPROC k)
    (os_inodes k) (k_fs k) (k_efs k) (k_sbi k) (k_reads k) (k_inputs k) (k_stvec k) (QUEUE_FRAMES k) (k_satp k) (k_stimer k).
Definition set_tcbs (v : gmap nat TaskControlBlock) (k : kernel) : kernel :=
  mkKernel (k_mm k) (KERNEL_SPACE k) (PID_ALLOCATOR k) v (next_tcb k) (ready_queue k) (current_ k) (INITPROC k)
    (os_inodes k) (k_fs k) (k_efs k) (k_sbi k) (k_reads k) (k_inputs k) (k_stvec k) (QUEUE_FRAMES k) (k_satp k) (k_stimer k).
Definition set_queue (v : list nat) (k : kernel) : kernel :=
  mkKernel (k_mm k) (KERNEL_SPACE k) (PID_ALLOCATOR k) (tcbs k) (next_tcb k) v (current_ k) (INITPROC k)
    (os_inodes k) (k_fs k) (k_efs k) (k_sbi k) (k_reads k) (k_inputs k) (k_stvec k) (QUEUE_FRAMES k) (k_satp k) (k_stimer k).
Definition set_current (v : option nat) (k : kernel) : kernel :=
  mkKernel (k_mm k) (KERNEL_SPACE k) (PID_ALLOCATOR k) (tcbs k) (next_tcb k) (ready_queue k) v (INITPROC k)
    (os_inodes k) (k_fs k) (k_efs k) (k_sbi k) (k_reads k) (k_inputs k) (k_stvec k) (QUEUE_FRAMES k) (k_satp k) (k_stimer k).
Definition set_initproc (v : option nat) (k : kernel) : kernel :=
  mkKernel (k_mm k) (KERNEL_SPACE k) (PID_ALLOCATOR k) (tcbs k) (next_tcb k) (ready_queue k) (current_ k) v
    (os_inodes k) (k_fs k) (k_efs k) (k_sbi k) (k_reads k) (k_inputs k) (k_stvec k) (QUEUE_FRAMES k) (k_satp k) (k_stimer k).
Definition set_os_inodes (v : list OSInode) (k : kernel) : kernel :=
  mkKernel (k_mm k) (KERNEL_SPACE k) (PID_ALLOCATOR k) (tcbs k) (next_tcb k) (ready_queue k) (current_ k) (INITPROC k)
    v (k_fs k) (k_efs k) (k_sbi k) (k_reads k) (k_inputs k) (k_stvec k) (QUEUE_FRAMES k) (k_satp k) (k_stimer k).
Definition set_fs (v : Cache.state D) (k : kernel) : kernel :=
  mkKernel (k_mm k) (KERNEL_SPACE k) (PID_ALLOCATOR k) (tcbs k) (next_tcb k) (ready_queue k) (current_ k) (INITPROC k)
    (os_inodes k) v (k_efs k) (k_sbi k) (k_reads k) (k_inputs k) (k_stvec k) (QUEUE_FRAMES k) (k_satp k) (k_stimer k).
Definition set_efs (v : EasyFileSystem) (k : kernel) : kernel :=
  mkKernel (k_mm k) (KERNEL_SPACE k) (PID_ALLOCATOR k) (tcbs k) (next_tcb k) (ready_queue k) (current_ k) (INITPROC k)
    (os_inodes k) (k_fs k) v (k_sbi k) (k_reads k) (k_inputs k) (k_stvec k) (QUEUE_FRAMES k) (k_satp k) (k_stimer k).
Definition set_sbi (v : list sbi_call) (k : kernel) : kernel :=
  mkKernel (k_mm k) (KERNEL_SPACE k) (PID_ALLOCATOR k) (tcbs k) (next_tcb k) (ready_queue k) (current_ k) (INITPROC k)
    (os_inodes k) (k_fs k) (k_efs k) v (k_reads k) (k_inputs k) (k_stvec k) (QUEUE_FRAMES k) (k_satp k) (k_stimer k).
Definition set_reads (v : nat) (k : kernel) : kernel :=
  mkKernel (k_mm k) (KERNEL_SPACE k) (PID_ALLOCATOR k) (tcbs k) (next_tcb k) (ready_queue k) (current_ k) (INITPROC k)
    (os_inodes k) (k_fs k) (k_efs k) (k_sbi k) v (k_inputs k) (k_stvec k) (QUEUE_FRAMES k) (k_satp k) (k_stimer k).
Definition set_inputs (v : nat) (k : kernel) : kernel :=
  mkKernel (k_mm k) (KERNEL_SPACE k) (PID_ALLOCATOR k) (tcbs k) (next_tcb k) (ready_queue k) (current_ k) (INITPROC k)
    (os_inodes k) (k_fs k) (k_efs k) (k_sbi k) (k_reads k) v (k_stvec k) (QUEUE_FRAMES k) (k_satp k) (k_stimer k).
Definition set_stvec (v : Z) (k : kernel) : kernel :=
  mkKernel (k_mm k) (KERNEL_SPACE k) (PID_ALLOCATOR k) (tcbs k) (next_tcb k) (ready_queue k) (current_ k) (INITPROC k)
    (os_inodes k) (k_fs k) (k_efs k) (k_sbi k) (k_reads k) (k_inputs k) v (QUEUE_FRAMES k) (k_satp k) (k_stimer k).
Definition set_queue_frames (v : list Z) (k : kernel) : kernel :=
  mkKernel (k_mm k) (KERNEL_SPACE k) (PID_ALLOCATOR k) (tcbs k) (next_tcb k) (ready_queue k) (current_ k) (INITPROC k)
    (os_inodes k) (k_fs k) (k_efs k) (k_sbi k) (k_reads k) (k_inputs k) (k_stvec k) v (k_satp k) (k_stimer k).
Definition set_satp (v : Z) (k : kernel) : kernel :=
  mkKernel (k_mm k) (KERNEL_SPACE k) (PID_ALLOCATOR k) (tcbs k) (next_tcb k) (ready_queue k) (current_ k) (INITPROC k)
    (os_inodes k) (k_fs k) (k_efs k) (k_sbi k) (k_reads k) (k_inputs k) (k_stvec k) (QUEUE_FRAMES k) v (k_stimer k).
Definition set_stimer (v : bool) (k : kernel) : kernel :=
  mkKernel (k_mm k) (KERNEL_SPACE k) (PID_ALLOCATOR k) (tcbs k) (next_tcb k) (ready_queue k) (current_ k) (INITPROC k)
    (os_inodes k) (k_fs k) (k_efs k) (k_sbi k) (k_reads k) (k_inputs k) (k_stvec k) (QUEUE_FRAMES k) (k_satp k) v.
(** A new control block under the next handle. *)
Definition add_tcb (tcb : TaskControlBlock) (k : kernel) : kernel :=
  mkKernel (k_mm k) (KERNEL_SPACE k) (PID_ALLOCATOR k) (<[next_tcb k := tcb]> (tcbs k)) (S (next_tcb k)) (ready_queue k)
    (current_ k) (INITPROC k) (os_inodes k) (k_fs k) (k_efs k) (k_sbi k) (k_reads k) (k_inputs k) (k_stvec k) (QUEUE_FRAMES k) (k_satp k) (k_stimer k).

Notation K := (M kernel).

(** ** Parts of the state *)
Definition on_mm {A} (m : M mm A) : K A := zoom k_mm set_mm m.
Definition on_fs {A} (p : prog A) : K A := zoom k_fs set_fs (Cache.crun p).
Definition on_res {A} (r : res A) : K A := λ k, match r with Ok a => Ok (k, a) | Err e => Err e end.

(** An operation on [KERNEL_SPACE], which uses memory, too. *)
Definition on_kernel_space {A} (f : MemorySet → M mm (MemorySet * A)) : K A :=
  ms ← gets KERNEL_SPACE;
  '(ms, a) ← on_mm (f ms);
  modify (set_kernel_space ms);;
  mret a.

(** Calls of the firmware. *)
Definition sbi (cs : list sbi_call) : K unit := modify (λ k, set_sbi (k_sbi k ++ cs) k).

(** ** [inner_exclusive_access] *)
Definition tcb_of (t : nat) : K TaskControlBlock :=
  m ← gets tcbs;
  match m !! t with Some tcb => mret tcb | None => mthrow Panicked end.

Definition put_tcb (t : nat) (tcb : TaskControlBlock) : K unit :=
  modify (λ k, set_tcbs (<[t := tcb]> (tcbs k)) k).

(** The [RefMut] is made. *)
Definition borrow (t : nat) : K TaskControlBlockInner :=
  tcb ← tcb_of t;
  '(c, i) ← on_res (exclusive_access (inner tcb));
  put_tcb t (mkTcb (tcb_pid tcb) c);;
  mret i.

(** The [RefMut] goes out of scope with [i] behind it. *)
Definition release (t : nat) (i : TaskControlBlockInner) : K unit :=
  tcb ← tcb_of t;
  put_tcb t (mkTcb (tcb_pid tcb) (mkCell i false)).

(** A change through the [RefMut]. *)
Definition write_inner (t : nat) (i : TaskControlBlockInner) : K unit :=
  tcb ← tcb_of t;
  put_tcb t (mkTcb (tcb_pid tcb) (mkCell i true)).

(** An access that lasts for one expression. *)
Definition with_inner {A} (t : nat) (f : TaskControlBlockInner → TaskControlBlockInner * A) : K A :=
  i ← borrow t;
  let '(i, a) := f i in
  release t i;;
  mret a.

Definition read_inner {A} (t : nat) (f : TaskControlBlockInner → A) : K A := with_inner t (λ i, (i, f i)).
End kernel.
Arguments kernel D : clear implicits.
Notation K D := (M (kernel D)).

(** ** Fields of a control block *)
Section fields.
Implicit Types i : TaskControlBlockInner.
Definition with_trap_cx_ppn v i := mkInner v (base_size i) (task_cx i) (task_status i) (task_begin_time i)
  (task_syscall_times i) (task_priority i) (task_stride i) (memory_set i) (parent i) (children i) (exit_code i) (fd_table i).
Definition with_task_cx v i := mkInner (trap_cx_ppn i) (base_size i) v (task_status i) (task_begin_time i)
  (task_syscall_times i) (task_priority i) (task_stride i) (memory_set i) (parent i) (children i) (exit_code i) (fd_table i).
Definition with_status v i := mkInner (trap_cx_ppn i) (base_size i) (task_cx i) v (task_begin_time i)
  (task_syscall_times i) (task_priority i) (task_stride i) (memory_set i) (parent i) (children i) (exit_code i) (fd_table i).
Definition with_begin_time v i := mkInner (trap_cx_ppn i) (base_size i) (task_cx i) (task_status i) v
  (task_syscall_times i) (task_priority i) (task_stride i) (memory_set i) (parent i) (children i) (exit_code i) (fd_table i).
Definition with_syscall_times v i := mkInner (trap_cx_ppn i) (base_size i) (task_cx i) (task_status i) (task_begin_time i)
  v (task_priority i) (task_stride i) (memory_set i) (parent i) (children i) (exit_code i) (fd_table i).
Definition with_priority v i := mkInner (trap_cx_ppn i) (base_size i) (task_cx i) (task_status i) (task_begin_time i)
  (task_syscall_times i) v (task_stride i) (memory_set i) (parent i) (children i) (exit_code i) (fd_table i).
Definition with_stride v i := mkInner (trap_cx_ppn i) (base_size i) (task_cx i) (task_status i) (task_begin_time i)
  (task_syscall_times i) (task_priority i) v (memory_set i) (parent i) (children i) (exit_code i) (fd_table i).
Definition with_memory_set v i := mkInner (trap_cx_ppn i) (base_size i) (task_cx i) (task_status i) (task_begin_time i)
  (task_syscall_times i) (task_priority i) (task_stride i) v (parent i) (children i) (exit_code i) (fd_table i).
Definition with_parent v i := mkInner (trap_cx_ppn i) (base_size i) (task_cx i) (task_status i) (task_begin_time i)
  (task_syscall_times i) (task_priority i) (task_stride i) (memory_set i) v (children i) (exit_code i) (fd_table i).
Definition with_children v i := mkInner (trap_cx_ppn i) (base_size i) (task_cx i) (task_status i) (task_begin_time i)
  (task_syscall_times i) (task_priority i) (task_stride i) (memory_set i) (parent i) v (exit_code i) (fd_table i).
Definition with_exit_code v i := mkInner (trap_cx_ppn i) (base_size i) (task_cx i) (task_status i) (task_begin_time i)
  (task_syscall_times i) (task_priority i) (task_stride i) (memory_set i) (parent i) (children i) v (fd_table i).
Definition with_fd_table v i := mkInner (trap_cx_ppn i) (base_size i) (task_cx i) (task_status i) (task_begin_time i)
  (task_syscall_times i) (task_priority i) (task_stride i) (memory_set i) (parent i) (children i) (exit_code i) v.
End fields.

(** ** Accesses that succeed *)
Section accesses.
Context {D : Type}.
Implicit Types (k : kernel D) (t u : nat) (i : TaskControlBlockInner).

(** The contents of a control block that is not borrowed. *)
Definition inner_of k t : option TaskControlBlockInner :=
  tcb ← tcbs k !! t; if borrowed (inner tcb) then None else Some (value (inner tcb)).

Definition put_inner t i k : kernel D :=
  match tcbs k !! t with
  | Some tcb => set_tcbs (<[t := mkTcb (tcb_pid tcb) (mkCell i false)]> (tcbs k)) k
  | None => k
  end.

(** [t] is borrowed. *)
Definition lock t k : kernel D :=
  match tcbs k !! t with
  | Some tcb => set_tcbs (<[t := mkTcb (tcb_pid tcb) (mkCell (value (inner tcb)) true)]> (tcbs k)) k
  | None => k
  end.

Lemma inner_of_Some k t i :
  inner_of k t = Some i ↔ ∃ pid, tcbs k !! t = Some (mkTcb pid (mkCell i false)).
Proof.
  unfold inner_of. destruct (tcbs k !! t) as [[pid [v b]]|]; cbn; [|naive_solver].
  destruct b; cbn; naive_solver.
Qed.

Lemma tcb_of_ok k t tcb : tcbs k !! t = Some tcb → tcb_of t k = Ok (k, tcb).
Proof. intros Ht. unfold tcb_of, mbind, M_bind. cbn. by rewrite Ht. Qed.

Lemma borrow_ok k t i : inner_of k t = Some i → borrow t k = Ok (lock t k, i).
Proof.
  intros [pid Ht]%inner_of_Some. unfold borrow. run (tcb_of_ok k t _ Ht). unfold lock. rewrite Ht.
  erewrite bind_ok by done. cbn iota beta. done.
Qed.

Lemma release_ok k t i : is_Some (tcbs k !! t) → release t i k = Ok (put_inner t i k, tt).
Proof.
  intros [tcb Ht]. unfold release. run (tcb_of_ok k t _ Ht). unfold put_inner. rewrite Ht. done.
Qed.

Lemma set_tcbs_twice m m' k : set_tcbs m (set_tcbs m' k) = set_tcbs m k.
Proof. done. Qed.

Lemma put_inner_lock t i k : put_inner t i (lock t k) = put_inner t i k.
Proof.
  unfold put_inner, lock. destruct (tcbs k !! t) as [tcb|] eqn:Ht; [|by rewrite Ht].
  cbn [set_tcbs tcbs]. rewrite lookup_insert_eq, set_tcbs_twice, insert_insert_eq. done.
Qed.

Lemma with_inner_ok {A} k t i (f : TaskControlBlockInner → TaskControlBlockInner * A) :
  inner_of k t = Some i → with_inner t f k = Ok (put_inner t (f i).1 k, (f i).2).
Proof.
  intros Hi. unfold with_inner. run (borrow_ok k t i Hi). destruct (f i) as [i' a]. cbn [fst snd].
  erewrite bind_ok; [done|]. rewrite release_ok; [by rewrite put_inner_lock|].
  apply inner_of_Some in Hi as [pid Ht]. unfold lock. rewrite Ht. cbn. by rewrite lookup_insert_eq.
Qed.

Lemma put_inner_id k t i : inner_of k t = Some i → put_inner t i k = k.
Proof.
  intros [pid Ht]%inner_of_Some. unfold put_inner. rewrite Ht. cbn [tcb_pid].
  rewrite insert_id by done. by destruct k.
Qed.

Lemma read_inner_ok {A} k t i (f : TaskControlBlockInner → A) :
  inner_of k t = Some i → read_inner t f k = Ok (k, f i).
Proof. intros Hi. unfold read_inner. rewrite (with_inner_ok k t i _ Hi). simpl. by rewrite put_inner_id. Qed.

Lemma inner_of_put k t i u :
  is_Some (tcbs k !! t) → inner_of (put_inner t i k) u = if decide (u = t) then Some i else inner_of k u.
Proof.
  intros [tcb Ht]. unfold inner_of, put_inner. rewrite Ht. cbn [set_tcbs tcbs].
  case_decide as Hu; [subst; by rewrite lookup_insert_eq|by rewrite lookup_insert_ne].
Qed.

Lemma inner_of_lock k t u : inner_of (lock t k) u = if decide (u = t) then None else inner_of k u.
Proof.
  unfold inner_of, lock. destruct (tcbs k !! t) as [tcb|] eqn:Ht.
  - cbn [set_tcbs tcbs]. case_decide as Hu; [subst; by rewrite lookup_insert_eq|by rewrite lookup_insert_ne].
  - case_decide; [subst; by rewrite Ht|done].
Qed.

Lemma tcbs_put_is_Some k t i u : is_Some (tcbs (put_inner t i k) !! u) ↔ is_Some (tcbs k !! u).
Proof.
  unfold put_inner. destruct (tcbs k !! t) as [tcb|] eqn:Ht; [|done]. cbn [set_tcbs tcbs].
  rewrite lookup_insert_is_Some'. split; [|auto]. intros [<-|?]; [eauto|done].
Qed.

(** Everything but the control blocks stays. *)
Lemma put_inner_queue k t i : ready_queue (put_inner t i k) = ready_queue k.
Proof. unfold put_inner. by destruct (tcbs k !! t). Qed.
Lemma put_inner_pids k t i : PID_ALLOCATOR (put_inner t i k) = PID_ALLOCATOR k.
Proof. unfold put_inner. by destruct (tcbs k !! t). Qed.
Lemma put_inner_kernel_space k t i : KERNEL_SPACE (put_inner t i k) = KERNEL_SPACE k.
Proof. unfold put_inner. by destruct (tcbs k !! t). Qed.
End accesses.
