(* ===== verification/Task.v ===== *)
(** * Control blocks of processes ([os/src/task/task.rs], [os/src/task/pid.rs])

    Making a process from a program ([task_new], [spawn]) or from another process
    ([fork]), replacing its program ([exec]), its kernel stack, and what happens
    when the last [Arc] to it is dropped ([drop_task]). *)

From S2P Require Import Prelude Bytes BlockCache Address FrameAlloc PageTable UserBuf MemorySet Context Pid Kernel.

(** ** [TaskControlBlockInner] *)

(** Division by zero panics; a priority is never 0. *)
Definition update_stride (i : TaskControlBlockInner) : res TaskControlBlockInner :=
  q ← checked_div BIG_STRIDE (task_priority i);
  mret (with_stride (wrap64 (task_stride i + q)) i).

Definition is_zombie (i : TaskControlBlockInner) : bool := bool_decide (task_status i = Zombie).

(** The first free descriptor; the table grows when all are taken. *)
Definition alloc_fd (i : TaskControlBlockInner) : TaskControlBlockInner * nat :=
  match find_idx (λ fd, match fd with None => true | Some _ => false end) (fd_table i) with
  | Some (fd, _) => (i, fd)
  | None => (with_fd_table (fd_table i ++ [None]) i, length (fd_table i))
  end.

Section task.
Context {D : Type} `{BlockDevice D} `{Platform}.
Notation K := (K D).

(** ** Identifiers and kernel stacks *)
Definition k_pid_alloc : K Z :=
  pa ← gets PID_ALLOCATOR;
  let '(pa, pid) := pid_alloc pa in
  modify (set_pids pa);;
  mret pid.

(** [Drop for PidHandle] *)
Definition drop_pid (pid : Z) : K unit :=
  pa ← gets PID_ALLOCATOR;
  pa ← on_res (pid_dealloc pid pa);
  modify (set_pids pa).

(** [KernelStack::new]: the answer of [insert_framed_area] is not looked at. *)
Definition kernel_stack_new (pid : Z) : K unit :=
  let '(kernel_stack_bottom, kernel_stack_top) := kernel_stack_position pid in
  _ ← on_kernel_space (insert_framed_area kernel_stack_bottom kernel_stack_top (Z.lor PERM_R PERM_W));
  mret tt.

(** [Drop for KernelStack] *)
Definition drop_kernel_stack (pid : Z) : K unit :=
  let '(kernel_stack_bottom, _) := kernel_stack_position pid in
  vpn ← on_res (page_of_addr kernel_stack_bottom);
  on_kernel_space (λ ms, ms ← remove_area_with_start_vpn vpn ms; mret (ms, tt)).

(** ** Making processes *)
Definition trap_cx_page_of (ms : MemorySet) : K Z :=
  vpn ← on_res (page_of_addr TRAP_CONTEXT);
  r ← on_mm (ms_translate vpn ms);
  pte ← unwrap r;
  mret (pte_ppn pte).

(** [KERNEL_SPACE.exclusive_access().token()] *)
Definition kernel_token : K Z := ms ← gets KERNEL_SPACE; mret (ms_token ms).

Definition std_fds : list (option FileRef) := [Some Stdin; Some Stdout; Some Stdout].

Definition new_inner (trap_cx_ppn base_size kernel_stack_top : Z) (ms : MemorySet) (parent : option nat)
    (fds : list (option FileRef)) : TaskControlBlockInner :=
  mkInner trap_cx_ppn base_size (Fresh (goto_trap_return trap_return_entry kernel_stack_top)) Ready 0
    (replicate (Z.to_nat MAX_SYSCALL_NUM) 0) 16 0 ms parent [] 0 fds.

(** [Arc::new] *)
Definition arc_new (pid : Z) (i : TaskControlBlockInner) : K nat :=
  t ← gets next_tcb;
  modify (add_tcb (mkTcb pid (cell_new i)));;
  mret t.

(** [*trap_cx = TrapContext::app_init_context(..)] *)
Definition init_trap_cx (ppn entry_point user_sp kernel_stack_top : Z) : K unit :=
  token ← kernel_token;
  on_mm (set_cx ppn (app_init_context sstatus_user entry_point user_sp token kernel_stack_top trap_handler_entry)).

(** [TaskControlBlock::new]: only used for the creation of initproc *)
Definition task_new (elf_data : list byte) : K nat :=
  '(memory_set, user_sp, entry_point) ← on_mm (from_elf strampoline elf_new elf_data);
  trap_cx_ppn ← trap_cx_page_of memory_set;
  pid ← k_pid_alloc;
  kernel_stack_new pid;;
  let kernel_stack_top := get_top pid in
  t ← arc_new pid (new_inner trap_cx_ppn user_sp kernel_stack_top memory_set None std_fds);
  ppn ← read_inner t Kernel.trap_cx_ppn;
  init_trap_cx ppn entry_point user_sp kernel_stack_top;;
  mret t.

(** Load a new elf to replace the original application address space *)
Definition exec (t : nat) (elf_data : list byte) : K unit :=
  '(memory_set, user_sp, entry_point) ← on_mm (from_elf strampoline elf_new elf_data);
  trap_cx_ppn ← trap_cx_page_of memory_set;
  inner ← borrow t;
  (* the old address space is dropped *)
  on_mm (drop_memory_set (Kernel.memory_set inner));;
  let inner := with_memory_set memory_set inner in
  let inner := with_trap_cx_ppn trap_cx_ppn inner in
  tcb ← tcb_of t;
  init_trap_cx (Kernel.trap_cx_ppn inner) entry_point user_sp (get_top (tcb_pid tcb));;
  release t inner.

(** Fork from parent to child *)
Definition fork (t : nat) : K nat :=
  parent_inner ← borrow t;
  memory_set ← on_mm (from_existed_user strampoline (Kernel.memory_set parent_inner));
  trap_cx_ppn ← trap_cx_page_of memory_set;
  pid ← k_pid_alloc;
  kernel_stack_new pid;;
  let kernel_stack_top := get_top pid in
  new_fd_table ← for_ (fd_table parent_inner) (λ new_fd_table fd,
    match fd with
    | Some file => mret (new_fd_table ++ [Some file])
    | None => mret (new_fd_table ++ [None])
    end) [];
  child ← arc_new pid (new_inner trap_cx_ppn (base_size parent_inner) kernel_stack_top memory_set (Some t) new_fd_table);
  let parent_inner := with_children (children parent_inner ++ [child]) parent_inner in
  ppn ← read_inner child Kernel.trap_cx_ppn;
  cx ← on_mm (get_cx ppn);
  on_mm (set_cx ppn (with_kernel_sp kernel_stack_top cx));;
  release t parent_inner;;
  mret child.

(** Create a new child process that executes a specified file *)
Definition spawn (t : nat) (elf_data : list byte) : K nat :=
  pid ← k_pid_alloc;
  kernel_stack_new pid;;
  let kernel_stack_top := get_top pid in
  '(memory_set, user_sp, entry_point) ← on_mm (from_elf strampoline elf_new elf_data);
  trap_cx_ppn ← trap_cx_page_of memory_set;
  child ← arc_new pid (new_inner trap_cx_ppn user_sp kernel_stack_top memory_set (Some t) std_fds);
  parent_inner ← borrow t;
  let parent_inner := with_children (children parent_inner ++ [child]) parent_inner in
  init_trap_cx trap_cx_ppn entry_point user_sp kernel_stack_top;;
  release t parent_inner;;
  mret child.

(** ** Dropping references *)

(** [Arc::strong_count], without the references that local variables hold: the ready
    queue, the processor, the children of all processes and [INITPROC]. *)
Definition count (t : nat) (l : list nat) : nat := length (filter (λ u, u = t) l).

Definition strong_refs (k : kernel D) (t : nat) : nat :=
  count t (ready_queue k) + count t (option_list (current_ k)) + count t (option_list (INITPROC k)) +
  sum_list ((λ e, count t (children (value (inner e.2)))) <$> map_to_list (tcbs k)).

(** A local [Arc] to [t] goes out of scope: when it was the last one, the control block is
    dropped, field by field, and with it the references to its children. *)
Fixpoint drop_task (fuel : nat) (t : nat) : K unit :=
  match fuel with
  | O => mthrow OutOfFuel
  | S fuel =>
      k ← get;
      if bool_decide (strong_refs k t = 0%nat) then
        tcb ← tcb_of t;
        modify (λ k, set_tcbs (delete t (tcbs k)) k);;
        drop_pid (tcb_pid tcb);;
        drop_kernel_stack (tcb_pid tcb);;
        on_mm (drop_memory_set (memory_set (value (inner tcb))));;
        for_ (children (value (inner tcb))) (λ _ c, drop_task fuel c) tt
      else mret tt
  end.

Definition drop_arc (t : nat) : K unit :=
  m ← gets tcbs;
  drop_task (S (size m)) t.
End task.
