(* ===== verification/Spaces.v ===== *)
(** * All address spaces of the kernel

    Each process has an address space, and the kernel has one, which also holds the
    kernel stacks.  [spaces_ok] says that all of them are well formed and that no
    frame belongs to two.  Making a process takes frames for its kernel stack and its
    own space: the lemmas say what [kernel_stack_new], [task_new] and [fork] do to all
    of them at once. *)

From S2P Require Import Prelude Bytes BlockCache Bitmap Address FrameAlloc PageTable UserBuf MemorySet MemSpec ForkSpec AddrSpace Loader.
From S2P Require Import Context Pid Kernel Task.

Local Ltac Zify.zify_post_hook ::= Z.to_euclidean_division_equations.

(** ** Spaces over one memory *)

(** An address space with its abstract table. *)
Notation space := (MemorySet * gmap Z Z)%type.

Definition all_owned (l : list space) : list Z := concat ((λ x : space, owned x.1) <$> l).

Record spaces_ok (lo : Z) (s : mm) (l : list space) : Prop := {
  so_mm : mm_ok lo s;
  so_inv : Forall (λ x : space, ms_inv lo s x.1 x.2) l;
  so_apart : NoDup (all_owned l);
}.

Lemma all_owned_elem l x p : x ∈ l → p ∈ owned x.1 → p ∈ all_owned l.
Proof. intros Hx Hp. apply elem_of_concat_fmap. eauto. Qed.

Lemma spaces_used lo s l p : spaces_ok lo s l → p ∈ all_owned l → in_use lo (frame_allocator s) p.
Proof.
  intros [_ Hi _] (x & Hx & Hp)%elem_of_concat_fmap. rewrite Forall_forall in Hi. by apply (ms_owns _ _ _ _ (Hi x Hx)).
Qed.

(** The other spaces while one changes. *)
Lemma spaces_step lo s l own s' own' :
  spaces_ok lo s l → mm_step lo s own s' own' → (∀ p, p ∈ own → p ∉ all_owned l) →
  spaces_ok lo s' l ∧ (∀ p, p ∈ own' → p ∉ all_owned l) ∧ ∀ p, p ∈ all_owned l → mem s' !! p = mem s !! p.
Proof.
  intros Hl Hs Hd. pose proof Hl as [Hmm Hi Hnd]. rewrite Forall_forall in Hi.
  assert (∀ p, p ∈ all_owned l → foreign lo s own p) as Hf.
  { intros p Hp. split; [intros Hin; by apply (Hd p)|left; by eapply spaces_used]. }
  split; [split; [apply Hs| |done]|split].
  - rewrite Forall_forall. intros x Hx. apply (ms_inv_step _ _ _ _ _ _ _ Hs (Hi x Hx)).
    intros p Hp. apply Hf. by eapply all_owned_elem.
  - intros p Hp Hin. by apply (step_foreign _ _ _ _ _ p Hs (Hf p Hin)).
  - intros p Hp. by eapply step_mem, Hf.
Qed.

Lemma spaces_cons lo s ms tr l :
  spaces_ok lo s ((ms, tr) :: l) ↔
  ms_inv lo s ms tr ∧ spaces_ok lo s l ∧ ∀ p, p ∈ owned ms → p ∉ all_owned l.
Proof.
  split.
  - intros [Hmm [Hi Hl]%Forall_cons Hnd]. unfold all_owned in Hnd. cbn in Hnd. apply NoDup_app in Hnd as (_ & Hd & Hnd). done.
  - intros (Hi & [Hmm Hl Hnd] & Hd). split; [done|by constructor|]. unfold all_owned. cbn. apply NoDup_app.
    split; [apply (ms_owns _ _ _ _ Hi)|done].
Qed.

Lemma all_owned_perm l l' : l ≡ₚ l' → all_owned l ≡ₚ all_owned l'.
Proof. intros Hp. unfold all_owned. induction Hp; cbn; [done|by f_equiv|by rewrite !app_assoc, (Permutation_app_comm (owned y.1))|by etrans]. Qed.

Lemma spaces_perm lo s l l' : l ≡ₚ l' → spaces_ok lo s l → spaces_ok lo s l'.
Proof. intros Hp [Hmm Hi Hnd]. split; [done|by rewrite <-Hp|by rewrite <-(all_owned_perm _ _ Hp)]. Qed.

(** One space changes. *)
Lemma spaces_change lo s ms tr l s' ms' tr' :
  spaces_ok lo s ((ms, tr) :: l) → mm_step lo s (owned ms) s' (owned ms') → ms_inv lo s' ms' tr' →
  spaces_ok lo s' ((ms', tr') :: l) ∧ ∀ p, p ∈ all_owned l → mem s' !! p = mem s !! p.
Proof.
  intros (Hi & Hl & Hd)%spaces_cons Hs Hi'. destruct (spaces_step _ _ _ _ _ _ Hl Hs Hd) as (Hl' & Hd' & Hm).
  by rewrite spaces_cons.
Qed.

(** A space is made. *)
Lemma spaces_new lo s l s' ms tr :
  spaces_ok lo s l → mm_step lo s [] s' (owned ms) → ms_inv lo s' ms tr →
  spaces_ok lo s' ((ms, tr) :: l) ∧ ∀ p, p ∈ all_owned l → mem s' !! p = mem s !! p.
Proof.
  intros Hl Hs Hi'. destruct (spaces_step _ _ _ _ _ _ Hl Hs) as (Hl' & Hd' & Hm); [by intros ? ?%elem_of_nil|].
  by rewrite spaces_cons.
Qed.

(** A page of a space is written. *)
Lemma spaces_write lo s ms tr l p b :
  spaces_ok lo s ((ms, tr) :: l) → p ∈ owned ms → length b = 4096%nat →
  ms_inv lo (with_mem (<[p := b]> (mem s)) s) ms tr →
  spaces_ok lo (with_mem (<[p := b]> (mem s)) s) ((ms, tr) :: l) ∧
  ∀ q, q ∈ all_owned l → (<[p := b]> (mem s)) !! q = mem s !! q.
Proof.
  intros Hl Hp Hb Hi'. pose proof Hl as (Hi & _ & _)%spaces_cons.
  destruct (write_page_step lo s (owned ms) p b) as (s' & _ & Hs & ->); [apply Hl|apply Hi|done|done|].
  by apply (spaces_change _ _ _ _ _ _ _ _ Hl Hs).
Qed.

(** ** The kernel's space: sections below [2^38], the trampoline, and the stacks *)
Definition stack_key (pid key : Z) : Prop := 2 ^ 27 - 3 - 3 * pid ≤ key ≤ 2 ^ 27 - 2 - 3 * pid.

Definition kernel_keys (trk : gmap Z Z) (pa : PidAllocator) : Prop :=
  ∀ key, is_Some (trk !! key) → 0 ≤ key < 2 ^ 26 ∨ key = TRAMPOLINE_KEY ∨ ∃ pid, pid_used pa pid ∧ stack_key pid key.

(** Processes that there can be at a time, so that their stacks have keys of their own. *)
Definition MAX_PID : Z := 2 ^ 24.

Lemma stack_pages pid v :
  0 ≤ pid < MAX_PID →
  let '(bottom, top) := kernel_stack_position pid in
  floor bottom ≤ v < ceil top ↔ 2 ^ 52 - 3 - 3 * pid ≤ v ≤ 2 ^ 52 - 2 - 3 * pid.
Proof.
  unfold MAX_PID. intros Hp. rewrite kernel_stack_pos by lia. rewrite ceil_up by lia. unfold floor, PAGE_SIZE. lia.
Qed.

Lemma stack_page_key pid v :
  0 ≤ pid < MAX_PID → 2 ^ 52 - 3 - 3 * pid ≤ v ≤ 2 ^ 52 - 2 - 3 * pid →
  page_key v = v - (2 ^ 52 - 2 ^ 27) ∧ stack_key pid (page_key v).
Proof.
  unfold MAX_PID, stack_key, page_key. intros Hp Hv. enough (v mod 2 ^ 27 = v - (2 ^ 52 - 2 ^ 27)) as -> by lia.
  symmetry. apply (Z.mod_unique_pos _ _ (2 ^ 25 - 1)); lia.
Qed.

Section kernel_spaces.
Context {D : Type} `{BlockDevice D} `{Platform}.
Context (lo : Z).
Notation K := (K D).
Implicit Types k : kernel D.

(** [trk] is the kernel's table, [l] are the spaces of the processes. *)
Record kspaces_ok k (trk : gmap Z Z) (l : list space) : Prop := {
  ks_spaces : spaces_ok lo (k_mm k) ((KERNEL_SPACE k, trk) :: l);
  ks_keys : kernel_keys trk (PID_ALLOCATOR k);
  ks_pids : pid_ok (PID_ALLOCATOR k);
}.

Lemma kspaces_ext k k' trk l :
  k_mm k' = k_mm k → KERNEL_SPACE k' = KERNEL_SPACE k → PID_ALLOCATOR k' = PID_ALLOCATOR k →
  kspaces_ok k trk l → kspaces_ok k' trk l.
Proof. intros E1 E2 E3 [Hs Hk Hp]. split; by rewrite ?E1, ?E2, ?E3. Qed.

Lemma kspaces_ok_inv k trk ms tr l :
  kspaces_ok k trk ((ms, tr) :: l) → ms_inv lo (k_mm k) ms tr ∧ mm_ok lo (k_mm k).
Proof. intros [Hs _ _]. split; [|apply Hs]. by apply spaces_cons in Hs as (_ & (Hi & _)%spaces_cons & _). Qed.

(** A fresh identifier with its kernel stack. *)
Record stack_made k (pid : Z) k' (trk' : gmap Z Z) : Prop := {
  sm_alloc : pid_alloc (PID_ALLOCATOR k) = (PID_ALLOCATOR k', pid);
  sm_pid : 0 ≤ pid < MAX_PID ∧ ¬ pid_used (PID_ALLOCATOR k) pid;
  sm_used : ∀ p, pid_used (PID_ALLOCATOR k') p ↔ p = pid ∨ pid_used (PID_ALLOCATOR k) p;
  sm_token : ms_token (KERNEL_SPACE k') = ms_token (KERNEL_SPACE k);
  sm_stack : let '(bottom, top) := kernel_stack_position pid in
    ∀ va, bottom ≤ va < top →
      ∃ f, trk' !! page_key (floor va) = Some (pte_new f (Z.lor (Z.lor PERM_R PERM_W) FLAG_V));
}.

Lemma run_new_stack k trk l :
  kspaces_ok k trk l → pid_current (PID_ALLOCATOR k) < MAX_PID → (6 ≤ avail (frame_allocator (k_mm k)))%nat →
  ∃ pa pid s ms trk', let k' := set_kernel_space ms (set_mm s (set_pids pa k)) in
    k_pid_alloc k = Ok (set_pids pa k, pid) ∧ kernel_stack_new pid (set_pids pa k) = Ok (k', tt) ∧
    stack_made k pid k' trk' ∧ kspaces_ok k' trk' l ∧ (∀ p, p ∈ all_owned l → mem s !! p = mem (k_mm k) !! p) ∧
    (avail (frame_allocator (k_mm k)) ≤ avail (frame_allocator s) + 6)%nat.
Proof.
  intros [Hsp Hkeys Hpids] Hmax Hav. pose proof (pid_alloc_spec _ Hpids) as Hpa. unfold MAX_PID in Hmax.
  destruct (pid_alloc (PID_ALLOCATOR k)) as [pa pid] eqn:Ealloc. destruct Hpa as (Hpa & Hfresh & Hcur & Hused); [lia|].
  assert (0 ≤ pid < MAX_PID) as Hpid.
  { destruct (proj2 (Hused pid) (or_introl eq_refl)) as [Hr _]. unfold MAX_PID. lia. }
  pose proof Hsp as (Hi & _ & _)%spaces_cons. pose proof (stack_pages pid) as Hpages. pose proof (kernel_stack_pos pid) as Hpos.
  destruct (kernel_stack_position pid) as [bottom top] eqn:Epos. unfold MAX_PID in Hpid.
  specialize (Hpos ltac:(lia)). injection Hpos as Hbot Htop.
  assert (ceil top = floor bottom + 2) as Hct by (subst; rewrite ceil_up by lia; unfold floor, PAGE_SIZE; lia).
  destruct (run_insert_framed_area lo (k_mm k) (KERNEL_SPACE k) trk bottom top (Z.lor PERM_R PERM_W) Hi)
    as (s & ms & trk' & fs & Hr & Hi' & Hs & _ & Hfl & Hfs & Hoth & Hroot & Hlen & _).
  { split; [lia|lia|by vm_compute| |lia]. intros v Hv. specialize (Hpages v Hpid). apply Hpages in Hv.
    destruct (stack_page_key pid v Hpid Hv) as [Hk Hsk]. apply eq_None_not_Some. intros Hk'.
    destruct (Hkeys _ Hk') as [?|[He|(p & Hu & Hsk')]].
    - lia.
    - change TRAMPOLINE_KEY with (2 ^ 27 - 1) in He. lia.
    - unfold stack_key in Hsk, Hsk'. replace p with pid in Hu by lia. done. }
  destruct (spaces_change _ _ _ _ _ _ _ _ Hsp Hs Hi') as [Hsp' Hm].
  exists pa, pid, s, ms, trk'. cbn zeta. split; [unfold k_pid_alloc; erewrite bind_ok by reflexivity; by rewrite Ealloc|].
  pose proof (step_avail _ _ _ _ _ Hs) as Hsa. split; [|split; [|split; [|split; [done|lia]]]].
  - unfold kernel_stack_new. rewrite Epos. erewrite bind_ok; [done|]. unfold on_kernel_space. erewrite bind_ok by reflexivity.
    erewrite bind_ok by (apply (zoom_ok k_mm set_mm); exact Hr). done.
  - split; [done|by unfold MAX_PID|done| |].
    + unfold ms_token, token. cbn. by rewrite Hroot.
    + rewrite Epos. intros va Hva. destruct (lookup_lt_is_Some_2 fs (Z.to_nat (floor va - floor bottom))) as [f Hf].
      { subst. unfold floor, PAGE_SIZE in *. lia. }
      destruct (Hfs _ _ Hf) as (_ & _ & _ & Ht). exists f. rewrite <-Ht. do 2 f_equal.
      rewrite Z2Nat.id by (unfold floor, PAGE_SIZE; lia). lia.
  - split; [done| |done]. intros key Hk'. cbn.
    destruct (decide (2 ^ 27 - 3 - 3 * pid ≤ key ≤ 2 ^ 27 - 2 - 3 * pid)) as [Hsk|Hn]; [right; right; exists pid; split; [by apply Hused; left|done]|].
    rewrite Hoth in Hk'.
    2:{ intros v Hv ->. apply Hpages in Hv; [|done]. by apply Hn, (stack_page_key pid v). }
    destruct (Hkeys key Hk') as [?|[?|(p & Hu & Hsk)]]; [by left|by right; left|].
    right; right. exists p. split; [apply Hused; by right|done].
Qed.

(** ** A process from a program *)

(** The addresses the kernel was linked at. *)
Record platform_ok : Prop := {
  po_trampoline : trampoline_ok strampoline;
  po_sstatus : is_u64 sstatus_user;
  po_handler : is_u64 trap_handler_entry;
}.

Definition user_top (elf_data : list byte) (elf : ElfFile) : Z := (program_end elf_data elf + 3) * 4096.

(** The context of a program that has not run. *)
Definition start_context (elf_data : list byte) (elf : ElfFile) (token pid : Z) : TrapContext :=
  app_init_context sstatus_user (elf_entry elf) (user_top elf_data elf) token (get_top pid) trap_handler_entry.

Lemma token_u64 s ms tr : ms_inv lo s ms tr → is_u64 (ms_token ms).
Proof.
  intros Hi. pose proof (rep_root_range _ _ _ _ (ms_pt _ _ _ _ Hi)) as Hr. apply lor_u64; [by vm_compute|unfold is_u64; lia].
Qed.

Lemma top_u64 pid : 0 ≤ pid < MAX_PID → is_u64 (get_top pid).
Proof. unfold MAX_PID, get_top, is_u64. intros Hp. rewrite kernel_stack_pos by lia. lia. Qed.

Lemma start_context_ok elf_data elf token pid :
  platform_ok → elf_ok elf_data elf → is_u64 (elf_entry elf) → is_u64 token → 0 ≤ pid < MAX_PID →
  cx_ok (start_context elf_data elf token pid).
Proof.
  intros [_ Hss Hth] Hok Hen Htk Hpid. apply app_init_context_ok; try done; [|by apply top_u64].
  destruct (ascending_last _ 0 ltac:(lia) (eo_asc _ _ Hok)) as (Hle0 & Hle & _). unfold user_top, program_end, is_u64. lia.
Qed.

Lemma trap_cx_page_of_ok k ms tr w :
  ms_inv lo (k_mm k) ms tr → tr !! page_key (floor TRAP_CONTEXT) = Some w → trap_cx_page_of ms k = Ok (k, pte_ppn w).
Proof.
  intros Hi Hw. unfold trap_cx_page_of. change (page_of_addr TRAP_CONTEXT) with (Ok (A := Z) (floor TRAP_CONTEXT)).
  erewrite bind_ok by reflexivity. erewrite bind_ok; [|apply (zoom_ok k_mm set_mm); eapply run_translate_mapped; [apply Hi|done]].
  erewrite bind_ok by apply unwrap_some. by destruct k.
Qed.

Lemma run_task_new k trk l elf_data elf :
  platform_ok → kspaces_ok k trk l → pid_current (PID_ALLOCATOR k) < MAX_PID →
  elf_new elf_data = Some elf → elf_ok elf_data elf → is_u64 (elf_entry elf) →
  (9 + 3 * seg_pages (elf_segs elf_data elf) ≤ avail (frame_allocator (k_mm k)))%nat →
  ∃ pid pa s ksp trk' ms tr f,
    let tcb := mkTcb pid (cell_new (new_inner f (user_top elf_data elf) (get_top pid) ms None std_fds)) in
    let k' := set_mm s (add_tcb tcb (set_kernel_space ksp (set_pids pa k))) in
    task_new elf_data k = Ok (k', next_tcb k) ∧ stack_made k pid k' trk' ∧ kspaces_ok k' trk' ((ms, tr) :: l) ∧
    (∀ p, p ∈ all_owned l → mem s !! p = mem (k_mm k) !! p) ∧
    program_at elf_data elf strampoline (mem s) tr (user_top elf_data elf) ∧
    tr !! page_key (floor TRAP_CONTEXT) = Some (pte_new f (Z.lor (Z.lor PERM_R PERM_W) FLAG_V)) ∧
    get_cx f s = Ok (s, start_context elf_data elf (ms_token ksp) pid) ∧
    pte_ppn <$> tr !! page_key (floor TRAP_CONTEXT) = Some f ∧ program_space lo strampoline elf_data elf s ms tr ∧
    (avail (frame_allocator (k_mm k)) ≤ avail (frame_allocator s) + (9 + 3 * seg_pages (elf_segs elf_data elf)))%nat.
Proof.
  intros Hpl [Hsp Hkeys Hpids] Hmax Helf Hok Hen Hav.
  destruct (run_from_elf lo strampoline (k_mm k) elf_new elf_data elf) as (s1 & ms & tr & Hr1 & Hh);
    [apply Hsp|apply Hpl|done|done|lia|]. fold (program_end elf_data elf) in Hr1. fold (user_top elf_data elf) in Hr1.
  pose proof (ho_step _ _ _ _ _ _ _ Hh) as Hs1. pose proof (step_avail _ _ _ _ _ Hs1) as Hav1.
  pose proof (ho_len _ _ _ _ _ _ _ Hh) as Hlen. cbn in Hav1. pose proof (holds_program _ _ _ _ _ _ _ _ Hh) as Hps1.
  destruct (spaces_new _ _ _ _ _ _ Hsp Hs1 (ps_inv _ _ _ _ _ _ _ Hps1)) as [Hsp1 Hm1].
  destruct (program_trap_page _ _ _ _ _ _ _ Hps1) as (f & _ & Htf & Hpf & _ & _ & Hfo & _).
  destruct (run_new_stack (set_mm s1 k) trk ((ms, tr) :: l)) as (pa & pid & s2 & ksp & trk' & Hp2 & Hr2 & Hst & [Hsp2 Hkeys2 Hpids2] & Hm2 & Hav2);
    [split; [eapply spaces_perm; [|exact Hsp1]; constructor|done|done]|done|cbn; lia|].
  set (k2 := set_kernel_space ksp (set_mm s2 (set_pids pa (set_mm s1 k)))) in *.
  assert (∀ p, p ∈ owned ms → mem s2 !! p = mem s1 !! p) as Hm2'.
  { intros p Hp. apply Hm2. apply (all_owned_elem _ (ms, tr)); [by left|done]. }
  apply (spaces_perm _ _ _ ((ms, tr) :: (ksp, trk') :: l)) in Hsp2; [|constructor]. pose proof Hsp2 as (Hi2 & _)%spaces_cons.
  pose proof (program_space_step _ _ _ _ _ _ _ _ Hps1 Hi2 Hm2') as Hps2.
  destruct (program_trap_page _ _ _ _ _ _ _ Hps2) as (f' & pg & Htf' & Hpf' & Hmf & Hlf & _ & Hw).
  rewrite Htf in Htf'. apply (inj Some) in Htf'. assert (f' = f) as -> by (rewrite <-Hpf', <-Htf'; done). cbn in Hmf, Hw.
  set (tcb := mkTcb pid (cell_new (new_inner f (user_top elf_data elf) (get_top pid) ms None std_fds))).
  assert (cx_ok (start_context elf_data elf (ms_token ksp) pid)) as Hcx.
  { apply start_context_ok; try done; [|apply Hst]. apply spaces_cons in Hsp2 as (_ & (Hik & _)%spaces_cons & _). by eapply token_u64. }
  destruct (set_cx_ok f pg s2 _ Hmf Hlf Hcx) as (pg' & Hset & Hpg & Hl' & _).
  set (s3 := with_mem (<[f := pg']> (mem s2)) s2) in *. specialize (Hw pg' Hl'). fold s3 in Hw.
  destruct (spaces_write _ _ _ _ _ f pg' Hsp2 Hfo Hl' (ps_inv _ _ _ _ _ _ _ Hw)) as [Hsp3 Hm3]. fold s3 in Hsp3.
  exists pid, pa, s3, ksp, trk', ms, tr, f. cbn zeta. fold tcb.
  split; [|split; [|split; [|split; [|split; [|split; [|split; [|split; [|split]]]]]]]].
  - change (set_mm s3 (add_tcb tcb (set_kernel_space ksp (set_pids pa k)))) with (set_mm s3 (add_tcb tcb k2)).
    unfold task_new. erewrite bind_ok by (apply (zoom_ok k_mm set_mm); exact Hr1). cbn iota beta.
    erewrite bind_ok by (eapply trap_cx_page_of_ok; [apply Hps1|exact Htf]). rewrite Hpf. run Hp2. run Hr2.
    erewrite bind_ok by reflexivity. cbn [next_tcb]. fold tcb.
    erewrite bind_ok.
    2:{ apply read_inner_ok. apply inner_of_Some. exists pid. cbn. by rewrite lookup_insert_eq. }
    cbn [trap_cx_ppn new_inner]. erewrite bind_ok; [done|]. unfold init_trap_cx, kernel_token.
    erewrite bind_ok by (by erewrite bind_ok by reflexivity). apply (zoom_ok k_mm set_mm). exact Hset.
  - destruct Hst as [H1 H2 H3 H4 H5]. by split.
  - split; [|done|done]. eapply spaces_perm; [|exact Hsp3]. constructor.
  - intros p Hp. unfold s3. cbn. rewrite Hm3 by (apply elem_of_app; by right).
    rewrite Hm2 by (apply elem_of_app; by right). apply Hm1. apply elem_of_app. by right.
  - by apply (program_space_at lo strampoline elf_data elf s3 ms tr).
  - done.
  - apply (get_cx_page f pg'); [cbn; apply lookup_insert_eq|done|done].
  - rewrite Htf. cbn. by f_equal.
  - exact Hw.
  - cbn in Hav2 |- *. lia.
Qed.

(** ** A process from a process *)
Lemma copy_fds k (l : list (option FileRef)) : ∀ acc,
  (for_ l (λ new_fd_table fd, match fd with
    | Some file => mret (new_fd_table ++ [Some file])
    | None => mret (new_fd_table ++ [None])
    end) acc : K _) k = Ok (k, acc ++ l).
Proof.
  induction l as [|fd l IH]; intros acc; cbn [for_]; [by rewrite app_nil_r|].
  erewrite bind_ok; [|by destruct fd]. rewrite (IH (acc ++ [fd])). by rewrite <-app_assoc.
Qed.

(** A process: its control block, its page of the trap context, the context in it. *)
Record process_at k (t : nat) (i : TaskControlBlockInner) (tr : gmap Z Z) (ta : MapArea) (cx : TrapContext) : Prop := {
  pr_inner : inner_of k t = Some i;
  pr_area : ta ∈ areas (memory_set i) ∧ floor TRAP_CONTEXT ∈ area_pages ta;
  pr_page : pte_ppn <$> tr !! page_key (floor TRAP_CONTEXT) = Some (trap_cx_ppn i);
  pr_cx : get_cx (trap_cx_ppn i) (k_mm k) = Ok (k_mm k, cx);
}.

(** The page of the context is the process's own. *)
Lemma process_page k t i tr ta cx :
  ms_inv lo (k_mm k) (memory_set i) tr → map_type ta = Framed → process_at k t i tr ta cx →
  ∃ pg, trap_cx_ppn i ∈ concat (area_frames <$> areas (memory_set i)) ∧ mem (k_mm k) !! trap_cx_ppn i = Some pg ∧
    length pg = 4096%nat ∧ cx_page cx pg ∧ cx_ok cx.
Proof.
  intros Hi Hty [_ [Hta Htv] Htp Hcx].
  destruct (area_va lo (k_mm k) (memory_set i) tr ta TRAP_CONTEXT Hi Hta Hty Htv) as (f & pg & Hf & Htf & Hpf & Hmf & Hl).
  rewrite Htf in Htp. cbn in Htp. injection Htp as Htp. rewrite Hpf in Htp. subst f. exists pg.
  rewrite (get_cx_ok _ _ _ Hmf) in Hcx. injection Hcx as <-. split; [|split; [done|split; [done|apply page_cx]]].
  apply elem_of_concat_fmap. exists ta. split; [done|by eapply list_elem_of_lookup_2].
Qed.

(** [trn] has the bytes of [tru], with the same permissions, in frames of its own; the page
    of the trap context may differ. *)
Definition same_memory (m : gmap Z page) (user : MemorySet) (tru trn : gmap Z Z) : Prop :=
  ∀ a va, a ∈ areas user → floor va ∈ area_pages a →
    ∃ f g, tru !! page_key (floor va) = Some (area_pte a f) ∧ trn !! page_key (floor va) = Some (area_pte a g) ∧ f ≠ g ∧
      (floor va ≠ floor TRAP_CONTEXT → user_byte m trn va = user_byte m tru va ∧ is_Some (user_byte m tru va)).

(** The child's context is written: nothing else of the copy changes. *)
Lemma same_memory_write s user tru new trn (F : Forall (λ a, map_type a = Framed) (areas user)) ta g pg' :
  ms_inv lo s user tru → ms_inv lo s new trn → (∀ p, p ∈ owned user → p ∉ owned new) →
  Forall2 (same_area s) (areas user) (areas new) → ta ∈ areas user → floor TRAP_CONTEXT ∈ area_pages ta →
  trn !! page_key (floor TRAP_CONTEXT) = Some (area_pte ta g) → pte_ppn (area_pte ta g) = g →
  same_memory (<[g := pg']> (mem s)) user tru trn.
Proof.
  intros Hu Hn Hdj Hf2 Hta Htv Htg Hpg a va Ha Hva.
  destruct (fork_pages lo user tru s new trn a va Hu Hn F Hf2 Ha Hva)
    as (f1 & g1 & pg & a1 & Ha1 & _ & Hva1 & Hfr1 & H1 & H2 & Hp1 & Hp2 & Hm1 & Hm2 & Hl & Ho).
  destruct (fork_pages lo user tru s new trn ta TRAP_CONTEXT Hu Hn F Hf2 Hta Htv)
    as (f2 & g2 & pg2 & a2 & Ha2 & _ & Hva2 & Hfr2 & H3 & H4 & Hp3 & Hp4 & _).
  rewrite Htg in H4. injection H4 as H4. assert (g2 = g) as -> by (rewrite <-Hp4, <-Hpg; congruence).
  assert (∀ a' n g', a' ∈ areas new → area_frames a' !! n = Some g' → g' ∈ owned new) as Hown.
  { intros a' n g' Ha' Hg'. unfold owned. rewrite elem_of_app. right. apply elem_of_concat_fmap. exists a'. split; [done|].
    by eapply list_elem_of_lookup_2. }
  pose proof (Hown _ _ _ Ha1 Hfr1) as Hog1. pose proof (Hown _ _ _ Ha2 Hfr2) as Hog.
  exists f1, g1. split; [done|]. split; [done|]. split; [intros ->; by apply (Hdj g1)|]. intros Hne.
  destruct (lookup_lt_is_Some_2 pg (Z.to_nat (va mod 4096))) as [b Hb]; [lia|].
  assert (user_byte (<[g := pg']> (mem s)) tru va = Some b) as Hu1.
  { rewrite (user_byte_page _ _ _ _ pg H1); [done|]. rewrite Hp1, lookup_insert_ne; [done|]. intros ->. by apply (Hdj f1). }
  assert (user_byte (<[g := pg']> (mem s)) trn va = Some b) as Hu2.
  { rewrite (user_byte_page _ _ _ _ pg H2); [done|]. rewrite Hp2, lookup_insert_ne; [done|]. intros <-.
    apply Hne, (area_va_inj lo s new trn a1 a2 va TRAP_CONTEXT g); done. }
  rewrite Hu1, Hu2. eauto.
Qed.

Lemma same_areas_step s s' l l' :
  (∀ p, p ∈ concat (area_frames <$> l) → mem s' !! p = mem s !! p) →
  (∀ p, p ∈ concat (area_frames <$> l') → mem s' !! p = mem s !! p) →
  Forall2 (same_area s) l l' → Forall2 (same_area s') l l'.
Proof.
  intros H1 H2 Hf. induction Hf as [|a a' l l' Ha Hf IH]; [constructor|]. cbn [fmap list_fmap concat] in *.
  setoid_rewrite elem_of_app in H1. setoid_rewrite elem_of_app in H2. constructor; [|by apply IH; auto].
  eapply same_area_step; [..|exact Ha]; auto.
Qed.

Lemma area_frames_owned ms p : p ∈ concat (area_frames <$> areas ms) → p ∈ owned ms.
Proof. intros Hp. unfold owned. rewrite elem_of_app. by right. Qed.

Lemma run_fork k trk l t i tru ta cx :
  platform_ok → kspaces_ok k trk ((memory_set i, tru) :: l) → process_at k t i tru ta cx →
  fork_ok (k_mm k) (memory_set i) strampoline → (9 + 3 * npages (areas (memory_set i)) ≤ avail (frame_allocator (k_mm k)))%nat →
  pid_current (PID_ALLOCATOR k) < MAX_PID → tcbs k !! next_tcb k = None →
  ∃ pid pa s ksp trk' ms tr g pg,
    let child := mkTcb pid (cell_new (new_inner g (base_size i) (get_top pid) ms (Some t) (fd_table i))) in
    let k' s := set_mm s (put_inner t (with_children (children i ++ [next_tcb k]) i) (add_tcb child (set_kernel_space ksp (set_pids pa k)))) in
    fork t k = Ok (k' s, next_tcb k) ∧ stack_made k pid (k' s) trk' ∧
    tr !! page_key (floor TRAP_CONTEXT) = Some (area_pte ta g) ∧ mem s !! g = Some pg ∧ length pg = 4096%nat ∧
    cx_page (with_kernel_sp (get_top pid) cx) pg ∧ cx_ok (with_kernel_sp (get_top pid) cx) ∧
    ∀ pg', length pg' = 4096%nat → let s' := with_mem (<[g := pg']> (mem s)) s in
      kspaces_ok (k' s') trk' ((ms, tr) :: (memory_set i, tru) :: l) ∧ same_memory (mem s') (memory_set i) tru tr ∧
      ∀ p, p ∈ all_owned ((memory_set i, tru) :: l) → mem s' !! p = mem (k_mm k) !! p.
Proof.
  intros Hpl [Hsp Hkeys Hpids] [Hi [Hta Htv] Htp Hcx] [Hty Htk Hst _] Hav Hmax Hnone. set (user := memory_set i) in *.
  pose proof Hsp as (_ & (Hu & _ & _)%spaces_cons & _)%spaces_cons.
  destruct (run_from_existed_user lo (k_mm k) user tru strampoline Hu Hty Htk Hst ltac:(lia))
    as (s1 & ms & tr & Hr1 & Hn1 & Hu1 & Hs1 & Hf2 & _ & Hmu & Hlen).
  pose proof (step_avail _ _ _ _ _ Hs1) as Hav1. cbn [length] in Hav1.
  destruct (spaces_new _ _ _ _ _ _ Hsp Hs1 Hn1) as [Hsp1 Hm1].
  destruct (fork_pages lo user tru s1 ms tr ta TRAP_CONTEXT Hu1 Hn1 Hty Hf2 Hta Htv)
    as (f & g & pg & a' & Ha' & _ & _ & Hgf & Htf & Htg & Hpf & Hpg & Hmf & Hmg & Hlg & Hfo).
  rewrite Htf in Htp. cbn in Htp. injection Htp as Htp. rewrite Hpf in Htp. rewrite <-Htp in *. clear Htp.
  pose proof Hi as [pt Ht]%inner_of_Some. set (kl := set_tcbs (<[t := mkTcb pt (mkCell i true)]> (tcbs k)) k).
  assert (lock t k = kl) as Hlock by (unfold lock; by rewrite Ht).
  destruct (run_new_stack (set_mm s1 kl) trk ((ms, tr) :: (user, tru) :: l))
    as (pa & pid & s2 & ksp & trk' & Hp2 & Hr2 & Hst2 & [Hsp2 Hkeys2 Hpids2] & Hm2 & Hav2);
    [split; [eapply spaces_perm; [|exact Hsp1]; constructor|done|done]|done|cbn [k_mm set_mm]; lia|].
  set (k2 := set_kernel_space ksp (set_mm s2 (set_pids pa (set_mm s1 kl)))) in *. cbn [k_mm set_mm] in Hm2, Hav2.
  assert (∀ p, p ∈ owned ms → mem s2 !! p = mem s1 !! p) as Hm2n.
  { intros p Hp. apply Hm2, (all_owned_elem _ (ms, tr)); [by left|done]. }
  assert (∀ p, p ∈ owned user → mem s2 !! p = mem s1 !! p) as Hm2u.
  { intros p Hp. apply Hm2, (all_owned_elem _ (user, tru)); [by right; left|done]. }
  apply (spaces_perm _ _ _ ((ms, tr) :: (ksp, trk') :: (user, tru) :: l)) in Hsp2; [|constructor].
  pose proof Hsp2 as (Hn2 & (_ & (Hu2 & _ & _)%spaces_cons & _)%spaces_cons & Hdj2)%spaces_cons.
  apply (same_areas_step s1 s2) in Hf2; [|intros p Hp; by apply Hm2u, area_frames_owned|intros p Hp; by apply Hm2n, area_frames_owned].
  assert (g ∈ concat (area_frames <$> areas ms)) as Hgin by (apply elem_of_concat_fmap; exists a'; split; [done|by eapply list_elem_of_lookup_2]).
  assert (mem s2 !! g = Some pg) as Hmg2 by (rewrite Hm2n by (by apply area_frames_owned); done).
  assert (mem (k_mm k) !! f = Some pg) as Hmf0 by (rewrite <-(Hmu _ Hfo); done).
  destruct (page_cx pg) as [Hcp Hcok]. rewrite (get_cx_ok _ _ _ Hmf0) in Hcx. injection Hcx as Hcx. rewrite Hcx in Hcp, Hcok.
  set (cx' := with_kernel_sp (get_top pid) cx) in *.
  assert (cx_ok cx') as Hcok' by (apply cx_ok_kernel_sp; [done|by apply top_u64; apply Hst2]).
  destruct (set_cx_ok g pg s2 cx' Hmg2 Hlg Hcok') as (pg3 & Hset & Hpg3 & Hl3 & _).
  exists pid, pa, (with_mem (<[g := pg3]> (mem s2)) s2), ksp, trk', ms, tr, g, pg3. cbn zeta.
  set (child := mkTcb pid _). set (parent := with_children _ i).
  assert (t ≠ next_tcb k) as Hne by congruence.
  assert (∀ s3, put_inner t parent (set_mm s3 (add_tcb child k2)) =
    set_mm s3 (put_inner t parent (add_tcb child (set_kernel_space ksp (set_pids pa k))))) as Hput.
  { intros s3. unfold put_inner, k2, kl. cbn [tcbs set_mm add_tcb set_kernel_space set_pids set_tcbs next_tcb].
    rewrite !(lookup_insert_ne _ (next_tcb k) t) by done. rewrite lookup_insert_eq, Ht. cbn [tcb_pid].
    unfold set_tcbs, set_mm. cbn. f_equal. rewrite !(insert_insert_ne _ (next_tcb k) t) by done. by rewrite insert_insert_eq. }
  split; [|split; [|split; [done|split; [by cbn; rewrite lookup_insert_eq|split; [done|split; [done|split; [done|]]]]]]].
  - rewrite <-Hput. unfold fork. erewrite bind_ok by (apply borrow_ok; exact Hi). rewrite Hlock. fold user.
    erewrite bind_ok by (apply (zoom_ok k_mm set_mm); exact Hr1).
    erewrite bind_ok by (eapply trap_cx_page_of_ok; [exact Hn1|exact Htg]). rewrite Hpg. run Hp2. run Hr2.
    run (copy_fds k2 (fd_table i) []). cbn [app]. erewrite bind_ok by reflexivity. fold child. cbn [next_tcb].
    erewrite bind_ok by (apply read_inner_ok, inner_of_Some; exists pid; cbn; by rewrite lookup_insert_eq).
    cbn [trap_cx_ppn new_inner]. erewrite bind_ok by (apply (zoom_ok k_mm set_mm); apply (get_cx_page g pg); [exact Hmg2|exact Hcp|exact Hcok]).
    erewrite bind_ok by (apply (zoom_ok k_mm set_mm); exact Hset).
    erewrite bind_ok; [done|]. apply release_ok. cbn. rewrite lookup_insert_ne, lookup_insert_eq by done. eauto.
  - destruct Hst2. split; cbn [PID_ALLOCATOR KERNEL_SPACE set_mm]; rewrite ?put_inner_pids, ?put_inner_kernel_space; done.
  - intros pg' Hl'. cbn [mem with_mem]. rewrite insert_insert_eq.
    pose proof (ms_inv_write lo s2 ms tr g pg' Hn2 Hgin Hl') as Hn3.
    destruct (spaces_write _ _ _ _ _ g pg' Hsp2 ltac:(by apply area_frames_owned) Hl' Hn3) as [Hsp3 Hm3].
    split; [|split].
    + apply (kspaces_ext (set_mm (with_mem (<[g := pg']> (mem s2)) s2) k2)); [done|..].
      * cbn. by rewrite put_inner_kernel_space.
      * cbn. by rewrite put_inner_pids.
      * split; [eapply spaces_perm; [|exact Hsp3]; constructor|done|done].
    + apply (same_memory_write s2 user tru ms tr Hty ta g); try done.
      intros p Hp Hp'. apply (Hdj2 p Hp'). apply (all_owned_elem _ (user, tru)); [by right; left|done].
    + intros p Hp. rewrite Hm3 by (apply elem_of_app; by right). rewrite Hm2 by (apply elem_of_app; by right).
      apply Hm1, elem_of_app. by right.
Qed.
End kernel_spaces.
