(* ===== verification/Virtio.v ===== *)
(** * The block device driver ([os/src/drivers/block])

    The driver of the disk is the crate [virtio_drivers]; the kernel gives it memory
    for its queues ([virtio_dma_alloc], [virtio_dma_dealloc]), tells it physical
    addresses ([virtio_virt_to_phys]) and wraps it as a [BlockDevice].  [VirtIOBlk]
    states what is relied on of the crate: a disk of blocks of 512 bytes. *)

From S2P Require Import Prelude Bytes BlockCache Address FrameAlloc PageTable UserBuf MemorySet Context Pid Kernel Task.

Definition VIRTIO0 : Z := 0x10001000.

(** ** Memory for the driver *)
Section dma.
Context {D : Type} `{BlockDevice D} `{Platform}.
Notation K := (K D).

(** One turn of the loop. *)
Definition dma_page (ppn_base i : Z) : K Z :=
  r ← on_mm frame_alloc; frame ← unwrap r;
  let ppn_base := if i =? 0 then frame else ppn_base in
  assert_ (frame =? wrap64 (ppn_base + i));;
  modify (λ k, set_queue_frames (QUEUE_FRAMES k ++ [frame]) k);;
  mret ppn_base.

Definition virtio_dma_alloc (pages : Z) : K Z :=
  ppn_base ← for_ (range 0 pages) dma_page 0;
  mret (addr_of_page ppn_base).

Definition virtio_dma_dealloc (pa pages : Z) : K Z :=
  ppn_base ← on_res (page_of_addr pa);
  for_ (range 0 pages) (λ ppn_base _, on_mm (frame_dealloc ppn_base);; mret (step ppn_base)) ppn_base;;
  mret 0.

Definition virtio_phys_to_virt (paddr : Z) : Z := paddr.

Definition virtio_virt_to_phys (vaddr : Z) : K Z :=
  token ← kernel_token;
  r ← on_mm (translate_va vaddr (from_token token));
  unwrap r.

(** [VirtIOBlk::new]: the memory it asks for *)
Definition virtio_new : K unit := for_ virtio_queues (λ _ pages, _ ← virtio_dma_alloc pages; mret tt) tt.

(** ** The frames of the driver

    [virtio_dma_alloc] needs consecutive frames and takes them one by one, so that it
    relies on the allocator having had no frame back. *)
Lemma dma_loop_ok lo n : ∀ (k : kernel D) base i,
  let c := current (frame_allocator (k_mm k)) in
  mm_ok lo (k_mm k) → recycled (frame_allocator (k_mm k)) = [] → owns lo (k_mm k) (QUEUE_FRAMES k) →
  0 ≤ i → i = 0 ∨ base + i = c → (n ≤ avail (frame_allocator (k_mm k)))%nat →
  ∃ s, for_ (range i (i + Z.of_nat n)) dma_page base k =
      Ok (set_queue_frames (QUEUE_FRAMES k ++ range c (c + Z.of_nat n)) (set_mm s k), if n then base else c - i) ∧
    mm_step lo (k_mm k) (QUEUE_FRAMES k) s (QUEUE_FRAMES k ++ range c (c + Z.of_nat n)) ∧
    recycled (frame_allocator s) = [] ∧ current (frame_allocator s) = c + Z.of_nat n.
Proof.
  induction n as [|n IH]; intros k base i c Hmm Hrec Ho Hi Hb Hav.
  { rewrite !range_nil, app_nil_r by lia. exists (k_mm k). split; [by destruct k|].
    split; [by apply mm_step_refl|]. split; [done|unfold c; lia]. }
  rewrite (range_cons i), (range_cons c) by lia. cbn [for_].
  destruct (frame_alloc_step lo (k_mm k) (QUEUE_FRAMES k) Hmm Ho) as (s1 & f & Hr & Hs1 & _ & _ & _); [lia|].
  pose proof (fa_range _ _ (mm_fa _ _ Hmm)) as Hrg. rewrite (frame_alloc_next lo _ Hmm Hrec) in Hr. cbn zeta in Hr. fold c in Hr, Hrg.
  destruct (Z.eqb_spec c (end_ (frame_allocator (k_mm k)))) as [|Hne]; [done|]. injection Hr as Hs1' <-.
  set (k1 := set_queue_frames (QUEUE_FRAMES k ++ [c]) (set_mm s1 k)).
  assert (dma_page base i k = Ok (k1, c - i)) as Hpage.
  { unfold dma_page. erewrite bind_ok.
    2:{ apply (zoom_ok k_mm set_mm). rewrite (frame_alloc_next lo _ Hmm Hrec). cbn zeta. fold c. by rewrite (proj2 (Z.eqb_neq _ _) Hne). }
    erewrite bind_ok by apply unwrap_some. rewrite Hs1'. cbn zeta.
    replace (if i =? 0 then c else base) with (c - i) by (destruct (Z.eqb_spec i 0); lia).
    erewrite bind_ok; [|apply assert_true, Z.eqb_eq; replace (c - i + i) with c by lia; rewrite wrap64_small; [done|unfold is_u64; lia]].
    done. }
  run Hpage. pose proof (mm_step_perm _ _ _ _ _ (QUEUE_FRAMES k ++ [c]) (Permutation_cons_append _ _) Hs1) as Hs1q.
  pose proof (step_avail _ _ _ _ _ Hs1) as Hav1. cbn [length] in Hav1.
  destruct (IH k1 (c - i) (i + 1)) as (s2 & Hr2 & Hs2 & Hrec2 & Hc2); try (subst k1 s1; cbn; done || lia).
  { apply Hs1. }
  { apply Hs1q. }
  { change (k_mm k1) with s1. lia. }
  subst s1. cbn in Hr2, Hs2, Hc2. rewrite <-app_assoc in Hr2, Hs2. cbn [app] in Hr2, Hs2.
  replace (i + 1 + Z.of_nat n) with (i + Z.of_nat (S n)) in Hr2 by lia.
  replace (c + 1 + Z.of_nat n) with (c + Z.of_nat (S n)) in * by lia.
  exists s2. split; [|split; [by eapply mm_step_trans|done]].
  rewrite Hr2. destruct n; [|replace (c + 1 - (i + 1)) with (c - i) by lia]; by destruct k.
Qed.

Lemma virtio_dma_alloc_ok lo (k : kernel D) pages :
  let c := current (frame_allocator (k_mm k)) in
  mm_ok lo (k_mm k) → recycled (frame_allocator (k_mm k)) = [] → owns lo (k_mm k) (QUEUE_FRAMES k) →
  0 ≤ pages ≤ Z.of_nat (avail (frame_allocator (k_mm k))) →
  ∃ s, virtio_dma_alloc pages k =
      Ok (set_queue_frames (QUEUE_FRAMES k ++ range c (c + pages)) (set_mm s k), if pages =? 0 then 0 else c * 4096) ∧
    mm_step lo (k_mm k) (QUEUE_FRAMES k) s (QUEUE_FRAMES k ++ range c (c + pages)) ∧ recycled (frame_allocator s) = [].
Proof.
  intros c Hmm Hrec Ho Hp. destruct (dma_loop_ok lo (Z.to_nat pages) k 0 0) as (s & Hr & Hs & Hrec' & _); try done; [by left|lia|].
  fold c in Hr, Hs. rewrite Z2Nat.id, Z.add_0_l in Hr by lia. rewrite Z2Nat.id in Hs by lia. exists s. split; [|done].
  unfold virtio_dma_alloc. run Hr. destruct (Z.eqb_spec pages 0) as [->|]; [done|].
  destruct (Z.to_nat pages) eqn:En; [lia|]. pose proof (fa_range _ _ (mm_fa _ _ Hmm)) as Hrg. fold c in Hrg.
  rewrite Z.sub_0_r, addr_of_page_mul; [done|lia].
Qed.

Lemma virtio_new_ok lo (k : kernel D) :
  mm_ok lo (k_mm k) → recycled (frame_allocator (k_mm k)) = [] → owns lo (k_mm k) (QUEUE_FRAMES k) →
  Forall (λ n, 0 ≤ n) virtio_queues → foldr Z.add 0 virtio_queues ≤ Z.of_nat (avail (frame_allocator (k_mm k))) →
  ∃ s fs, virtio_new k = Ok (set_queue_frames (QUEUE_FRAMES k ++ fs) (set_mm s k), tt) ∧
    mm_step lo (k_mm k) (QUEUE_FRAMES k) s (QUEUE_FRAMES k ++ fs) ∧
    Z.of_nat (length fs) = foldr Z.add 0 virtio_queues ∧ recycled (frame_allocator s) = [].
Proof.
  unfold virtio_new. generalize virtio_queues. intros l. revert k. induction l as [|n l IH]; intros k Hmm Hrec Ho Hn Hav.
  { exists (k_mm k), []. rewrite app_nil_r. split; [by destruct k|]. split; [by apply mm_step_refl|done]. }
  apply Forall_cons in Hn as [Hn Hl]. cbn [foldr] in Hav.
  assert (0 ≤ foldr Z.add 0 l) as Hpos by (clear -Hl; induction Hl; cbn; lia).
  destruct (virtio_dma_alloc_ok lo k n Hmm Hrec Ho) as (s1 & Hr1 & Hs1 & Hrec1); [lia|]. set (f1 := range _ _) in *.
  assert (length f1 = Z.to_nat n) as Hl1 by (unfold f1, range; rewrite length_seqZ; lia).
  pose proof (step_avail _ _ _ _ _ Hs1) as Hav1. rewrite length_app in Hav1.
  destruct (IH (set_queue_frames (QUEUE_FRAMES k ++ f1) (set_mm s1 k))) as (s2 & fs & Hr2 & Hs2 & Hl2 & Hrec2);
    [apply Hs1|done|apply Hs1|done|cbn; lia|]. cbn in Hr2, Hs2. rewrite <-app_assoc in Hr2, Hs2.
  exists s2, (f1 ++ fs). cbn [for_]. erewrite bind_ok by (by erewrite bind_ok by exact Hr1).
  split; [rewrite Hr2; by destruct k|]. split; [by eapply mm_step_trans|]. split; [rewrite length_app; cbn; lia|done].
Qed.
End dma.

(** ** The device *)

(** [VirtIOBlk]: reading and writing a block, [None] for an error *)
Class VirtIOBlk (V : Type) := {
  blk_read : V → Z → option block;
  blk_write : V → Z → block → option V;
}.

(** [expect] *)
Definition expect {A} (o : option A) : res A := match o with Some a => Ok a | None => Err UnwrapNone end.

Record VirtIOBlock (V : Type) := mkVirtIOBlock { virtio_blk : V }.
Arguments mkVirtIOBlock {V} virtio_blk.
Arguments virtio_blk {V} v.

Definition virtio_read_block {V} `{VirtIOBlk V} (d : VirtIOBlock V) (block_id : Z) : res block :=
  expect (blk_read (virtio_blk d) block_id).

Definition virtio_write_block {V} `{VirtIOBlk V} (d : VirtIOBlock V) (block_id : Z) (buf : block) : res (VirtIOBlock V) :=
  v ← expect (blk_write (virtio_blk d) block_id buf); mret (mkVirtIOBlock v).

#[export] Instance VirtIOBlock_device {V} `{VirtIOBlk V} : BlockDevice (VirtIOBlock V) := {|
  read_block := virtio_read_block;
  write_block := virtio_write_block;
|}.

(** [block_device_test] *)
Definition block_device_test {D} `{BlockDevice D} (d : D) : res D :=
  foldl (λ r i,
    d ← r;
    let write_buffer := replicate 512 (byte.of_Z (wrap8 i)) in
    d ← write_block d i write_buffer;
    read_buffer ← read_block d i;
    if bool_decide (write_buffer = read_buffer) then mret d else mthrow AssertFailed) (mret d) (range 0 512).

(** What the kernel relies on: the disk is an array of blocks, reading gives what was
    written, and other blocks keep their contents. *)
Class VirtIOBlkOk (V : Type) `{VirtIOBlk V} := {
  blk_blocks : V → gmap Z block;
  blk_blocks_length : ∀ v i b, blk_blocks v !! i = Some b → length b = 512%nat;
  blk_read_spec : ∀ v i, blk_read v i = blk_blocks v !! i;
  blk_write_spec : ∀ v i b, is_Some (blk_blocks v !! i) → length b = 512%nat →
    ∃ v', blk_write v i b = Some v' ∧ blk_blocks v' = <[i := b]> (blk_blocks v);
}.

(** Then the wrapper is a device as the block cache needs it. *)
#[export] Instance VirtIOBlock_device_ok {V} `{VirtIOBlkOk V} : BlockDeviceOk (VirtIOBlock V).
Proof.
  refine {| blocks := λ d, blk_blocks (virtio_blk d); absent := UnwrapNone |}.
  - intros d i b. apply blk_blocks_length.
  - intros d i. cbn. unfold virtio_read_block. rewrite blk_read_spec. by destruct (blk_blocks (virtio_blk d) !! i).
  - intros d i b Hi Hb. destruct (blk_write_spec (virtio_blk d) i b Hi Hb) as (v' & Hw & Hv'). exists (mkVirtIOBlock v').
    split; [|done]. cbn. unfold virtio_write_block. by rewrite Hw.
Defined.
