(* ===== verification/Manager.v ===== *)
(** * The scheduler ([os/src/task/manager.rs])

    [TaskManager] keeps the handles of the tasks that are ready; [fetch] takes out
    the one with the smallest stride, the first of them when there are several,
    and advances its stride by [BIG_STRIDE / priority].

    [fetch] is shown equal to a search for the first minimum; then, as long as
    strides do not wrap around and no priority exceeds [BIG_STRIDE], every task in
    the queue is fetched within a number of rounds that is given explicitly.  A
    priority above [BIG_STRIDE], which [sys_set_priority] accepts, makes the
    advance zero, and the other tasks are never fetched again. *)

From S2P Require Import Prelude Bytes BlockCache Bitmap Efs Address FrameAlloc PageTable UserBuf MemorySet Context Pid Kernel Task.

Section manager.
Context {D : Type}.
Notation K := (K D).

(** Add process back to ready queue *)
Definition add (t : nat) : K unit := modify (λ k, set_queue (ready_queue k ++ [t]) k).

(** The loop of [fetch]: [st] is [(idx, res, min_stride)]. *)
Definition fetch_body (st : nat * nat * Z) (task : nat) : K (nat * nat * Z) :=
  let '(idx, res, min_stride) := st in
  stride ← read_inner task task_stride;
  if stride <? min_stride then
    min_stride ← read_inner task task_stride;
    mret (S idx, idx, min_stride)
  else mret (S idx, res, min_stride).

(** Take a process out of the ready queue; an empty queue is an index out of range. *)
Definition fetch : K (option nat) :=
  queue ← gets ready_queue;
  '(_, res, _) ← for_ queue fetch_body (0%nat, 0%nat, 0xffff_ffff_ffff_ffff);
  task ← index queue (Z.of_nat res);
  inner ← borrow task;
  inner ← on_res (update_stride inner);
  release task inner;;
  modify (set_queue (remove_nth res queue));;
  mret (Some task).

Definition add_task (t : nat) : K unit := add t.
Definition fetch_task : K (option nat) := fetch.
End manager.

(** ** [fetch] finds the first minimum *)

(** The first element that is not above any other. *)
Definition first_min (l : list Z) : option nat :=
  fst <$> find_idx (λ v, forallb (λ w, v <=? w) l) l.

Lemma first_min_Some l n :
  first_min l = Some n ↔
  ∃ v, l !! n = Some v ∧ (∀ w, w ∈ l → v ≤ w) ∧ ∀ j w, (j < n)%nat → l !! j = Some w → v < w.
Proof.
  unfold first_min. rewrite fmap_Some. split.
  - intros ([j v] & Hf & ->). apply find_idx_Some in Hf as (Hj & Hv & Hmin). cbn [fst]. exists v. split; [done|].
    assert (∀ w, w ∈ l → v ≤ w) as Hle.
    { intros w Hw. rewrite forallb_forall in Hv. apply Z.leb_le, Hv. by apply list_elem_of_In. }
    split; [done|]. intros i w Hi Hw. specialize (Hmin i w Hi Hw).
    apply Z.lt_nge. intros Hge. assert (forallb (λ w0, w <=? w0) l = true); [|congruence].
    apply forallb_forall. intros w0 Hw0. apply Z.leb_le. apply list_elem_of_In in Hw0. specialize (Hle _ Hw0). lia.
  - intros (v & Hv & Hle & Hlt). exists (n, v). split; [|done]. apply find_idx_Some. split; [done|]. split.
    + apply forallb_forall. intros w Hw. apply Z.leb_le, Hle. by apply list_elem_of_In.
    + intros j w Hj Hw. apply not_true_iff_false. rewrite forallb_forall. intros Hall.
      specialize (Hall v). rewrite Z.leb_le in Hall. specialize (Hlt j w Hj Hw).
      assert (In v l) as Hin by (apply list_elem_of_In; by eapply list_elem_of_lookup_2). specialize (Hall Hin). lia.
Qed.

Section fetch.
Context {D : Type}.
Implicit Types (k : kernel D).

(** The tasks of the queue can be accessed, and their strides and priorities are. *)
Definition ready_ok k (t : nat) : Prop :=
  ∃ i, inner_of k t = Some i ∧ is_u64 (task_stride i) ∧ 0 < task_priority i.

Definition stride_of k (t : nat) : Z := match inner_of k t with Some i => task_stride i | None => 0 end.
Definition pass_of k (t : nat) : Z :=
  match inner_of k t with Some i => BIG_STRIDE / task_priority i | None => 0 end.

(** [res] is the first minimum of [l], with [m] its value, where the search begins with
    the largest value of a [usize]. *)
Definition best (l : list Z) (res : nat) (m : Z) : Prop :=
  (∀ w, w ∈ l → m ≤ w) ∧ (∀ j w, (j < res)%nat → l !! j = Some w → m < w) ∧
  (l !! res = Some m ∨ res = 0%nat ∧ m = 2 ^ 64 - 1).

Lemma best_step l res m v :
  best l res m → v ≤ 2 ^ 64 - 1 →
  if v <? m then best (l ++ [v]) (length l) v else best (l ++ [v]) res m.
Proof.
  intros (Hle & Hlt & Hres) Hv. destruct (Z.ltb_spec v m) as [Hvm|Hvm].
  - split; [|split].
    + intros w. rewrite elem_of_app, list_elem_of_singleton. intros [Hw| ->]; [|lia]. specialize (Hle w Hw). lia.
    + intros j w Hj Hw. rewrite lookup_app_l in Hw by done. specialize (Hle w (list_elem_of_lookup_2 _ _ _ Hw)). lia.
    + left. rewrite lookup_app_r by lia. by rewrite Nat.sub_diag.
  - split; [|split].
    + intros w. rewrite elem_of_app, list_elem_of_singleton. intros [Hw| ->]; [by apply Hle|lia].
    + intros j w Hj Hw. destruct (decide (j < length l)%nat); [rewrite lookup_app_l in Hw by done; eauto|].
      destruct Hres as [Hres|[-> _]]; [apply lookup_lt_Some in Hres|]; lia.
    + destruct Hres as [Hres|Hres]; [left; by apply lookup_app_l_Some|by right].
Qed.

Lemma best_first l res m :
  best l res m → l ≠ [] → Forall (λ v, v ≤ 2 ^ 64 - 1) l → first_min l = Some res.
Proof.
  intros (Hle & Hlt & Hres) Hne Hall. apply first_min_Some. destruct Hres as [Hres|[-> ->]].
  - exists m. done.
  - destruct l as [|v l]; [done|]. exists v. apply Forall_cons in Hall as [Hv _].
    split; [done|]. split; [|lia]. intros w Hw. specialize (Hle w Hw). lia.
Qed.

Lemma fetch_body_ok k t i idx res m :
  inner_of k t = Some i →
  fetch_body (idx, res, m) t k =
    Ok (k, if task_stride i <? m then (S idx, idx, task_stride i) else (S idx, res, m)).
Proof.
  intros Hi. unfold fetch_body. erewrite bind_ok by (by apply read_inner_ok).
  destruct (task_stride i <? m); [|done]. by erewrite bind_ok by (by apply read_inner_ok).
Qed.

Lemma fetch_loop k l : ∀ pre res m,
  Forall (ready_ok k) l → best (stride_of k <$> pre) res m →
  ∃ res' m', for_ l fetch_body (length pre, res, m) k = Ok (k, (length (pre ++ l), res', m')) ∧
    best (stride_of k <$> pre ++ l) res' m'.
Proof.
  induction l as [|t l IH]; intros pre res m Hl Hb.
  { exists res, m. rewrite app_nil_r. done. }
  apply Forall_cons in Hl as [(i & Hi & Hu & _) Hl]. cbn [for_].
  assert (stride_of k t = task_stride i) as Hs by (unfold stride_of; by rewrite Hi).
  pose proof (best_step _ _ _ (stride_of k t) Hb ltac:(rewrite Hs; unfold is_u64 in Hu; lia)) as Hb'.
  change ([stride_of k t]) with (stride_of k <$> [t]) in Hb'. rewrite <-fmap_app, length_fmap in Hb'.
  rewrite (cons_middle t pre l), app_assoc. rewrite (bind_ok _ _ _ _ _ (fetch_body_ok k t i _ _ _ Hi)), <-Hs.
  replace (S (length pre)) with (length (pre ++ [t])) by (rewrite length_app; simpl; lia).
  destruct (stride_of k t <? m); [apply (IH (pre ++ [t]) (length pre) (stride_of k t) Hl Hb')|apply (IH (pre ++ [t]) res m Hl Hb')].
Qed.

(** What [fetch] leaves behind. *)
Definition fetched k (n t : nat) (i : TaskControlBlockInner) : kernel D :=
  set_queue (remove_nth n (ready_queue k))
    (put_inner t (with_stride (wrap64 (task_stride i + BIG_STRIDE / task_priority i)) i) k).

(** The rest of [fetch], after the search. *)
Lemma fetch_take k n t i :
  ready_queue k !! n = Some t → inner_of k t = Some i → 0 < task_priority i →
  (task ← index (ready_queue k) (Z.of_nat n);
   inner ← borrow task;
   inner ← on_res (update_stride inner);
   release task inner;;
   modify (set_queue (remove_nth n (ready_queue k)));;
   mret (Some task)) k = Ok (fetched k n t i, Some t).
Proof.
  intros Ht Hi Hp.
  erewrite bind_ok by (apply index_ok; [lia|by rewrite Nat2Z.id]). run (borrow_ok k t i Hi).
  assert (update_stride i = Ok (with_stride (wrap64 (task_stride i + BIG_STRIDE / task_priority i)) i)) as Hus.
  { unfold update_stride, checked_div. rewrite (proj2 (Z.eqb_neq _ _)) by lia. done. }
  rewrite Hus. erewrite bind_ok by done.
  erewrite bind_ok by (apply release_ok; apply inner_of_Some in Hi as [pid Htc]; unfold lock; rewrite Htc; cbn;
    by rewrite lookup_insert_eq).
  erewrite bind_ok by done. rewrite put_inner_lock. unfold fetched. done.
Qed.

Lemma fetch_spec k :
  Forall (ready_ok k) (ready_queue k) →
  match first_min (stride_of k <$> ready_queue k) with
  | Some n => ∃ t i, ready_queue k !! n = Some t ∧ inner_of k t = Some i ∧ fetch k = Ok (fetched k n t i, Some t)
  | None => ready_queue k = [] ∧ fetch k = Err OutOfBounds
  end.
Proof.
  intros Hq.
  destruct (fetch_loop k (ready_queue k) [] 0 (2 ^ 64 - 1) Hq) as (n & m & Hr & Hb).
  { split; [|split]; [intros w Hw; by apply elem_of_nil in Hw|intros j w Hj; lia|by right]. }
  simpl in Hr, Hb. unfold fetch. erewrite bind_ok by done. change 0xffff_ffff_ffff_ffff with (2 ^ 64 - 1).
  run Hr. destruct (decide (ready_queue k = [])) as [He|Hne].
  { rewrite He. simpl. split; [done|]. rewrite He in Hb. destruct Hb as (_ & _ & [Hx|[-> _]]); done. }
  assert (Forall (λ v, v ≤ 2 ^ 64 - 1) (stride_of k <$> ready_queue k)) as Hall.
  { apply Forall_fmap. eapply Forall_impl; [exact Hq|]. intros t (i & Hi & Hu & _). unfold stride_of. simpl.
    rewrite Hi. unfold is_u64 in Hu. lia. }
  rewrite (best_first _ _ _ Hb); [|by intros ?%fmap_nil_inv|done].
  assert (n < length (ready_queue k))%nat as Hlt.
  { destruct Hb as (_ & _ & [Hx|[-> _]]); [apply lookup_lt_Some in Hx; by rewrite length_fmap in Hx|].
    destruct (ready_queue k); [done|simpl; lia]. }
  destruct (lookup_lt_is_Some_2 (ready_queue k) n Hlt) as [t Ht].
  destruct (proj1 (Forall_forall _ _) Hq t (list_elem_of_lookup_2 _ _ _ Ht)) as (i & Hi & _ & Hp).
  exists t, i. split; [done|]. split; [done|]. by apply fetch_take.
Qed.
End fetch.

(** ** Rounds

    The tasks of the queue run one after the other: each is fetched, runs, and is added
    again when it is suspended. *)
Section rounds.
Context {D : Type}.
Implicit Types (k : kernel D).

Definition round : K D nat := r ← fetch_task; t ← unwrap r; add_task t;; mret t.

Fixpoint rounds (n : nat) : K D (list nat) :=
  match n with
  | O => mret []
  | S n => t ← round; ts ← rounds n; mret (t :: ts)
  end.

(** Tasks that wait, with strides that are at most [L] and priorities that [BIG_STRIDE] can
    be divided by. *)
Record sched_ok (L : Z) k : Prop := {
  so_some : ready_queue k ≠ [];
  so_nodup : NoDup (ready_queue k);
  so_tasks : ∀ t, t ∈ ready_queue k →
    ∃ i, inner_of k t = Some i ∧ 0 ≤ task_stride i ≤ L ∧ 2 ≤ task_priority i ≤ BIG_STRIDE;
}.

Lemma pass_range p : 2 ≤ p ≤ BIG_STRIDE → 1 ≤ BIG_STRIDE / p ≤ BIG_STRIDE / 2.
Proof.
  intros Hp. split.
  - apply Z.div_le_lower_bound; lia.
  - apply Z.div_le_compat_l; unfold BIG_STRIDE; lia.
Qed.

Lemma fmap_lookup_stride k n v :
  (stride_of k <$> ready_queue k) !! n = Some v → ∃ t, ready_queue k !! n = Some t ∧ v = stride_of k t.
Proof. intros (t & -> & Ht)%list_lookup_fmap_Some. eauto. Qed.

(** One round: the task [u] with the smallest stride runs and goes to the end of the queue,
    its stride advanced. *)
Lemma round_ok L k :
  sched_ok L k → L + BIG_STRIDE < 2 ^ 64 →
  ∃ u k', round k = Ok (k', u) ∧ u ∈ ready_queue k ∧ (∀ v, v ∈ ready_queue k → stride_of k u ≤ stride_of k v) ∧
    ready_queue k' ≡ₚ ready_queue k ∧
    (∀ v, stride_of k' v = if decide (v = u) then stride_of k u + pass_of k u else stride_of k v) ∧
    (∀ v, pass_of k' v = pass_of k v) ∧ 1 ≤ pass_of k u ≤ BIG_STRIDE / 2 ∧
    sched_ok (Z.max L (stride_of k u + pass_of k u)) k'.
Proof.
  intros [Hne Hnd Ht] HL. pose proof (fetch_spec k) as Hf.
  destruct (first_min (stride_of k <$> ready_queue k)) as [n|] eqn:Hm.
  2:{ destruct Hf as [He _]; [|done]. apply Forall_forall. intros t (i & Hi & Hs & Hp)%Ht. exists i.
      unfold is_u64. split; [done|]. unfold BIG_STRIDE in *. lia. }
  destruct Hf as (u & i & Hn & Hi & Hr).
  { apply Forall_forall. intros t (j & Hj & Hs & Hp)%Ht. exists j. unfold is_u64, BIG_STRIDE in *. split; [done|]. lia. }
  pose proof (list_elem_of_lookup_2 _ _ _ Hn) as Hu.
  destruct (Ht u Hu) as (i' & Hi' & Hs & Hp). assert (i' = i) as -> by congruence. clear Hi'.
  pose proof (pass_range _ Hp) as Hpass.
  assert (pass_of k u = BIG_STRIDE / task_priority i) as Hpu by (unfold pass_of; by rewrite Hi).
  assert (stride_of k u = task_stride i) as Hsu by (unfold stride_of; by rewrite Hi).
  assert (is_Some (tcbs k !! u)) as Htu by (apply inner_of_Some in Hi as [? ?]; eauto).
  set (i1 := with_stride (wrap64 (task_stride i + BIG_STRIDE / task_priority i)) i) in *.
  assert (task_stride i1 = stride_of k u + pass_of k u) as Hs1.
  { unfold i1. cbn [with_stride task_stride]. rewrite wrap64_small; [lia|]. unfold is_u64.
    assert (BIG_STRIDE / 2 < BIG_STRIDE) by done. lia. }
  exists u, (set_queue (remove_nth n (ready_queue k) ++ [u]) (put_inner u i1 k)).
  assert (∀ v, inner_of (set_queue (remove_nth n (ready_queue k) ++ [u]) (put_inner u i1 k)) v =
    if decide (v = u) then Some i1 else inner_of k v) as Hin by (intros v; by apply inner_of_put).
  assert (remove_nth n (ready_queue k) ++ [u] ≡ₚ ready_queue k) as Hperm.
  { unfold remove_nth. rewrite <-(take_drop_middle _ _ _ Hn) at 3. rewrite <-app_assoc. apply Permutation_app_head.
    by rewrite Permutation_app_comm. }
  split_and!.
  - unfold round, fetch_task. run Hr. erewrite bind_ok by apply unwrap_some. done.
  - done.
  - intros v Hv. apply first_min_Some in Hm as (m & Hmn & Hle & _). apply fmap_lookup_stride in Hmn as (u' & Hu' & ->).
    assert (u' = u) as -> by congruence. apply Hle. by apply list_elem_of_fmap_2.
  - exact Hperm.
  - intros v. unfold stride_of at 1. rewrite Hin. case_decide; [done|]. done.
  - intros v. unfold pass_of. rewrite Hin. case_decide as Hv; [|done]. subst. by rewrite Hi.
  - lia.
  - lia.
  - split.
    + cbn [set_queue ready_queue]. intros Hnil; by apply app_eq_nil in Hnil as [_ ?].
    + cbn [set_queue ready_queue]. by rewrite Hperm.
    + cbn [set_queue ready_queue]. intros v Hv. rewrite Hperm in Hv. rewrite Hin. case_decide as Hvu.
      * exists i1. split; [done|]. rewrite Hs1. split; [lia|]. done.
      * destruct (Ht v Hv) as (j & Hj & ? & ?). exists j. split; [done|]. split; [lia|done].
Qed.

(** ** Every task is fetched *)

(** How far the strides of the others are behind the stride of [t]. *)
Definition behind k (t u : nat) : nat :=
  if decide (u = t) then 0%nat else Z.to_nat (stride_of k t + 1 - stride_of k u).
Definition waiting_time k (t : nat) : nat := sum_list_with (behind k t) (ready_queue k).

Lemma sum_list_lt {A} (f g : A → nat) l x :
  x ∈ l → (f x < g x)%nat → (∀ y, (f y ≤ g y)%nat) → (sum_list_with f l < sum_list_with g l)%nat.
Proof.
  intros Hx Hlt Hle.
  assert (∀ l, sum_list_with f l ≤ sum_list_with g l)%nat as Hl.
  { clear -Hle. intros l. induction l as [|z l IH]; [done|]. simpl. specialize (Hle z). lia. }
  induction l as [|y l IH]; [by apply elem_of_nil in Hx|]. simpl. pose proof (Hle y). pose proof (Hl l).
  apply elem_of_cons in Hx as [->|Hx]; [|specialize (IH Hx)]; lia.
Qed.

Lemma waiting_time_decreases L k t u k' :
  sched_ok L k → t ∈ ready_queue k → u ∈ ready_queue k → u ≠ t → stride_of k u ≤ stride_of k t → 1 ≤ pass_of k u →
  ready_queue k' ≡ₚ ready_queue k →
  (∀ v, stride_of k' v = if decide (v = u) then stride_of k u + pass_of k u else stride_of k v) →
  (waiting_time k' t < waiting_time k t)%nat.
Proof.
  intros Hok Ht Hu Hne Hle Hp Hperm Hs. unfold waiting_time. rewrite Hperm.
  apply (sum_list_lt _ _ _ u Hu); [|intros v]; unfold behind; rewrite !Hs, (decide_False (P := t = u)) by done.
  - rewrite !(decide_False (P := u = t)), decide_True by done. lia.
  - repeat case_decide; subst; lia.
Qed.

Lemma rounds_reach n : ∀ L k t,
  sched_ok L k → t ∈ ready_queue k → stride_of k t + 2 * BIG_STRIDE < 2 ^ 64 → L + BIG_STRIDE < 2 ^ 64 →
  (waiting_time k t ≤ n)%nat →
  ∃ ts k', rounds (length ts) k = Ok (k', ts) ∧ last ts = Some t ∧ (length ts ≤ S n)%nat.
Proof.
  induction n as [n IH] using lt_wf_ind. intros L k t Hok Ht Hs HL Hw.
  destruct (round_ok L k Hok HL) as (u & k1 & Hr & Hu & Hmin & Hperm & Hst & Hpa & Hp & Hok1).
  destruct (decide (u = t)) as [->|Hne].
  { exists [t], k1. split; [|split; [done|simpl; lia]]. cbn [length rounds]. by run Hr. }
  pose proof (waiting_time_decreases L k t u k1 Hok Ht Hu Hne (Hmin t Ht) ltac:(lia) Hperm Hst) as Hdec.
  specialize (Hmin t Ht). assert (BIG_STRIDE / 2 < BIG_STRIDE) by done.
  destruct (IH (pred n) ltac:(lia) _ k1 t Hok1) as (ts & k2 & Hr2 & Hlast & Hlen).
  - by rewrite Hperm.
  - rewrite Hst, decide_False by done. done.
  - lia.
  - lia.
  - exists (u :: ts), k2. split; [|split; [|simpl; lia]].
    + cbn [length rounds]. run Hr. by run Hr2.
    + destruct ts; [done|]. exact Hlast.
Qed.

(** ** Shares

    [runs ts t]: how often [t] ran. *)
Definition runs (ts : list nat) (t : nat) : Z := Z.of_nat (count t ts).

Lemma runs_cons u ts t : runs (u :: ts) t = (if decide (t = u) then 1 else 0) + runs ts t.
Proof. unfold runs, count. rewrite filter_cons. destruct (decide (u = t)), (decide (t = u)); simpl; naive_solver lia. Qed.

Lemma runs_nonneg ts t : 0 ≤ runs ts t.
Proof. unfold runs. lia. Qed.

Lemma pass_nonneg L k t : sched_ok L k → t ∈ ready_queue k → 1 ≤ pass_of k t ≤ BIG_STRIDE / 2.
Proof. intros Hok (i & Hi & _ & Hp)%(so_tasks _ _ Hok). unfold pass_of. rewrite Hi. by apply pass_range. Qed.

(** Strides count the runs, and a task that ran is at most one pass ahead of the others: when it
    ran last it had the smallest stride. *)
Lemma rounds_strides n : ∀ L k,
  sched_ok L k → L + (Z.of_nat n + 1) * BIG_STRIDE < 2 ^ 64 →
  ∃ ts k', rounds n k = Ok (k', ts) ∧ length ts = n ∧
    (∀ v, stride_of k' v = stride_of k v + runs ts v * pass_of k v) ∧
    ∀ u v, u ∈ ready_queue k → v ∈ ready_queue k → runs ts u = 0 ∨ stride_of k' u ≤ stride_of k' v + pass_of k u.
Proof.
  induction n as [|n IH]; intros L k Hok HL.
  { exists [], k. split; [done|]. split; [done|]. split; [intros v; change (runs [] v) with 0; lia|by left]. }
  destruct (round_ok L k Hok) as (x & k1 & Hr & Hx & Hmin & Hperm & Hst & Hpa & Hp & Hok1); [unfold BIG_STRIDE in *; lia|].
  destruct (so_tasks _ _ Hok x Hx) as (i & Hi & Hs & _).
  assert (stride_of k x = task_stride i) as Hsx by (unfold stride_of; by rewrite Hi).
  destruct (IH (L + BIG_STRIDE) k1) as (ts & k2 & Hr2 & Hlen & Hst2 & Hnear).
  - destruct Hok1 as [H1 H2 H3]. split; [done|done|]. intros t Ht. destruct (H3 t Ht) as (j & Hj & Hsj & Hpj).
    exists j. split; [done|]. split; [|done]. assert (BIG_STRIDE / 2 < BIG_STRIDE) by done. lia.
  - lia.
  - exists (x :: ts), k2. split_and!; [|simpl; lia|intros v; rewrite Hst2, Hst, Hpa, runs_cons; case_decide; [subst|]; lia|].
    + cbn [rounds]. run Hr. by run Hr2.
    + intros u v Hu Hv. destruct (Hnear u v) as [Hz|Hle]; [by rewrite Hperm..| |right; by rewrite <-Hpa].
      rewrite runs_cons, Hz. case_decide as Hux; [subst u|by left]. right.
      rewrite !Hst2, Hz, !Hst, decide_True, !Hpa by done. specialize (Hmin v Hv).
      pose proof (runs_nonneg ts v). pose proof (pass_nonneg L k v Hok Hv). assert (0 ≤ runs ts v * pass_of k v) by nia. case_decide; [subst|]; lia.
Qed.

(** ** Starvation *)

(** The task [u] is first in line with the smallest stride, and its priority is above
    [BIG_STRIDE]. *)
Record greedy k (u : nat) : Prop := {
  gr_in : u ∈ ready_queue k;
  gr_ok : ∀ t, t ∈ ready_queue k → ∃ i, inner_of k t = Some i ∧ is_u64 (task_stride i) ∧ 0 < task_priority i;
  gr_prio : ∃ i, inner_of k u = Some i ∧ BIG_STRIDE < task_priority i;
  gr_min : ∀ t, t ∈ ready_queue k → t ≠ u → stride_of k u < stride_of k t;
}.

Lemma greedy_round k u : greedy k u → ∃ k', round k = Ok (k', u) ∧ greedy k' u.
Proof.
  intros [Hin Hok (i & Hi & Hp) Hmin]. pose proof (fetch_spec k) as Hf.
  assert (Forall (ready_ok k) (ready_queue k)) as Hq by (apply Forall_forall; intros t Ht; by apply Hok).
  specialize (Hf Hq). destruct (first_min (stride_of k <$> ready_queue k)) as [n|] eqn:Hm.
  2:{ destruct Hf as [He _]. rewrite He in Hin. by apply elem_of_nil in Hin. }
  destruct Hf as (t & j & Hn & Hj & Hr). pose proof (list_elem_of_lookup_2 _ _ _ Hn) as Ht.
  assert (t = u) as ->.
  { apply dec_stable. intros Hne. specialize (Hmin t Ht Hne). apply first_min_Some in Hm as (m & Hmn & Hle & _).
    apply fmap_lookup_stride in Hmn as (t' & Ht' & ->). assert (t' = t) as -> by congruence.
    specialize (Hle (stride_of k u) (list_elem_of_fmap_2 _ _ _ Hin)). lia. }
  assert (j = i) as -> by congruence.
  assert (fetched k n u i = set_queue (remove_nth n (ready_queue k)) k) as Hfe.
  { unfold fetched. rewrite (Z.div_small BIG_STRIDE) by (unfold BIG_STRIDE in *; lia).
    destruct (Hok u Hin) as (j & Hj' & Hs & _). assert (j = i) as -> by congruence.
    rewrite Z.add_0_r, wrap64_small by done. replace (with_stride (task_stride i) i) with i by (by destruct i).
    by rewrite put_inner_id. }
  rewrite Hfe in Hr. exists (set_queue (remove_nth n (ready_queue k) ++ [u]) k).
  split; [unfold round, fetch_task; run Hr; by erewrite bind_ok by apply unwrap_some|].
  assert (remove_nth n (ready_queue k) ++ [u] ≡ₚ ready_queue k) as Hperm.
  { unfold remove_nth. rewrite <-(take_drop_middle _ _ _ Hn) at 3. rewrite <-app_assoc. apply Permutation_app_head.
    by rewrite Permutation_app_comm. }
  split; cbn [set_queue ready_queue].
  - rewrite Hperm. done.
  - intros t Ht'. rewrite Hperm in Ht'. by apply Hok.
  - by exists i.
  - intros t Ht' Hne. rewrite Hperm in Ht'. by apply Hmin.
Qed.

Lemma greedy_rounds n : ∀ k u, greedy k u → ∃ k', rounds n k = Ok (k', replicate n u).
Proof.
  induction n as [|n IH]; intros k u Hg; [by exists k|].
  destruct (greedy_round k u Hg) as (k1 & Hr & Hg1). destruct (IH k1 u Hg1) as (k2 & Hr2).
  exists k2. cbn [rounds]. run Hr. by run Hr2.
Qed.

(** ** The theorems *)

(** C27: [fetch] is a search for the first minimum.  It takes the first task with the
    smallest stride out of the queue and advances its stride by [BIG_STRIDE / priority];
    an empty queue is not answered with [None] but is an index out of range. *)
Theorem fetch_is_first_min k :
  Forall (ready_ok k) (ready_queue k) →
  match first_min (stride_of k <$> ready_queue k) with
  | Some n => ∃ t i, ready_queue k !! n = Some t ∧ inner_of k t = Some i ∧ fetch k = Ok (fetched k n t i, Some t)
  | None => ready_queue k = [] ∧ fetch k = Err OutOfBounds
  end.
Proof. apply fetch_spec. Qed.

(** C28: every task that waits is fetched.  With priorities from 2 to [BIG_STRIDE] and
    strides that have room to grow, a task [t] of the queue runs after at most
    [waiting_time k t] rounds of the other tasks. *)
Theorem stride_live L k t :
  sched_ok L k → t ∈ ready_queue k → L + 2 * BIG_STRIDE < 2 ^ 64 →
  ∃ ts k', rounds (length ts) k = Ok (k', ts) ∧ last ts = Some t ∧ (length ts ≤ S (waiting_time k t))%nat.
Proof.
  intros Hok Ht HL. destruct (so_tasks _ _ Hok t Ht) as (i & Hi & Hs & _).
  assert (stride_of k t = task_stride i) as Hst by (unfold stride_of; by rewrite Hi).
  assert (0 < BIG_STRIDE) by done. apply (rounds_reach (waiting_time k t) L); (done || lia).
Qed.

(** C29: the processor is shared in proportion to the priorities.  In [n] rounds, as long as no stride can
    reach 2^64 in them, the runs of a task [u], weighted with its pass [BIG_STRIDE / priority], exceed those of any other task [v]
    by at most one pass and the lead that the stride of [v] had at the beginning (a new process begins with stride 0,
    and catches up). *)
Theorem stride_shares n L k u v :
  sched_ok L k → L + (Z.of_nat n + 1) * BIG_STRIDE < 2 ^ 64 → u ∈ ready_queue k → v ∈ ready_queue k →
  ∃ ts k', rounds n k = Ok (k', ts) ∧ length ts = n ∧
    runs ts u * pass_of k u ≤ runs ts v * pass_of k v + pass_of k u + Z.max 0 (stride_of k v - stride_of k u).
Proof.
  intros Hok HL Hu Hv. destruct (rounds_strides n L k Hok HL) as (ts & k' & Hr & Hlen & Hst & Hnear).
  exists ts, k'. split; [done|]. split; [done|]. pose proof (pass_nonneg L k u Hok Hu). pose proof (pass_nonneg L k v Hok Hv).
  pose proof (runs_nonneg ts v). destruct (Hnear u v Hu Hv) as [->|Hle]; [nia|]. rewrite !Hst in Hle. lia.
Qed.

(** C37: a task whose priority exceeds [BIG_STRIDE], as [sys_set_priority] permits, and whose
    stride is the smallest starves all others: its stride no longer grows, and it is the
    one fetched in every round from then on. *)
Theorem huge_priority_starves k u n : greedy k u → ∃ k', rounds n k = Ok (k', replicate n u).
Proof. apply greedy_rounds. Qed.
End rounds.

(** ** Concrete queues: task [n] has the [n]-th stride and priority *)
Definition demo_task (stride prio : Z) : TaskControlBlockInner :=
  mkInner 0 0 InTimer Ready 0 [] prio stride (mkMemorySet (mkPageTable 0 []) []) None [] 0 [].

Definition demo_queue (l : list (Z * Z)) : kernel unit :=
  mkKernel (mkMm ∅ FrameAlloc.new) (mkMemorySet (mkPageTable 0 []) []) pid_new
    (map_seq 0 ((λ sp, mkTcb 0 (cell_new (demo_task sp.1 sp.2))) <$> l)) (length l) (seq 0 (length l)) None None []
    (Cache.mkState [] tt false) (Efs.mkEfs (Bitmap.mkBitmap 0 0) (Bitmap.mkBitmap 0 0) 0 0) [] 0 0 0 [] 0 false.

Lemma demo_queue_inner l t :
  t ∈ ready_queue (demo_queue l) → ∃ sp, l !! t = Some sp ∧ inner_of (demo_queue l) t = Some (demo_task sp.1 sp.2).
Proof.
  cbn [demo_queue ready_queue]. intros Ht%elem_of_seq. destruct (lookup_lt_is_Some_2 l t) as [sp Hsp]; [lia|].
  exists sp. split; [done|]. apply inner_of_Some. exists 0. cbn [demo_queue tcbs].
  rewrite lookup_map_seq_0, list_lookup_fmap, Hsp. done.
Qed.

Lemma demo_sched_ok L l :
  l ≠ [] → Forall (λ sp, 0 ≤ sp.1 ≤ L ∧ 2 ≤ sp.2 ≤ BIG_STRIDE) l → sched_ok L (demo_queue l).
Proof.
  intros Hne Hl. split.
  - cbn. by destruct l.
  - cbn. apply NoDup_seq.
  - intros t Ht. destruct (demo_queue_inner l t Ht) as (sp & Hsp & Hi). eexists. split; [done|].
    by apply (Forall_lookup_1 _ _ _ _ Hl Hsp).
Qed.

Lemma fetch_is_first_min_witness :
  ∃ k, fetch (demo_queue [(5, 16); (0, 16); (0, 2)]) = Ok (k, Some 1%nat) ∧
    stride_of k 1 = 5555555 ∧ ready_queue k = [0%nat; 2%nat].
Proof.
  pose proof (fetch_is_first_min (demo_queue [(5, 16); (0, 16); (0, 2)])) as H.
  change (first_min _) with (Some 1%nat) in H. destruct H as (t & i & Ht & Hi & Hr).
  - apply Forall_forall. intros t Ht. destruct (demo_queue_inner _ t Ht) as (sp & Hsp & Hi). eexists. split; [exact Hi|].
    apply list_elem_of_lookup_2 in Hsp. rewrite !elem_of_cons, elem_of_nil in Hsp.
    destruct Hsp as [->|[->|[->|[]]]]; vm_compute; repeat split; congruence.
  - injection Ht as <-. injection Hi as <-. eexists. split; [exact Hr|]. split; reflexivity.
Defined.

Lemma stride_live_witness :
  ∃ ts k', rounds (length ts) (demo_queue [(5, 16); (0, 16); (0, 2)]) = Ok (k', ts) ∧ last ts = Some 0%nat.
Proof.
  destruct (stride_live 5 (demo_queue [(5, 16); (0, 16); (0, 2)]) 0) as (ts & k' & Hr & Hl & _).
  - apply demo_sched_ok; [discriminate|]. repeat (apply Forall_cons; split; [vm_compute; repeat split; congruence|]). constructor.
  - left.
  - vm_compute. reflexivity.
  - exists ts, k'. split; [exact Hr|exact Hl].
Defined.

(** A task that begins 700 passes behind. *)
Lemma stride_shares_witness :
  ∃ ts k', rounds 1000 (demo_queue [(0, 16); (3888888500, 2)]) = Ok (k', ts) ∧
    runs ts 0 * 5555555 ≤ runs ts 1 * 44444444 + 5555555 + 3888888500.
Proof.
  destruct (stride_shares 1000 3888888500 (demo_queue [(0, 16); (3888888500, 2)]) 0 1) as (ts & k' & Hr & _ & H).
  - apply demo_sched_ok; [discriminate|]. repeat (apply Forall_cons; split; [vm_compute; repeat split; congruence|]). constructor.
  - unfold BIG_STRIDE. lia.
  - left.
  - right. left.
  - exists ts, k'. split; [exact Hr|]. exact H.
Defined.

Lemma huge_priority_starves_witness :
  ∃ k', rounds 7 (demo_queue [(5, 16); (4, 88888889)]) = Ok (k', replicate 7 1%nat).
Proof.
  apply huge_priority_starves. split.
  - right. left.
  - intros t Ht. destruct (demo_queue_inner _ t Ht) as (sp & Hsp & Hi). eexists. split; [exact Hi|].
    apply list_elem_of_lookup_2 in Hsp. rewrite !elem_of_cons, elem_of_nil in Hsp.
    destruct Hsp as [->|[->|[]]]; vm_compute; repeat split; congruence.
  - exists (demo_task 4 88888889). split; vm_compute; reflexivity.
  - intros t Ht Hne. cbn in Ht. rewrite !elem_of_cons, elem_of_nil in Ht.
    destruct Ht as [->|[->|[]]]; [vm_compute; reflexivity|done].
Defined.
