(* ===== verification/Processor.v ===== *)
(** * The processor ([os/src/task/processor.rs], [os/src/task/mod.rs], [os/src/timer.rs])

    What runs, and how it changes.  [run_tasks] is a loop; [dispatch] is one
    iteration up to [__switch].  [suspend_current] and [exit_current] are
    [suspend_current_and_run_next] and [exit_current_and_run_next] up to the
    [__switch] in [schedule], which leaves for the loop of [run_tasks]; the thread
    that is left continues later, where [task_cx] says. *)

From S2P Require Import Prelude Bytes Console BlockCache Address FrameAlloc PageTable UserBuf MemorySet Context Pid Kernel Task Manager.

(** ** Time *)
Definition TICKS_PER_SEC : Z := 100.
Definition MICRO_PER_SEC : Z := 1000000.
Definition CLOCK_FREQ : Z := 12500000.

Section processor.
Context {D : Type} `{BlockDevice D} `{Platform}.
Notation K := (K D).

(** read the [mtime] register *)
Definition get_time : K Z :=
  n ← gets k_reads;
  modify (set_reads (S n));;
  mret (time_read n).

(** get current time in microseconds *)
Definition get_time_us : K Z :=
  t ← get_time;
  checked_div t (CLOCK_FREQ / MICRO_PER_SEC).

(** set the next timer interrupt *)
Definition set_next_trigger : K unit :=
  t ← get_time;
  sbi [set_timer (wrap64 (t + CLOCK_FREQ / TICKS_PER_SEC))].

(** Milliseconds, with the seconds cut to 16 bits *)
Definition task_millis (us : Z) : Z :=
  wrap64 (Z.land (us / 1000000) 0xffff * 1000 + (us mod 1000000) / 1000).

(** ** [Processor] *)
Definition take_current_task : K (option nat) :=
  c ← gets current_;
  modify (set_current None);;
  mret c.

Definition current_task : K (option nat) := gets current_.

(** [current_task().unwrap()] *)
Definition the_task : K nat := c ← current_task; unwrap c.

(** One iteration of [run_tasks], up to [__switch]. *)
Definition dispatch : K (option nat) :=
  r ← fetch_task;
  match r with
  | Some task =>
      task_inner ← borrow task;
      let task_inner := with_status Running task_inner in
      task_inner ← (if task_begin_time task_inner =? 0 then
                      us ← get_time_us;
                      mret (with_begin_time (task_millis us) task_inner)
                    else mret task_inner);
      release task task_inner;;
      modify (set_current (Some task));;
      mret (Some task)
  | None => mret None
  end.

Definition current_user_token : K Z :=
  task ← the_task;
  read_inner task (λ i, ms_token (memory_set i)).

(** The frame of the current trap context *)
Definition current_trap_cx : K Z :=
  task ← the_task;
  read_inner task trap_cx_ppn.

Definition current_begin_time : K Z :=
  task ← the_task;
  read_inner task task_begin_time.

Definition current_syscall_times : K (list Z) :=
  task ← the_task;
  read_inner task task_syscall_times.

Definition update_current_syscall_times (syscall_id : Z) : K unit :=
  task ← the_task;
  task_inner ← borrow task;
  n ← index (task_syscall_times task_inner) syscall_id;
  times ← set_index (task_syscall_times task_inner) syscall_id (wrap32 (n + 1));
  release task (with_syscall_times times task_inner).

Definition set_current_priority (priority : Z) : K unit :=
  task ← the_task;
  with_inner task (λ i, (with_priority priority i, tt)).

Definition insert_current_memory_set (start_va end_va permission : Z) : K Z :=
  task ← the_task;
  task_inner ← borrow task;
  '(ms, r) ← on_mm (insert_framed_area start_va end_va permission (memory_set task_inner));
  release task (with_memory_set ms task_inner);;
  mret r.

Definition remove_current_memory_set (start_va end_va : Z) : K Z :=
  task ← the_task;
  task_inner ← borrow task;
  '(ms, r) ← on_mm (remove_framed_area start_va end_va (memory_set task_inner));
  release task (with_memory_set ms task_inner);;
  mret r.

(** What [dispatch] leaves behind: the task runs, with its stride advanced and the time
    of its first run. *)
Definition dispatched (k : kernel D) (n t : nat) (i : TaskControlBlockInner) (reads : nat) (begin : Z) : kernel D :=
  set_current (Some t) (set_queue (remove_nth n (ready_queue k)) (set_reads reads
    (put_inner t (with_begin_time begin (with_status Running
      (with_stride (wrap64 (task_stride i + BIG_STRIDE / task_priority i)) i))) k))).

Lemma dispatch_fetched (k : kernel D) n t i :
  inner_of k t = Some i → fetch k = Ok (fetched k n t i, Some t) →
  ∃ reads begin, dispatch k = Ok (dispatched k n t i reads begin, Some t).
Proof.
  intros Hi Hf. unfold dispatch, fetch_task. run Hf. set (i' := with_stride (wrap64 (task_stride i + BIG_STRIDE / task_priority i)) i).
  apply inner_of_Some in Hi as [pid Ht].
  assert (fetched k n t i = set_queue (remove_nth n (ready_queue k)) (set_tcbs (<[t := mkTcb pid (mkCell i' false)]> (tcbs k)) k)) as ->.
  { unfold fetched, put_inner. by rewrite Ht. }
  erewrite bind_ok by (apply borrow_ok, inner_of_Some; exists pid; cbn; by rewrite lookup_insert_eq).
  unfold dispatched, put_inner, lock. cbn [tcbs set_queue set_tcbs]. rewrite Ht, lookup_insert_eq. cbn [tcb_pid value inner].
  destruct (task_begin_time (with_status Running i') =? 0) eqn:Eb.
  - erewrite bind_ok by reflexivity.
    erewrite bind_ok by (apply release_ok; cbn; by rewrite lookup_insert_eq). do 2 eexists.
    unfold put_inner. cbn. rewrite !lookup_insert_eq, !insert_insert_eq. reflexivity.
  - erewrite bind_ok by reflexivity.
    erewrite bind_ok by (apply release_ok; cbn; by rewrite lookup_insert_eq). exists (k_reads k), (task_begin_time i').
    unfold put_inner. cbn. rewrite !lookup_insert_eq, !insert_insert_eq. reflexivity.
Qed.

(** ** Leaving the processor *)

(** Make current task suspended and switch to the next task; [there]: where the thread
    continues when it is switched to again. *)
Definition suspend_current (there : kthread) : K unit :=
  c ← take_current_task; task ← unwrap c;
  with_inner task (λ i, (with_task_cx there (with_status Ready i), tt));;
  add_task task.

(** Exit current task, recycle process resources and switch to the next task *)
Definition exit_current (exit_code : Z) : K unit :=
  c ← take_current_task; task ← unwrap c;
  inner ← borrow task;
  let inner := with_status Zombie inner in
  let inner := with_exit_code exit_code inner in
  o ← gets INITPROC;
  initproc ← (match o with Some i => mret i | None => mthrow Panicked end);
  initproc_inner ← borrow initproc;
  initproc_inner ← for_ (children inner) (λ initproc_inner child,
    with_inner child (λ i, (with_parent (Some initproc) i, tt));;
    mret (with_children (children initproc_inner ++ [child]) initproc_inner)) initproc_inner;
  release initproc initproc_inner;;
  let inner := with_children [] inner in
  ms ← on_mm (recycle_data_pages (memory_set inner));
  release task (with_memory_set ms inner);;
  drop_arc task.
End processor.
