(* ===== verification/OsFile.v ===== *)
(** * Files of the kernel ([os/src/fs])

    [OSInode] is an open file of the file system with its offset; [Stdin] and
    [Stdout] are the console.  The methods of the trait [File] are functions on
    [FileRef].  A read from the console that finds no character suspends the task:
    the [outcome] of such a call is [Switched]. *)

From Stdlib Require Import String.
From S2P Require Import Prelude Bytes Utf8 Console BlockCache Layout DirEntry Efs Vfs Address FrameAlloc PageTable UserBuf MemorySet.
From S2P Require Import Context Pid Kernel Task Manager Processor.

(** A system call returns, or its thread has left the processor. *)
Inductive outcome := Returned (v : Z) | Switched.

(** ** Slices of user memory *)
Definition read_slice (sl : page_slice) : M mm (list byte) :=
  p ← read_page (sl_ppn sl);
  slice p (sl_from sl) (sl_to sl).

Definition write_slice (sl : page_slice) (bs : list byte) : M mm unit :=
  p ← read_page (sl_ppn sl);
  p ← copy_into p (sl_from sl) (sl_to sl) bs;
  write_page (sl_ppn sl) p.

Definition slice_len (sl : page_slice) : Z := sl_to sl - sl_from sl.

(** [UserBuffer::len] *)
Definition user_buffer_len (buffers : list page_slice) : Z :=
  foldl (λ total b, wrap64 (total + slice_len b)) 0 buffers.

(** ** [OpenFlags], [StatMode] *)
Definition RDONLY : Z := 0.
Definition WRONLY : Z := Z.shiftl 1 0.
Definition RDWR : Z := Z.shiftl 1 1.
Definition CREATE : Z := Z.shiftl 1 9.
Definition TRUNC : Z := Z.shiftl 1 10.

Definition flags_all : Z := Z.lor (Z.lor (Z.lor WRONLY RDWR) CREATE) TRUNC.
Definition flags_contains (flags f : Z) : bool := Z.land flags f =? f.

(** [OpenFlags::from_bits] *)
Definition open_flags (bits : Z) : option Z := if Z.land bits flags_all =? bits then Some bits else None.

(** returns (readable, writable) *)
Definition read_write (flags : Z) : bool * bool :=
  if flags =? 0 then (true, false)
  else if flags_contains flags WRONLY then (false, true)
  else (true, true).

Definition MODE_NULL : Z := 0.
Definition MODE_DIR : Z := 0x4000.
Definition MODE_FILE : Z := 0x8000.

Section files.
Context {D : Type} `{BlockDevice D} `{Platform}.
Notation K := (K D).

(** A method of an inode of [ROOT_INODE]'s file system. *)
Definition efs_call {A} (f : EasyFileSystem → prog A) : K A :=
  fs ← gets k_efs;
  on_fs (f fs).

(** A method of [ROOT_INODE]. *)
Definition root_call {A} (f : EasyFileSystem → Inode → prog A) : K A := efs_call (λ fs, f fs (inode_at fs 0)).

(** ** [OSInode] *)
Definition get_os_inode (id : nat) : K OSInode :=
  l ← gets os_inodes;
  match l !! id with Some o => mret o | None => mthrow Panicked end.

Definition set_offset (id : nat) (off : Z) : K unit :=
  o ← get_os_inode id;
  modify (λ k, set_os_inodes (<[id := mkOSInode (Kernel.readable o) (Kernel.writable o) off (inode o)]> (os_inodes k)) k).

(** [Arc::new(OSInode::new(..))] *)
Definition os_inode_new (readable writable : bool) (ino : Inode) : K nat :=
  l ← gets os_inodes;
  modify (set_os_inodes (l ++ [mkOSInode readable writable 0 ino]));;
  mret (length l).

(** The loop of [read_all], at most [fuel] reads. *)
Fixpoint read_all_loop (fuel : nat) (id : nat) (buffer v : list byte) : K (list byte) :=
  match fuel with
  | O => mthrow OutOfFuel
  | S fuel =>
      o ← get_os_inode id;
      '(len, buffer) ← on_fs (Vfs.read_at (inode o) (offset o) buffer);
      if len =? 0 then mret v else
      set_offset id (wrap64 (offset o + len));;
      chunk ← slice buffer 0 len;
      read_all_loop fuel id buffer (v ++ chunk)
  end.

(** Read all data inside a inode into vector *)
Definition read_all (id : nat) : K (list byte) := read_all_loop loop_fuel id (replicate 512 Byte.x00) [].

(** Open a file by path *)
Definition open_file (name : list byte) (flags : Z) : K (option nat) :=
  let '(readable, writable) := read_write flags in
  if flags_contains flags CREATE then
    r ← root_call (λ fs root, find fs root name);
    match r with
    | Some ino =>
        efs_call (λ fs, clear fs ino);;
        id ← os_inode_new readable writable ino;
        mret (Some id)
    | None =>
        r ← root_call (λ fs root, Vfs.create fs root name);
        match r with
        | Some ino => id ← os_inode_new readable writable ino; mret (Some id)
        | None => mret None
        end
    end
  else
    r ← root_call (λ fs root, find fs root name);
    match r with
    | Some ino =>
        (if flags_contains flags TRUNC then efs_call (λ fs, clear fs ino) else mret tt);;
        id ← os_inode_new readable writable ino;
        mret (Some id)
    | None => mret None
    end.

Definition link_file (old_name new_name : list byte) : K Z :=
  r ← root_call (λ fs root, find fs root old_name);
  match r with
  | Some old_inode =>
      old_ino ← efs_call (λ fs, get_ino fs old_inode);
      root_call (λ fs root, link fs root old_ino new_name)
  | None => mret (-1)
  end.

Definition unlink_file (name : list byte) : K Z := root_call (λ fs root, unlink fs root name).

Definition root_nlink (target_block_id target_block_offset : Z) : K Z :=
  root_call (λ fs root, get_nlink fs root target_block_id target_block_offset).

(** List all files in the filesystems *)
Definition list_apps : K unit :=
  sbi (println (str "/**** APPS ****"));;
  apps ← root_call (λ _ root, ls root);
  for_ apps (λ _ app, sbi (println app)) tt;;
  sbi (println (str "**************/")).

(** ** The trait [File] *)
Definition file_readable (f : FileRef) : K bool :=
  match f with
  | Stdin => mret true
  | Stdout => mret false
  | OSInodeRef id => o ← get_os_inode id; mret (Kernel.readable o)
  end.

Definition file_writable (f : FileRef) : K bool :=
  match f with
  | Stdin => mret false
  | Stdout => mret true
  | OSInodeRef id => o ← get_os_inode id; mret (Kernel.writable o)
  end.

Definition file_ino (f : FileRef) : K Z :=
  match f with
  | OSInodeRef id => o ← get_os_inode id; efs_call (λ fs, get_ino fs (inode o))
  | _ => mret 0
  end.

Definition file_mode (f : FileRef) : K Z :=
  match f with
  | OSInodeRef id =>
      o ← get_os_inode id;
      m ← on_fs (get_mode (inode o));
      if m =? 0 then mret MODE_NULL else
      m ← on_fs (get_mode (inode o));
      if m =? 1 then mret MODE_DIR else mret MODE_FILE
  | _ => mret MODE_NULL
  end.

Definition file_block_id (f : FileRef) : K Z :=
  match f with
  | OSInodeRef id => o ← get_os_inode id; mret (wrap32 (Vfs.block_id (inode o)))
  | _ => mret 0
  end.

Definition file_block_offset (f : FileRef) : K Z :=
  match f with
  | OSInodeRef id => o ← get_os_inode id; mret (Vfs.block_offset (inode o))
  | _ => mret 0
  end.

(** [OSInode::read] *)
Fixpoint inode_read (id : nat) (buffers : list page_slice) (total_read_size : Z) : K Z :=
  match buffers with
  | [] => mret total_read_size
  | sl :: buffers =>
      o ← get_os_inode id;
      buf ← on_mm (read_slice sl);
      '(read_size, buf) ← on_fs (Vfs.read_at (inode o) (offset o) buf);
      on_mm (write_slice sl buf);;
      if read_size =? 0 then mret total_read_size else
      set_offset id (wrap64 (offset o + read_size));;
      inode_read id buffers (wrap64 (total_read_size + read_size))
  end.

(** [OSInode::write] *)
Fixpoint inode_write (id : nat) (buffers : list page_slice) (total_write_size : Z) : K Z :=
  match buffers with
  | [] => mret total_write_size
  | sl :: buffers =>
      o ← get_os_inode id;
      buf ← on_mm (read_slice sl);
      write_size ← efs_call (λ fs, Vfs.write_at fs (inode o) (offset o) buf);
      assert_ (write_size =? slice_len sl);;
      set_offset id (wrap64 (offset o + write_size));;
      inode_write id buffers (wrap64 (total_write_size + write_size))
  end.

(** One turn of the loop in [Stdin::read]: no character suspends the task. *)
Definition stdin_poll (buffers : list page_slice) : K outcome :=
  n ← gets k_inputs;
  modify (set_inputs (S n));;
  let c := console_getchar n in
  if c =? 0 then
    suspend_current (InStdin buffers);;
    mret Switched
  else
    let ch := byte.of_Z (wrap8 c) in
    sl ← index buffers 0;
    p ← on_mm (read_page (sl_ppn sl));
    p ← set_index p (sl_from sl) ch;
    on_mm (write_page (sl_ppn sl) p);;
    mret (Returned 1).

(** [Stdin::read] *)
Definition stdin_read (buffers : list page_slice) : K outcome :=
  assert_ (user_buffer_len buffers =? 1);;
  stdin_poll buffers.

(** [Stdout::write] *)
Definition stdout_write (buffers : list page_slice) : K Z :=
  for_ buffers (λ _ sl,
    bs ← on_mm (read_slice sl);
    (if utf8_valid bs then mret tt else mthrow UnwrapNone);;
    sbi (print bs)) tt;;
  mret (user_buffer_len buffers).

Definition file_read (f : FileRef) (buffers : list page_slice) : K outcome :=
  match f with
  | Stdin => stdin_read buffers
  | Stdout => mthrow Panicked
  | OSInodeRef id => n ← inode_read id buffers 0; mret (Returned n)
  end.

Definition file_write (f : FileRef) (buffers : list page_slice) : K Z :=
  match f with
  | Stdin => mthrow Panicked
  | Stdout => stdout_write buffers
  | OSInodeRef id => inode_write id buffers 0
  end.
End files.
