(* ===== verification/UserMem.v ===== *)
(** * Bytes of user memory

    What the kernel reads from and writes to slices of user memory, in terms of the
    bytes at physical addresses. *)

From S2P Require Import Prelude Bytes BlockCache Address FrameAlloc PageTable UserBuf MemorySet Context Pid Kernel OsFile.

Local Ltac Zify.zify_post_hook ::= Z.to_euclidean_division_equations.

(** The byte at a physical address. *)
Definition phys_byte (m : gmap Z page) (pa : Z) : option byte :=
  p ← m !! (pa / 4096); p !! Z.to_nat (pa mod 4096).

(** [bs] is at the addresses [addrs]. *)
Definition bytes_at (m : gmap Z page) (addrs : list Z) (bs : list byte) : Prop :=
  Forall2 (λ pa b, phys_byte m pa = Some b) addrs bs.

Definition in_page (sl : page_slice) : Prop := 0 ≤ sl_from sl < sl_to sl ∧ sl_to sl ≤ 4096.

Lemma length_slice_addrs sl : in_page sl → length (slice_addrs sl) = Z.to_nat (slice_len sl).
Proof. intros Hok. unfold slice_addrs, range, slice_len. rewrite length_fmap, length_seqZ. done. Qed.

Lemma lookup_slice_addrs sl i pa :
  slice_addrs sl !! i = Some pa ↔ pa = sl_ppn sl * 4096 + sl_from sl + Z.of_nat i ∧ Z.of_nat i < slice_len sl.
Proof.
  unfold slice_addrs, range, slice_len. rewrite list_lookup_fmap, fmap_Some. split.
  - intros (o & Ho%lookup_seqZ & ->). lia.
  - intros [-> Hi]. exists (sl_from sl + Z.of_nat i). rewrite lookup_seqZ. lia.
Qed.

Lemma phys_byte_slice m sl i :
  in_page sl → Z.of_nat i < slice_len sl →
  phys_byte m (sl_ppn sl * 4096 + sl_from sl + Z.of_nat i) = (p ← m !! sl_ppn sl; p !! (Z.to_nat (sl_from sl) + i)%nat).
Proof.
  intros [Hf Ht] Hi. unfold phys_byte, slice_len in *.
  replace ((sl_ppn sl * 4096 + sl_from sl + Z.of_nat i) / 4096) with (sl_ppn sl) by lia.
  replace (Z.to_nat ((sl_ppn sl * 4096 + sl_from sl + Z.of_nat i) mod 4096)) with (Z.to_nat (sl_from sl) + i)%nat by lia. done.
Qed.

(** The page of a slice that has bytes. *)
Lemma slice_page_of m sl bs :
  in_page sl → bytes_at m (slice_addrs sl) bs →
  ∃ p, m !! sl_ppn sl = Some p ∧ sl_to sl ≤ Z.of_nat (length p) ∧
    bs = take (Z.to_nat (slice_len sl)) (drop (Z.to_nat (sl_from sl)) p).
Proof.
  intros Hok Hb. pose proof Hok as [Hf Ht]. pose proof (Forall2_length _ _ _ Hb) as Hl.
  rewrite length_slice_addrs in Hl by done. unfold slice_len in *.
  assert (∀ i b, bs !! i = Some b → ∃ p, m !! sl_ppn sl = Some p ∧ p !! (Z.to_nat (sl_from sl) + i)%nat = Some b) as Hget.
  { intros i b Hi. pose proof (lookup_lt_Some _ _ _ Hi) as Hlt.
    destruct (Forall2_lookup_r _ _ _ _ _ Hb Hi) as (pa & Hpa & Hpb). apply lookup_slice_addrs in Hpa as [-> Hlen].
    rewrite phys_byte_slice in Hpb by done. by apply bind_Some in Hpb. }
  destruct (lookup_lt_is_Some_2 bs (length bs - 1)) as [b Hlast]; [lia|].
  destruct (Hget _ _ Hlast) as (p & Hp & Hb'). exists p. split; [done|].
  pose proof (lookup_lt_Some _ _ _ Hb') as Hlen. split; [lia|].
  apply list_eq. intros i. destruct (decide (i < length bs)%nat) as [Hi|Hi].
  - destruct (lookup_lt_is_Some_2 bs i Hi) as [b1 Hb1]. destruct (Hget _ _ Hb1) as (p1 & Hp1 & Hi1).
    rewrite Hb1, lookup_take_lt, lookup_drop by lia. congruence.
  - rewrite !lookup_ge_None_2; [done| |lia]. rewrite length_take, length_drop. lia.
Qed.

Lemma read_slice_ok s sl bs :
  in_page sl → bytes_at (mem s) (slice_addrs sl) bs → read_slice sl s = Ok (s, bs).
Proof.
  intros Hok Hb. destruct (slice_page_of _ _ _ Hok Hb) as (p & Hp & Hlen & ->). destruct Hok as [Hf Ht].
  unfold read_slice. erewrite bind_ok by (by apply read_page_ok). by rewrite slice_ok by lia.
Qed.

Lemma lookup_middle {A} (p bs : list A) (f : nat) j :
  (f + length bs ≤ length p)%nat →
  (take f p ++ bs ++ drop (f + length bs) p) !! j =
    if decide (f ≤ j < f + length bs)%nat then bs !! (j - f)%nat else p !! j.
Proof.
  intros Hl. assert (length (take f p) = f) as Hf by (rewrite length_take; lia). case_decide as Hj.
  - rewrite lookup_app_r, lookup_app_l by lia. by rewrite Hf.
  - destruct (decide (j < f)%nat); [rewrite lookup_app_l, lookup_take_lt by lia; done|].
    rewrite !lookup_app_r by lia. rewrite lookup_drop, Hf. f_equal. lia.
Qed.

Lemma write_slice_ok s sl old bs :
  in_page sl → bytes_at (mem s) (slice_addrs sl) old → length bs = length old →
  ∃ s', write_slice sl bs s = Ok (s', tt) ∧ frame_allocator s' = frame_allocator s ∧
    bytes_at (mem s') (slice_addrs sl) bs ∧
    ∀ pa, pa ∉ slice_addrs sl → phys_byte (mem s') pa = phys_byte (mem s) pa.
Proof.
  intros Hok Hb Hlb. destruct (slice_page_of _ _ _ Hok Hb) as (p & Hp & Hlen & _). pose proof Hok as [Hf Ht].
  pose proof (Forall2_length _ _ _ Hb) as Hlo. rewrite length_slice_addrs in Hlo by done. unfold slice_len in Hlo.
  unfold write_slice. erewrite bind_ok by (by apply read_page_ok). erewrite bind_ok by (apply copy_into_ok; lia).
  erewrite write_page_ok by done. eexists. split; [done|]. split; [done|]. cbn [mem].
  replace (Z.to_nat (sl_to sl)) with (Z.to_nat (sl_from sl) + length bs)%nat by lia.
  set (p' := take _ p ++ _). assert (∀ j, p' !! j = if decide (Z.to_nat (sl_from sl) ≤ j < Z.to_nat (sl_from sl) + length bs)%nat
    then bs !! (j - Z.to_nat (sl_from sl))%nat else p !! j) as Hp' by (intros j; apply lookup_middle; lia). split.
  - apply Forall2_same_length_lookup_2; [rewrite length_slice_addrs by done; unfold slice_len; lia|].
    intros i pa b [-> Hi]%lookup_slice_addrs Hbi. rewrite phys_byte_slice by done. rewrite lookup_insert_eq. cbn.
    rewrite Hp', decide_True by (unfold slice_len in Hi; lia). by replace (Z.to_nat (sl_from sl) + i - Z.to_nat (sl_from sl))%nat with i by lia.
  - intros pa Hpa. unfold phys_byte. destruct (decide (pa / 4096 = sl_ppn sl)) as [Heq|]; [|by rewrite lookup_insert_ne].
    rewrite Heq, lookup_insert_eq, Hp. cbn. rewrite Hp', decide_False; [done|]. intros Hin. apply Hpa.
    apply (list_elem_of_lookup_2 _ (Z.to_nat (pa mod 4096) - Z.to_nat (sl_from sl))). apply lookup_slice_addrs. unfold slice_len. lia.
Qed.

(** A byte of user memory is a byte of physical memory. *)
Lemma user_byte_phys m tr va : is_Some (tr !! page_key (floor va)) → user_byte m tr va = phys_byte m (phys_of tr va).
Proof.
  intros [pte Hpte]. unfold user_byte, phys_byte, phys_of. rewrite Hpte. cbn. unfold phys.
  replace ((pte_ppn pte * 4096 + va mod 4096) / 4096) with (pte_ppn pte) by lia.
  replace ((pte_ppn pte * 4096 + va mod 4096) mod 4096) with (va mod 4096) by lia. done.
Qed.

(** The bytes of a buffer that has been translated. *)
Lemma user_bytes_at m tr ptr len bs :
  Forall2 (λ va b, user_byte m tr va = Some b) (range ptr (ptr + len)) bs →
  bytes_at m (phys_of tr <$> range ptr (ptr + len)) bs ∧ mapped tr ptr (ptr + len).
Proof.
  intros Hb. split.
  - unfold bytes_at. apply Forall2_fmap_l. eapply Forall2_impl; [exact Hb|]. intros va b Hva. cbn. rewrite <-user_byte_phys; [done|].
    unfold user_byte in Hva. apply bind_Some in Hva as (pte & Hpte & _). eauto.
  - intros va Hva. assert (va ∈ range ptr (ptr + len)) as Hin by (by apply elem_of_range).
    apply list_elem_of_lookup_1 in Hin as [i Hi]. destruct (Forall2_lookup_l _ _ _ _ _ Hb Hi) as (b & _ & Hu).
    unfold user_byte in Hu. apply bind_Some in Hu as (pte & Hpte & _). eauto.
Qed.
