(* ===== verification/Syscall.v ===== *)
(** * System calls ([os/src/syscall])

    One definition for each [sys_] function and the dispatch on the number of the
    call.  Pointers of the user go through the user's page table. *)

From S2P Require Import Prelude Bytes BlockCache Layout DirEntry Efs Vfs Address FrameAlloc PageTable UserBuf MemorySet.
From S2P Require Import Context Pid Kernel Task Manager Processor OsFile.

(** ** Casts *)
(** [z as i32] *)
Definition to_i32 (z : Z) : Z := let w := wrap32 z in if w <? 2 ^ 31 then w else w - 2 ^ 32.

(** [l[i]] of a register file or of arguments *)
Definition arg (l : list Z) (i : nat) : Z := nth i l 0.

(** ** Structures handed to the user *)
Record Stat := mkStat { st_dev : Z; st_ino : Z; st_mode : Z; st_nlink : Z }.
(** [transmute::<Stat, [u8; 80]>]; the structure is [repr(C)] *)
Definition stat_bytes (st : Stat) : list byte :=
  le_split 8 (st_dev st) ++ le_split 8 (st_ino st) ++ le_split 4 (st_mode st) ++ le_split 4 (st_nlink st) ++
  replicate 56 Byte.x00.

Record TimeVal := mkTimeVal { tv_sec : Z; tv_usec : Z }.
Definition timeval_bytes (tv : TimeVal) : list byte := le_split 8 (tv_sec tv) ++ le_split 8 (tv_usec tv).

(** [MapPermission::from_bits] *)
Definition map_permission (bits : Z) : option Z :=
  if Z.land bits (Z.lor (Z.lor PERM_R PERM_W) (Z.lor PERM_X PERM_U)) =? bits then Some bits else None.

(** A write through a raw pointer to physical memory. *)
Fixpoint write_phys (pa : Z) (bs : list byte) : M mm unit :=
  match bs with
  | [] => mret tt
  | b :: bs =>
      p ← read_page (pa / PAGE_SIZE);
      p ← set_index p (pa mod PAGE_SIZE) b;
      write_page (pa / PAGE_SIZE) p;;
      write_phys (pa + 1) bs
  end.

Section syscalls.
Context {D : Type} `{BlockDevice D} `{Platform}.
Notation K := (K D).

(** [for dst in dsts { dst.copy_from_slice(&src) }] *)
Definition copy_to_user (dsts : list page_slice) (src : list byte) : K unit :=
  for_ dsts (λ _ dst, on_mm (write_slice dst src)) tt.

(** The file of a descriptor: [None] when there is no such descriptor or it is closed. *)
Definition fd_lookup (i : TaskControlBlockInner) (fd : Z) : option FileRef :=
  if Z.of_nat (length (fd_table i)) <=? fd then None
  else match fd_table i !! Z.to_nat fd with Some (Some f) => Some f | _ => None end.

(** ** Files *)
Definition sys_write (fd buf len : Z) : K Z :=
  token ← current_user_token;
  task ← the_task;
  r ← read_inner task (λ i, fd_lookup i fd);
  match r with
  | Some file =>
      buffers ← on_mm (translated_byte_buffer token buf len);
      n ← file_write file buffers;
      mret (to_isize n)
  | None => mret (-1)
  end.

Definition sys_read (fd buf len : Z) : K outcome :=
  token ← current_user_token;
  task ← the_task;
  r ← read_inner task (λ i, fd_lookup i fd);
  match r with
  | Some file =>
      buffers ← on_mm (translated_byte_buffer token buf len);
      n ← file_read file buffers;
      match n with Returned n => mret (Returned (to_isize n)) | Switched => mret Switched end
  | None => mret (Returned (-1))
  end.

Definition sys_open (path flags : Z) : K Z :=
  task ← the_task;
  token ← current_user_token;
  path ← on_mm (translated_str loop_fuel token path);
  flags ← unwrap (open_flags flags);
  r ← open_file path flags;
  match r with
  | Some id =>
      inner ← borrow task;
      let '(inner, fd) := alloc_fd inner in
      fds ← set_index (fd_table inner) (Z.of_nat fd) (Some (OSInodeRef id));
      release task (with_fd_table fds inner);;
      mret (to_isize (Z.of_nat fd))
  | None => mret (-1)
  end.

Definition sys_close (fd : Z) : K Z :=
  task ← the_task;
  with_inner task (λ inner,
    match fd_lookup inner fd with
    | Some _ => (with_fd_table (<[Z.to_nat fd := None]> (fd_table inner)) inner, 0)
    | None => (inner, -1)
    end).

Definition sys_fstat (fd st : Z) : K Z :=
  task ← the_task;
  token ← current_user_token;
  inner ← borrow task;
  r ← (match fd_lookup inner fd with
       | Some file =>
           dsts ← on_mm (translated_byte_buffer token st 80);
           ino ← file_ino file;
           mode ← file_mode file;
           block_id ← file_block_id file;
           block_offset ← file_block_offset file;
           nlink ← root_nlink block_id block_offset;
           copy_to_user dsts (stat_bytes (mkStat 0 ino mode nlink));;
           mret 0
       | None => mret (-1)
       end);
  release task inner;;
  mret r.

Definition sys_linkat (old_name new_name : Z) : K Z :=
  token ← current_user_token;
  old_name ← on_mm (translated_str loop_fuel token old_name);
  new_name ← on_mm (translated_str loop_fuel token new_name);
  link_file old_name new_name.

Definition sys_unlinkat (name : Z) : K Z :=
  token ← current_user_token;
  name ← on_mm (translated_str loop_fuel token name);
  unlink_file name.

(** ** Processes *)
Definition sys_exit (exit_code : Z) : K outcome := exit_current exit_code;; mret Switched.

(** current task gives up resources for other tasks; returns 0 when it continues *)
Definition sys_yield : K outcome := suspend_current InYield;; mret Switched.

Definition sys_getpid : K Z := task ← the_task; tcb ← tcb_of task; mret (to_isize (tcb_pid tcb)).

(** [trap_cx.x[10] = 0] of a new task *)
Definition clear_a0 (t : nat) : K unit :=
  ppn ← read_inner t trap_cx_ppn;
  cx ← on_mm (get_cx ppn);
  on_mm (set_cx ppn (set_x 10 0 cx)).

(** returns 0 for child process and child_pid for parent process *)
Definition sys_fork : K Z :=
  current_task ← the_task;
  new_task ← fork current_task;
  tcb ← tcb_of new_task;
  clear_a0 new_task;;
  add_task new_task;;
  mret (to_isize (tcb_pid tcb)).

Definition sys_exec (path : Z) : K Z :=
  token ← current_user_token;
  path ← on_mm (translated_str loop_fuel token path);
  r ← open_file path RDONLY;
  match r with
  | Some app_inode =>
      all_data ← read_all app_inode;
      task ← the_task;
      exec task all_data;;
      mret 0
  | None => mret (-1)
  end.

Definition sys_spawn (path : Z) : K Z :=
  token ← current_user_token;
  path ← on_mm (translated_str loop_fuel token path);
  r ← open_file path RDONLY;
  match r with
  | Some app_inode =>
      all_data ← read_all app_inode;
      task ← the_task;
      new_task ← spawn task all_data;
      tcb ← tcb_of new_task;
      clear_a0 new_task;;
      add_task new_task;;
      mret (to_isize (tcb_pid tcb))
  | None => mret (-1)
  end.

(** [pid == -1 || pid as usize == p.getpid()] *)
Definition pid_matches (pid : Z) (p : nat) : K bool :=
  tcb ← tcb_of p;
  mret ((pid =? -1) || (wrap64 pid =? tcb_pid tcb)).

(** [children.iter().any(..)] *)
Fixpoint any_child (pid : Z) (l : list nat) : K bool :=
  match l with
  | [] => mret false
  | p :: l => b ← pid_matches pid p; if (b : bool) then mret true else any_child pid l
  end.

(** [children.iter().enumerate().find(..)]: the first zombie that matches *)
Fixpoint find_zombie (pid : Z) (l : list nat) (idx : nat) : K (option (nat * nat)) :=
  match l with
  | [] => mret None
  | p :: l =>
      z ← read_inner p is_zombie;
      b ← (if (z : bool) then pid_matches pid p else mret false);
      if (b : bool) then mret (Some (idx, p)) else find_zombie pid l (S idx)
  end.

(** If there is not a child process whose pid is same as given, return -1.
    Else if there is a child process but it is still running, return -2. *)
Definition sys_waitpid (pid exit_code_ptr : Z) : K Z :=
  task ← the_task;
  inner ← borrow task;
  any ← any_child pid (children inner);
  if negb (any : bool) then release task inner;; mret (-1) else
  pair ← find_zombie pid (children inner) 0;
  match pair with
  | Some (idx, child) =>
      let inner := with_children (remove_nth idx (children inner)) inner in
      write_inner task inner;;
      (* the count is one for the variable [child] *)
      k ← get;
      assert_ (bool_decide (S (strong_refs k child) = 1%nat));;
      tcb ← tcb_of child;
      let found_pid := tcb_pid tcb in
      exit_code ← read_inner child exit_code;
      pa ← on_mm (translated_refmut (ms_token (memory_set inner)) exit_code_ptr);
      on_mm (write_phys pa (le_split 4 (wrap32 exit_code)));;
      drop_arc child;;
      release task inner;;
      mret (to_isize found_pid)
  | None => release task inner;; mret (-2)
  end.

Definition sys_get_time (ts : Z) : K Z :=
  us ← get_time_us;
  token ← current_user_token;
  dsts ← on_mm (translated_byte_buffer token ts 16);
  copy_to_user dsts (timeval_bytes (mkTimeVal (us / 1000000) (us mod 1000000)));;
  mret 0.

Definition sys_task_info (ti : Z) : K Z :=
  us ← get_time_us;
  let now := task_millis us in
  token ← current_user_token;
  dsts ← on_mm (translated_byte_buffer token ti 2016);
  times ← current_syscall_times;
  begin_time ← current_begin_time;
  copy_to_user dsts (task_info_bytes Running times (wrap64 (now - begin_time)));;
  mret 0.

Definition sys_set_priority (prio : Z) : K Z :=
  if 2 <=? prio then set_current_priority (wrap64 prio);; mret prio else mret (-1).

Definition sys_mmap (start len port : Z) : K Z :=
  if (page_offset start =? 0) && (Z.land port (2 ^ 64 - 1 - 7) =? 0) && negb (Z.land port 7 =? 0) then
    permission ← unwrap (map_permission (wrap8 (Z.lor (wrap64 (Z.shiftl port 1)) (Z.shiftl 1 4))));
    r ← insert_current_memory_set start (wrap64 (start + len)) permission;
    if r =? 0 then mret 0 else mret (-1)
  else mret (-1).

Definition sys_munmap (start len : Z) : K Z := remove_current_memory_set start (wrap64 (start + len)).

(** ** Dispatch *)
Definition SYSCALL_UNLINKAT : Z := 35.
Definition SYSCALL_LINKAT : Z := 37.
Definition SYSCALL_OPEN : Z := 56.
Definition SYSCALL_CLOSE : Z := 57.
Definition SYSCALL_READ : Z := 63.
Definition SYSCALL_WRITE : Z := 64.
Definition SYSCALL_FSTAT : Z := 80.
Definition SYSCALL_EXIT : Z := 93.
Definition SYSCALL_YIELD : Z := 124.
Definition SYSCALL_GET_TIME : Z := 169.
Definition SYSCALL_GETPID : Z := 172.
Definition SYSCALL_FORK : Z := 220.
Definition SYSCALL_EXEC : Z := 221.
Definition SYSCALL_WAITPID : Z := 260.
Definition SYSCALL_SPAWN : Z := 400.
Definition SYSCALL_MUNMAP : Z := 215.
Definition SYSCALL_MMAP : Z := 222.
Definition SYSCALL_SET_PRIORITY : Z := 140.
Definition SYSCALL_TASK_INFO : Z := 410.

Definition returns (m : K Z) : K outcome := v ← m; mret (Returned v).

(** handle syscall exception with [syscall_id] and other arguments *)
Definition syscall (syscall_id : Z) (args : list Z) : K outcome :=
  update_current_syscall_times syscall_id;;
  if syscall_id =? SYSCALL_LINKAT then returns (sys_linkat (arg args 1) (arg args 3))
  else if syscall_id =? SYSCALL_UNLINKAT then returns (sys_unlinkat (arg args 1))
  else if syscall_id =? SYSCALL_OPEN then returns (sys_open (arg args 1) (wrap32 (arg args 2)))
  else if syscall_id =? SYSCALL_CLOSE then returns (sys_close (arg args 0))
  else if syscall_id =? SYSCALL_READ then sys_read (arg args 0) (arg args 1) (arg args 2)
  else if syscall_id =? SYSCALL_WRITE then returns (sys_write (arg args 0) (arg args 1) (arg args 2))
  else if syscall_id =? SYSCALL_FSTAT then returns (sys_fstat (arg args 0) (arg args 1))
  else if syscall_id =? SYSCALL_EXIT then sys_exit (to_i32 (arg args 0))
  else if syscall_id =? SYSCALL_YIELD then sys_yield
  else if syscall_id =? SYSCALL_GETPID then returns sys_getpid
  else if syscall_id =? SYSCALL_FORK then returns sys_fork
  else if syscall_id =? SYSCALL_EXEC then returns (sys_exec (arg args 0))
  else if syscall_id =? SYSCALL_WAITPID then returns (sys_waitpid (to_isize (arg args 0)) (arg args 1))
  else if syscall_id =? SYSCALL_GET_TIME then returns (sys_get_time (arg args 0))
  else if syscall_id =? SYSCALL_MMAP then returns (sys_mmap (arg args 0) (arg args 1) (arg args 2))
  else if syscall_id =? SYSCALL_MUNMAP then returns (sys_munmap (arg args 0) (arg args 1))
  else if syscall_id =? SYSCALL_SET_PRIORITY then returns (sys_set_priority (to_isize (arg args 0)))
  else if syscall_id =? SYSCALL_TASK_INFO then returns (sys_task_info (arg args 0))
  else if syscall_id =? SYSCALL_SPAWN then returns (sys_spawn (arg args 0))
  else mthrow Panicked.
End syscalls.
