(* ===== verification/FileSpec.v ===== *)
(** * Files of the kernel, from the user's buffer to the disk

    [kfs_ok]: the kernel's block cache and device hold the abstract file system
    [a] ([FsModel]).  Then reading and writing an open file is reading and writing
    a byte string at the file's offset, and the bytes come from and go to the
    user's memory, however its pages lie. *)

From S2P Require Import Prelude Bytes BlockCache Layout DiskLib DiskInode FileData DirEntry Efs FsInv Vfs VfsSpec VfsDir FsModel.
From S2P Require Import Address FrameAlloc PageTable UserBuf MemorySet Context Pid Kernel Task Manager Processor OsFile UserMem Syscall.

Local Ltac Zify.zify_post_hook ::= Z.to_euclidean_division_equations.

Section files.
Context {D : Type} `{BlockDeviceOk D} `{Platform}.
Context (fs : EasyFileSystem) (T : Z).
Notation K := (K D).
Implicit Types (k : kernel D) (a : afs).

Definition kfs_ok a k : Prop := k_efs k = fs ∧ ∃ s, Refine.R (k_fs k) s ∧ fs_sim fs T a s.

Lemma kfs_ext a k k' : k_efs k' = k_efs k → k_fs k' = k_fs k → kfs_ok a k → kfs_ok a k'.
Proof. unfold kfs_ok. by intros -> ->. Qed.

(** A call of the file system. *)
Lemma fs_call {A} (p : prog A) a k v (a' : afs) :
  kfs_ok a k → (∀ s, fs_sim fs T a s → ∃ s', Disk.arun absent p s = Ok (s', v) ∧ fs_sim fs T a' s') →
  ∃ c, on_fs p k = Ok (set_fs c k, v) ∧ kfs_ok a' (set_fs c k).
Proof.
  intros (He & s & HR & Hsim) Hp. destruct (Hp s Hsim) as (s' & Hr & Hsim').
  pose proof (Refine.crun_sim p (k_fs k) s HR) as Hc. rewrite Hr in Hc. destruct Hc as (c & Hc & HR').
  exists c. split; [by apply (zoom_ok k_fs set_fs)|]. split; [done|]. eauto.
Qed.

(** An open file: its flags, offset and inode. *)
Definition open_at k (id : nat) (r w : bool) (off ino : Z) : Prop :=
  os_inodes k !! id = Some (mkOSInode r w off (inode_at fs ino)).

Lemma get_os_inode_ok k id o : os_inodes k !! id = Some o → get_os_inode id k = Ok (k, o).
Proof. intros Ho. unfold get_os_inode. erewrite bind_ok by reflexivity. by rewrite Ho. Qed.

Definition with_offset (id : nat) (r w : bool) (off ino : Z) k : kernel D :=
  set_os_inodes (<[id := mkOSInode r w off (inode_at fs ino)]> (os_inodes k)) k.

Lemma set_offset_ok k id r w off ino off' :
  open_at k id r w off ino → set_offset id off' k = Ok (with_offset id r w off' ino k, tt).
Proof. intros Ho. unfold set_offset. erewrite bind_ok by (by apply get_os_inode_ok). done. Qed.

Lemma open_with_offset k id r w off ino off' :
  open_at k id r w off ino → open_at (with_offset id r w off' ino k) id r w off' ino.
Proof. intros Ho. unfold open_at. cbn. apply list_lookup_insert_eq. by eapply lookup_lt_Some. Qed.

(** ** [read_all] *)
Lemma read_all_loop_ok a id r w ino ty bs : ∀ fuel k off buf acc,
  kfs_ok a k → nodes a !! ino = Some (ty, bs) → open_at k id r w off ino → 0 ≤ off ≤ Z.of_nat (length bs) →
  Z.of_nat (length bs) < 2 ^ 32 → length buf = 512%nat → Z.of_nat (length bs) - off ≤ 512 * (Z.of_nat fuel - 1) →
  ∃ c, read_all_loop fuel id buf acc k =
      Ok (with_offset id r w (Z.of_nat (length bs)) ino (set_fs c k), acc ++ drop (Z.to_nat off) bs) ∧
    kfs_ok a (with_offset id r w (Z.of_nat (length bs)) ino (set_fs c k)).
Proof.
  induction fuel as [|fuel IH]; intros k off buf acc Hk Hn Ho Hoff Hl Hb Hfuel; [lia|]. cbn [read_all_loop].
  erewrite bind_ok by (by apply get_os_inode_ok). cbn [inode offset].
  destruct (fs_call (Vfs.read_at (inode_at fs ino) off buf) a k (Z.of_nat (length (take (length buf) (drop (Z.to_nat off) bs))),
    splice buf 0 (take (length buf) (drop (Z.to_nat off) bs))) a Hk) as (c & Hr & Hk1).
  { intros s Hsim. exists s. split; [|done]. eapply sim_read; [done..|lia|lia]. }
  run Hr. rewrite Hb. set (chunk := take 512 (drop (Z.to_nat off) bs)).
  assert (length chunk = Nat.min 512 (length bs - Z.to_nat off)) as Hc by (unfold chunk; by rewrite length_take, length_drop).
  destruct (Z.eqb_spec (Z.of_nat (length chunk)) 0) as [Hz|Hz].
  - exists c. rewrite drop_ge, app_nil_r by lia. replace off with (Z.of_nat (length bs)) in Ho by lia.
    assert (with_offset id r w (Z.of_nat (length bs)) ino (set_fs c k) = set_fs c k) as ->; [|done].
    unfold with_offset. rewrite list_insert_id by done. by destruct k.
  - assert (length (splice buf 0 chunk) = 512%nat) as Hsl by (rewrite length_splice; lia).
    run (set_offset_ok (set_fs c k) id r w off ino (wrap64 (off + Z.of_nat (length chunk))) Ho).
    rewrite wrap64_small by (unfold is_u64; lia). set (k1 := with_offset _ _ _ _ _ _).
    erewrite bind_ok by (apply slice_ok; lia).
    replace (take (Z.to_nat (Z.of_nat (length chunk) - 0)) (drop (Z.to_nat 0) (splice buf 0 chunk))) with chunk.
    2:{ unfold splice. rewrite Z.sub_0_r, Nat2Z.id. change (Z.to_nat 0) with 0%nat. rewrite take_0, drop_0. cbn [app]. by rewrite take_app_length. }
    destruct (IH k1 (off + Z.of_nat (length chunk)) (splice buf 0 chunk) (acc ++ chunk)) as (c' & Hr' & Hk'); try done; try lia.
    { by apply (open_with_offset (set_fs c k) id r w off ino). }
    exists c'. unfold k1, with_offset in Hr', Hk' |- *. cbn [os_inodes set_os_inodes set_fs] in *. rewrite list_insert_insert_eq in *.
    split; [|exact Hk']. rewrite Hr', <-app_assoc. do 3 f_equal.
    rewrite Hc. unfold chunk. rewrite <-(take_drop 512 (drop (Z.to_nat off) bs)) at 2. f_equal. rewrite drop_drop.
    destruct (decide (512 ≤ length bs - Z.to_nat off)%nat); [f_equal; lia|]. rewrite !drop_ge by lia. done.
Qed.

(** A new open file on [ino]. *)
Definition opened (r w : bool) (ino : Z) k : kernel D :=
  set_os_inodes (os_inodes k ++ [mkOSInode r w 0 (inode_at fs ino)]) k.

Lemma open_opened r w ino k : open_at (opened r w ino k) (length (os_inodes k)) r w 0 ino.
Proof. unfold open_at. cbn. by rewrite lookup_app_r, Nat.sub_diag by lia. Qed.

Lemma open_rdonly_ok a k name ino :
  kfs_ok a k → dir_lookup (entries a) name = Some ino →
  ∃ c, open_file name RDONLY k = Ok (opened true false ino (set_fs c k), Some (length (os_inodes k))) ∧
    kfs_ok a (opened true false ino (set_fs c k)).
Proof.
  intros Hk Hl. unfold open_file. change (read_write RDONLY) with (true, false). change (flags_contains RDONLY CREATE) with false.
  change (flags_contains RDONLY TRUNC) with false. cbn iota.
  destruct (fs_call (find fs (inode_at fs 0) name) a k (Some (inode_at fs ino)) a Hk) as (c & Hr & Hk1).
  { intros s Hsim. exists s. split; [|done]. erewrite sim_find by done. by rewrite Hl. }
  exists c. split; [|done]. erewrite bind_ok; [|unfold root_call, efs_call; erewrite bind_ok by reflexivity;
    rewrite (proj1 Hk); exact Hr]. cbn iota beta. erewrite bind_ok by reflexivity. erewrite bind_ok by reflexivity. done.
Qed.

Lemma load_file_ok a k name ino ty bs :
  kfs_ok a k → dir_lookup (entries a) name = Some ino → nodes a !! ino = Some (ty, bs) → Z.of_nat (length bs) < 2 ^ 32 →
  Z.of_nat (length bs) ≤ 512 * (Z.of_nat loop_fuel - 1) →
  ∃ c o c' o' id, open_file name RDONLY k = Ok (set_os_inodes o (set_fs c k), Some id) ∧
    read_all id (set_os_inodes o (set_fs c k)) = Ok (set_os_inodes o' (set_fs c' k), bs) ∧ kfs_ok a (set_os_inodes o' (set_fs c' k)).
Proof.
  intros Hk Hl Hn Hlen Hfuel. destruct (open_rdonly_ok a k name ino Hk Hl) as (c & Hr & Hk1).
  destruct (read_all_loop_ok a (length (os_inodes k)) true false ino ty bs loop_fuel (opened true false ino (set_fs c k)) 0
    (replicate 512 Byte.x00) []) as (c' & Hr' & Hk'); try done; try lia.
  { apply (open_opened true false ino (set_fs c k)). }
  eexists c, _, c', _, _. split; [exact Hr|]. split; [exact Hr'|exact Hk'].
Qed.

(** C31: loading a file.  Opening a file by name and calling [read_all], as [exec], [spawn] and the
    start of the initial process do, gives exactly the bytes of the file: reading in
    pieces of 512 bytes until a read returns 0 is reading the whole.  Neither the file
    system nor the process table changes. *)
Theorem read_all_whole_file a k name ino ty bs :
  kfs_ok a k → dir_lookup (entries a) name = Some ino → nodes a !! ino = Some (ty, bs) → Z.of_nat (length bs) < 2 ^ 32 →
  Z.of_nat (length bs) ≤ 512 * (Z.of_nat loop_fuel - 1) →
  ∃ k', (r ← open_file name RDONLY; id ← unwrap r; read_all id) k = Ok (k', bs) ∧ kfs_ok a k' ∧
    tcbs k' = tcbs k ∧ k_mm k' = k_mm k.
Proof.
  intros Hk Hl Hn Hlen Hfuel. destruct (load_file_ok a k name ino ty bs Hk Hl Hn Hlen Hfuel) as (c & o & c' & o' & id & Hr & Hr' & Hk').
  run Hr. erewrite bind_ok by reflexivity. eexists. split; [exact Hr'|]. done.
Qed.

(** ** [OSInode::write] *)
Lemma lookup_pad bs n i : pad bs n !! i = if decide (i < length bs)%nat then bs !! i else if decide (i < n)%nat then Some Byte.x00 else None.
Proof.
  unfold pad. case_decide; [by apply lookup_app_l|]. rewrite lookup_app_r by lia.
  case_decide; [apply lookup_replicate; split; [done|lia]|apply lookup_ge_None; rewrite length_replicate; lia].
Qed.

Lemma lookup_write_bytes bs off buf i :
  write_bytes bs off buf !! i =
    if decide (off ≤ i < off + length buf)%nat then buf !! (i - off)%nat else pad bs (off + length buf) !! i.
Proof. unfold write_bytes, splice. apply lookup_middle. rewrite length_pad. lia. Qed.

Lemma write_bytes_nil bs off : (off ≤ length bs)%nat → write_bytes bs off [] = bs.
Proof.
  intros Hl. apply list_eq. intros i. rewrite lookup_write_bytes, lookup_pad. cbn. rewrite decide_False by lia.
  case_decide; [done|]. rewrite decide_False by lia. symmetry. apply lookup_ge_None. lia.
Qed.

Lemma write_bytes_app bs off b1 b2 :
  write_bytes (write_bytes bs off b1) (off + length b1) b2 = write_bytes bs off (b1 ++ b2).
Proof.
  apply list_eq. intros i. rewrite !lookup_write_bytes, !lookup_pad, length_write_bytes, length_app, !lookup_write_bytes, !lookup_pad.
  repeat (case_decide; try lia); try done.
  - rewrite lookup_app_r by lia. f_equal. lia.
  - by rewrite lookup_app_l by lia.
Qed.

(** The room for what is written. *)
Definition fits (a : afs) (bs : list byte) (off : Z) (len : nat) : Prop :=
  off + Z.of_nat len ≤ MAX_SIZE ∧
  (blocks_for (Nat.max (length bs) (Z.to_nat off + len)) ≤ blocks_for (length bs) + free a)%nat.

Lemma with_bytes_id a ino ty bs : nodes a !! ino = Some (ty, bs) → with_bytes ino ty bs bs a = a.
Proof. intros Hn. unfold with_bytes. rewrite insert_id by done. destruct a. cbn. f_equal. lia. Qed.

Lemma with_bytes_twice a ino ty bs bs1 bs2 :
  (blocks_for (length bs1) ≤ blocks_for (length bs) + free a)%nat →
  with_bytes ino ty bs1 bs2 (with_bytes ino ty bs bs1 a) = with_bytes ino ty bs bs2 a.
Proof. intros Hr. unfold with_bytes. cbn. rewrite insert_insert_eq. f_equal. lia. Qed.

Lemma fits_split a ino ty bs off b1 b2 :
  Z.of_nat (length bs) ≤ MAX_SIZE → 0 ≤ off → fits a bs off (length (b1 ++ b2)) →
  let bs1 := write_bytes bs (Z.to_nat off) b1 in
  Z.of_nat (length bs1) ≤ MAX_SIZE ∧ (blocks_for (length bs1) ≤ blocks_for (length bs) + free a)%nat ∧
  fits (with_bytes ino ty bs bs1 a) bs1 (off + Z.of_nat (length b1)) (length b2).
Proof.
  intros Hl Hoff [Hm Hr]. cbn zeta. rewrite length_app in *.
  assert (length (write_bytes bs (Z.to_nat off) b1) = Nat.max (length bs) (Z.to_nat off + length b1)) as Hl1 by apply length_write_bytes.
  pose proof (blocks_for_mono (length (write_bytes bs (Z.to_nat off) b1)) (Nat.max (length bs) (Z.to_nat off + (length b1 + length b2)))
    ltac:(lia) ltac:(lia)) as Hmono.
  split; [lia|]. split; [lia|]. split; [lia|].
  replace (Nat.max (length (write_bytes bs (Z.to_nat off) b1)) (Z.to_nat (off + Z.of_nat (length b1)) + length b2))
    with (Nat.max (length bs) (Z.to_nat off + (length b1 + length b2))) by lia. cbn. lia.
Qed.

Lemma inode_write_ok id r w ino ty : ∀ buffers a k bs off total data,
  kfs_ok a k → nodes a !! ino = Some (ty, bs) → ino ≠ 0 → open_at k id r w off ino → 0 ≤ off →
  Forall in_page buffers → bytes_at (mem (k_mm k)) (concat (slice_addrs <$> buffers)) data → fits a bs off (length data) →
  0 ≤ total → total + Z.of_nat (length data) < 2 ^ 64 → Z.of_nat (length bs) ≤ MAX_SIZE → (buffers = [] → Z.to_nat off ≤ length bs)%nat →
  ∃ c, inode_write id buffers total k =
      Ok (with_offset id r w (off + Z.of_nat (length data)) ino (set_fs c k), total + Z.of_nat (length data)) ∧
    kfs_ok (with_bytes ino ty bs (write_bytes bs (Z.to_nat off) data) a)
      (with_offset id r w (off + Z.of_nat (length data)) ino (set_fs c k)).
Proof.
  induction buffers as [|sl buffers IH]; intros a k bs off total data Hk Hn Hino Ho Hoff Hpg Hb Hfit Ht0 Ht Hbs Hnil.
  { apply Forall2_nil_inv_l in Hb as ->. exists (k_fs k). cbn [inode_write length]. rewrite !Z.add_0_r.
    assert (with_offset id r w off ino (set_fs (k_fs k) k) = k) as ->.
    { unfold with_offset. cbn [os_inodes set_fs]. rewrite list_insert_id by done. by destruct k. }
    rewrite write_bytes_nil, with_bytes_id by auto. done. }
  apply Forall_cons in Hpg as [Hsl Hpg]. cbn [fmap list_fmap concat] in Hb. apply Forall2_app_inv_l in Hb as (d1 & d2 & Hb1 & Hb2 & ->).
  pose proof (Forall2_length _ _ _ Hb1) as Hl1. rewrite length_slice_addrs in Hl1 by done. pose proof Hsl as [Hf1 Hf2].
  destruct (fits_split a ino ty bs off d1 d2 Hbs Hoff Hfit) as (Hbs1 & Hroom1 & Hfit1). rewrite length_app in *.
  set (bs1 := write_bytes bs (Z.to_nat off) d1) in *. unfold slice_len in Hl1.
  cbn [inode_write]. erewrite bind_ok by (by apply get_os_inode_ok). cbn [inode offset].
  erewrite bind_ok by (apply (zoom_ok k_mm set_mm); by apply read_slice_ok).
  assert (set_mm (k_mm k) k = k) as -> by (by destruct k).
  destruct (fs_call (Vfs.write_at fs (inode_at fs ino) off d1) a k (Z.of_nat (length d1)) (with_bytes ino ty bs bs1 a) Hk) as (c & Hr & Hk1).
  { intros s Hsim. apply sim_write; try done; [lia|]. destruct Hfit. lia. }
  erewrite bind_ok; [|unfold efs_call; erewrite bind_ok by reflexivity; rewrite (proj1 Hk); exact Hr].
  erewrite bind_ok by (apply assert_true, Z.eqb_eq; unfold slice_len; lia).
  run (set_offset_ok (set_fs c k) id r w off ino (wrap64 (off + Z.of_nat (length d1))) Ho). destruct Hfit as [Hmax _].
  unfold MAX_SIZE in Hmax. rewrite !wrap64_small by (unfold is_u64; lia). set (k1 := with_offset _ _ _ _ _ _).
  destruct (IH (with_bytes ino ty bs bs1 a) k1 bs1 (off + Z.of_nat (length d1)) (total + Z.of_nat (length d1)) d2) as (c' & Hr' & Hk');
    try done; try lia.
  { cbn. by rewrite lookup_insert_eq. }
  { by apply (open_with_offset (set_fs c k) id r w off ino). }
  { intros _. unfold bs1. rewrite length_write_bytes. lia. }
  exists c'. unfold k1, with_offset in Hr', Hk' |- *. cbn [os_inodes set_os_inodes set_fs] in *. rewrite list_insert_insert_eq in *.
  rewrite with_bytes_twice in Hk' by done. unfold bs1 in Hk'.
  replace (Z.to_nat (off + Z.of_nat (length d1))) with (Z.to_nat off + length d1)%nat in Hk' by lia. rewrite write_bytes_app in Hk'.
  replace (off + Z.of_nat (length d1 + length d2)) with (off + Z.of_nat (length d1) + Z.of_nat (length d2)) by lia.
  split; [|exact Hk']. rewrite Hr'. do 2 f_equal. lia.
Qed.

(** ** [OSInode::read] *)

(** What a read of [len] bytes at [off] returns. *)
Definition read_bytes (bs : list byte) (off : Z) (len : nat) : list byte := take len (drop (Z.to_nat off) bs).

(** Memory [m'] differs from [m] in that [bs] is at [addrs]. *)
Definition stored (m m' : gmap Z page) (addrs : list Z) (bs : list byte) : Prop :=
  bytes_at m' addrs bs ∧ ∀ pa, pa ∉ addrs → phys_byte m' pa = phys_byte m pa.

Lemma bytes_at_ext m m' addrs bs :
  (∀ pa, pa ∈ addrs → phys_byte m' pa = phys_byte m pa) → bytes_at m addrs bs → bytes_at m' addrs bs.
Proof.
  intros Hm Hb. unfold bytes_at. apply Forall2_same_length_lookup. split; [by eapply Forall2_length|].
  intros i pa b Hpa Hbi. rewrite Hm by (by eapply list_elem_of_lookup_2).
  exact (Forall2_lookup_lr _ _ _ _ _ _ Hb Hpa Hbi).
Qed.

(** Reading [r] into the first bytes of a slice. *)
Lemma stored_slice m m' sl old r :
  in_page sl → NoDup (slice_addrs sl) → bytes_at m (slice_addrs sl) old → (length r ≤ length old)%nat →
  stored m m' (slice_addrs sl) (splice old 0 r) → stored m m' (take (length r) (slice_addrs sl)) r.
Proof.
  intros Hsl Hnd Hold Hl [Hb Hout]. unfold splice in Hb. rewrite take_0, Nat.add_0_l in Hb. cbn [app] in Hb.
  pose proof (Forall2_length _ _ _ Hold) as Hlo. split.
  - apply (Forall2_take _ _ _ (length r)) in Hb. by rewrite take_app_length in Hb.
  - intros pa Hpa. destruct (decide (pa ∈ slice_addrs sl)) as [Hin|]; [|by apply Hout].
    apply list_elem_of_lookup_1 in Hin as [i Hi]. assert (length r ≤ i)%nat as Hir.
    { apply Nat.nlt_ge. intros Hlt. apply Hpa, (list_elem_of_lookup_2 _ i). by rewrite lookup_take_lt. }
    destruct (Forall2_lookup_l _ _ _ _ _ Hold Hi) as (b & Hob & Hpb). rewrite Hpb.
    apply (Forall2_lookup_lr _ _ _ _ _ _ Hb Hi). rewrite lookup_app_r by done. rewrite lookup_drop, <-Hob. f_equal. lia.
Qed.

Lemma stored_app m m1 m2 A1 A2 b1 b2 :
  NoDup (A1 ++ A2) → stored m m1 A1 b1 → stored m1 m2 A2 b2 → stored m m2 (A1 ++ A2) (b1 ++ b2).
Proof.
  intros (_ & Hd & _)%NoDup_app [Hb1 Ho1] [Hb2 Ho2]. split.
  - apply Forall2_app; [|done]. eapply bytes_at_ext; [|exact Hb1]. intros pa Hpa. apply Ho2. by apply Hd.
  - intros pa Hpa. rewrite elem_of_app in Hpa. rewrite Ho2, Ho1; tauto.
Qed.

Lemma length_read_bytes bs off n : length (read_bytes bs off n) = Nat.min n (length bs - Z.to_nat off).
Proof. unfold read_bytes. by rewrite length_take, length_drop. Qed.

Lemma read_bytes_app bs off n1 n2 :
  0 ≤ off → let r1 := read_bytes bs off n1 in
  read_bytes bs off (n1 + n2) = r1 ++ read_bytes bs (off + Z.of_nat (length r1)) n2.
Proof.
  intros Hoff. cbn zeta. rewrite length_read_bytes. unfold read_bytes.
  destruct (decide (n1 ≤ length bs - Z.to_nat off)%nat).
  - replace (Z.to_nat (off + Z.of_nat (n1 `min` (length bs - Z.to_nat off)))) with (Z.to_nat off + n1)%nat by lia.
    rewrite <-drop_drop. rewrite <-(take_drop n1 (drop (Z.to_nat off) bs)) at 1. rewrite take_app_add'; [done|].
    rewrite length_take, length_drop. lia.
  - rewrite (drop_ge bs (Z.to_nat (off + _))) by lia. rewrite take_nil, app_nil_r. by rewrite !take_ge by (rewrite length_drop; lia).
Qed.

(** The addresses that are written, slice by slice. *)
Lemma take_addrs {A} (A1 A2 : list A) n1 n2 :
  (n1 ≤ length A1)%nat → (n1 < length A1 → n2 = 0)%nat → take (n1 + n2) (A1 ++ A2) = take n1 A1 ++ take n2 A2.
Proof.
  intros Hn Hz. destruct (decide (n1 = length A1)) as [->|].
  - by rewrite take_app_add, firstn_all.
  - rewrite Hz by lia. rewrite Nat.add_0_r, take_0, app_nil_r. apply take_app_le. lia.
Qed.

Lemma inode_read_ok a id r w ino ty bs : ∀ buffers k off total old,
  kfs_ok a k → nodes a !! ino = Some (ty, bs) → open_at k id r w off ino → 0 ≤ off → Z.of_nat (length bs) < 2 ^ 32 →
  off + Z.of_nat (length old) < 2 ^ 63 → Forall in_page buffers → NoDup (concat (slice_addrs <$> buffers)) →
  bytes_at (mem (k_mm k)) (concat (slice_addrs <$> buffers)) old → 0 ≤ total → total + Z.of_nat (length old) < 2 ^ 63 →
  let data := read_bytes bs off (length old) in
  ∃ c s, let k' := with_offset id r w (off + Z.of_nat (length data)) ino (set_fs c (set_mm s k)) in
    inode_read id buffers total k = Ok (k', total + Z.of_nat (length data)) ∧ kfs_ok a k' ∧
    frame_allocator s = frame_allocator (k_mm k) ∧
    stored (mem (k_mm k)) (mem s) (take (length data) (concat (slice_addrs <$> buffers))) data.
Proof.
  induction buffers as [|sl buffers IH]; intros k off total old Hk Hn Ho Hoff Hbs Hol Hpg Hnd Hb Ht0 Ht.
  { apply Forall2_nil_inv_l in Hb as ->. exists (k_fs k), (k_mm k). cbn [inode_read read_bytes take length]. unfold read_bytes.
    rewrite take_0. cbn [length]. rewrite !Z.add_0_r.
    assert (with_offset id r w off ino (set_fs (k_fs k) (set_mm (k_mm k) k)) = k) as ->.
    { unfold with_offset. cbn [os_inodes set_fs set_mm]. rewrite list_insert_id by done. by destruct k. }
    split_and!; [done..|]. split; [constructor|done]. }
  apply Forall_cons in Hpg as [Hsl Hpg]. cbn [fmap list_fmap concat] in *. apply Forall2_app_inv_l in Hb as (d1 & d2 & Hb1 & Hb2 & ->).
  pose proof (Forall2_length _ _ _ Hb1) as Hl1. rewrite length_app in *. pose proof Hnd as (Hnd1 & Hdisj & Hnd2)%NoDup_app.
  set (r1 := read_bytes bs off (length d1)).
  assert (length r1 = Nat.min (length d1) (length bs - Z.to_nat off)) as Hr1 by (unfold r1, read_bytes; by rewrite length_take, length_drop).
  assert (length (splice d1 0 r1) = length d1) as Hspl by (rewrite length_splice; lia).
  destruct (fs_call (Vfs.read_at (inode_at fs ino) off d1) a k (Z.of_nat (length r1), splice d1 0 r1) a Hk) as (c & Hr & Hk1).
  { intros s Hsim. exists s. split; [|done]. eapply sim_read; [done..|lia]. }
  destruct (write_slice_ok (k_mm k) sl d1 (splice d1 0 r1) Hsl Hb1 Hspl) as (s1 & Hw & Hfa & Hst).
  apply (stored_slice (mem (k_mm k)) (mem s1) sl d1 r1 Hsl Hnd1 Hb1 ltac:(lia)) in Hst.
  set (k1 := set_mm s1 (set_fs c k)).
  assert (inode_read id (sl :: buffers) total k =
    (if Z.of_nat (length r1) =? 0 then mret total else
      set_offset id (wrap64 (off + Z.of_nat (length r1)));; inode_read id buffers (wrap64 (total + Z.of_nat (length r1)))) k1) as ->.
  { cbn [inode_read]. erewrite bind_ok by (by apply get_os_inode_ok). cbn [inode offset].
    erewrite bind_ok by (apply (zoom_ok k_mm set_mm); by apply read_slice_ok).
    assert (set_mm (k_mm k) k = k) as -> by (by destruct k). run Hr.
    by erewrite bind_ok by (apply (zoom_ok k_mm set_mm); exact Hw). }
  destruct (Z.eqb_spec (Z.of_nat (length r1)) 0) as [Hz|Hz].
  { assert (read_bytes bs off (length d1 + length d2) = []) as ->.
    { apply nil_length_inv. rewrite length_read_bytes. rewrite length_slice_addrs in Hl1 by done.
      unfold in_page in Hsl. unfold slice_len in Hl1. lia. }
    exists c, s1. cbn [length]. rewrite !Z.add_0_r.
    assert (with_offset id r w off ino (set_fs c (set_mm s1 k)) = k1) as ->.
    { unfold with_offset, k1. cbn [os_inodes set_fs set_mm]. rewrite list_insert_id by done. by destruct k. }
    split_and!; [done..|]. replace r1 with (@nil byte) in Hst by (symmetry; apply nil_length_inv; lia).
    cbn [length] in Hst. by rewrite take_0 in *. }
  run (set_offset_ok k1 id r w off ino (wrap64 (off + Z.of_nat (length r1))) Ho). rewrite !wrap64_small by (unfold is_u64; lia).
  set (k2 := with_offset _ _ _ _ _ _). destruct Hst as [Hst1 Hout1].
  destruct (IH k2 (off + Z.of_nat (length r1)) (total + Z.of_nat (length r1)) d2) as (c' & s2 & Hr' & Hk' & Hfa' & Hst'); try done; try lia.
  { by apply (open_with_offset k1 id r w off ino). }
  { eapply bytes_at_ext; [|exact Hb2]. intros pa Hpa. apply Hout1. intros Hin%elem_of_take. destruct Hin as (j & Hj & _).
    apply (Hdisj pa); [by eapply list_elem_of_lookup_2|done]. }
  rewrite read_bytes_app by done. fold r1. set (r2 := read_bytes bs (off + Z.of_nat (length r1)) (length d2)) in *.
  exists c', s2. rewrite length_app. unfold k2, k1, with_offset in Hr', Hk' |- *. cbn [os_inodes set_os_inodes set_fs set_mm k_mm] in *.
  rewrite list_insert_insert_eq in *. rewrite Nat2Z.inj_add, !Z.add_assoc. split; [exact Hr'|]. split; [exact Hk'|]. split; [by rewrite Hfa'|].
  assert (take (length r1 + length r2) (slice_addrs sl ++ concat (slice_addrs <$> buffers)) =
    take (length r1) (slice_addrs sl) ++ take (length r2) (concat (slice_addrs <$> buffers))) as Htk.
  { apply take_addrs; [lia|]. intros Hlt. unfold r2. rewrite length_read_bytes. lia. }
  rewrite Htk. apply (stored_app _ (mem s1)); [|done|exact Hst']. rewrite <-Htk. rewrite <-(take_drop (length r1 + length r2) (_ ++ _)) in Hnd.
  by apply NoDup_app in Hnd as (? & _).
Qed.

(** ** The system calls *)

(** The current task, its page table as a function, and the file behind its descriptor [fd]. *)
Record user_file k (t : nat) (i : TaskControlBlockInner) (lo : Z) (tr : gmap Z Z) (fd id : nat) : Prop := {
  uf_current : current_ k = Some t;
  uf_inner : inner_of k t = Some i;
  uf_table : pt_rep lo (k_mm k) (page_table (memory_set i)) tr;
  uf_fd : fd_table i !! fd = Some (Some (OSInodeRef id));
}.

(** [data] is the user's memory at [buf]. *)
Definition user_data k (tr : gmap Z Z) (buf : Z) (data : list byte) : Prop :=
  Forall2 (λ va b, user_byte (mem (k_mm k)) tr va = Some b) (range buf (buf + Z.of_nat (length data))) data.

Lemma fd_lookup_ok i (fd : nat) f : fd_table i !! fd = Some (Some f) → fd_lookup i (Z.of_nat fd) = Some f.
Proof.
  intros Hf. unfold fd_lookup. pose proof (lookup_lt_Some _ _ _ Hf). destruct (Z.leb_spec (Z.of_nat (length (fd_table i))) (Z.of_nat fd)); [lia|].
  by rewrite Nat2Z.id, Hf.
Qed.

(** Up to the operation on the file, [read] and [write] are the same. *)
Lemma user_file_buffers k t i lo tr fd id buf data :
  user_file k t i lo tr fd id → user_data k tr buf data → 0 ≤ buf → buf + Z.of_nat (length data) ≤ 2 ^ 64 - 4096 →
  ∃ v, concat (slice_addrs <$> v) = phys_of tr <$> range buf (buf + Z.of_nat (length data)) ∧ Forall in_page v ∧
    bytes_at (mem (k_mm k)) (concat (slice_addrs <$> v)) data ∧
    ∀ {A} (f : FileRef → list page_slice → K A) (none : A),
      (token ← current_user_token; task ← the_task; r ← read_inner task (λ i, fd_lookup i (Z.of_nat fd));
       match r with
       | Some file => buffers ← on_mm (translated_byte_buffer token buf (Z.of_nat (length data))); f file buffers
       | None => mret none
       end) k = f (OSInodeRef id) v k.
Proof.
  intros [Hc Hi Hpt Hfd] Hu Hbuf Hend. destruct (user_bytes_at _ _ _ _ _ Hu) as [Hb Hm].
  destruct (run_translated_byte_buffer lo (k_mm k) _ tr buf (Z.of_nat (length data)) Hpt Hbuf ltac:(lia) Hend Hm) as (v & Hr & Hv & Hpg).
  exists v. split; [done|]. split; [done|]. split; [by rewrite Hv|]. intros A f none.
  assert (the_task k = Ok (k, t)) as Ht by (unfold the_task; erewrite bind_ok by reflexivity; by rewrite Hc).
  erewrite bind_ok by (unfold current_user_token; run Ht; by apply (read_inner_ok k t i)). run Ht.
  erewrite bind_ok by (by apply (read_inner_ok k t i)). rewrite (fd_lookup_ok _ _ _ Hfd).
  erewrite bind_ok by (apply (zoom_ok k_mm set_mm); exact Hr). by destruct k.
Qed.

(** C9: writing a file.  [write] on a descriptor of an open file takes the bytes of the user's buffer,
    in the order of its virtual addresses however its pages lie in memory, and puts them
    into the file at its offset, which moves behind them; it returns their number.  The kernel's state changes
    only in the file system [c] and in this offset: every other file keeps its bytes, every other open file its offset,
    and the processes, the scheduler and the memory stay.  (It holds for every [readable] and
    [writable]: the call does not look at them.) *)
Theorem sys_write_writes a k t i lo tr fd id r w off ino ty bs buf data :
  kfs_ok a k → user_file k t i lo tr fd id → user_data k tr buf data → 0 ≤ buf → buf + Z.of_nat (length data) ≤ 2 ^ 64 - 4096 →
  open_at k id r w off ino → 0 ≤ off → nodes a !! ino = Some (ty, bs) → ino ≠ 0 → Z.of_nat (length bs) ≤ MAX_SIZE →
  (0 < length data)%nat → fits a bs off (length data) →
  ∃ c k', sys_write (Z.of_nat fd) buf (Z.of_nat (length data)) k = Ok (k', Z.of_nat (length data)) ∧
    k' = with_offset id r w (off + Z.of_nat (length data)) ino (set_fs c k) ∧
    kfs_ok (with_bytes ino ty bs (write_bytes bs (Z.to_nat off) data) a) k' ∧
    open_at k' id r w (off + Z.of_nat (length data)) ino ∧ (∀ id', id' ≠ id → os_inodes k' !! id' = os_inodes k !! id') ∧
    tcbs k' = tcbs k ∧ k_mm k' = k_mm k ∧ current_ k' = current_ k ∧ ready_queue k' = ready_queue k.
Proof.
  intros Hk Huf Hu Hbuf Hend Ho Hoff Hn Hino Hbs Hlen Hfit.
  destruct (user_file_buffers k t i lo tr fd id buf data Huf Hu Hbuf Hend) as (v & Hv & Hpg & Hb & Hrun).
  unfold sys_write. rewrite Hrun. cbn [file_write]. pose proof Hfit as [Hmax _]. unfold MAX_SIZE in Hmax.
  destruct (inode_write_ok id r w ino ty v a k bs off 0 data) as (c & Hw & Hk'); try done; try lia.
  { intros ->. apply Forall2_nil_inv_l in Hb as ->. cbn in Hlen. lia. }
  run Hw. exists c. eexists. unfold to_isize. rewrite (proj2 (Z.ltb_lt _ _)) by lia. split; [reflexivity|]. split; [reflexivity|].
  split; [exact Hk'|]. split; [by apply (open_with_offset (set_fs c k) id r w off)|]. split; [|done].
  intros id' Hne. by apply list_lookup_insert_ne.
Qed.

(** C10: reading a file.  [read] on a descriptor of an open file copies the file's bytes from its
    offset into the user's buffer: as many as fit, or as there are, and their number is
    returned.  The rest of the buffer and all other memory keep their bytes, and so does the file. *)
Theorem sys_read_reads a k t i lo tr fd id r w off ino ty bs buf old :
  kfs_ok a k → user_file k t i lo tr fd id → user_data k tr buf old → 0 ≤ buf → buf + Z.of_nat (length old) ≤ 2 ^ 64 - 4096 →
  NoDup (phys_of tr <$> range buf (buf + Z.of_nat (length old))) →
  open_at k id r w off ino → 0 ≤ off → nodes a !! ino = Some (ty, bs) → Z.of_nat (length bs) < 2 ^ 32 →
  off + Z.of_nat (length old) < 2 ^ 63 →
  let data := read_bytes bs off (length old) in
  ∃ k', sys_read (Z.of_nat fd) buf (Z.of_nat (length old)) k = Ok (k', Returned (Z.of_nat (length data))) ∧ kfs_ok a k' ∧
    open_at k' id r w (off + Z.of_nat (length data)) ino ∧ tcbs k' = tcbs k ∧
    frame_allocator (k_mm k') = frame_allocator (k_mm k) ∧
    stored (mem (k_mm k)) (mem (k_mm k')) (phys_of tr <$> range buf (buf + Z.of_nat (length data))) data.
Proof.
  intros Hk Huf Hu Hbuf Hend Hnd Ho Hoff Hn Hbs Hmax data.
  destruct (user_file_buffers k t i lo tr fd id buf old Huf Hu Hbuf Hend) as (v & Hv & Hpg & Hb & Hrun).
  assert (length data ≤ length old)%nat as Hl by (unfold data; rewrite length_read_bytes; lia).
  unfold sys_read. rewrite Hrun. cbn [file_read]. rewrite <-Hv in Hnd.
  destruct (inode_read_ok a id r w ino ty bs v k off 0 old) as (c & s & Hr & Hk' & Hfa & Hst); try done; try lia. fold data in Hr, Hk', Hst.
  erewrite bind_ok by (by erewrite bind_ok by exact Hr). eexists. unfold to_isize. rewrite (proj2 (Z.ltb_lt _ _)) by lia.
  split; [reflexivity|]. split; [exact Hk'|]. split; [by apply (open_with_offset (set_fs c (set_mm s k)) id r w off)|].
  split; [done|]. split; [done|]. rewrite Hv in Hst. cbn [k_mm with_offset set_os_inodes set_fs set_mm].
  replace (phys_of tr <$> range buf (buf + Z.of_nat (length data))) with
    (take (length data) (phys_of tr <$> range buf (buf + Z.of_nat (length old)))); [done|].
  rewrite <-fmap_take, (range_split buf (buf + Z.of_nat (length data))) by lia. f_equal. apply take_app_length'.
  unfold range. rewrite length_seqZ. lia.
Qed.
End files.
