(* ===== verification/ProcSpec.v ===== *)
(** * System calls on processes

    What [fork], [spawn], [exec] and [exit] of [os/src/syscall/process.rs] do to the
    caller, to the process they make, and to the memory of all processes. *)

From S2P Require Import Prelude Bytes Console BlockCache Layout DirEntry Efs Vfs VfsSpec VfsDir FsModel Address FrameAlloc PageTable UserBuf MemorySet.
From S2P Require Import MemSpec ForkSpec AddrSpace Loader Context Pid Kernel Task Spaces Manager Processor OsFile UserMem Syscall FileSpec.

Section calls.
Context {D : Type} `{BlockDevice D} `{Platform}.
Context (lo : Z).
Notation K := (K D).
Implicit Types k : kernel D.

Lemma to_isize_small v : 0 ≤ v < 2 ^ 63 → to_isize v = v.
Proof. intros Hv. unfold to_isize. rewrite (proj2 (Z.ltb_lt _ _)); lia. Qed.

Lemma inner_of_set_mm s k t : inner_of (set_mm s k) t = inner_of k t.
Proof. done. Qed.

(** ** [fork] *)

(** C5: [fork].  With frames and an identifier to spare, the call returns the identifier
    of the child, which was not in use.  The child has the parent's memory, byte for byte, with the
    same permissions, in frames of its own, the parent's files, and the parent's context
    but for the kernel stack and the result 0; it is last in the ready queue and the last
    child of the parent.  The parent still runs, and no page that a process had before changes. *)
Theorem sys_fork_splits k trk l t i tru ta cx :
  platform_ok → kspaces_ok lo k trk ((memory_set i, tru) :: l) → current_ k = Some t → process_at k t i tru ta cx →
  fork_ok (k_mm k) (memory_set i) strampoline → (9 + 3 * npages (areas (memory_set i)) ≤ avail (frame_allocator (k_mm k)))%nat →
  pid_current (PID_ALLOCATOR k) < MAX_PID → tcbs k !! next_tcb k = None →
  ∃ k' trk' pid ms tr g, let child := next_tcb k in
    sys_fork k = Ok (k', pid) ∧ ¬ pid_used (PID_ALLOCATOR k) pid ∧
    inner_of k' child = Some (new_inner g (base_size i) (get_top pid) ms (Some t) (fd_table i)) ∧
    inner_of k' t = Some (with_children (children i ++ [child]) i) ∧
    current_ k' = Some t ∧ ready_queue k' = ready_queue k ++ [child] ∧
    kspaces_ok lo k' trk' ((ms, tr) :: (memory_set i, tru) :: l) ∧ same_memory (mem (k_mm k')) (memory_set i) tru tr ∧
    tr !! page_key (floor TRAP_CONTEXT) = Some (area_pte ta g) ∧
    get_cx g (k_mm k') = Ok (k_mm k', set_x 10 0 (with_kernel_sp (get_top pid) cx)) ∧
    get_cx (trap_cx_ppn i) (k_mm k') = Ok (k_mm k', cx) ∧
    ∀ p, p ∈ all_owned ((memory_set i, tru) :: l) → mem (k_mm k') !! p = mem (k_mm k) !! p.
Proof.
  intros Hpl Hks Hc Hp Hfo Hav Hmax Hnone. pose proof Hp as [Hi [Hta Htv] Htp Hcx].
  destruct (run_fork lo k trk l t i tru ta cx Hpl Hks Hp Hfo Hav Hmax Hnone)
    as (pid & pa & s & ksp & trk' & ms & tr & g & pg & Hr & Hst & Htg & Hmg & Hlg & Hcp & Hcok & Hall). cbn zeta in Hr, Hst, Hall.
  set (child := mkTcb pid _) in *. set (parent := with_children _ i) in *.
  set (kf := λ s, set_mm s (put_inner t parent (add_tcb child (set_kernel_space ksp (set_pids pa k))))) in *.
  change (fork t k = Ok (kf s, next_tcb k)) in Hr.
  pose proof (cx_ok_set_x 10 0 _ Hcok ltac:(by vm_compute)) as Hcok2.
  destruct (set_cx_ok g pg s _ Hmg Hlg Hcok2) as (pg2 & Hset & Hcp2 & Hl2 & _).
  destruct (Hall pg2 Hl2) as (Hks2 & Hsame & Hmem). set (s2 := with_mem (<[g := pg2]> (mem s)) s) in *.
  pose proof Hi as [pt Ht]%inner_of_Some. assert (t ≠ next_tcb k) as Hne by congruence.
  assert (∀ s, tcbs (kf s) = <[t := mkTcb pt (mkCell parent false)]> (<[next_tcb k := child]> (tcbs k))) as Htcbs.
  { intros s'. unfold kf, put_inner. cbn [tcbs add_tcb set_kernel_space set_pids]. by rewrite lookup_insert_ne, Ht by done. }
  assert (∀ s, tcbs (kf s) !! next_tcb k = Some child) as Hch by (intros; rewrite Htcbs, lookup_insert_ne, lookup_insert_eq by done; done).
  assert (∀ s, current_ (kf s) = current_ k ∧ ready_queue (kf s) = ready_queue k) as Hrest
    by (intros; unfold kf, put_inner; cbn; by case_match).
  exists (set_queue (ready_queue k ++ [next_tcb k]) (kf s2)), trk', pid, ms, tr, g. cbn zeta.
  split; [|split; [apply Hst|split; [|split; [|split; [by rewrite <-Hc; apply (Hrest s2)|split; [done|split; [by apply (kspaces_ext lo (kf s2))|]]]]]]].
  - unfold sys_fork, the_task, current_task. erewrite bind_ok; [|erewrite bind_ok by reflexivity; rewrite Hc; reflexivity]. run Hr.
    erewrite bind_ok by (by apply tcb_of_ok). unfold clear_a0.
    erewrite bind_ok; [|erewrite bind_ok by (apply read_inner_ok, inner_of_Some; exists pid; apply Hch);
      erewrite bind_ok by (apply (zoom_ok k_mm set_mm), (get_cx_page g pg); [exact Hmg|exact Hcp|exact Hcok]);
      apply (zoom_ok k_mm set_mm); exact Hset].
    unfold add_task, add. erewrite bind_ok by reflexivity. cbn [tcb_pid child]. rewrite to_isize_small.
    + change (ready_queue (set_mm _ _)) with (ready_queue (kf s)). by rewrite (proj2 (Hrest s)).
    + pose proof (sm_pid _ _ _ _ Hst) as [Hr0 _]. unfold MAX_PID in Hr0. lia.
  - apply inner_of_Some. exists pid. apply Hch.
  - apply inner_of_Some. exists pt. change (tcbs (set_queue _ (kf s2))) with (tcbs (kf s2)). by rewrite Htcbs, lookup_insert_eq.
  - split; [exact Hsame|]. split; [exact Htg|]. split; [|split; [|exact Hmem]].
    + apply (get_cx_page g pg2); [apply lookup_insert_eq|exact Hcp2|exact Hcok2].
    + apply kspaces_ok_inv in Hks as [Hinv _].
      destruct (process_page lo k t i tru ta cx Hinv) as (pg0 & Hin & Hm0 & _ & Hcp0 & Hcok0); [|done|].
      { by apply (proj1 (Forall_forall _ _) (fo_framed _ _ _ Hfo)). }
      apply (get_cx_page _ pg0); [|done|done]. rewrite <-Hm0. apply Hmem.
      apply (all_owned_elem _ (memory_set i, tru)); [by left|by apply area_frames_owned].
Qed.

(** ** A program in a new space *)
Lemma load_space k trk l elf_data elf :
  platform_ok → kspaces_ok lo k trk l → elf_new elf_data = Some elf → elf_ok elf_data elf →
  (3 + 3 * seg_pages (elf_segs elf_data elf) ≤ avail (frame_allocator (k_mm k)))%nat →
  ∃ s ms tr f, (on_mm (from_elf strampoline elf_new elf_data) : K _) k = Ok (set_mm s k, (ms, user_top elf_data elf, elf_entry elf)) ∧
    kspaces_ok lo (set_mm s k) trk ((ms, tr) :: l) ∧ program_space lo strampoline elf_data elf s ms tr ∧
    trap_cx_page_of ms (set_mm s k) = Ok (set_mm s k, f) ∧
    tr !! page_key (floor TRAP_CONTEXT) = Some (pte_new f (Z.lor (Z.lor PERM_R PERM_W) FLAG_V)) ∧
    pte_ppn <$> tr !! page_key (floor TRAP_CONTEXT) = Some f ∧
    (∀ p, p ∈ all_owned ((KERNEL_SPACE k, trk) :: l) → mem s !! p = mem (k_mm k) !! p) ∧
    (avail (frame_allocator s) + length (owned ms) = avail (frame_allocator (k_mm k)))%nat.
Proof.
  intros Hpl [Hsp Hkeys Hpids] Helf Hok Hav.
  destruct (run_from_elf lo strampoline (k_mm k) elf_new elf_data elf) as (s & ms & tr & Hr & Hh); [apply Hsp|apply Hpl|done|done|done|].
  fold (program_end elf_data elf) in Hr. fold (user_top elf_data elf) in Hr. pose proof (holds_program _ _ _ _ _ _ _ _ Hh) as Hps.
  destruct (spaces_new _ _ _ _ _ _ Hsp (ho_step _ _ _ _ _ _ _ Hh) (ps_inv _ _ _ _ _ _ _ Hps)) as [Hsp1 Hm1].
  destruct (program_trap_page _ _ _ _ _ _ _ Hps) as (f & _ & Htf & Hpf & _).
  exists s, ms, tr, f. split; [by apply (zoom_ok k_mm set_mm)|]. split; [|split; [done|split; [|split; [exact Htf|split; [|split; [exact Hm1|]]]]]].
  - split; [eapply spaces_perm; [|exact Hsp1]; constructor|done|done].
  - rewrite <-Hpf. eapply trap_cx_page_of_ok; [apply Hps|exact Htf].
  - rewrite Htf. cbn. by f_equal.
  - pose proof (step_avail _ _ _ _ _ (ho_step _ _ _ _ _ _ _ Hh)) as Ha. cbn [length] in Ha. lia.
Qed.

(** A context is written to the page of the trap context. *)
Lemma write_cx k trk l ms tr f elf_data elf cx :
  kspaces_ok lo k trk ((ms, tr) :: l) → program_space lo strampoline elf_data elf (k_mm k) ms tr →
  pte_ppn <$> tr !! page_key (floor TRAP_CONTEXT) = Some f → cx_ok cx →
  ∃ s, set_cx f cx (k_mm k) = Ok (s, tt) ∧ kspaces_ok lo (set_mm s k) trk ((ms, tr) :: l) ∧
    program_space lo strampoline elf_data elf s ms tr ∧ get_cx f s = Ok (s, cx) ∧
    frame_allocator s = frame_allocator (k_mm k) ∧ ∀ p, p ∈ all_owned l → mem s !! p = mem (k_mm k) !! p.
Proof.
  intros [Hsp Hkeys Hpids] Hps Htr Hcx.
  destruct (program_trap_page _ _ _ _ _ _ _ Hps) as (f' & pg & Htf & Hpf & Hmf & Hlf & Hfo & Hw).
  rewrite Htf in Htr. assert (f' = f) as -> by (rewrite <-Hpf; apply (inj Some); exact Htr).
  destruct (set_cx_ok f pg (k_mm k) cx Hmf Hlf Hcx) as (pg' & Hset & Hpg & Hl' & _). specialize (Hw pg' Hl').
  apply (spaces_perm _ _ _ ((ms, tr) :: (KERNEL_SPACE k, trk) :: l)) in Hsp; [|constructor].
  destruct (spaces_write _ _ _ _ _ f pg' Hsp Hfo Hl' (ps_inv _ _ _ _ _ _ _ Hw)) as [Hsp3 Hm3].
  eexists. split; [exact Hset|]. split; [|split; [exact Hw|split; [|split; [done|]]]].
  - split; [eapply spaces_perm; [|exact Hsp3]; constructor|done|done].
  - apply (get_cx_page f pg'); [cbn; apply lookup_insert_eq|done|done].
  - intros p Hp. apply Hm3, elem_of_app. by right.
Qed.

(** A space is dropped. *)
Lemma drop_areas_ok l : ∀ s rest,
  mm_ok lo s → owns lo s (concat (area_frames <$> l) ++ rest) →
  ∃ s', drop_areas l s = Ok (s', tt) ∧ mm_step lo s (concat (area_frames <$> l) ++ rest) s' rest ∧ mem s' = mem s.
Proof.
  induction l as [|a l IH]; intros s rest Hmm Ho.
  { exists s. split; [done|]. split; [by apply mm_step_refl|done]. }
  cbn [fmap list_fmap concat] in Ho |- *. rewrite <-app_assoc in Ho |- *.
  destruct (drop_frames_ok lo (area_frames a) s _ Hmm Ho) as (s1 & Hr1 & Hs1 & Hm1).
  destruct (IH s1 rest (step_ok _ _ _ _ _ Hs1) (step_owns _ _ _ _ _ Hs1)) as (s2 & Hr2 & Hs2 & Hm2).
  exists s2. split; [|split; [by eapply mm_step_trans|congruence]]. unfold drop_areas. cbn [for_]. by erewrite bind_ok by exact Hr1.
Qed.

Lemma drop_space k trk ms tr l :
  kspaces_ok lo k trk ((ms, tr) :: l) →
  ∃ s, drop_memory_set ms (k_mm k) = Ok (s, tt) ∧ kspaces_ok lo (set_mm s k) trk l ∧ mem s = mem (k_mm k) ∧
    (∀ p, p ∈ owned ms → ¬ in_use lo (frame_allocator s) p) ∧
    (avail (frame_allocator s) = avail (frame_allocator (k_mm k)) + length (owned ms))%nat.
Proof.
  intros [Hsp Hkeys Hpids]. apply (spaces_perm _ _ _ ((ms, tr) :: (KERNEL_SPACE k, trk) :: l)) in Hsp; [|constructor].
  pose proof Hsp as (Hi & Hl & Hd)%spaces_cons. pose proof (ms_owns _ _ _ _ Hi) as Ho. unfold owned in Ho.
  destruct (drop_frames_ok lo (frames (page_table ms)) (k_mm k) _ (so_mm _ _ _ Hsp) Ho) as (s1 & Hr1 & Hs1 & Hm1).
  destruct (drop_areas_ok (areas ms) s1 [] (step_ok _ _ _ _ _ Hs1)) as (s2 & Hr2 & Hs2 & Hm2);
    [rewrite app_nil_r; apply (step_owns _ _ _ _ _ Hs1)|].
  rewrite app_nil_r in Hs2. pose proof (mm_step_trans _ _ _ _ _ _ _ Hs1 Hs2) as Hs. fold (owned ms) in Hs.
  destruct (spaces_step _ _ _ _ _ _ Hl Hs Hd) as (Hl' & _ & _). exists s2.
  split; [unfold drop_memory_set; by run Hr1|]. split; [by split|]. split; [congruence|]. split.
  - intros p Hp. apply (step_freed _ _ _ _ _ Hs p Hp). by intros ?%elem_of_nil.
  - pose proof (step_avail _ _ _ _ _ Hs) as Ha. cbn [length] in Ha. lia.
Qed.

(** The pages of a program are not page 0 of memory, which the kernel takes for a null pointer. *)
Lemma program_no_page_zero elf_data elf s ms tr :
  0 < lo → platform_ok → floor strampoline ≠ 0 → elf_ok elf_data elf → program_space lo strampoline elf_data elf s ms tr → no_page_zero tr.
Proof.
  intros Hlo [[_ Hst] _ _] Hne Hok Hps v w Hw. destruct (ps_exact _ _ _ _ _ _ _ Hps v) as [->|Hin]; [eauto|..].
  { rewrite (ps_tramp _ _ _ _ _ _ _ Hps) in Hw. injection Hw as <-. unfold trampoline_pte.
    rewrite pte_ppn_new; [done| |by vm_compute]. unfold floor, PAGE_SIZE. split; [apply Z.div_pos; lia|apply Z.div_lt_upper_bound; lia]. }
  destruct (program_areas _ _ _ _ _ _ _ Hok Hps) as (Hty & Hkeys & _). rewrite <-Hkeys in Hin.
  apply elem_of_concat_fmap in Hin as (a & Ha & (u & -> & Hu)%list_elem_of_fmap).
  assert (floor (u * 4096) = u) as Hfl by (unfold floor, PAGE_SIZE; by rewrite Z.div_mul).
  destruct (area_va lo s ms tr a (u * 4096) (ps_inv _ _ _ _ _ _ _ Hps) Ha) as (f & pg & Hf & Htf & Hpf & _);
    [by apply (proj1 (Forall_forall _ _) Hty)|by rewrite Hfl|].
  rewrite Hfl, Hw in Htf. injection Htf as ->. rewrite Hpf.
  destruct (ms_owns _ _ _ _ (ps_inv _ _ _ _ _ _ _ Hps)) as [_ Hu']. destruct (Hu' f) as [Hr _]; [|lia].
  apply area_frames_owned, elem_of_concat_fmap. exists a. split; [done|by eapply list_elem_of_lookup_2].
Qed.

(** ** [spawn] *)
Lemma put_inner_set_mm t i s k : put_inner t i (set_mm s k) = set_mm s (put_inner t i k).
Proof. unfold put_inner. cbn. by destruct (tcbs k !! t). Qed.
Lemma k_mm_put_inner t i k : k_mm (put_inner t i k) = k_mm k.
Proof. unfold put_inner. by destruct (tcbs k !! t). Qed.

(** Control blocks after a child was made. *)
Lemma child_made k t i i' child :
  inner_of k t = Some i → tcbs k !! next_tcb k = None → let k' := put_inner t i' (add_tcb child k) in
  tcbs k' !! next_tcb k = Some child ∧ inner_of k' t = Some i' ∧ ready_queue k' = ready_queue k ∧ current_ k' = current_ k ∧
  k_efs k' = k_efs k ∧ k_fs k' = k_fs k ∧ INITPROC k' = INITPROC k.
Proof.
  intros [pid Ht]%inner_of_Some Hn k'. assert (t ≠ next_tcb k) as Hne by congruence. unfold k', put_inner. cbn.
  rewrite (lookup_insert_ne _ (next_tcb k) t), Ht by done. cbn.
  split; [by rewrite lookup_insert_ne, lookup_insert_eq by done|]. split; [|done].
  apply inner_of_Some. exists pid. cbn. by rewrite lookup_insert_eq.
Qed.

Lemma run_spawn k trk l t i elf_data elf :
  platform_ok → kspaces_ok lo k trk l → inner_of k t = Some i → tcbs k !! next_tcb k = None →
  pid_current (PID_ALLOCATOR k) < MAX_PID → elf_new elf_data = Some elf → elf_ok elf_data elf → is_u64 (elf_entry elf) →
  (9 + 3 * seg_pages (elf_segs elf_data elf) ≤ avail (frame_allocator (k_mm k)))%nat →
  ∃ pid pa s ksp trk' ms tr f,
    let child := mkTcb pid (cell_new (new_inner f (user_top elf_data elf) (get_top pid) ms (Some t) std_fds)) in
    let k' := set_mm s (put_inner t (with_children (children i ++ [next_tcb k]) i) (add_tcb child (set_kernel_space ksp (set_pids pa k)))) in
    spawn t elf_data k = Ok (k', next_tcb k) ∧ stack_made k pid k' trk' ∧ kspaces_ok lo k' trk' ((ms, tr) :: l) ∧
    program_space lo strampoline elf_data elf s ms tr ∧
    tr !! page_key (floor TRAP_CONTEXT) = Some (pte_new f (Z.lor (Z.lor PERM_R PERM_W) FLAG_V)) ∧
    pte_ppn <$> tr !! page_key (floor TRAP_CONTEXT) = Some f ∧
    get_cx f s = Ok (s, start_context elf_data elf (ms_token ksp) pid) ∧
    ∀ p, p ∈ all_owned l → mem s !! p = mem (k_mm k) !! p.
Proof.
  intros Hpl Hks Hi Hnone Hmax Helf Hok Hen Hav.
  destruct (run_new_stack lo k trk l Hks Hmax) as (pa & pid & s1 & ksp & trk' & Hp1 & Hr1 & Hst & Hks1 & Hm1 & Hav1); [lia|].
  cbn zeta in Hr1, Hst, Hks1. set (k1 := set_kernel_space ksp (set_mm s1 (set_pids pa k))) in *.
  destruct (load_space k1 trk' l elf_data elf Hpl Hks1 Helf Hok) as (s2 & ms & tr & f & Hr2 & Hks2 & Hps2 & Htp & Htr & Hppn & Hm2 & _);
    [change (k_mm k1) with s1; lia|].
  set (k2 := set_mm s2 k1) in *. set (child := mkTcb pid (cell_new (new_inner f (user_top elf_data elf) (get_top pid) ms (Some t) std_fds))).
  set (parent := with_children (children i ++ [next_tcb k]) i).
  assert (cx_ok (start_context elf_data elf (ms_token ksp) pid)) as Hcx.
  { apply start_context_ok; try done; [|apply Hst]. destruct Hks1 as [Hsp _ _]. apply spaces_cons in Hsp as (Hik & _). by eapply token_u64. }
  destruct (write_cx k2 trk' l ms tr f elf_data elf _ Hks2 Hps2 Hppn Hcx) as (s3 & Hset & Hks3 & Hps3 & Hget & _ & Hm3).
  exists pid, pa, s3, ksp, trk', ms, tr, f. cbn zeta. fold child. fold parent.
  set (kc := add_tcb child (set_kernel_space ksp (set_pids pa k))).
  assert (inner_of (add_tcb child k2) t = Some i) as Hi2.
  { apply inner_of_Some in Hi as [pt Ht]. apply inner_of_Some. exists pt. cbn. rewrite lookup_insert_ne by congruence. exact Ht. }
  split; [|split; [|split; [|split; [done|split; [done|split; [done|split; [done|]]]]]]].
  - unfold spawn. run Hp1. run Hr1. run Hr2. run Htp. erewrite bind_ok by reflexivity. fold child. change (next_tcb k2) with (next_tcb k).
    erewrite bind_ok by (by apply borrow_ok).
    erewrite bind_ok.
    2:{ unfold init_trap_cx, kernel_token. erewrite bind_ok by (erewrite bind_ok by reflexivity; reflexivity).
        apply (zoom_ok k_mm set_mm). replace (k_mm (lock t (add_tcb child k2))) with (k_mm k2) by (unfold lock; by case_match).
        replace (KERNEL_SPACE (lock t (add_tcb child k2))) with ksp by (unfold lock; by case_match). exact Hset. }
    erewrite bind_ok.
    2:{ apply release_ok. apply inner_of_Some in Hi2 as [pt Ht]. unfold lock. rewrite Ht. cbn. rewrite lookup_insert_eq. eauto. }
    fold parent. rewrite put_inner_set_mm, put_inner_lock. change (add_tcb child k2) with (set_mm s2 kc). by rewrite put_inner_set_mm.
  - destruct Hst as [H1 H2 H3 H4 H5].
    split; cbn [PID_ALLOCATOR KERNEL_SPACE set_mm]; rewrite ?put_inner_pids, ?put_inner_kernel_space; done.
  - apply (kspaces_ext lo (set_mm s3 k2)); [done| | |done]; cbn; by rewrite ?put_inner_kernel_space, ?put_inner_pids.
  - intros p Hp. rewrite Hm3 by done. change (k_mm k2) with s2. rewrite Hm2 by (apply elem_of_app; by right). by apply Hm1.
Qed.

(** ** [exec] *)
Lemma run_exec k trk l t i tru pid elf_data elf :
  platform_ok → kspaces_ok lo k trk ((memory_set i, tru) :: l) → tcbs k !! t = Some (mkTcb pid (mkCell i false)) → 0 ≤ pid < MAX_PID →
  elf_new elf_data = Some elf → elf_ok elf_data elf → is_u64 (elf_entry elf) →
  (3 + 3 * seg_pages (elf_segs elf_data elf) ≤ avail (frame_allocator (k_mm k)))%nat →
  ∃ s ms tr f, let k' := set_mm s (put_inner t (with_trap_cx_ppn f (with_memory_set ms i)) k) in
    exec t elf_data k = Ok (k', tt) ∧ kspaces_ok lo k' trk ((ms, tr) :: l) ∧
    program_space lo strampoline elf_data elf s ms tr ∧
    tr !! page_key (floor TRAP_CONTEXT) = Some (pte_new f (Z.lor (Z.lor PERM_R PERM_W) FLAG_V)) ∧
    get_cx f s = Ok (s, start_context elf_data elf (ms_token (KERNEL_SPACE k)) pid) ∧
    (∀ p, p ∈ all_owned l → mem s !! p = mem (k_mm k) !! p) ∧
    (∀ p, p ∈ owned (memory_set i) → ¬ in_use lo (frame_allocator s) p) ∧
    (avail (frame_allocator s) + length (owned ms) = avail (frame_allocator (k_mm k)) + length (owned (memory_set i)))%nat.
Proof.
  intros Hpl Hks Ht Hpid Helf Hok Hen Hav.
  destruct (load_space k trk ((memory_set i, tru) :: l) elf_data elf Hpl Hks Helf Hok Hav)
    as (s1 & ms & tr & f & Hr1 & Hks1 & Hps1 & Htp & Htr & Hppn & Hm1 & Ha1). set (k1 := set_mm s1 k) in *.
  assert (inner_of k1 t = Some i) as Hi by (apply inner_of_Some; by exists pid).
  assert (kspaces_ok lo k1 trk ((memory_set i, tru) :: (ms, tr) :: l)) as Hks1'.
  { destruct Hks1 as [Hsp Hkeys Hpids]. split; [|done|done]. eapply spaces_perm; [|exact Hsp]. apply Permutation_skip, Permutation_swap. }
  destruct (drop_space k1 trk (memory_set i) tru ((ms, tr) :: l) Hks1') as (s2 & Hr2 & Hks2 & Hm2 & Hfree & Ha2).
  set (k2 := set_mm s2 k) in *. assert (kspaces_ok lo k2 trk ((ms, tr) :: l)) as Hks2' by (by apply (kspaces_ext lo (set_mm s2 k1))).
  assert (program_space lo strampoline elf_data elf s2 ms tr) as Hps2.
  { eapply program_space_step; [exact Hps1| |intros p _; by rewrite Hm2]. by apply kspaces_ok_inv in Hks2' as [? _]. }
  assert (cx_ok (start_context elf_data elf (ms_token (KERNEL_SPACE k)) pid)) as Hcx.
  { apply start_context_ok; try done. destruct Hks as [Hsp _ _]. apply spaces_cons in Hsp as (Hik & _). by eapply token_u64. }
  destruct (write_cx k2 trk l ms tr f elf_data elf _ Hks2' Hps2 Hppn Hcx) as (s3 & Hset & Hks3 & Hps3 & Hget & Hfa & Hm3).
  exists s3, ms, tr, f. cbn zeta. set (i' := with_trap_cx_ppn f (with_memory_set ms i)).
  split; [|split; [|split; [done|split; [done|split; [done|split; [|split]]]]]].
  - assert (lock t k1 = set_mm s1 (lock t k)) as Hlk by (unfold lock; cbn; by rewrite Ht).
    unfold exec. run Hr1. run Htp. erewrite bind_ok by (by apply borrow_ok). rewrite Hlk.
    erewrite bind_ok by (apply (zoom_ok k_mm set_mm); exact Hr2). fold i'. change (set_mm s2 (set_mm s1 (lock t k))) with (set_mm s2 (lock t k)).
    erewrite bind_ok by (apply tcb_of_ok; unfold lock; rewrite Ht; cbn; by rewrite lookup_insert_eq). cbn [tcb_pid].
    erewrite bind_ok.
    2:{ unfold init_trap_cx, kernel_token. erewrite bind_ok by (erewrite bind_ok by reflexivity; reflexivity).
        apply (zoom_ok k_mm set_mm). cbn [k_mm set_mm]. replace (KERNEL_SPACE (set_mm s2 (lock t k))) with (KERNEL_SPACE k) by (unfold lock; cbn; by rewrite Ht).
        exact Hset. }
    change (set_mm s3 (set_mm s2 (lock t k))) with (set_mm s3 (lock t k)).
    rewrite release_ok by (unfold lock; rewrite Ht; cbn; rewrite lookup_insert_eq; eauto). by rewrite put_inner_set_mm, put_inner_lock.
  - apply (kspaces_ext lo (set_mm s3 k2)); [done| | |done]; cbn; by rewrite ?put_inner_kernel_space, ?put_inner_pids.
  - intros p Hp. rewrite Hm3 by done. change (k_mm k2) with s2. rewrite Hm2. apply Hm1. apply elem_of_app. right. apply elem_of_app. by right.
  - intros p Hp. rewrite Hfa. by apply Hfree.
  - rewrite Hfa. change (k_mm k2) with s2. rewrite Ha2. change (k_mm k1) with s1. lia.
Qed.

(** ** [exit] *)

(** The children [cs] get the parent [p]. *)
Definition adopt (p : nat) (cs : list nat) k : kernel D :=
  foldl (λ k c, match inner_of k c with Some i => put_inner c (with_parent (Some p) i) k | None => k end) k cs.

Definition adopted (p : nat) (cs : list nat) (c : nat) (i : TaskControlBlockInner) : TaskControlBlockInner :=
  if decide (c ∈ cs) then with_parent (Some p) i else i.

Lemma adopted_twice p cs c d i : adopted p cs c (adopted p [d] c i) = adopted p (d :: cs) c i.
Proof. unfold adopted. destruct i. repeat case_decide; set_solver. Qed.

Lemma adopt_cons p c cs k :
  adopt p (c :: cs) k = adopt p cs (match inner_of k c with Some i => put_inner c (with_parent (Some p) i) k | None => k end).
Proof. done. Qed.

Lemma adopt_inner p cs : ∀ k c, inner_of (adopt p cs k) c = adopted p cs c <$> inner_of k c.
Proof.
  induction cs as [|d cs IH]; intros k c; [|rewrite adopt_cons].
  { cbn. destruct (inner_of k c) as [i|]; [|done]. cbn. unfold adopted. by rewrite decide_False by apply not_elem_of_nil. }
  rewrite IH. destruct (inner_of k d) as [i|] eqn:Hd.
  - rewrite inner_of_put by (apply inner_of_Some in Hd as [? ->]; eauto). case_decide as Hc.
    + subst d. rewrite Hd. cbn. rewrite <-adopted_twice. unfold adopted at 3. by rewrite decide_True by set_solver.
    + destruct (inner_of k c) as [j|]; [|done]. cbn. rewrite <-adopted_twice. unfold adopted at 3. by rewrite decide_False by set_solver.
  - destruct (inner_of k c) as [j|] eqn:Hj; [|done]. cbn. rewrite <-adopted_twice. unfold adopted at 3.
    rewrite decide_False; [done|]. intros ->%list_elem_of_singleton. congruence.
Qed.

(** The rest of the state stays. *)
Record same_but_tcbs k k' : Prop := {
  sb_mm : k_mm k' = k_mm k;
  sb_ks : KERNEL_SPACE k' = KERNEL_SPACE k;
  sb_pids : PID_ALLOCATOR k' = PID_ALLOCATOR k;
  sb_queue : ready_queue k' = ready_queue k;
  sb_current : current_ k' = current_ k;
  sb_init : INITPROC k' = INITPROC k;
  sb_tcbs : ∀ u, tcb_pid <$> tcbs k' !! u = tcb_pid <$> tcbs k !! u;
}.

Lemma same_refl k : same_but_tcbs k k.
Proof. by split. Qed.
Lemma same_trans k1 k2 k3 : same_but_tcbs k1 k2 → same_but_tcbs k2 k3 → same_but_tcbs k1 k3.
Proof. intros [] []. split; intros; congruence. Qed.
Lemma same_put k t i : same_but_tcbs k (put_inner t i k).
Proof.
  unfold put_inner. destruct (tcbs k !! t) as [tcb|] eqn:Ht; [|apply same_refl]. split; try done. intros u. cbn.
  destruct (decide (u = t)) as [->|]; [by rewrite lookup_insert_eq, Ht|by rewrite lookup_insert_ne].
Qed.
Lemma same_lock k t : same_but_tcbs k (lock t k).
Proof.
  unfold lock. destruct (tcbs k !! t) as [tcb|] eqn:Ht; [|apply same_refl]. split; try done. intros u. cbn.
  destruct (decide (u = t)) as [->|]; [by rewrite lookup_insert_eq, Ht|by rewrite lookup_insert_ne].
Qed.
Lemma same_adopt p cs : ∀ k, same_but_tcbs k (adopt p cs k).
Proof.
  induction cs as [|c cs IH]; intros k; [apply same_refl|rewrite adopt_cons]. eapply same_trans; [|apply IH].
  destruct (inner_of k c); [apply same_put|apply same_refl].
Qed.

Lemma run_adopt p cs : ∀ k (ip : TaskControlBlockInner),
  (∀ c, c ∈ cs → is_Some (inner_of k c)) →
  for_ cs (λ ip child, with_inner child (λ i, (with_parent (Some p) i, tt));; mret (with_children (children ip ++ [child]) ip)) ip k =
    Ok (adopt p cs k, with_children (children ip ++ cs) ip).
Proof.
  induction cs as [|c cs IH]; intros k ip Hcs; cbn [for_]; [|rewrite adopt_cons].
  { rewrite app_nil_r. by destruct ip. }
  destruct (Hcs c) as [i Hi]; [by left|]. erewrite bind_ok by (erewrite bind_ok by (by apply with_inner_ok); reflexivity). cbn [fst].
  rewrite Hi. rewrite IH; [cbn; by rewrite <-app_assoc|]. intros d Hd. rewrite inner_of_put by (apply inner_of_Some in Hi as [? ->]; eauto).
  case_decide; [by eexists|]. apply Hcs. by right.
Qed.

(** The pages go, the page table stays until the process is waited for. *)
Definition recycled_space (ms : MemorySet) : MemorySet := mkMemorySet (page_table ms) [].

Lemma recycle_space k trk ms tr l :
  kspaces_ok lo k trk ((ms, tr) :: l) →
  ∃ s, recycle_data_pages ms (k_mm k) = Ok (s, recycled_space ms) ∧ kspaces_ok lo (set_mm s k) trk ((recycled_space ms, tr) :: l) ∧
    mem s = mem (k_mm k) ∧ (∀ p, p ∈ concat (area_frames <$> areas ms) → ¬ in_use lo (frame_allocator s) p) ∧
    (avail (frame_allocator s) = avail (frame_allocator (k_mm k)) + length (concat (area_frames <$> areas ms)))%nat.
Proof.
  intros [Hsp Hkeys Hpids]. apply (spaces_perm _ _ _ ((ms, tr) :: (KERNEL_SPACE k, trk) :: l)) in Hsp; [|constructor].
  pose proof Hsp as (Hi & Hl & Hd)%spaces_cons. pose proof (ms_owns _ _ _ _ Hi) as [Hnd Hu]. unfold owned in Hnd.
  apply NoDup_app in Hnd as (_ & Hdj & Hnd).
  destruct (drop_areas_ok (areas ms) (k_mm k) [] (so_mm _ _ _ Hsp)) as (s & Hr & Hs & Hm).
  { rewrite app_nil_r. split; [done|]. intros p Hp. by apply Hu, area_frames_owned. }
  rewrite app_nil_r in Hs. destruct (spaces_step _ _ _ _ _ _ Hl Hs) as (Hl' & _ & _); [intros p Hp; by apply Hd, area_frames_owned|].
  pose proof (pt_rep_step _ _ _ _ _ _ _ Hs (ms_pt _ _ _ _ Hi) Hdj) as Hpt.
  exists s. split; [unfold recycle_data_pages; by run Hr|]. split; [|split; [done|split]].
  - split; [|done|done]. eapply spaces_perm; [apply Permutation_swap|]. apply spaces_cons. unfold recycled_space, owned. cbn [page_table areas]. cbn [fmap list_fmap concat]. rewrite app_nil_r.
    split; [split; cbn; [done|unfold owned; cbn; rewrite app_nil_r; by eapply rep_owns|constructor|constructor]|]. split; [done|].
    intros p Hp. apply Hd. unfold owned. rewrite elem_of_app. by left.
  - intros p Hp. apply (step_freed _ _ _ _ _ Hs p Hp). by intros ?%elem_of_nil.
  - pose proof (step_avail _ _ _ _ _ Hs) as Ha. cbn [length] in Ha. lia.
Qed.

Lemma referenced k q tcb t : tcbs k !! q = Some tcb → t ∈ children (value (inner tcb)) → strong_refs k t ≠ 0%nat.
Proof.
  intros Hq Ht. unfold strong_refs.
  assert (∀ l : list (nat * TaskControlBlock), (q, tcb) ∈ l →
    sum_list ((λ e, count t (children (value (inner e.2)))) <$> l) ≠ 0%nat) as Hsum.
  { induction l as [|e l IH]; [by intros ?%elem_of_nil|]. cbn. intros [<-|Hl]%elem_of_cons; [|specialize (IH Hl); lia].
    cbn. unfold count. destruct (filter (λ u, u = t) (children (value (inner tcb)))) as [|u us] eqn:Hf; [|cbn; lia].
    exfalso. eapply (not_elem_of_nil t). rewrite <-Hf. by apply list_elem_of_filter. }
  specialize (Hsum (map_to_list (tcbs k)) ltac:(by apply elem_of_map_to_list)). lia.
Qed.

(** [t] is about to exit: it is borrowed, and its children are the initial process's. *)
Definition exiting (p t : nat) (i ip : TaskControlBlockInner) k : kernel D :=
  put_inner p (with_children (children ip ++ children i) ip) (adopt p (children i) (lock p (lock t (set_current None k)))).

Lemma exiting_same p t i ip k : same_but_tcbs (set_current None k) (exiting p t i ip k).
Proof.
  eapply same_trans; [|apply same_put]. eapply same_trans; [|apply same_adopt]. eapply same_trans; apply same_lock.
Qed.

Lemma same_dom k k' u i : same_but_tcbs k k' → inner_of k u = Some i → is_Some (tcbs k' !! u).
Proof.
  intros Hs [pid Hu]%inner_of_Some. pose proof (sb_tcbs _ _ Hs u) as Hs'. rewrite Hu in Hs'. apply fmap_Some in Hs' as (tu & -> & _). eauto.
Qed.

Lemma exiting_inner p t i ip k u :
  inner_of k p = Some ip → u ≠ t →
  inner_of (exiting p t i ip k) u =
    if decide (u = p) then Some (with_children (children ip ++ children i) ip) else adopted p (children i) u <$> inner_of k u.
Proof.
  intros Hp Hu. unfold exiting. rewrite inner_of_put.
  - case_decide; [done|]. rewrite adopt_inner, !inner_of_lock, !decide_False by done. done.
  - apply (same_dom (set_current None k) _ _ ip); [|exact Hp]. eapply same_trans; [|apply same_adopt]. eapply same_trans; [|apply same_lock]. apply same_lock.
Qed.

(** C15: [exit].  The call leaves the processor.  The process is a zombie with its exit code, without children
    and without pages: the frames of its areas are free again, the page table stays.  Its children are children of
    the initial process.  The memory of all other processes, identifiers and the ready queue are
    as before. *)
Theorem sys_exit_frees k trk l t i tru p ip q iq code :
  kspaces_ok lo k trk ((memory_set i, tru) :: l) → current_ k = Some t → INITPROC k = Some p → t ≠ p →
  inner_of k t = Some i → inner_of k p = Some ip → Forall (λ c, c ≠ t ∧ c ≠ p ∧ is_Some (inner_of k c)) (children i) →
  q ≠ t → inner_of k q = Some iq → t ∈ children iq →
  ∃ k', sys_exit code k = Ok (k', Switched) ∧
    inner_of k' t = Some (with_memory_set (recycled_space (memory_set i)) (with_children [] (with_exit_code code (with_status Zombie i)))) ∧
    inner_of k' p = Some (with_children (children ip ++ children i) ip) ∧
    (∀ u, u ≠ t → u ≠ p → inner_of k' u = adopted p (children i) u <$> inner_of k u) ∧
    current_ k' = None ∧ ready_queue k' = ready_queue k ∧ PID_ALLOCATOR k' = PID_ALLOCATOR k ∧
    kspaces_ok lo k' trk ((recycled_space (memory_set i), tru) :: l) ∧ mem (k_mm k') = mem (k_mm k) ∧
    (∀ f, f ∈ concat (area_frames <$> areas (memory_set i)) → ¬ in_use lo (frame_allocator (k_mm k')) f) ∧
    (avail (frame_allocator (k_mm k')) = avail (frame_allocator (k_mm k)) + length (concat (area_frames <$> areas (memory_set i))))%nat.
Proof.
  intros Hks Hc Hp Hne Hi Hip Hcs Hq Hiq Hin. rewrite Forall_forall in Hcs. pose proof (exiting_same p t i ip k) as Hsame.
  set (k3 := exiting p t i ip k) in *. set (ip' := with_children (children ip ++ children i) ip).
  set (i' := with_memory_set (recycled_space (memory_set i)) (with_children [] (with_exit_code code (with_status Zombie i)))).
  assert (kspaces_ok lo k3 trk ((memory_set i, tru) :: l)) as Hks3 by (destruct Hsame; by apply (kspaces_ext lo k)).
  destruct (recycle_space k3 trk (memory_set i) tru l Hks3) as (s & Hr & Hks4 & Hm & Hfree & Hav).
  pose proof (same_dom _ _ t i Hsame Hi) as Ht. set (kf := put_inner t i' (set_mm s k3)).
  assert (∀ u, inner_of kf u = if decide (u = t) then Some i' else if decide (u = p) then Some ip' else adopted p (children i) u <$> inner_of k u) as Hinner.
  { intros u. unfold kf. rewrite inner_of_put by done. case_decide; [done|]. rewrite inner_of_set_mm. by apply exiting_inner. }
  exists kf. split; [|split; [by rewrite Hinner, decide_True|split; [by rewrite Hinner, decide_False, decide_True|split; [by intros u ??; rewrite Hinner, !decide_False|]]]].
  - unfold sys_exit. erewrite bind_ok; [reflexivity|]. unfold exit_current, take_current_task.
    erewrite bind_ok by (erewrite bind_ok by reflexivity; erewrite bind_ok by reflexivity; reflexivity). rewrite Hc. erewrite bind_ok by reflexivity.
    erewrite bind_ok by (apply borrow_ok; exact Hi). erewrite bind_ok by reflexivity. rewrite (sb_init _ _ (same_lock _ t)).
    cbn [INITPROC set_current]. rewrite Hp. erewrite bind_ok by reflexivity.
    erewrite bind_ok by (apply borrow_ok; rewrite inner_of_lock, decide_False by done; exact Hip).
    erewrite bind_ok by (apply run_adopt; intros c Hc'; destruct (Hcs c Hc') as (? & ? & ?); by rewrite !inner_of_lock, !decide_False).
    cbn [children with_exit_code with_status]. erewrite bind_ok.
    2:{ apply release_ok. apply (same_dom (set_current None k) _ _ ip); [|exact Hip]. eapply same_trans; [|apply same_adopt]. eapply same_trans; [|apply same_lock].
        apply (same_lock (set_current None k)). }
    change (put_inner p _ _) with k3. erewrite bind_ok by (apply (zoom_ok k_mm set_mm); exact Hr). erewrite bind_ok by (apply release_ok; exact Ht).
    change (with_memory_set _ _) with i'. fold kf. unfold drop_arc. erewrite bind_ok by reflexivity. cbn [drop_task]. erewrite bind_ok by reflexivity.
    rewrite bool_decide_false; [done|].
    assert (∃ j, inner_of kf q = Some j ∧ t ∈ children j) as (j & [pq Hj]%inner_of_Some & Htj); [|by apply (referenced kf q _ t Hj)].
    rewrite Hinner, decide_False by done. case_decide as Hqp.
    + subst q. exists ip'. split; [done|]. cbn. rewrite elem_of_app. left. congruence.
    + rewrite Hiq. cbn. eexists. split; [done|]. unfold adopted. by case_decide.
  - pose proof (same_put (set_mm s k3) t i') as Hsf. fold kf in Hsf. destruct Hsf as [F1 F2 F3 F4 F5 _ _]. destruct Hsame as [G1 G2 G3 G4 G5 _ _].
    rewrite F1, F3, F4, F5. cbn [k_mm set_mm PID_ALLOCATOR ready_queue current_]. split; [exact G5|]. split; [exact G4|]. split; [exact G3|].
    split; [by apply (kspaces_ext lo (set_mm s k3))|]. rewrite Hm. split; [by rewrite G1|]. split; [done|]. rewrite Hav, G1. done.
Qed.
End calls.

(** ** Programs from files *)
Section programs.
Context {D : Type} `{BlockDeviceOk D} `{Platform}.
Context (lo : Z) (fs : EasyFileSystem) (T : Z).
Notation K := (K D).
Implicit Types k : kernel D.

(** The user's memory has the string [name] at [path]. *)
Record user_string k (tru : gmap Z Z) (path : Z) (name : list byte) : Prop := {
  us_bytes : str_at (mem (k_mm k)) tru path name;
  us_ascii : Forall (λ c, byte.unsigned c < 128) name;
  us_range : 0 ≤ path ∧ path + Z.of_nat (length name) < 2 ^ 64 ∧ (length name < loop_fuel)%nat;
  us_pages : no_page_zero tru;
}.

(** The file [name] is a program that can be loaded. *)
Record program_file (a : afs) (name elf_data : list byte) (elf : ElfFile) : Prop := {
  pf_file : ∃ ino ty, dir_lookup (entries a) name = Some ino ∧ nodes a !! ino = Some (ty, elf_data);
  pf_small : Z.of_nat (length elf_data) < 2 ^ 32 ∧ Z.of_nat (length elf_data) ≤ 512 * (Z.of_nat loop_fuel - 1);
  pf_elf : elf_new elf_data = Some elf ∧ elf_ok elf_data elf ∧ is_u64 (elf_entry elf);
}.

(** The beginning of [exec] and [spawn]: the file is read. *)
Lemma read_program {A} a k t i tru path name elf_data elf (f : K A) (g : list byte → K A) :
  ms_inv lo (k_mm k) (memory_set i) tru → kfs_ok fs T a k → current_ k = Some t → inner_of k t = Some i →
  user_string k tru path name → program_file a name elf_data elf →
  ∃ c o, let k1 := set_os_inodes o (set_fs c k) in kfs_ok fs T a k1 ∧
    (token ← current_user_token; path ← on_mm (translated_str loop_fuel token path); r ← open_file path RDONLY;
     match r with Some id => d ← read_all id; g d | None => f end) k = g elf_data k1.
Proof.
  intros Hinv Hk Hc Hi [Hstr Hasc (Hp0 & Hp1 & Hp2) Hz] [(ino & ty & Hl & Hn) [Hlen Hfuel] _].
  destruct (load_file_ok fs T a k name ino ty elf_data Hk Hl Hn Hlen Hfuel) as (c & o & c' & o' & id & Hr & Hr' & Hk').
  exists c', o'. cbn zeta. split; [exact Hk'|].
  assert (current_user_token k = Ok (k, ms_token (memory_set i))) as Htk.
  { unfold current_user_token, the_task, current_task. erewrite bind_ok; [|erewrite bind_ok by reflexivity; rewrite Hc; reflexivity].
    exact (read_inner_ok k t i (λ i, ms_token (memory_set i)) Hi). }
  run Htk. erewrite bind_ok.
  2:{ apply (zoom_ok k_mm set_mm), (run_translated_str lo _ _ tru _ name); [apply Hinv|done..]. }
  rewrite push_ascii by done. cbn [app]. replace (set_mm (k_mm k) k) with k by (by destruct k). run Hr. by run Hr'.
Qed.

(** C13: [spawn].  With the name of a program at [path] in the caller's memory, the call returns the fresh
    identifier of a new process.  The child's address space holds the program of the file, in frames of
    its own, and its context says to start it at its entry with its stack; it has the standard files,
    is last in the ready queue and the last child of the caller.  The
    files are as before, and no page of a process changes. *)
Theorem sys_spawn_starts a k trk l t i tru path name elf_data elf :
  platform_ok → kspaces_ok lo k trk ((memory_set i, tru) :: l) → kfs_ok fs T a k → current_ k = Some t → inner_of k t = Some i →
  tcbs k !! next_tcb k = None → pid_current (PID_ALLOCATOR k) < MAX_PID →
  user_string k tru path name → program_file a name elf_data elf →
  (9 + 3 * seg_pages (elf_segs elf_data elf) ≤ avail (frame_allocator (k_mm k)))%nat →
  ∃ k' trk' pid ms tr f,
    sys_spawn path k = Ok (k', pid) ∧ ¬ pid_used (PID_ALLOCATOR k) pid ∧
    inner_of k' (next_tcb k) = Some (new_inner f (user_top elf_data elf) (get_top pid) ms (Some t) std_fds) ∧
    inner_of k' t = Some (with_children (children i ++ [next_tcb k]) i) ∧
    current_ k' = Some t ∧ ready_queue k' = ready_queue k ++ [next_tcb k] ∧
    kspaces_ok lo k' trk' ((ms, tr) :: (memory_set i, tru) :: l) ∧ kfs_ok fs T a k' ∧
    program_at elf_data elf strampoline (mem (k_mm k')) tr (user_top elf_data elf) ∧
    tr !! page_key (floor TRAP_CONTEXT) = Some (pte_new f (Z.lor (Z.lor PERM_R PERM_W) FLAG_V)) ∧
    get_cx f (k_mm k') = Ok (k_mm k', start_context elf_data elf (ms_token (KERNEL_SPACE k)) pid) ∧
    ∀ p, p ∈ all_owned ((memory_set i, tru) :: l) → mem (k_mm k') !! p = mem (k_mm k) !! p.
Proof.
  intros Hpl Hks Hkf Hc Hi Hnone Hmax Hstr Hfile Hav. pose proof (pf_elf _ _ _ _ Hfile) as (Helf & Hok & Hen).
  pose proof (kspaces_ok_inv _ _ _ _ _ _ Hks) as [Hinv _].
  destruct (read_program a k t i tru path name elf_data elf (mret (-1)) (λ all_data,
    task ← the_task; new_task ← spawn task all_data; tcb ← tcb_of new_task; clear_a0 new_task;; add_task new_task;;
    mret (to_isize (tcb_pid tcb))) Hinv Hkf Hc Hi Hstr Hfile) as (c & o & Hkf1 & Hr1). cbn zeta in Hkf1, Hr1.
  set (k1 := set_os_inodes o (set_fs c k)) in *.
  destruct (run_spawn lo k1 trk ((memory_set i, tru) :: l) t i elf_data elf Hpl) as
    (pid & pa & s & ksp & trk' & ms & tr & f & Hr2 & Hst & Hks2 & Hps2 & Htr & Hppn & Hcx & Hm2); try done; [by apply (kspaces_ext lo k)|].
  cbn zeta in Hr2, Hst, Hks2. set (child := mkTcb pid _) in *. set (parent := with_children _ i) in *.
  set (kc := put_inner t parent (add_tcb child (set_kernel_space ksp (set_pids pa k1)))) in *.
  destruct (child_made (set_kernel_space ksp (set_pids pa k1)) t i parent child Hi Hnone) as (Hch & Hpar & Hq & Hcu & Hef & Hfs & _).
  change (put_inner _ _ _) with kc in Hch, Hpar, Hq, Hcu, Hef, Hfs. cbn [next_tcb set_kernel_space set_pids] in Hch.
  pose proof (sm_token _ _ _ _ Hst) as Htok. cbn [KERNEL_SPACE set_mm] in Htok.
  assert (KERNEL_SPACE kc = ksp) as Hksp by (unfold kc; by rewrite put_inner_kernel_space). rewrite Hksp in Htok.
  change (ms_token (KERNEL_SPACE k1)) with (ms_token (KERNEL_SPACE k)) in Htok. rewrite Htok in Hcx.
  set (cx := start_context elf_data elf (ms_token (KERNEL_SPACE k)) pid) in *.
  assert (cx_ok cx) as Hcok.
  { apply start_context_ok; try done; [|apply Hst]. destruct Hks as [Hsp _ _]. apply spaces_cons in Hsp as (Hik & _). by eapply token_u64. }
  assert (set_x 10 0 cx = cx) as Hx by reflexivity.
  destruct (write_cx lo (set_mm s kc) trk' ((memory_set i, tru) :: l) ms tr f elf_data elf cx Hks2 Hps2 Hppn Hcok)
    as (s3 & Hset & Hks3 & Hps3 & Hget & _ & Hm3).
  exists (set_queue (ready_queue k ++ [next_tcb k]) (set_mm s3 kc)), trk', pid, ms, tr, f.
  split; [|split; [apply Hst|split; [by apply inner_of_Some; exists pid; exact Hch|split; [exact Hpar|split; [|split; [done|]]]]]].
  - unfold sys_spawn. rewrite Hr1. unfold the_task, current_task.
    erewrite bind_ok; [|erewrite bind_ok by reflexivity; change (current_ k1) with (current_ k); rewrite Hc; reflexivity].
    run Hr2. change (next_tcb k1) with (next_tcb k) in *. erewrite bind_ok by (apply tcb_of_ok; exact Hch). unfold clear_a0.
    erewrite bind_ok; [|erewrite bind_ok by (apply read_inner_ok, inner_of_Some; exists pid; exact Hch);
      erewrite bind_ok by (apply (zoom_ok k_mm set_mm); exact Hcx); rewrite Hx; apply (zoom_ok k_mm set_mm); exact Hset].
    unfold add_task, add. erewrite bind_ok by reflexivity. cbn [tcb_pid child]. rewrite to_isize_small.
    + change (ready_queue (set_mm _ _)) with (ready_queue kc). rewrite Hq. done.
    + pose proof (sm_pid _ _ _ _ Hst) as [Hr0 _]. unfold MAX_PID in Hr0. lia.
  - change (current_ kc = Some t). rewrite Hcu. exact Hc.
  - split; [by apply (kspaces_ext lo (set_mm s3 kc))|]. split; [by apply (kfs_ext _ _ _ k1); [exact Hef|exact Hfs|]|].
    split; [by apply (program_space_at lo strampoline elf_data elf s3 ms tr)|]. split; [exact Htr|]. split; [exact Hget|].
    intros p Hp. cbn [k_mm set_queue set_mm]. rewrite Hm3 by done. exact (Hm2 p Hp).
Qed.

End programs.
