(* ===== verification/ReapSpec.v ===== *)
(** * Waiting for a child

    [waitpid] takes a child that has exited out of the process table: its exit code goes to
    the parent's memory, and its identifier, its kernel stack and the rest of its address
    space are given back. *)

From S2P Require Import Prelude Bytes BlockCache Layout DirEntry Efs Vfs Address FrameAlloc PageTable UserBuf MemorySet.
From S2P Require Import MemSpec ForkSpec AddrSpace Loader Context Pid Kernel Task Spaces Manager Processor OsFile Syscall ProcSpec.

Local Ltac Zify.zify_post_hook ::= Z.to_euclidean_division_equations.

(** ** Bytes through a reference *)
Lemma write_phys_ok f bs : ∀ off pg s,
  mem s !! f = Some pg → length pg = 4096%nat → (off + length bs ≤ 4096)%nat →
  write_phys (f * 4096 + Z.of_nat off) bs s =
    Ok (with_mem (<[f := take off pg ++ bs ++ drop (off + length bs) pg]> (mem s)) s, tt).
Proof.
  induction bs as [|b bs IH]; intros off pg s Hf Hl Hb; cbn [write_phys length] in *.
  { rewrite Nat.add_0_r, app_nil_l, take_drop, insert_id by done. by destruct s. }
  replace ((f * 4096 + Z.of_nat off) / PAGE_SIZE) with f by (unfold PAGE_SIZE; lia).
  replace ((f * 4096 + Z.of_nat off) mod PAGE_SIZE) with (Z.of_nat off) by (unfold PAGE_SIZE; lia).
  run (read_page_ok f pg s Hf). run (set_index_ok pg (Z.of_nat off) b s ltac:(lia)). rewrite Nat2Z.id.
  run (write_page_ok f pg (<[off := b]> pg) s Hf).
  replace (f * 4096 + Z.of_nat off + 1) with (f * 4096 + Z.of_nat (S off)) by lia.
  erewrite IH; [|cbn; apply lookup_insert_eq|by rewrite length_insert|lia]. do 2 f_equal. unfold with_mem. cbn [mem frame_allocator].
  f_equal. rewrite insert_insert_eq. f_equal.
  rewrite insert_take_drop by lia. rewrite take_app_ge, drop_app_ge by (rewrite length_take; lia).
  rewrite length_take, Nat.min_l by lia. replace (S off - off)%nat with 1%nat by lia.
  replace (S off + length bs - off)%nat with (S (length bs)) by lia. cbn [take drop]. rewrite take_0, drop_drop, <-app_assoc.
  cbn [app]. do 4 f_equal. lia.
Qed.

(** The bytes at [va] and on, all on one page. *)
Lemma lookup_spliced {A} (pg bs : list A) off j :
  (off + length bs ≤ length pg)%nat → (j < length bs)%nat → (take off pg ++ bs ++ drop (off + length bs) pg) !! (off + j)%nat = bs !! j.
Proof.
  intros Hl Hj. rewrite lookup_app_r by (rewrite length_take; lia). rewrite length_take, Nat.min_l by lia.
  replace (off + j - off)%nat with j by lia. by apply lookup_app_l.
Qed.

Lemma lookup_beside {A} (pg bs : list A) off j :
  (off + length bs ≤ length pg)%nat → (j < off ∨ off + length bs ≤ j)%nat → (take off pg ++ bs ++ drop (off + length bs) pg) !! j = pg !! j.
Proof.
  intros Hl [Hj|Hj].
  - rewrite lookup_app_l by (rewrite length_take; lia). by apply lookup_take_lt.
  - rewrite lookup_app_r by (rewrite length_take; lia). rewrite length_take, Nat.min_l by lia. rewrite lookup_app_r by lia.
    rewrite lookup_drop. f_equal. lia.
Qed.

Section reap.
Context {D : Type} `{BlockDevice D} `{Platform}.
Context (lo : Z).
Notation K := (K D).
Implicit Types k : kernel D.

Lemma write_user_word k trk ms tr l a ptr bs :
  kspaces_ok lo k trk ((ms, tr) :: l) → 0 < lo → a ∈ areas ms → map_type a = Framed → floor ptr ∈ area_pages a →
  ptr mod 4096 + Z.of_nat (length bs) ≤ 4096 →
  ∃ pa s, translated_refmut (ms_token ms) ptr (k_mm k) = Ok (k_mm k, pa) ∧ write_phys pa bs (k_mm k) = Ok (s, tt) ∧
    kspaces_ok lo (set_mm s k) trk ((ms, tr) :: l) ∧ frame_allocator s = frame_allocator (k_mm k) ∧
    (∀ m j b, (∀ p, p ∈ owned ms → m !! p = mem s !! p) → bs !! j = Some b → user_byte m tr (ptr + Z.of_nat j) = Some b) ∧
    (∀ m b va, (∀ p, p ∈ owned ms → m !! p = mem s !! p) → b ∈ areas ms → map_type b = Framed → floor va ∈ area_pages b →
      ¬ ptr ≤ va < ptr + Z.of_nat (length bs) → user_byte m tr va = user_byte (mem (k_mm k)) tr va) ∧
    ∀ p, p ∈ all_owned ((KERNEL_SPACE k, trk) :: l) → mem s !! p = mem (k_mm k) !! p.
Proof.
  intros [Hsp Hkeys Hpids] Hlo Ha Hty Hva Hfit.
  apply (spaces_perm _ _ _ ((ms, tr) :: (KERNEL_SPACE k, trk) :: l)) in Hsp; [|constructor]. pose proof Hsp as (Hi & _ & _)%spaces_cons.
  destruct (area_va lo (k_mm k) ms tr a ptr Hi Ha Hty Hva) as (f & pg & Hf & Htf & Hpf & Hmf & Hl).
  assert (f ∈ concat (area_frames <$> areas ms)) as Hin by (apply elem_of_concat_fmap; exists a; split; [done|by eapply list_elem_of_lookup_2]).
  assert (lo ≤ f) as Hlf by (destruct (ms_owns _ _ _ _ Hi) as [_ Hu]; destruct (Hu f) as [Hr _]; [by apply area_frames_owned|lia]).
  set (off := Z.to_nat (ptr mod 4096)). set (pg' := take off pg ++ bs ++ drop (off + length bs) pg).
  assert (length pg' = 4096%nat) as Hl' by (unfold pg'; rewrite !length_app, length_take, length_drop; lia).
  pose proof (ms_inv_write lo (k_mm k) ms tr f pg' Hi Hin Hl') as Hi'.
  destruct (spaces_write _ _ _ _ _ f pg' Hsp ltac:(by apply area_frames_owned) Hl' Hi') as [Hsp' Hm].
  exists (f * 4096 + Z.of_nat off). eexists. split; [|split; [by apply (write_phys_ok f bs off pg); [done|done|lia]|split; [|split; [done|split; [|split; [|exact Hm]]]]]].
  - unfold translated_refmut, ms_token. rewrite translate_va_token by (eapply rep_root_range, Hi).
    erewrite bind_ok by (eapply run_translate_va; [apply Hi|exact Htf]). erewrite bind_ok by apply unwrap_some.
    unfold phys. rewrite Hpf. rewrite (proj2 (Z.eqb_neq _ _)) by lia. unfold off. by rewrite Z2Nat.id by lia.
  - split; [eapply spaces_perm; [|exact Hsp']; constructor|done|done].
  - intros m j b Heq Hj. pose proof (lookup_lt_Some _ _ _ Hj) as Hjl.
    assert (floor (ptr + Z.of_nat j) = floor ptr) as Hfl by (unfold floor, PAGE_SIZE; lia).
    rewrite (user_byte_page _ _ _ (area_pte a f) pg'); [|by rewrite Hfl|rewrite Hpf, Heq by (by apply area_frames_owned); cbn; apply lookup_insert_eq].
    replace (Z.to_nat ((ptr + Z.of_nat j) mod 4096)) with (off + j)%nat by lia. rewrite <-Hj. apply lookup_spliced; lia.
  - intros m b va Heq Hb Htb Hvb Hout. destruct (area_va lo (k_mm k) ms tr b va Hi Hb Htb Hvb) as (g & pgg & Hg & Htg & Hpg & Hmg & _).
    assert (g ∈ owned ms) as Hgo by (apply area_frames_owned, elem_of_concat_fmap; exists b; split; [done|by eapply list_elem_of_lookup_2]).
    rewrite (user_byte_page (mem (k_mm k)) _ _ _ pgg Htg) by (by rewrite Hpg). destruct (decide (g = f)) as [->|Hne].
    + assert (floor va = floor ptr) as Hfl by (by apply (area_va_inj lo (k_mm k) ms tr b a va ptr f)).
      assert (pgg = pg) as -> by congruence. rewrite (user_byte_page _ _ _ _ pg' Htg).
      * apply lookup_beside; [lia|]. unfold floor, PAGE_SIZE in Hfl. lia.
      * rewrite Hpg, Heq by done. cbn. apply lookup_insert_eq.
    + apply (user_byte_page _ _ _ _ pgg Htg). rewrite Hpg, Heq by done. cbn. by rewrite lookup_insert_ne by done.
Qed.

(** ** The child that is found *)
Definition pid_match (pid p : Z) : bool := (pid =? -1) || (wrap64 pid =? p).

Lemma any_child_found k pid l c tcb :
  (∀ d, d ∈ l → is_Some (tcbs k !! d)) → c ∈ l → tcbs k !! c = Some tcb → pid_match pid (tcb_pid tcb) = true →
  any_child pid l k = Ok (k, true).
Proof.
  intros Hl Hc Ht Hm. induction l as [|d l IH]; [by apply elem_of_nil in Hc|]. cbn [any_child].
  destruct (Hl d) as [td Hd]; [by left|]. unfold pid_matches. erewrite bind_ok by (erewrite bind_ok by (by apply tcb_of_ok); reflexivity).
  fold (pid_match pid (tcb_pid td)). destruct (pid_match pid (tcb_pid td)) eqn:Hd'; [done|].
  apply elem_of_cons in Hc as [->|Hc]; [congruence|]. apply IH; [|done]. intros e He. apply Hl. by right.
Qed.

Lemma find_zombie_found k pid l : ∀ n idx c tcb,
  l !! idx = Some c → tcbs k !! c = Some tcb → borrowed (inner tcb) = false → is_zombie (value (inner tcb)) = true →
  pid_match pid (tcb_pid tcb) = true →
  (∀ j d, (j < idx)%nat → l !! j = Some d → ∃ td, tcbs k !! d = Some td ∧ borrowed (inner td) = false ∧
    (is_zombie (value (inner td)) && pid_match pid (tcb_pid td)) = false) →
  find_zombie pid l n k = Ok (k, Some ((n + idx)%nat, c)).
Proof.
  induction l as [|d l IH]; intros n idx c tcb Hc Ht Hb Hz Hm Hbefore; [done|]. cbn [find_zombie].
  assert (∀ td, tcbs k !! d = Some td → borrowed (inner td) = false →
    read_inner d is_zombie k = Ok (k, is_zombie (value (inner td)))) as Hread.
  { intros [pd [vd bd]] Hd Hbd. cbn in Hbd. subst bd. apply read_inner_ok, inner_of_Some. by exists pd. }
  assert (∀ td, tcbs k !! d = Some td → pid_matches pid d k = Ok (k, pid_match pid (tcb_pid td))) as Hmatch.
  { intros td Hd. unfold pid_matches. by run (tcb_of_ok k d td Hd). }
  destruct idx as [|idx].
  - injection Hc as ->. run (Hread tcb Ht Hb). rewrite Hz. run (Hmatch tcb Ht). rewrite Hm, Nat.add_0_r. done.
  - destruct (Hbefore 0%nat d) as (td & Hd & Hbd & Hno); [lia|done|]. run (Hread td Hd Hbd).
    assert (find_zombie pid l (S n) k = Ok (k, Some ((n + S idx)%nat, c))) as Hrest.
    { rewrite <-Nat.add_succ_comm. apply (IH (S n) idx c tcb); try done. intros j e Hj He. apply (Hbefore (S j)); [lia|done]. }
    destruct (is_zombie (value (inner td))).
    + run (Hmatch td Hd). cbn in Hno. by rewrite Hno.
    + by erewrite bind_ok by reflexivity.
Qed.

(** The search, while the parent [t] is borrowed. *)
Lemma child_found k t pt i pid idx c tcb :
  (∀ d, d ∈ children i → d ≠ t ∧ is_Some (tcbs k !! d)) → children i !! idx = Some c → tcbs k !! c = Some tcb →
  borrowed (inner tcb) = false → is_zombie (value (inner tcb)) = true → pid_match pid (tcb_pid tcb) = true →
  (∀ j d, (j < idx)%nat → children i !! j = Some d → ∃ td, tcbs k !! d = Some td ∧ borrowed (inner td) = false ∧
    (is_zombie (value (inner td)) && pid_match pid (tcb_pid td)) = false) →
  let kl := set_tcbs (<[t := mkTcb pt (mkCell i true)]> (tcbs k)) k in
  any_child pid (children i) kl = Ok (kl, true) ∧ find_zombie pid (children i) 0 kl = Ok (kl, Some (idx, c)).
Proof.
  intros Hchild Hidx Hc Hb Hz Hm Hbefore kl. assert (c ∈ children i) as Hcin by (by eapply list_elem_of_lookup_2).
  assert (∀ d td, d ∈ children i → tcbs k !! d = Some td → tcbs kl !! d = Some td) as Hkl.
  { intros d td [Hd _]%Hchild Htd. cbn. by rewrite lookup_insert_ne. }
  split.
  - apply (any_child_found kl pid (children i) c tcb); [|done|by apply Hkl|done]. intros d Hd. destruct (Hchild d Hd) as [_ [td Htd]].
    exists td. by apply Hkl.
  - apply (find_zombie_found kl pid (children i) 0 idx c tcb Hidx); try done; [by apply Hkl|].
    intros j d Hj Hd. destruct (Hbefore j d Hj Hd) as (td & Htd & Hrest). exists td. split; [|done]. apply Hkl; [|done].
    by eapply list_elem_of_lookup_2.
Qed.

(** References do not depend on borrows. *)
Lemma strong_refs_ext k k' c :
  (λ e, children (value (inner e))) <$> tcbs k' = (λ e, children (value (inner e))) <$> tcbs k →
  ready_queue k' = ready_queue k → current_ k' = current_ k → INITPROC k' = INITPROC k → strong_refs k' c = strong_refs k c.
Proof.
  intros Ht Hq Hc Hi. unfold strong_refs. rewrite Hq, Hc, Hi. f_equal.
  assert (∀ m : gmap nat TaskControlBlock, (λ e, count c (children (value (inner e.2)))) <$> map_to_list m =
    (λ e, count c e.2) <$> map_to_list ((λ e, children (value (inner e))) <$> m)) as Hm.
  { intros m. rewrite map_to_list_fmap, <-list_fmap_compose. apply list_fmap_ext. by intros j [u e] _. }
  by rewrite !Hm, Ht.
Qed.

(** ** The kernel stack *)

(** The area of the stack of [pid] is where the kernel looks for it. *)
Record stack_area (ms : MemorySet) (pid : Z) (idx : nat) (a : MapArea) : Prop := {
  sa_found : let '(bottom, _) := kernel_stack_position pid in
    find_idx (λ a, l (vpn_range a) =? floor bottom) (areas ms) = Some (idx, a);
  sa_type : map_type a = Framed;
  sa_range : let '(bottom, top) := kernel_stack_position pid in vpn_range a = mkRange (floor bottom) (ceil top);
}.

Lemma drop_stack k trk L pid idx a :
  kspaces_ok lo k trk L → pid_used (PID_ALLOCATOR k) pid → 0 ≤ pid < MAX_PID → stack_area (KERNEL_SPACE k) pid idx a →
  ∃ pa s ms trk', let k' := set_kernel_space ms (set_mm s (set_pids pa k)) in
    drop_pid pid k = Ok (set_pids pa k, tt) ∧ drop_kernel_stack pid (set_pids pa k) = Ok (k', tt) ∧ kspaces_ok lo k' trk' L ∧
    ms_token ms = ms_token (KERNEL_SPACE k) ∧ (∀ p, pid_used pa p ↔ p ≠ pid ∧ pid_used (PID_ALLOCATOR k) p) ∧
    (∀ key, stack_key pid key → trk' !! key = None) ∧
    (avail (frame_allocator s) = avail (frame_allocator (k_mm k)) + length (area_frames a))%nat ∧
    ∀ p, p ∈ all_owned L → mem s !! p = mem (k_mm k) !! p.
Proof.
  intros [Hsp Hkeys Hpids] Hu Hpid [Hfind Hty Hrange]. pose proof (pid_dealloc_spec _ pid Hpids) as Hde. rewrite decide_True in Hde by done.
  destruct Hde as (pa & Hpa & Hpok & Hused); [lia|]. pose proof (stack_pages pid) as Hpages. pose proof (kernel_stack_pos pid) as Hpos.
  unfold drop_kernel_stack. destruct (kernel_stack_position pid) as [bottom top] eqn:Epos. unfold MAX_PID in Hpid. specialize (Hpos ltac:(lia)).
  pose proof Hsp as (Hi & _ & _)%spaces_cons. pose proof (proj1 (find_idx_Some _ _ _ _) Hfind) as (Hidx & _ & _).
  destruct (run_remove_area lo (k_mm k) (KERNEL_SPACE k) trk idx a Hi Hidx Hty) as (s & Hr & Hi' & Hs). cbn zeta in Hr, Hi', Hs.
  set (ms := mkMemorySet (page_table (KERNEL_SPACE k)) (remove_nth idx (areas (KERNEL_SPACE k)))) in *.
  destruct (spaces_change _ _ _ _ _ _ _ _ Hsp Hs Hi') as [Hsp' Hm].
  assert (∀ key, stack_key pid key → key ∈ area_keys a) as Hkey.
  { intros key Hk. unfold stack_key in Hk. set (v := key + (2 ^ 52 - 2 ^ 27)).
    destruct (stack_page_key pid v) as [Hv _]; [unfold MAX_PID; lia|unfold v; lia|]. apply list_elem_of_fmap. exists v.
    split; [unfold v in *; lia|]. unfold area_pages. rewrite Hrange. apply elem_of_range. cbn [l r].
    apply Hpages; [unfold MAX_PID; lia|unfold v; lia]. }
  exists pa, s, ms, (unmap_pages (area_keys a) trk). cbn zeta. split; [|split; [|split; [|split; [done|split; [done|split; [|split; [|done]]]]]]].
  - unfold drop_pid. erewrite bind_ok by reflexivity. rewrite Hpa. by erewrite bind_ok by reflexivity.
  - injection Hpos as -> ->.
    assert (page_of_addr (2 ^ 64 - 4096 - pid * 12288 - 8192) = Ok (floor (2 ^ 64 - 4096 - pid * 12288 - 8192))) as Hpg.
    { unfold page_of_addr. rewrite page_offset_mod. replace ((2 ^ 64 - 4096 - pid * 12288 - 8192) mod 4096) with 0 by lia. done. }
    rewrite Hpg. erewrite bind_ok by reflexivity. unfold on_kernel_space. erewrite bind_ok by reflexivity.
    change (KERNEL_SPACE (set_pids pa k)) with (KERNEL_SPACE k).
    erewrite bind_ok; [|apply (zoom_ok k_mm set_mm); unfold remove_area_with_start_vpn; rewrite Hfind; erewrite bind_ok by exact Hr; reflexivity].
    done.
  - split; [done| |done]. intros key Hk. rewrite lookup_unmap_pages in Hk. case_decide as Hin; [by destruct Hk|].
    destruct (Hkeys key Hk) as [?|[?|(p & Hup & Hsk)]]; [by left|by right; left|]. right; right. exists p. split; [|done]. apply Hused. split; [|done].
    intros ->. by apply Hin, Hkey.
  - intros key Hk. rewrite lookup_unmap_pages, decide_True; [done|by apply Hkey].
  - pose proof (step_avail _ _ _ _ _ Hs) as Hav. unfold owned in Hav. cbn [areas page_table ms] in Hav.
    rewrite <-(take_drop_middle _ _ _ Hidx) in Hav at 2. unfold remove_nth in Hav. rewrite !fmap_app, !concat_app in Hav.
    cbn [fmap list_fmap concat] in Hav. rewrite !length_app in Hav. lia.
Qed.

(** ** The control block *)
Lemma drop_child k trk L c pc ic trc idx a :
  kspaces_ok lo k trk ((memory_set ic, trc) :: L) → tcbs k !! c = Some (mkTcb pc (mkCell ic false)) →
  strong_refs k c = 0%nat → children ic = [] → pid_used (PID_ALLOCATOR k) pc → 0 ≤ pc < MAX_PID → stack_area (KERNEL_SPACE k) pc idx a →
  ∃ pa s ms trk', let k' := set_mm s (set_kernel_space ms (set_pids pa (set_tcbs (delete c (tcbs k)) k))) in
    drop_arc c k = Ok (k', tt) ∧ kspaces_ok lo k' trk' L ∧ (∀ p, pid_used pa p ↔ p ≠ pc ∧ pid_used (PID_ALLOCATOR k) p) ∧
    (∀ key, stack_key pc key → trk' !! key = None) ∧ (∀ p, p ∈ owned (memory_set ic) → ¬ in_use lo (frame_allocator s) p) ∧
    (avail (frame_allocator s) = avail (frame_allocator (k_mm k)) + length (area_frames a) + length (owned (memory_set ic)))%nat ∧
    ∀ p, p ∈ all_owned L → mem s !! p = mem (k_mm k) !! p.
Proof.
  intros Hks Hc Hrefs Hch Hu Hpc Hsa. set (kd := set_tcbs (delete c (tcbs k)) k).
  destruct (drop_stack kd trk ((memory_set ic, trc) :: L) pc idx a) as (pa & s1 & ms & trk' & Hr1 & Hr2 & Hks1 & _ & Hused & Hst & Hav1 & Hm1);
    [by apply (kspaces_ext lo k)|done..|]. cbn zeta in Hr2, Hks1.
  set (k1 := set_kernel_space ms (set_mm s1 (set_pids pa kd))) in *.
  destruct (drop_space lo k1 trk' (memory_set ic) trc L Hks1) as (s2 & Hr3 & Hks2 & Hm2 & Hfree & Hav2). cbn in Hav2.
  exists pa, s2, ms, trk'. cbn zeta. split; [|split; [by apply (kspaces_ext lo (set_mm s2 k1))|split; [done|split; [done|split; [done|split; [rewrite Hav2, Hav1; done|]]]]]].
  - unfold drop_arc. erewrite bind_ok by reflexivity. cbn [drop_task]. erewrite bind_ok by reflexivity.
    rewrite bool_decide_true by done. run (tcb_of_ok k c _ Hc). erewrite bind_ok by reflexivity. cbn [tcb_pid]. change (set_tcbs _ k) with kd.
    run Hr1. run Hr2. cbn [inner value]. erewrite bind_ok by (apply (zoom_ok k_mm set_mm); exact Hr3). by rewrite Hch.
  - intros p Hp. rewrite Hm2. apply (Hm1 p). apply elem_of_app. by right.
Qed.

(** C14: [waitpid].  When a child that the argument names has exited, the first such child is taken: the call returns
    its identifier, its exit code is at [exit_code_ptr] in the caller's memory, the child is no child any more, its
    identifier may be used again, its kernel stack is not mapped, all frames of its address space are free, and as many frames are free
    as these and the stack had.
    The other address spaces are whole and, but for the exit code, as before. *)
Theorem sys_waitpid_reaps k trk l t pt i tru c pc ic trc idx pid ptr ia sidx sa :
  kspaces_ok lo k trk ((memory_set i, tru) :: (memory_set ic, trc) :: l) → 0 < lo → current_ k = Some t →
  tcbs k !! t = Some (mkTcb pt (mkCell i false)) → (∀ d, d ∈ children i → d ≠ t ∧ is_Some (tcbs k !! d)) →
  children i !! idx = Some c → tcbs k !! c = Some (mkTcb pc (mkCell ic false)) → task_status ic = Zombie → children ic = [] → pid_match pid pc = true →
  (∀ j d, (j < idx)%nat → children i !! j = Some d → ∃ td, tcbs k !! d = Some td ∧ borrowed (inner td) = false ∧
    (is_zombie (value (inner td)) && pid_match pid (tcb_pid td)) = false) →
  strong_refs (put_inner t (with_children (remove_nth idx (children i)) i) k) c = 0%nat →
  pid_used (PID_ALLOCATOR k) pc → 0 ≤ pc < MAX_PID → stack_area (KERNEL_SPACE k) pc sidx sa →
  ia ∈ areas (memory_set i) → map_type ia = Framed → floor ptr ∈ area_pages ia → ptr mod 4096 ≤ 4092 →
  ∃ k' trk', sys_waitpid pid ptr k = Ok (k', pc) ∧
    tcbs k' = <[t := mkTcb pt (mkCell (with_children (remove_nth idx (children i)) i) false)]> (delete c (tcbs k)) ∧
    (∀ j b, le_split 4 (wrap32 (exit_code ic)) !! j = Some b → user_byte (mem (k_mm k')) tru (ptr + Z.of_nat j) = Some b) ∧
    (∀ b va, b ∈ areas (memory_set i) → map_type b = Framed → floor va ∈ area_pages b → ¬ ptr ≤ va < ptr + 4 →
      user_byte (mem (k_mm k')) tru va = user_byte (mem (k_mm k)) tru va) ∧
    kspaces_ok lo k' trk' ((memory_set i, tru) :: l) ∧
    (∀ p, pid_used (PID_ALLOCATOR k') p ↔ p ≠ pc ∧ pid_used (PID_ALLOCATOR k) p) ∧
    (∀ key, stack_key pc key → trk' !! key = None) ∧
    (∀ p, p ∈ owned (memory_set ic) → ¬ in_use lo (frame_allocator (k_mm k')) p) ∧
    (avail (frame_allocator (k_mm k')) = avail (frame_allocator (k_mm k)) + length (area_frames sa) + length (owned (memory_set ic)))%nat ∧
    current_ k' = current_ k ∧ ready_queue k' = ready_queue k ∧
    ∀ p, p ∈ all_owned l → mem (k_mm k') !! p = mem (k_mm k) !! p.
Proof.
  intros Hks Hlo Hcur Ht Hchild Hidx Hc Hz Hch Hmatch Hbefore Hrefs Hu Hpc Hsa Hia Hty Hptr Hoff.
  assert (c ∈ children i) as Hcin by (by eapply list_elem_of_lookup_2). destruct (Hchild c Hcin) as [Hct _].
  set (i' := with_children (remove_nth idx (children i)) i) in *. assert (inner_of k t = Some i) as Hi by (apply inner_of_Some; by exists pt).
  assert (lock t k = set_tcbs (<[t := mkTcb pt (mkCell i true)]> (tcbs k)) k) as Hlk by (unfold lock; by rewrite Ht).
  set (kw := set_tcbs (<[t := mkTcb pt (mkCell i' true)]> (tcbs k)) k).
  assert (tcbs kw !! c = Some (mkTcb pc (mkCell ic false))) as Hcw by (cbn; by rewrite lookup_insert_ne).
  assert (∀ k2, tcbs k2 = tcbs kw → ready_queue k2 = ready_queue k → current_ k2 = current_ k → INITPROC k2 = INITPROC k → strong_refs k2 c = 0%nat) as Hrefsw.
  { intros k2 E1 E2 E3 E4. rewrite <-Hrefs. unfold put_inner. rewrite Ht. apply strong_refs_ext; [|done..].
    rewrite E1. cbn. by rewrite !fmap_insert. }
  destruct (write_user_word kw trk (memory_set i) tru ((memory_set ic, trc) :: l) ia ptr (le_split 4 (wrap32 (exit_code ic))))
    as (pa & s1 & Hr1 & Hr2 & Hks1 & Hfa & Hcode & Hkeep & Hm1); [by apply (kspaces_ext lo k)|done..|rewrite length_le_split; lia|].
  set (k1 := set_mm s1 kw) in *.
  destruct (drop_child k1 trk ((memory_set i, tru) :: l) c pc ic trc sidx sa) as (pids & s2 & ms & trk' & Hr3 & Hks2 & Hused & Hst & Hfree & Hav & Hm2);
    try done; [|by apply Hrefsw|].
  { destruct Hks1 as [Hsp Hkeys Hpids]. split; [|done|done]. eapply spaces_perm; [|exact Hsp]. apply Permutation_skip, Permutation_swap. }
  cbn zeta in Hr3, Hks2. set (k2 := set_mm s2 _) in Hr3, Hks2.
  assert (tcbs k2 !! t = Some (mkTcb pt (mkCell i' true))) as Ht2 by (cbn; by rewrite lookup_delete_ne, lookup_insert_eq).
  assert (put_inner t i' k2 = set_tcbs (<[t := mkTcb pt (mkCell i' false)]> (delete c (tcbs k))) k2) as Hput.
  { unfold put_inner. rewrite Ht2. cbn [tcb_pid]. f_equal. cbn. by rewrite delete_insert_ne, insert_insert_eq. }
  exists (put_inner t i' k2), trk'. rewrite Hput. cbn [tcbs set_tcbs k_mm PID_ALLOCATOR current_ ready_queue].
  split; [|split; [done|split; [|split; [|split; [by apply (kspaces_ext lo k2)|split; [done|split; [done|split; [done|split; [|split; [done|split; [done|]]]]]]]]]]].
  - rewrite <-Hput. unfold sys_waitpid, the_task, current_task.
    erewrite bind_ok; [|erewrite bind_ok by reflexivity; rewrite Hcur; reflexivity]. erewrite bind_ok by (by apply borrow_ok). rewrite Hlk.
    destruct (child_found k t pt i pid idx c _ Hchild Hidx Hc) as [Hany Hfind]; [done|by apply bool_decide_true|done|done|].
    run Hany. cbn [negb]. run Hfind. set (kl := set_tcbs (<[t := mkTcb pt (mkCell i true)]> (tcbs k)) k) in *.
    fold i'. erewrite bind_ok.
    2:{ unfold write_inner. erewrite bind_ok by (apply tcb_of_ok; cbn; apply lookup_insert_eq). reflexivity. }
    assert (set_tcbs (<[t := mkTcb pt (mkCell i' true)]> (tcbs kl)) kl = kw) as Hkw by (unfold kl, kw, set_tcbs; cbn; by rewrite insert_insert_eq).
    cbn [tcb_pid]. rewrite Hkw. erewrite bind_ok by reflexivity. rewrite Hrefsw by done. erewrite bind_ok by reflexivity. run (tcb_of_ok kw c _ Hcw).
    erewrite bind_ok by (apply read_inner_ok, inner_of_Some; by exists pc). erewrite bind_ok by (apply (zoom_ok k_mm set_mm); exact Hr1).
    replace (set_mm (k_mm kw) kw) with kw by (by destruct k). erewrite bind_ok by (apply (zoom_ok k_mm set_mm); exact Hr2).
    run Hr3. erewrite bind_ok by (apply release_ok; eauto). cbn [tcb_pid]. rewrite to_isize_small by (unfold MAX_PID in Hpc; lia). done.
  - intros j b Hb. apply (Hcode (mem s2)); [|done]. intros p Hp. apply (Hm2 p). apply elem_of_app. by left.
  - intros b va Hb Htb Hvb Hout. apply (Hkeep (mem s2) b va); try done. intros p Hp. apply (Hm2 p). apply elem_of_app. by left.
  - cbn in Hav. cbn. by rewrite Hav, Hfa.
  - intros p Hp. change (mem s2 !! p = mem (k_mm k) !! p). rewrite Hm2 by (apply elem_of_app; by right). apply (Hm1 p).
    apply elem_of_app. right. apply elem_of_app. by right.
Qed.
End reap.
