(* ===== verification/Trap.v ===== *)
(** * Traps and the run of the kernel ([os/src/trap/mod.rs], [os/src/main.rs])

    [trap_handler], the return to user mode, and what a thread of the kernel does
    when [run_tasks] switches to it.  [kstep] puts them together: user programs
    change their memory and trap, the processor is dispatched when nothing runs. *)

From Stdlib Require Import String.
From S2P Require Import Prelude Bytes Console BlockCache Layout Bitmap Efs Vfs Address FrameAlloc PageTable UserBuf MemorySet.
From S2P Require Import Context Pid Kernel Task Virtio Manager Processor OsFile Syscall.

(** What the user program has in the registers when it traps. *)
Record user_regs := mkRegs { ur_x : list Z; ur_sstatus : Z; ur_sepc : Z; ur_stval : Z }.

(** The context after [__alltraps] (see [Asm.trap_saved]). *)
Definition saved (u : user_regs) (cx : TrapContext) : TrapContext :=
  mkTrapContext ((λ i, nth i (if bool_decide (i = 0 ∨ i = 4)%nat then x cx else ur_x u) 0) <$> seq 0 32)
    (ur_sstatus u) (ur_sepc u) (kernel_satp cx) (kernel_sp cx) (Context.trap_handler cx).

Section trap.
Context {D : Type} `{BlockDevice D} `{Platform}.
Notation K := (K D).

Definition set_kernel_trap_entry : K unit := modify (set_stvec trap_from_kernel_entry).
Definition set_user_trap_entry : K unit := modify (set_stvec TRAMPOLINE).
Definition enable_timer_interrupt : K unit := modify (set_stimer true).

(** [cx = current_trap_cx(); cx.x[10] = result as usize] *)
Definition finish_syscall (result : Z) : K unit :=
  ppn ← current_trap_cx;
  cx ← on_mm (get_cx ppn);
  on_mm (set_cx ppn (set_x 10 (wrap64 result) cx)).

(** The arguments of [__restore]: where the context is and the user's token. *)
Definition trap_return : K (Z * Z) :=
  set_user_trap_entry;;
  user_satp ← current_user_token;
  mret (TRAP_CONTEXT, user_satp).

(** The result says how the handler is left: to user mode, or by a switch. *)
Definition trap_handler (cause : Cause) (stval : Z) : K (option (Z * Z)) :=
  set_kernel_trap_entry;;
  match cause with
  | UserEnvCall =>
      (* jump to next instruction anyway *)
      ppn ← current_trap_cx;
      cx ← on_mm (get_cx ppn);
      let cx := with_sepc (wrap64 (sepc cx + 4)) cx in
      on_mm (set_cx ppn cx);;
      result ← syscall (arg (x cx) 17) [arg (x cx) 10; arg (x cx) 11; arg (x cx) 12; arg (x cx) 13];
      match result with
      | Returned v => finish_syscall v;; r ← trap_return; mret (Some r)
      | Switched => mret None
      end
  | StoreFault | StorePageFault | InstructionFault | InstructionPageFault | LoadFault | LoadPageFault =>
      ppn ← current_trap_cx;
      cx ← on_mm (get_cx ppn);
      sbi (println (str "[kernel] " ++ cause_debug cause ++ str " in application, bad addr = " ++ fmt_hex stval ++
        str ", bad instruction = " ++ fmt_hex (sepc cx) ++ str ", core dumped."));;
      (* page fault exit code *)
      exit_current (-2);;
      mret None
  | IllegalInstruction =>
      sbi (println (str "[kernel] IllegalInstruction in application, core dumped."));;
      (* illegal instruction exit code *)
      exit_current (-3);; mret None
  | SupervisorTimer => set_next_trigger;; suspend_current InTimer;; mret None
  | OtherCause => mthrow Panicked
  end.

(** From the user program to the end of the handler. *)
Definition trap (cause : Cause) (u : user_regs) : K (option (Z * Z)) :=
  ppn ← current_trap_cx;
  cx ← on_mm (get_cx ppn);
  on_mm (set_cx ppn (saved u cx));;
  trap_handler cause (ur_stval u).

(** What the thread does that [__switch] continues. *)
Definition resume (th : kthread) : K (option (Z * Z)) :=
  match th with
  | Fresh _ | InTimer => r ← trap_return; mret (Some r)
  | InYield => finish_syscall 0;; r ← trap_return; mret (Some r)
  | InStdin buffers =>
      o ← stdin_poll buffers;
      match o with
      | Returned v => finish_syscall (to_isize v);; r ← trap_return; mret (Some r)
      | Switched => mret None
      end
  end.

(** One iteration of [run_tasks], up to the return to user mode or the next switch. *)
Definition run_next : K (option (Z * Z)) :=
  r ← dispatch;
  match r with
  | Some task => th ← read_inner task task_cx; resume th
  | None => mret None
  end.

(** A store of the user program, to a page that its table lets it write. *)
Definition user_store (va : Z) (b : byte) : K unit :=
  token ← current_user_token;
  o ← on_mm (translate (floor va) (from_token token));
  pte ← unwrap o;
  if pte_is_valid pte && pte_writable pte && negb (Z.land (pte_flags pte) FLAG_U =? 0) then
    p ← on_mm (read_page (pte_ppn pte));
    p ← set_index p (page_offset va) b;
    on_mm (write_page (pte_ppn pte) p)
  else mthrow Panicked.

(** The runs of the machine after start-up: nothing runs and the loop of [run_tasks] is at
    its head, or the user program of the current task runs. *)
Inductive kstep : kernel D → kernel D → Prop :=
  | step_dispatch k k' r : current_ k = None → run_next k = Ok (k', r) → kstep k k'
  | step_store k k' va b : is_Some (current_ k) → user_store va b k = Ok (k', tt) → kstep k k'
  | step_trap k k' cause u r : is_Some (current_ k) → trap cause u k = Ok (k', r) → kstep k k'.

(** ** Start-up *)

(** Memory [mem] and device [d], before [rust_main]. *)
Definition power_on (mem : gmap Z page) (d : Cache.state D) : kernel D :=
  mkKernel (mkMm mem new) (mkMemorySet (mkPageTable 0 []) []) pid_new ∅ 0 [] None None [] d
    (mkEfs (mkBitmap 0 0) (mkBitmap 0 0) 0 0) [] 0 0 0 [] 0 false.

(** [MemorySet::activate] *)
Definition activate (ms : MemorySet) : K unit := modify (set_satp (ms_token ms)).

(** [mm::init], with the first use of [KERNEL_SPACE] *)
Definition mm_init (sym : kernel_symbols) : K unit :=
  on_mm (init_frame_allocator (ekernel sym));;
  ms ← on_mm (new_kernel strampoline sym);
  modify (set_kernel_space ms);;
  activate ms.

(** The permissions of a page in the middle of a section. *)
Definition mid_page (s e : Z) : K Z :=
  ms ← gets KERNEL_SPACE;
  o ← on_mm (ms_translate (floor (wrap64 (s + e) / 2)) ms);
  unwrap o.

Definition remap_test (sym : kernel_symbols) : K unit :=
  p ← mid_page (stext sym) (etext sym);
  assert_ (negb (pte_writable p));;
  p ← mid_page (srodata sym) (erodata sym);
  assert_ (negb (pte_writable p));;
  p ← mid_page (sdata sym) (edata sym);
  assert_ (negb (pte_executable p)).

(** The first use of [ROOT_INODE], in [list_apps], and with it of [BLOCK_DEVICE] *)
Definition open_root : K unit := virtio_new;; fs ← on_fs Efs.open; _ ← on_fs (root_inode fs); modify (set_efs fs).

(** The first use of [INITPROC], and [add_initproc] *)
Definition add_initproc : K unit :=
  r ← open_file (String.list_byte_of_string "ch6b_initproc") RDONLY;
  inode ← unwrap r;
  v ← read_all inode;
  t ← task_new v;
  modify (set_initproc (Some t));;
  add_task t.

Definition rust_main (sym : kernel_symbols) : K unit :=
  sbi (println (str "[kernel] Hello, world!"));;
  mm_init sym;;
  remap_test sym;;
  set_kernel_trap_entry;;
  enable_timer_interrupt;;
  set_next_trigger;;
  open_root;;
  list_apps;;
  add_initproc.
End trap.
