(* ===== verification/MemType.v ===== *)
(** * Physical memory keeps its shape

    Whatever the kernel and the user programs do, physical memory has the pages it had at
    the start, each of 4096 bytes, and the allocator's stack of frames is well formed:
    its frames are distinct and below [current], which does not pass [end_].  This holds of every operation
    that returns, for any arguments: the checks of the code itself are enough.

    [safe m Q]: the computation [m] keeps this, and its results satisfy [Q]. *)

From S2P Require Import Prelude Bytes Console BlockCache Layout Bitmap Efs Vfs Address FrameAlloc PageTable UserBuf MemorySet.
From S2P Require Import Context Pid Kernel Task Virtio Manager Processor OsFile Syscall Trap.

(** ** Invariants of computations *)
Section safe.
Context {S : Type} (I : S → Prop).

Definition safe {A} (m : M S A) (Q : A → Prop) : Prop := ∀ s s' a, I s → m s = Ok (s', a) → I s' ∧ Q a.
Definition stays {A} (m : M S A) : Prop := safe m (λ _, True).

Lemma safe_bind {A B} (m : M S A) (f : A → M S B) Q Q' : safe m Q → (∀ a, Q a → safe (f a) Q') → safe (m ≫= f) Q'.
Proof. intros Hm Hf s s' b Hs (s1 & a & H1 & H2)%bind_ok_inv. destruct (Hm _ _ _ Hs H1) as [Hs1 Ha]. by eapply Hf. Qed.

Lemma safe_keeps {A} (m : M S A) Q : safe m Q → stays m.
Proof. intros Hm s s' a Hs Hr. split; [by eapply Hm|done]. Qed.

Lemma safe_ret {A} (a : A) (Q : A → Prop) : Q a → safe (mret a) Q.
Proof. intros Ha s s' b Hs [= <- <-]. done. Qed.

Lemma safe_throw {A} (e : fault) (Q : A → Prop) : safe (mthrow e) Q.
Proof. intros s s' b Hs Hr. done. Qed.

Lemma stays_bind {A B} (m : M S A) (f : A → M S B) : stays m → (∀ a, stays (f a)) → stays (m ≫= f).
Proof. intros Hm Hf. eapply safe_bind; [exact Hm|]. intros a _. apply Hf. Qed.

Lemma stays_ret {A} (a : A) : stays (mret a).
Proof. by apply safe_ret. Qed.
Lemma stays_throw {A} (e : fault) : stays (mthrow e : M S A).
Proof. apply safe_throw. Qed.
Lemma stays_get : stays get.
Proof. intros s s' a Hs [= <- <-]. done. Qed.
Lemma stays_gets {A} (f : S → A) : stays (gets f).
Proof. intros s s' a Hs [= <- <-]. done. Qed.
Lemma stays_modify f : (∀ s, I s → I (f s)) → stays (modify f).
Proof. intros Hf s s' a Hs [= <- <-]. auto. Qed.

Lemma safe_unwrap {A} (o : option A) (Q : A → Prop) : (∀ a, o = Some a → Q a) → safe (unwrap o) Q.
Proof. destruct o; intros Ho; [by apply safe_ret, Ho|apply safe_throw]. Qed.
Lemma stays_unwrap {A} (o : option A) : stays (unwrap o : M S A).
Proof. by apply safe_unwrap. Qed.
Lemma stays_assert b : stays (assert_ b : M S unit).
Proof. destruct b; [apply stays_ret|apply stays_throw]. Qed.
Lemma stays_index {A} (l : list A) i : stays (index l i : M S A).
Proof. unfold index. repeat case_match; first [apply stays_ret|apply stays_throw]. Qed.
Lemma stays_slice {A} (l : list A) i j : stays (slice l i j : M S _).
Proof. unfold slice. repeat case_match; first [apply stays_ret|apply stays_throw]. Qed.
Lemma stays_checked_div a b : stays (checked_div a b : M S _).
Proof. unfold checked_div. repeat case_match; first [apply stays_ret|apply stays_throw]. Qed.

Lemma safe_set_index {A} (l : list A) i a : safe (set_index l i a : M S _) (λ l', length l' = length l).
Proof. unfold set_index. case_match; [apply safe_ret, length_insert|apply safe_throw]. Qed.
Lemma stays_set_index {A} (l : list A) i a : stays (set_index l i a : M S _).
Proof. eapply safe_keeps, safe_set_index. Qed.

Lemma safe_copy_into {A} (l src : list A) i j : safe (copy_into l i j src : M S _) (λ l', length l' = length l).
Proof.
  unfold copy_into. repeat case_match; try apply safe_throw. apply safe_ret.
  rewrite !length_app, length_take, length_drop.
  repeat match goal with H : _ && _ = true |- _ => apply andb_prop in H as [? ?] | H : (_ <=? _) = true |- _ => apply Z.leb_le in H
    | H : (_ =? _) = true |- _ => apply Z.eqb_eq in H end. lia.
Qed.

Lemma stays_for {A X} (l : list X) (f : A → X → M S A) a : (∀ a x, stays (f a x)) → stays (for_ l f a).
Proof. intros Hf. revert a. induction l as [|x l IH]; intros a; [apply stays_ret|]. by apply stays_bind. Qed.
Lemma stays_while {X} fuel (c : X → bool) (f : X → M S X) x : (∀ x, stays (f x)) → stays (while_ fuel c f x).
Proof.
  intros Hf. revert x. induction fuel as [|fuel IH]; intros x; cbn; (case_match; [|apply stays_ret]);
    [apply stays_throw|by apply stays_bind].
Qed.
End safe.

Lemma safe_zoom {S T} (I : S → Prop) (J : T → Prop) {A} (part : S → T) set (m : M T A) Q :
  (∀ s, I s → J (part s)) → (∀ s t, I s → J t → I (set t s)) → safe J m Q → safe I (zoom part set m) Q.
Proof.
  intros Hp Hs Hm s s' a HI (t & Hr & ->)%zoom_inv. destruct (Hm _ _ _ (Hp _ HI) Hr) as [Ht Ha]. auto.
Qed.

Create HintDb stays.
#[export] Hint Resolve stays_ret stays_throw stays_get stays_gets stays_unwrap stays_assert stays_index stays_slice stays_checked_div
  stays_set_index : stays.

Ltac stays := repeat first
  [ progress eauto with stays
  | apply stays_bind; [|intros ?]
  | apply stays_for; intros ? ?
  | match goal with |- stays _ (match ?x with _ => _ end) => destruct x end ].

(** ** Memory *)
Record mm_typed (pages : gset Z) (s : mm) : Prop := {
  mt_dom : dom (mem s) = pages;
  mt_pages : map_Forall (λ _ p, length p = 4096%nat) (mem s);
  mt_range : 0 ≤ current (frame_allocator s) ≤ end_ (frame_allocator s) ∧ end_ (frame_allocator s) < 2 ^ 64;
  mt_nodup : NoDup (recycled (frame_allocator s));
  mt_recycled : Forall (λ p, p < current (frame_allocator s)) (recycled (frame_allocator s));
}.

Section memory.
Context (pages : gset Z).
Notation J := (mm_typed pages).

Lemma safe_read_page ppn : safe J (read_page ppn) (λ p, length p = 4096%nat).
Proof.
  intros s s' p Hs. unfold read_page, mbind, M_bind. cbn. destruct (mem s !! ppn) as [q|] eqn:Hq; [|done].
  intros [= <- <-]. split; [done|]. by apply (mt_pages _ _ Hs ppn).
Qed.

Lemma stays_write_page ppn p : length p = 4096%nat → stays J (write_page ppn p).
Proof.
  intros Hp s s' u Hs. unfold write_page, read_page, mbind, M_bind. cbn. destruct (mem s !! ppn) as [q|] eqn:Hq; [|done].
  intros [= <- <-]. split; [|done]. destruct Hs as [Hd Hl Hr Hn Hc]. split; cbn; [|by apply map_Forall_insert_2|done..].
  rewrite dom_insert_lookup_L; [done|by exists q].
Qed.

(** A page read, and a page of the same size written. *)
Lemma stays_update_page ppn (f : page → M mm page) :
  (∀ p, length p = 4096%nat → safe J (f p) (λ q, length q = 4096%nat)) →
  stays J (p ← read_page ppn; q ← f p; write_page ppn q).
Proof.
  intros Hf. eapply safe_bind; [apply safe_read_page|]. intros p Hp. eapply safe_bind; [by apply Hf|]. intros q. apply stays_write_page.
Qed.

Lemma stays_frame_alloc : stays J frame_alloc.
Proof.
  unfold frame_alloc. intros s s' r Hs (s1 & s2 & [= <- <-] & Hr)%bind_ok_inv. revert Hr.
  assert (J (mkMm (mem s) (alloc (frame_allocator s)).1)) as Hs1.
  { destruct Hs as [Hd Hl Hr Hn Hc]. split; cbn [mem frame_allocator]; [done|done|..];
      unfold alloc; pose proof (pop_spec (recycled (frame_allocator s))) as Hp;
      destruct (pop (recycled (frame_allocator s))) as [[ppn rest]|]; cbn [fst current end_ recycled].
    all: try (rewrite Hp in Hn, Hc; apply NoDup_app in Hn as (? & _ & _); apply Forall_app in Hc as [? _]).
    all: try done.
    all: destruct (Z.eqb_spec (current (frame_allocator s)) (end_ (frame_allocator s))); cbn [fst current end_ recycled].
    all: try done.
    - rewrite wrap64_small by (unfold is_u64; lia). lia.
    - rewrite Hp. constructor. }
  destruct (alloc (frame_allocator s)) as [fa r0]. intros (s1 & u & [= <- <-] & Hr)%bind_ok_inv. revert Hr.
  cut (stays J (match r0 with Some ppn => t ← frame_tracker ppn; mret (Some t) | None => mret None end)); [intros Hk; by apply Hk|].
  destruct r0 as [ppn|]; [|apply stays_ret]. apply stays_bind; [|intros; apply stays_ret].
  unfold frame_tracker. eapply safe_bind; [apply safe_read_page|]. intros p Hp. apply stays_bind; [|intros; apply stays_ret].
  apply stays_write_page. by rewrite length_fmap.
Qed.

Lemma stays_frame_dealloc ppn : stays J (frame_dealloc ppn).
Proof.
  unfold frame_dealloc. intros s s' r [Hd Hl Hr Hn Hc] (s1 & s2 & [= <- <-] & Hrun)%bind_ok_inv. revert Hrun.
  unfold dealloc. destruct (Z.leb_spec (current (frame_allocator s)) ppn) as [|Hlt]; [done|]. case_bool_decide as Hex; [done|].
  cbn. intros [= <- <-]. split; [|done]. split; cbn; [done|done|done| |].
  - apply NoDup_app. split; [done|]. split; [|apply NoDup_singleton]. intros p Hp ->%list_elem_of_singleton. apply Hex, Exists_exists. eauto.
  - apply Forall_app. split; [done|]. by apply Forall_singleton.
Qed.
Hint Resolve stays_frame_alloc stays_frame_dealloc : stays.

Lemma stays_read_page ppn : stays J (read_page ppn).
Proof. eapply safe_keeps, safe_read_page. Qed.
Hint Resolve stays_read_page : stays.

(** Page tables *)
Lemma stays_read_pte ppn idx : stays J (read_pte ppn idx).
Proof. unfold read_pte. stays. Qed.

Lemma stays_write_pte ppn idx bits : stays J (write_pte ppn idx bits).
Proof.
  unfold write_pte. eapply safe_bind; [apply safe_read_page|]. intros p _. eapply safe_bind; [apply safe_set_index|]. intros ws Hws.
  apply stays_write_page. by rewrite length_le_bytes, Hws, length_le_words.
Qed.
Hint Resolve stays_read_pte stays_write_pte : stays.

Lemma stays_find_pte_create vpn pt : stays J (find_pte_create vpn pt).
Proof.
  unfold find_pte_create. generalize 0, (root_ppn pt). revert pt.
  induction (indexes vpn) as [|idx l IH]; intros pt i ppn; cbn [find_pte_create_loop]; stays.
Qed.
Lemma stays_find_pte vpn pt : stays J (find_pte vpn pt).
Proof.
  unfold find_pte. generalize 0, (root_ppn pt). induction (indexes vpn) as [|idx l IH]; intros i ppn; cbn [find_pte_loop]; stays.
Qed.
Hint Resolve stays_find_pte_create stays_find_pte : stays.
Lemma stays_map vpn ppn flags pt : stays J (map vpn ppn flags pt).
Proof. unfold map. stays. Qed.
Lemma stays_unmap vpn pt : stays J (unmap vpn pt).
Proof. unfold unmap. stays. Qed.
Lemma stays_translate vpn pt : stays J (translate vpn pt).
Proof. unfold translate. stays. Qed.
Hint Resolve stays_map stays_unmap stays_translate : stays.
Lemma stays_translate_va va pt : stays J (translate_va va pt).
Proof. unfold translate_va. stays. Qed.
Hint Resolve stays_translate_va : stays.

(** Memory of the user *)
Lemma stays_translated_byte_buffer token ptr len : stays J (translated_byte_buffer token ptr len).
Proof.
  unfold translated_byte_buffer. apply stays_bind; [|intros []; stays]. apply stays_while. intros [start v].
  unfold buffer_body, slice_page. stays.
Qed.
Lemma stays_translated_str fuel token ptr : stays J (translated_str fuel token ptr).
Proof.
  unfold translated_str. generalize (@nil byte) ptr. induction fuel as [|fuel IH]; intros v va; cbn [str_loop]; [stays|].
  unfold read_byte. stays.
Qed.
Lemma stays_translated_refmut token ptr : stays J (translated_refmut token ptr).
Proof. unfold translated_refmut. stays. Qed.
Lemma stays_read_slice sl : stays J (read_slice sl).
Proof. unfold read_slice. stays. Qed.
Lemma stays_write_slice sl bs : stays J (write_slice sl bs).
Proof.
  unfold write_slice. apply stays_update_page. intros p Hp. rewrite <-Hp. apply safe_copy_into.
Qed.
Lemma stays_write_phys bs : ∀ pa, stays J (write_phys pa bs).
Proof.
  induction bs as [|b bs IH]; intros pa; cbn [write_phys]; [stays|].
  eapply safe_bind; [apply safe_read_page|]. intros p Hp. eapply safe_bind; [apply safe_set_index|]. intros q Hq.
  apply stays_bind; [apply stays_write_page; congruence|auto].
Qed.

(** Trap contexts *)
Lemma safe_get_cx ppn : safe J (get_cx ppn) (λ cx, length (x cx) = 32%nat).
Proof.
  unfold get_cx. eapply safe_bind; [apply safe_read_page|]. intros p _. apply safe_ret. cbn [cx_of_words x].
  by rewrite length_take, length_le_words.
Qed.
Lemma stays_get_cx ppn : stays J (get_cx ppn).
Proof. eapply safe_keeps, safe_get_cx. Qed.
Lemma stays_set_cx ppn cx : length (x cx) = 32%nat → stays J (set_cx ppn cx).
Proof.
  intros Hx. unfold set_cx. eapply safe_bind; [apply safe_read_page|]. intros p Hp. apply stays_write_page.
  rewrite length_app, length_le_bytes, length_drop, Hp. unfold cx_words. rewrite length_app, Hx. reflexivity.
Qed.
Hint Resolve stays_translated_byte_buffer stays_translated_str stays_translated_refmut stays_read_slice stays_write_slice
  stays_write_phys stays_get_cx : stays.

(** Address spaces *)
Lemma stays_drop_frames fs : stays J (drop_frames fs).
Proof. unfold drop_frames. stays. Qed.
Hint Resolve stays_drop_frames : stays.
Lemma stays_drop_areas l : stays J (drop_areas l).
Proof. unfold drop_areas, drop_area. stays. Qed.
Hint Resolve stays_drop_areas : stays.
Lemma stays_drop_memory_set ms : stays J (drop_memory_set ms).
Proof. unfold drop_memory_set. stays. Qed.
Lemma stays_recycle_data_pages ms : stays J (recycle_data_pages ms).
Proof. unfold recycle_data_pages. stays. Qed.
Lemma stays_area_new s e ty perm : stays J (area_new s e ty perm).
Proof. unfold area_new, area_of. stays. Qed.
Lemma stays_area_unmap a pt : stays J (area_unmap a pt).
Proof. unfold area_unmap. apply stays_for. intros [a' pt'] vpn. unfold unmap_one, drop_option. stays. Qed.
Lemma stays_area_map a pt : stays J (area_map a pt).
Proof.
  unfold area_map. revert a pt. cut (∀ l a pt, stays J (area_map_loop l a pt)); [auto|].
  induction l as [|vpn l IH]; intros a pt; cbn [area_map_loop]; [stays|].
  apply stays_bind; [unfold map_one, drop_option; stays|]. intros [[a' pt'] r]. stays.
Qed.
Lemma stays_copy_data a pt data : stays J (copy_data a pt data).
Proof.
  unfold copy_data. apply stays_bind; [stays|]. intros _. generalize (S (Z.to_nat (Z.of_nat (length data) / PAGE_SIZE))), 0, (l (vpn_range a)).
  induction n as [|n IH]; intros start vpn; cbn [copy_loop]; [stays|].
  do 3 (apply stays_bind; [stays|intros ?]). eapply safe_bind; [apply safe_read_page|]. intros p Hp.
  eapply safe_bind; [apply safe_copy_into|]. intros q Hq. apply stays_bind; [apply stays_write_page; congruence|intros _]. stays.
Qed.
Hint Resolve stays_drop_memory_set stays_recycle_data_pages stays_area_new stays_area_unmap stays_area_map stays_copy_data : stays.
Lemma stays_push a data ms : stays J (push a data ms).
Proof. unfold push, drop_area. stays. Qed.
Hint Resolve stays_push : stays.
Lemma stays_insert_framed_area s e perm ms : stays J (insert_framed_area s e perm ms).
Proof. unfold insert_framed_area. stays. Qed.
Lemma stays_remove_framed_area s e ms : stays J (remove_framed_area s e ms).
Proof. unfold remove_framed_area, drop_area. stays. Qed.
Lemma stays_remove_area_with_start_vpn v ms : stays J (remove_area_with_start_vpn v ms).
Proof. unfold remove_area_with_start_vpn, drop_area. stays. Qed.
Lemma stays_push_new s e ty perm data ms : stays J (push_new s e ty perm data ms).
Proof. unfold push_new. stays. Qed.
Lemma stays_new_bare : stays J new_bare.
Proof. unfold new_bare, pt_new. stays. Qed.
Lemma stays_map_trampoline st ms : stays J (map_trampoline st ms).
Proof. unfold map_trampoline. stays. Qed.
Hint Resolve stays_push_new stays_new_bare stays_map_trampoline : stays.
Lemma stays_new_kernel st sym : stays J (new_kernel st sym).
Proof. unfold new_kernel. stays. Qed.
Lemma stays_from_elf st elf_new data : stays J (from_elf st elf_new data).
Proof. unfold from_elf, load_segment. stays. Qed.
Lemma stays_from_existed_user st ms : stays J (from_existed_user st ms).
Proof.
  unfold from_existed_user, copy_area, from_another. do 2 (apply stays_bind; [stays|intros ?]). apply stays_for. intros ms' ar.
  apply stays_bind; [stays|]. intros a'. apply stays_bind; [stays|]. intros [ms2 r]. apply stays_bind; [|intros _; stays]. apply stays_for.
  intros _ vpn. unfold copy_page, ms_translate. do 4 (apply stays_bind; [stays|intros ?]).
  eapply safe_bind; [apply safe_read_page|]. intros p Hp. by apply stays_write_page.
Qed.
End memory.
#[export] Hint Resolve stays_frame_alloc stays_frame_dealloc stays_read_page stays_translate stays_translated_byte_buffer stays_translated_str
  stays_translated_refmut stays_read_slice stays_write_slice stays_write_phys stays_get_cx stays_drop_memory_set stays_recycle_data_pages
  stays_insert_framed_area stays_remove_framed_area stays_remove_area_with_start_vpn stays_new_kernel stays_from_elf
  stays_from_existed_user : stays.

(** ** The kernel *)
Section kernel.
Context {D : Type} `{BlockDevice D} `{Platform} (pages : gset Z).
Notation K := (K D).
Definition typed (k : kernel D) : Prop := mm_typed pages (k_mm k).
Notation J := (mm_typed pages).

Lemma safe_on_mm {A} (m : M mm A) Q : safe J m Q → safe typed (on_mm m : K A) Q.
Proof. by apply safe_zoom. Qed.
Lemma stays_on_mm {A} (m : M mm A) : stays J m → stays typed (on_mm m : K A).
Proof. apply safe_on_mm. Qed.
Lemma stays_on_fs {A} (p : prog A) : stays typed (on_fs p : K A).
Proof. apply (safe_zoom _ (λ _, True)); [done|done|]. by intros s s' a _ _. Qed.
Lemma stays_on_res {A} (r : res A) : stays typed (on_res r : K A).
Proof. intros k k' a Hk. unfold on_res. destruct r; [|done]. by intros [= <- <-]. Qed.
Lemma stays_elsewhere (f : kernel D → kernel D) : (∀ k, k_mm (f k) = k_mm k) → stays typed (modify f).
Proof. intros Hf. apply stays_modify. intros k. unfold typed. by rewrite Hf. Qed.
Hint Resolve stays_on_fs stays_on_res : stays.
Hint Extern 1 (stays typed (on_mm _)) => (apply stays_on_mm; stays) : stays.
Hint Extern 1 (stays typed (modify _)) => (apply stays_elsewhere; intros ?; reflexivity) : stays.

(** Reads a context, changes it, writes it back. *)
Lemma stays_update_cx ppn (f : TrapContext → TrapContext) :
  (∀ cx, length (x cx) = 32%nat → length (x (f cx)) = 32%nat) →
  stays typed (cx ← on_mm (get_cx ppn); on_mm (set_cx ppn (f cx)) : K unit).
Proof.
  intros Hf. eapply safe_bind; [apply safe_on_mm, safe_get_cx|]. intros cx Hx. by apply stays_on_mm, stays_set_cx, Hf.
Qed.

(** Control blocks *)
Lemma stays_tcb_of t : stays typed (tcb_of t : K _).
Proof. unfold tcb_of. stays. Qed.
Hint Resolve stays_tcb_of : stays.
Lemma stays_borrow t : stays typed (borrow t : K _).
Proof. unfold borrow, put_tcb. stays. Qed.
Lemma stays_release t i : stays typed (release t i : K _).
Proof. unfold release, put_tcb. stays. Qed.
Lemma stays_write_inner t i : stays typed (write_inner t i : K _).
Proof. unfold write_inner, put_tcb. stays. Qed.
Hint Resolve stays_borrow stays_release stays_write_inner : stays.
Lemma stays_with_inner {A} t (f : TaskControlBlockInner → TaskControlBlockInner * A) : stays typed (with_inner t f : K _).
Proof. unfold with_inner. stays. Qed.
Hint Resolve stays_with_inner : stays.
Lemma stays_read_inner {A} t (f : TaskControlBlockInner → A) : stays typed (read_inner t f : K _).
Proof. unfold read_inner. stays. Qed.
Hint Resolve stays_read_inner : stays.

(** Tasks *)
Lemma stays_kernel_stack_new pid : stays typed (kernel_stack_new pid : K _).
Proof. unfold kernel_stack_new, on_kernel_space. stays. Qed.
Lemma stays_drop_kernel_stack pid : stays typed (drop_kernel_stack pid : K _).
Proof. unfold drop_kernel_stack, on_kernel_space. stays. Qed.
Lemma stays_trap_cx_page_of ms : stays typed (trap_cx_page_of ms : K _).
Proof. unfold trap_cx_page_of, ms_translate. stays. Qed.
Lemma stays_k_pid_alloc : stays typed (k_pid_alloc : K _).
Proof. unfold k_pid_alloc. stays. Qed.
Lemma stays_drop_pid pid : stays typed (drop_pid pid : K _).
Proof. unfold drop_pid. stays. Qed.
Lemma stays_arc_new pid i : stays typed (arc_new pid i : K _).
Proof. unfold arc_new. stays. Qed.
Lemma stays_init_trap_cx ppn entry sp top : stays typed (init_trap_cx ppn entry sp top : K _).
Proof. unfold init_trap_cx, kernel_token. stays. apply stays_on_mm, stays_set_cx. reflexivity. Qed.
Lemma stays_add_task t : stays typed (add_task t : K _).
Proof. unfold add_task, add. stays. Qed.
Hint Resolve stays_kernel_stack_new stays_drop_kernel_stack stays_trap_cx_page_of stays_k_pid_alloc stays_drop_pid stays_arc_new
  stays_init_trap_cx stays_add_task : stays.
Lemma stays_task_new data : stays typed (task_new data : K _).
Proof. unfold task_new. stays. Qed.
Lemma stays_exec t data : stays typed (exec t data : K _).
Proof. unfold exec. stays. Qed.
Lemma stays_spawn t data : stays typed (spawn t data : K _).
Proof. unfold spawn. stays. Qed.
Lemma stays_fork t : stays typed (fork t : K _).
Proof.
  unfold fork. do 8 (apply stays_bind; [stays|intros ?]). eapply safe_bind; [apply safe_on_mm, safe_get_cx|]. intros cx Hx.
  apply stays_bind; [by apply stays_on_mm, stays_set_cx|intros _]. stays.
Qed.
Lemma stays_drop_arc t : stays typed (drop_arc t : K _).
Proof.
  unfold drop_arc. apply stays_bind; [stays|]. intros m. generalize (S (base.size m)) as fuel. intros fuel. revert t.
  induction fuel as [|fuel IH]; intros t; cbn [drop_task]; stays.
Qed.
Hint Resolve stays_task_new stays_exec stays_spawn stays_fork stays_drop_arc : stays.

(** The processor *)
Lemma stays_the_task : stays typed (the_task : K _).
Proof. unfold the_task, current_task. stays. Qed.
Hint Resolve stays_the_task : stays.
Lemma stays_get_time : stays typed (get_time : K _).
Proof. unfold get_time. stays. Qed.
Hint Resolve stays_get_time : stays.
Lemma stays_set_next_trigger : stays typed (set_next_trigger : K _).
Proof. unfold set_next_trigger, sbi. stays. Qed.
Lemma stays_dispatch : stays typed (dispatch : K _).
Proof. unfold dispatch, fetch_task, fetch, get_time_us. stays. unfold fetch_body. stays. Qed.
Lemma stays_current_user_token : stays typed (current_user_token : K _).
Proof. unfold current_user_token. stays. Qed.
Lemma stays_current_trap_cx : stays typed (current_trap_cx : K _).
Proof. unfold current_trap_cx. stays. Qed.
Lemma stays_suspend_current th : stays typed (suspend_current th : K _).
Proof. unfold suspend_current, take_current_task. stays. Qed.
Lemma stays_exit_current c : stays typed (exit_current c : K _).
Proof. unfold exit_current, take_current_task. stays. Qed.
Hint Resolve stays_set_next_trigger stays_dispatch stays_current_user_token stays_current_trap_cx stays_suspend_current
  stays_exit_current : stays.

(** Files *)
Lemma stays_efs_call {A} (f : EasyFileSystem → prog A) : stays typed (efs_call f : K A).
Proof. unfold efs_call. stays. Qed.
Hint Resolve stays_efs_call : stays.
Lemma stays_root_call {A} (f : EasyFileSystem → Inode → prog A) : stays typed (root_call f : K A).
Proof. unfold root_call. stays. Qed.
Lemma stays_get_os_inode id : stays typed (get_os_inode id : K _).
Proof. unfold get_os_inode. stays. Qed.
Hint Resolve stays_root_call stays_get_os_inode : stays.
Lemma stays_set_offset id off : stays typed (set_offset id off : K _).
Proof. unfold set_offset. stays. Qed.
Lemma stays_os_inode_new r w i : stays typed (os_inode_new r w i : K _).
Proof. unfold os_inode_new. stays. Qed.
Hint Resolve stays_set_offset stays_os_inode_new : stays.
Lemma stays_read_all id : stays typed (read_all id : K _).
Proof.
  unfold read_all. generalize (replicate 512 Byte.x00) (@nil byte).
  induction loop_fuel as [|fuel IH]; intros buffer v; cbn [read_all_loop]; stays.
Qed.
Lemma stays_open_file name flags : stays typed (open_file name flags : K _).
Proof. unfold open_file. stays. Qed.
Lemma stays_inode_read id l : ∀ n, stays typed (inode_read id l n : K _).
Proof. induction l as [|sl l IH]; intros n; cbn [inode_read]; stays. Qed.
Lemma stays_inode_write id l : ∀ n, stays typed (inode_write id l n : K _).
Proof. induction l as [|sl l IH]; intros n; cbn [inode_write]; stays. Qed.
Lemma stays_stdin_poll l : stays typed (stdin_poll l : K _).
Proof.
  unfold stdin_poll. do 2 (apply stays_bind; [stays|intros ?]). case_match; [stays|]. apply stays_bind; [stays|]. intros sl.
  eapply safe_bind; [apply safe_on_mm, safe_read_page|]. intros p Hp. eapply safe_bind; [apply safe_set_index|]. intros q Hq.
  apply stays_bind; [apply stays_on_mm, stays_write_page; congruence|stays].
Qed.
Hint Resolve stays_read_all stays_open_file stays_inode_read stays_inode_write stays_stdin_poll : stays.
Lemma stays_file_read f l : stays typed (file_read f l : K _).
Proof. unfold file_read, stdin_read. stays. Qed.
Lemma stays_file_write f l : stays typed (file_write f l : K _).
Proof. unfold file_write, stdout_write, sbi. stays. Qed.
Lemma stays_copy_to_user dsts src : stays typed (copy_to_user dsts src : K _).
Proof. unfold copy_to_user. stays. Qed.
Hint Resolve stays_file_read stays_file_write stays_copy_to_user : stays.

(** System calls *)
Lemma stays_clear_a0 t : stays typed (clear_a0 t : K _).
Proof.
  unfold clear_a0. apply stays_bind; [stays|]. intros ppn. apply stays_update_cx. intros cx Hx. cbn. by rewrite length_insert.
Qed.
Lemma stays_any_child pid l : stays typed (any_child pid l : K _).
Proof. induction l as [|p l IH]; cbn [any_child]; unfold pid_matches; stays. Qed.
Lemma stays_find_zombie pid l : ∀ n, stays typed (find_zombie pid l n : K _).
Proof. induction l as [|p l IH]; intros n; cbn [find_zombie]; unfold pid_matches; stays. Qed.
Hint Resolve stays_clear_a0 stays_any_child stays_find_zombie : stays.

Lemma stays_syscall id args : stays typed (syscall id args : K _).
Proof.
  unfold syscall, update_current_syscall_times. apply stays_bind; [stays|]. intros _.
  repeat (case_match; [first
    [ unfold returns, sys_linkat, sys_unlinkat, link_file, unlink_file, sys_getpid, sys_get_time, sys_task_info, get_time_us,
        current_syscall_times, current_begin_time, sys_fork, sys_close, sys_write, sys_open, sys_exec, sys_spawn, sys_munmap,
        remove_current_memory_set, sys_mmap, insert_current_memory_set, sys_set_priority, set_current_priority, sys_fstat, root_nlink,
        file_ino, file_mode, file_block_id, file_block_offset, sys_waitpid, sys_exit, sys_yield, sys_read; stays; fail ]|]).
  stays.
Qed.
Hint Resolve stays_syscall : stays.

(** Traps *)
Lemma stays_finish_syscall r : stays typed (finish_syscall r : K _).
Proof.
  unfold finish_syscall. apply stays_bind; [stays|]. intros ppn. apply stays_update_cx. intros cx Hx. cbn. by rewrite length_insert.
Qed.
Lemma stays_trap_return : stays typed (trap_return : K _).
Proof. unfold trap_return, set_user_trap_entry. stays. Qed.
Hint Resolve stays_finish_syscall stays_trap_return : stays.

Lemma stays_trap cause u : stays typed (trap cause u : K _).
Proof.
  unfold trap. apply stays_bind; [stays|]. intros ppn. eapply safe_bind; [apply safe_on_mm, safe_get_cx|]. intros cx Hx.
  apply stays_bind; [apply stays_on_mm, stays_set_cx; reflexivity|intros _].
  unfold trap_handler, set_kernel_trap_entry, sbi. apply stays_bind; [stays|]. intros _. destruct cause; try (stays; fail).
  apply stays_bind; [stays|]. intros ppn'. eapply safe_bind; [apply safe_on_mm, safe_get_cx|]. intros cx' Hx'. apply stays_bind; [by apply stays_on_mm, stays_set_cx|intros _]. stays.
Qed.

Lemma stays_run_next : stays typed (run_next : K _).
Proof. unfold run_next, resume. stays. Qed.

Lemma stays_user_store va b : stays typed (user_store va b : K _).
Proof.
  unfold user_store. do 3 (apply stays_bind; [stays|intros ?]). case_match; [|stays].
  eapply safe_bind; [apply safe_on_mm, safe_read_page|]. intros p Hp. eapply safe_bind; [apply safe_set_index|]. intros q Hq.
  apply stays_on_mm, stays_write_page. congruence.
Qed.

Lemma kstep_typed k k' : kstep k k' → typed k → typed k'.
Proof.
  intros [k1 k2 r _ Hr|k1 k2 va b _ Hr|k1 k2 cause u r _ Hr] Hk.
  - by apply (stays_run_next _ _ _ Hk Hr).
  - by apply (stays_user_store va b _ _ _ Hk Hr).
  - by apply (stays_trap cause u _ _ _ Hk Hr).
Qed.

(** Start-up *)
Lemma stays_sbi cs : stays typed (sbi cs : K _).
Proof. unfold sbi. stays. Qed.
Lemma sbi_mm cs (k k' : kernel D) u : sbi cs k = Ok (k', u) → k_mm k' = k_mm k.
Proof. by intros [= <- _]. Qed.
Lemma stays_mid_page s e : stays typed (mid_page s e : K _).
Proof. unfold mid_page, ms_translate. stays. Qed.
Hint Resolve stays_sbi stays_mid_page : stays.
Lemma stays_open_root : stays typed (open_root : K _).
Proof. unfold open_root, virtio_new, virtio_dma_alloc, dma_page. stays. Qed.
Hint Resolve stays_open_root : stays.
Lemma stays_list_apps : stays typed (list_apps : K _).
Proof. unfold list_apps. stays. Qed.
Lemma stays_add_initproc : stays typed (add_initproc : K _).
Proof. unfold add_initproc. stays. Qed.
Hint Resolve stays_list_apps stays_add_initproc : stays.

Lemma mm_init_typed sym (k k' : kernel D) :
  0 ≤ ceil (ekernel sym) ≤ floor MEMORY_END → recycled (frame_allocator (k_mm k)) = [] → typed k →
  mm_init sym k = Ok (k', tt) → typed k'.
Proof.
  intros He Hrec [Hd Hl _ _ _] (k1 & u & Hr1 & Hr2)%bind_ok_inv. revert Hr2.
  cut (typed k1).
  { intros Hk1 Hr2. revert Hk1 Hr2. cut (stays typed (ms ← on_mm (new_kernel strampoline sym); modify (set_kernel_space ms);; activate ms : K _)).
    - intros Hk Hk1 Hr2. by apply (Hk _ _ _ Hk1 Hr2).
    - unfold activate. stays. }
  apply zoom_inv in Hr1 as (s & [= <- _] & ->). split; cbn; [done|done| | |]; rewrite ?Hrec; [|constructor|constructor].
  split; [done|]. by vm_compute.
Qed.

Lemma boot_typed sym m d k :
  dom m = pages → map_Forall (λ _ p, length p = 4096%nat) m → 0 ≤ ceil (ekernel sym) ≤ floor MEMORY_END →
  rust_main sym (power_on m d) = Ok (k, tt) → typed k.
Proof.
  intros Hd Hm He (k1 & u1 & Hr1 & (k2 & [] & Hr2 & Hr3)%bind_ok_inv)%bind_ok_inv.
  assert (typed (power_on m d)) as Hk0 by (split; cbn; [done|done|lia|constructor|constructor]).
  pose proof (sbi_mm _ _ _ _ Hr1) as Hk1. destruct (stays_sbi _ _ _ _ Hk0 Hr1) as [Ht1 _].
  pose proof (mm_init_typed sym k1 k2 He ltac:(by rewrite Hk1) Ht1 Hr2) as Ht2. revert Hr3.
  match goal with |- ?m k2 = _ → _ => cut (stays typed m); [intros Hk Hr3; by apply (Hk _ _ _ Ht2 Hr3)|] end.
  unfold remap_test, set_kernel_trap_entry, enable_timer_interrupt. stays.
Qed.
End kernel.

(** C23: memory keeps its shape.  From start-up on, whatever programs run, with whatever
    arguments of system calls and whatever they store, physical memory has the same pages,
    each of 4096 bytes: no operation of the kernel writes outside memory or changes the
    size of a page.  The recycled frames of the allocator are distinct and below
    [current], and [current] does not pass the end of memory. *)
Theorem memory_keeps_shape {D : Type} `{BlockDevice D} `{Platform} sym m d (k0 k : kernel D) :
  map_Forall (λ _ p, length p = 4096%nat) m → 0 ≤ ceil (ekernel sym) ≤ floor MEMORY_END →
  rust_main sym (power_on m d) = Ok (k0, tt) → rtc kstep k0 k → typed (dom m) k.
Proof.
  intros Hm He Hr Hs. pose proof (boot_typed (dom m) sym m d k0 eq_refl Hm He Hr) as Hk0. revert Hk0. clear Hr.
  induction Hs as [k|k1 k2 k3 Hs _ IH]; [done|]. intros Hk1. by apply IH, (kstep_typed _ k1).
Qed.
