(* ===== verification/KernelSpace.v ===== *)
(** * The kernel's own address space

    [new_kernel] maps every section of the kernel, the free memory and the device
    registers to themselves.  Page tables are few, because neighbouring pages share
    them: the frames they need are counted by the indexes that lead to them. *)

From S2P Require Import Prelude Bytes Console BlockCache Address FrameAlloc PageTable UserBuf MemorySet MemSpec ForkSpec.
From S2P Require Import Context Pid Kernel Task Virtio Manager Processor OsFile Syscall Trap.

Local Ltac Zify.zify_post_hook ::= Z.to_euclidean_division_equations.

(** ** Counting tables *)
Section shape.
Context (lo : Z) (l1 : list Z) (l2 : list (Z * Z)).
Notation shape := (pt_shape (.∈ l1) (.∈ l2) lo).

Definition max_tables : nat := 1 + length l1 + length l2.

Lemma omap_length_le {A B} (f : A → option B) l : (length (omap f l) ≤ length l)%nat.
Proof. induction l as [|x l IH]; [done|]. cbn. destruct (f x); simpl; lia. Qed.

Lemma shape_frames s pt tr : shape s pt tr → (length (frames pt) ≤ max_tables)%nat.
Proof.
  intros (t1 & t2 & [_ _ [Hnd Hfr] _] & _ & H1 & H2).
  assert (frames pt ⊆+ root_ppn pt :: omap (t1 !!.) l1 ++ omap (t2 !!.) l2) as Hsub.
  { apply NoDup_submseteq; [done|]. intros p [->|[[i Hi]|[x Hx]]]%Hfr; [by left|..]; right; apply elem_of_app; [left|right];
      apply list_elem_of_omap; eauto. }
  apply submseteq_length in Hsub. cbn [length] in Hsub. rewrite length_app in Hsub.
  pose proof (omap_length_le (t1 !!.) l1). pose proof (omap_length_le (t2 !!.) l2). unfold max_tables. lia.
Qed.

(** The tables for page [v] are among those counted. *)
Definition covered (v : Z) : Prop := index1 v ∈ l1 ∧ index2 v ∈ l2.

(** Frames for all tables that may be needed, and two more. *)
Definition room (s : mm) (pt : PageTable) : Prop := (max_tables + 2 ≤ avail (frame_allocator s) + length (frames pt))%nat.

Lemma area_map_identical n : ∀ s pt tr l a,
  shape s pt tr → room s pt → map_type a = Identical → 0 ≤ map_perm a < 2 ^ 8 → 0 ≤ l → l + Z.of_nat n < 2 ^ 44 → Z.of_nat n ≤ 2 ^ 27 →
  (∀ v, l ≤ v < l + Z.of_nat n → covered v ∧ tr !! page_key v = None) →
  ∃ s' pt', area_map_loop (range l (l + Z.of_nat n)) a pt s = Ok (s', (a, pt', 0)) ∧ pt_ext lo s pt s' pt' ∧
    shape s' pt' (map_pages a ((λ v, (v, v)) <$> range l (l + Z.of_nat n)) tr).
Proof.
  induction n as [|n IH]; intros s pt tr l a Hsh Hroom Hty Hp Hl Hmax Hb Hn.
  { exists s, pt. rewrite range_nil by lia. split; [done|]. split; [|done]. destruct Hsh as (t1 & t2 & Hinv & _).
    by eapply pt_ext_refl. }
  pose proof (shape_frames _ _ _ Hsh). destruct (Hn l ltac:(lia)) as [[H1 H2] Hfree].
  destruct (run_map_shape _ _ lo s pt tr l l (map_perm a) Hsh) as (s1 & pt1 & Hext & _ & Hr & Hsh1);
    [unfold room in Hroom; lia|done|done|lia|done|].
  rewrite Hfree in Hr, Hsh1. cbn iota in Hr, Hsh1.
  destruct (IH s1 pt1 (<[page_key l := area_pte a l]> tr) (l + 1) a) as (s2 & pt2 & Hr2 & Hext2 & Hsh2); try done; try lia.
  { unfold room in *. pose proof (ext_avail _ _ _ _ _ Hext). lia. }
  { intros v Hv. destruct (Hn v ltac:(lia)) as [Hc Hf]. split; [done|]. rewrite lookup_insert_ne; [done|].
    intros He. apply (page_key_ne l v); [lia|done]. }
  exists s2, pt2. rewrite range_S. cbn [area_map_loop fmap list_fmap map_pages foldl]. split; [|split; [by eapply pt_ext_trans|done]].
  unfold map_one. rewrite Hty. erewrite bind_ok; [|erewrite bind_ok by done; cbn iota beta; erewrite bind_ok by exact Hr; done].
  cbn iota beta. change (0 =? -1) with false. cbn iota. exact Hr2.
Qed.

(** ** Spaces that map pages to themselves *)
Definition ident_area (start_va end_va perm : Z) : MapArea := mkArea (mkRange (floor start_va) (ceil end_va)) [] Identical perm.

Record ident_space (base : Z) (s : mm) (ms : MemorySet) (tr : gmap Z Z) : Prop := {
  is_shape : shape s (page_table ms) tr;
  is_inv : ms_inv lo s ms tr;
  is_room : room s (page_table ms);
  is_owned : owned ms = frames (page_table ms);
  is_norec : recycled (frame_allocator s) = [];
  is_exact : ∀ k, is_Some (tr !! k) → k = base ∨ k ∈ concat (area_keys <$> areas ms);
}.

(** A section that can be mapped, apart from the pages in [ks]. *)
Record sect_ok (ks : list Z) (a : MapArea) : Prop := {
  st_range : 0 ≤ l (vpn_range a) ≤ r (vpn_range a) ∧ r (vpn_range a) < 2 ^ 44;
  st_small : r (vpn_range a) - l (vpn_range a) ≤ 2 ^ 27;
  st_perm : 0 ≤ map_perm a < 2 ^ 8;
  st_ident : map_type a = Identical ∧ data_frames a = [];
  st_covered : ∀ v, v ∈ area_pages a → covered v;
  st_free : ∀ k, k ∈ area_keys a → k ∉ ks;
}.

Lemma ident_pages a : map_type a = Identical → area_map_of a = (λ v, (v, v)) <$> area_pages a.
Proof. intros Hty. unfold area_map_of. by rewrite Hty. Qed.

Lemma ident_fst (vs : list Z) : ((λ v, (v, v)) <$> vs).*1 = vs.
Proof. induction vs; cbn; congruence. Qed.

Lemma push_ident base s ms tr a :
  ident_space base s ms tr → sect_ok (base :: concat (area_keys <$> areas ms)) a →
  ∃ s' pt' tr', let ms' := mkMemorySet pt' (areas ms ++ [a]) in
    push a None ms s = Ok (s', (ms', 0)) ∧ mm_step lo s (owned ms) s' (owned ms') ∧ ident_space base s' ms' tr' ∧
    tr' !! base = tr !! base.
Proof.
  intros [Hsh [Hpt Ho Har Hks] Hroom Hown Hnr Hex] [[Hr Hmax] Hsm Hpm [Hty Hem] Hcov Hfree].
  pose proof (length_area_pages a) as Hlp. set (tr' := map_pages a ((λ v, (v, v)) <$> area_pages a) tr).
  assert (∀ v, v ∈ area_pages a → tr !! page_key v = None) as Hnone.
  { intros v Hv. apply eq_None_not_Some. intros Hs%Hex. apply (Hfree (page_key v)); [by apply list_elem_of_fmap_2|].
    by apply elem_of_cons. }
  destruct (area_map_identical (length (area_pages a)) s (page_table ms) tr (l (vpn_range a)) a) as (s' & pt' & Hrun & Hext & Hsh');
    try done; try lia.
  { intros v Hv. assert (v ∈ area_pages a) by (apply elem_of_range; lia). auto. }
  replace (l (vpn_range a) + Z.of_nat (length (area_pages a))) with (r (vpn_range a)) in * by lia.
  fold (area_pages a) in Hrun, Hsh'. fold tr' in Hsh'.
  assert (NoDup (area_keys a)) as Hnd by (by apply NoDup_page_keys).
  assert (∀ k, k ∉ area_keys a → tr' !! k = tr !! k) as Hother.
  { intros k Hk. apply lookup_map_pages_ne. intros kv (v & -> & Hv)%list_elem_of_fmap <-. by apply Hk, list_elem_of_fmap_2. }
  assert (∀ kv, kv ∈ area_map_of a → tr' !! page_key kv.1 = Some (area_pte a kv.2)) as Hself.
  { intros kv Hkv. rewrite (ident_pages a Hty) in Hkv. apply lookup_map_pages; [|done].
    by rewrite ident_fst. }
  assert (area_frames a = []) as Haf by (unfold area_frames; by rewrite Hem).
  set (ms' := mkMemorySet pt' (areas ms ++ [a])).
  assert (owned ms' = frames pt') as Hown'.
  { unfold owned in *. cbn [areas page_table ms']. rewrite fmap_app, concat_app. cbn. rewrite Haf, !app_nil_r.
    assert (concat (area_frames <$> areas ms) = []) as ->; [|by rewrite app_nil_r].
    apply (f_equal length) in Hown. rewrite length_app in Hown. apply nil_length_inv. lia. }
  pose proof (pt_step _ _ _ _ _ _ Hext (shape_rep _ _ _ _ _ _ Hsh')) as Hs.
  assert (room s' pt') as Hroom' by (unfold room in *; pose proof (ext_avail _ _ _ _ _ Hext); lia).
  exists s', pt', tr'. fold ms'. cbn zeta. split; [|split; [by rewrite Hown, Hown'|split; [|by apply Hother; intros Hin; apply (Hfree _ Hin); left]]].
  { unfold push, area_map. rewrite range_pages_range by lia. erewrite bind_ok by exact Hrun. cbn iota beta.
    change (0 =? -1) with false. cbn iota. by erewrite bind_ok by done. }
  split; [done| |exact Hroom'|done|by apply (ext_norec _ _ _ _ _ Hext)|].
  - split; [by eapply shape_rep|rewrite Hown'; by apply (step_owns _ _ _ _ _ Hs)| |].
    + apply Forall_app. split; [|apply Forall_singleton].
      * eapply Forall_impl; [exact Har|]. intros a0 Ha0. eapply area_ok_ext; [|exact Ha0].
        intros k Hk. apply Hother. intros Hin. destruct (area_ok_keys _ _ _ Ha0 Hk) as [w Hw].
        apply list_elem_of_fmap in Hin as (v & -> & Hv). by rewrite Hnone in Hw.
      * split; try done; [lia| |rewrite Haf; by intros f ?%elem_of_nil].
        rewrite (ident_pages a Hty). apply ident_fst.
    + cbn [areas ms']. rewrite fmap_app, concat_app. cbn. rewrite app_nil_r. apply NoDup_app. split_and!; [done| |done].
      intros k Hk Hin. apply (Hfree k Hin). by right.
  - intros k [w Hw]. cbn [areas ms']. rewrite fmap_app, concat_app. cbn. rewrite app_nil_r.
    destruct (decide (k ∈ area_keys a)); [right; apply elem_of_app; by right|]. rewrite Hother in Hw by done.
    destruct (Hex k) as [?|?]; [eauto|by left|right; apply elem_of_app; by left].
Qed.
End shape.

(** ** The sections of the kernel *)
Definition sect : Type := Z * Z * Z.
Definition sect_area (x : sect) : MapArea := ident_area x.1.1 x.1.2 x.2.

Definition kernel_sections (k : kernel_symbols) : list sect :=
  [(stext k, etext k, Z.lor PERM_R PERM_X); (srodata k, erodata k, PERM_R); (sdata k, edata k, Z.lor PERM_R PERM_W);
   (sbss_with_stack k, ebss k, Z.lor PERM_R PERM_W); (ekernel k, MEMORY_END, Z.lor PERM_R PERM_W);
   (0x10001000, 0x10002000, Z.lor PERM_R PERM_W)].

(** The image as the linker script lays it out. *)
Record image_ok (k : kernel_symbols) : Prop := {
  im_order : 0x80200000 ≤ stext k < etext k ∧ etext k ≤ srodata k < erodata k ∧ erodata k ≤ sdata k < edata k ∧
    edata k ≤ sbss_with_stack k ≤ ebss k ∧ ebss k ≤ ekernel k ≤ MEMORY_END;
  im_aligned : Forall (λ x, x mod 4096 = 0)
    [stext k; etext k; srodata k; erodata k; sdata k; edata k; sbss_with_stack k; ebss k; ekernel k];
}.

(** The tables it needs: one for the trampoline, one for the device, 63 for 126 MiB of memory, and those above them. *)
Definition index1s : list Z := [0; 2; 511].
Definition index2s : list (Z * Z) := (0, 128) :: (511, 511) :: ((λ j, (2, j)) <$> range 1 64).

Definition kernel_tables : nat := 71.

Lemma kernel_tables_room : (max_tables index1s index2s + 2)%nat = kernel_tables.
Proof. by vm_compute. Qed.

Lemma covered_memory v : 0x80200 ≤ v < 0x88000 → covered index1s index2s v.
Proof.
  intros Hv. unfold covered, index2. assert (index1 v = 2) as -> by (unfold index1; lia). split; [set_solver|].
  right. right. apply list_elem_of_fmap. eexists. split; [reflexivity|]. apply elem_of_range. lia.
Qed.

(** The sections are pushed one after the other; those in [ks] are taken. *)
Fixpoint sects_ok (ks : list Z) (secs : list sect) : Prop :=
  match secs with
  | [] => True
  | x :: secs => sect_ok index1s index2s ks (sect_area x) ∧ sects_ok (ks ++ area_keys (sect_area x)) secs
  end.

Definition push_sect (ms : MemorySet) (x : sect) : M mm MemorySet := push_new x.1.1 x.1.2 Identical x.2 None ms.

Notation ident_kernel lo := (ident_space lo index1s index2s TRAMPOLINE_KEY).

Lemma push_sects lo secs : ∀ s ms tr,
  ident_kernel lo s ms tr → sects_ok (TRAMPOLINE_KEY :: concat (area_keys <$> areas ms)) secs →
  ∃ s' ms' tr', for_ secs push_sect ms s = Ok (s', ms') ∧ mm_step lo s (owned ms) s' (owned ms') ∧ ident_kernel lo s' ms' tr' ∧
    areas ms' = areas ms ++ (sect_area <$> secs) ∧ tr' !! TRAMPOLINE_KEY = tr !! TRAMPOLINE_KEY.
Proof.
  induction secs as [|x secs IH]; intros s ms tr Hi Hok.
  { exists s, ms, tr. split; [done|]. split; [|by rewrite app_nil_r]. destruct Hi as [_ Hinv _ _ _ _].
    apply mm_step_refl; [by eapply rep_owns, ms_pt|apply Hinv]. }
  destruct Hok as [Hx Hok].
  destruct (push_ident lo _ _ _ s ms tr (sect_area x) Hi Hx) as (s1 & pt1 & tr1 & Hr1 & Hs1 & Hi1 & Hb1).
  destruct (IH s1 (mkMemorySet pt1 (areas ms ++ [sect_area x])) tr1 Hi1) as (s2 & ms2 & tr2 & Hr2 & Hs2 & Hi2 & Ha2 & Hb2).
  { cbn [areas]. rewrite fmap_app, concat_app. cbn [fmap list_fmap concat]. by rewrite app_nil_r. }
  exists s2, ms2, tr2. split; [|split; [by eapply mm_step_trans|split; [done|split; [|congruence]]]].
  - cbn [for_]. erewrite bind_ok; [exact Hr2|]. unfold push_sect, push_new, area_new, area_of.
    destruct Hx as [[Hx _] _ _ _ _ _]. cbn in Hx. erewrite bind_ok by (erewrite bind_ok by (apply assert_true, Z.leb_le; lia); done).
    by erewrite bind_ok by exact Hr1.
  - cbn [areas] in Ha2. by rewrite Ha2, <-app_assoc.
Qed.

(** A table that is only its root has no other tables. *)
Lemma single_shape P1 P2 lo s pt tr :
  pt_rep lo s pt tr → length (frames pt) = 1%nat → pt_shape P1 P2 lo s pt tr.
Proof.
  intros (t1 & t2 & Hinv & Htr) Hl. pose proof Hinv as [_ Ht [_ Hfr] _]. exists t1, t2. split; [done|]. split; [done|].
  destruct (frames pt) as [|p [|]] eqn:Hf; try done.
  assert (∀ q, is_table (root_ppn pt) t1 t2 q → q = root_ppn pt) as Hone.
  { intros q Hq%Hfr%list_elem_of_singleton. assert (root_ppn pt ∈ [p]) as Hr%list_elem_of_singleton by (apply Hfr; by left). congruence. }
  split.
  - intros i [q Hq]. exfalso. apply (tree_root1 _ _ _ _ Ht i). rewrite Hq. f_equal. apply Hone. right; left. eauto.
  - intros x [q Hq]. exfalso. apply (tree_root2 _ _ _ _ Ht x). rewrite Hq. f_equal. apply Hone. right; right. eauto.
Qed.

Lemma new_bare_norec lo s s' ms :
  mm_ok lo s → new_bare s = Ok (s', ms) → recycled (frame_allocator s) = [] → recycled (frame_allocator s') = [].
Proof.
  intros Hmm Hr Hn. unfold new_bare, pt_new in Hr. inv_run. pose proof (frame_alloc_norec _ _ _ _ Hmm ltac:(eassumption) Hn) as Hx.
  repeat match goal with H : unwrap ?o _ = Ok _ |- _ => destruct o; [injection H as <- <-|done] end. done.
Qed.

Lemma bare_kernel lo st s :
  mm_ok lo s → recycled (frame_allocator s) = [] → trampoline_ok st → (kernel_tables ≤ avail (frame_allocator s))%nat →
  ∃ s' ms, (ms ← new_bare; map_trampoline st ms) s = Ok (s', ms) ∧ mm_step lo s [] s' (owned ms) ∧ areas ms = [] ∧
    ident_kernel lo s' ms {[ TRAMPOLINE_KEY := trampoline_pte st ]}.
Proof.
  intros Hmm Hnr [Hal Hst] Hav. rewrite <-kernel_tables_room in Hav.
  destruct (run_new_bare lo s Hmm ltac:(lia)) as (s1 & ms1 & Hr1 & [Hpt1 _ _ _] & Hem & Hl & Hs1).
  pose proof (new_bare_norec _ _ _ _ Hmm Hr1 Hnr) as Hnr1. run Hr1.
  pose proof (single_shape (.∈ index1s) (.∈ index2s) _ _ _ _ Hpt1 Hl) as Hsh1.
  assert (∀ pt, owned (mkMemorySet pt []) = frames pt) as Hown by (intros; unfold owned; simpl; by rewrite app_nil_r).
  assert (owned ms1 = frames (page_table ms1)) as Hown1 by (destruct ms1; simpl in *; rewrite Hem; apply Hown).
  pose proof (step_avail _ _ _ _ _ Hs1) as Ha1. rewrite Hown1, Hl in Ha1. cbn [length] in Ha1.
  destruct (run_map_shape _ _ lo s1 (page_table ms1) ∅ (floor TRAMPOLINE) (floor st) (Z.lor FLAG_R FLAG_X) Hsh1)
    as (s2 & pt2 & Hext & _ & Hr2 & Hsh2).
  { unfold max_tables in Hav. lia. }
  { by vm_compute; repeat constructor. }
  { by vm_compute; repeat constructor. }
  { unfold floor, PAGE_SIZE. lia. }
  { by vm_compute. }
  rewrite lookup_empty in Hr2, Hsh2. cbn iota in Hr2, Hsh2. pose proof (shape_rep _ _ _ _ _ _ Hsh2) as Hrep2.
  pose proof (pt_step _ _ _ _ _ _ Hext Hrep2) as Hs2. exists s2, (mkMemorySet pt2 []).
  split; [|split; [|split; [done|]]].
  - unfold map_trampoline. erewrite bind_ok by (by apply assert_true). erewrite bind_ok by (apply assert_true; by rewrite Hal).
    erewrite bind_ok by exact Hr2. by rewrite Hem.
  - eapply mm_step_trans; [exact Hs1|]. by rewrite Hown, Hown1.
  - split; [exact Hsh2| | |apply Hown|by apply (ext_norec _ _ _ _ _ Hext)|].
    + split; rewrite ?Hown; simpl; [exact Hrep2|by apply (rep_owns _ _ _ _ Hrep2)|constructor|apply NoDup_nil_2].
    + unfold room. cbn [page_table]. pose proof (ext_avail _ _ _ _ _ Hext). lia.
    + intros k [w [<- _]%lookup_singleton_Some]. by left.
Qed.

(** ** The layout of the image *)
Lemma sect_keys s e p k : 0 ≤ floor s → ceil e ≤ 2 ^ 27 → k ∈ area_keys (sect_area (s, e, p)) ↔ floor s ≤ k < ceil e.
Proof.
  intros Hs He. unfold area_keys, area_pages. cbn [sect_area ident_area vpn_range l r fst snd]. rewrite list_elem_of_fmap. split.
  - intros (v & -> & Hv%elem_of_range). unfold page_key. lia.
  - intros Hk. exists k. split; [unfold page_key; lia|]. by apply elem_of_range.
Qed.

Lemma memory_sect ks s e p :
  0x80200 ≤ floor s ≤ ceil e → ceil e ≤ 0x88000 → 0 ≤ p < 2 ^ 8 → (∀ k, floor s ≤ k < ceil e → k ∉ ks) →
  sect_ok index1s index2s ks (sect_area (s, e, p)).
Proof.
  intros Hr He Hp Hk. split; cbn [sect_area ident_area vpn_range l r map_perm map_type data_frames fst snd]; try done; try lia.
  - intros v Hv%elem_of_range. cbn in Hv. apply covered_memory. lia.
  - intros k Hin%sect_keys; [by apply Hk|lia..].
Qed.

(** Sections of memory in ascending order. *)
Fixpoint ascends (from : Z) (secs : list sect) : Prop :=
  match secs with
  | [] => True
  | (s, e, p) :: secs => from ≤ floor s ≤ ceil e ∧ ceil e ≤ 0x88000 ∧ 0 ≤ p < 2 ^ 8 ∧ ascends (ceil e) secs
  end.

Lemma ascends_ok secs : ∀ from ks rest,
  0x80200 ≤ from → (∀ k, k ∈ ks → k < from ∨ 0x88000 ≤ k) → ascends from secs →
  (∀ ks', (∀ k, k ∈ ks' → k ∈ ks ∨ 0x80200 ≤ k < 0x88000) → sects_ok ks' rest) → sects_ok ks (secs ++ rest).
Proof.
  induction secs as [|[[s e] p] secs IH]; intros from ks rest Hf Hk Ha Hrest; [by apply Hrest; auto|].
  destruct Ha as (Hs & He & Hp & Ha). cbn [app sects_ok]. split.
  - apply memory_sect; [lia|lia|done|]. intros k Hr Hin%Hk. lia.
  - apply (IH (ceil e)); [lia| |done|].
    + intros k [Hin%Hk|Hin%sect_keys]%elem_of_app; lia.
    + intros ks' Hks'. apply Hrest. intros k [[?|Hin%sect_keys]%elem_of_app|?]%Hks'; [auto|right; lia|lia|lia|auto].
Qed.

Lemma mmio_sect ks :
  (∀ k, k ∈ ks → k = TRAMPOLINE_KEY ∨ 0x80200 ≤ k < 0x88000) → sects_ok ks [(0x10001000, 0x10002000, Z.lor PERM_R PERM_W)].
Proof.
  intros Hk. cbn [sects_ok]. split; [|done]. change TRAMPOLINE_KEY with (2 ^ 27 - 1) in Hk.
  split; cbn [sect_area ident_area vpn_range l r map_perm map_type data_frames fst snd];
    change (floor 0x10001000) with 0x10001; change (ceil 0x10002000) with 0x10002; try lia; try done.
  - intros v Hv%elem_of_range. cbn in Hv. change (floor 0x10001000) with 0x10001 in Hv. change (ceil 0x10002000) with 0x10002 in Hv.
    assert (v = 0x10001) as -> by lia. split; vm_compute; repeat constructor.
  - intros k Hin%sect_keys; [|by vm_compute..]. change (floor 0x10001000) with 0x10001 in Hin. change (ceil 0x10002000) with 0x10002 in Hin.
    intros [->|?]%Hk; lia.
Qed.

Lemma ceil_aligned x : 0 < x < 2 ^ 60 → x mod 4096 = 0 → ceil x = x / 4096.
Proof. intros Hx Ha. rewrite ceil_up by lia. lia. Qed.

Lemma image_sects k : image_ok k → sects_ok [TRAMPOLINE_KEY] (kernel_sections k).
Proof.
  intros [Ho Ha]. unfold MEMORY_END in Ho.
  repeat match type of Ha with Forall _ (_ :: _) => let H := fresh "Ha" in apply Forall_cons in Ha as [H Ha] end. clear Ha.
  apply (ascends_ok [_; _; _; _; _] 0x80200 _ [_]); [lia| | |].
  - intros x ->%list_elem_of_singleton. by right.
  - cbn [ascends]. rewrite !ceil_aligned by (done || unfold MEMORY_END; lia). unfold MEMORY_END, floor, PAGE_SIZE.
    split_and!; try lia; done.
  - intros ks Hks. apply mmio_sect. intros x [->%list_elem_of_singleton|?]%Hks; auto.
Qed.

(** [new_kernel] is a run over the sections. *)
Lemma new_kernel_sections st k s :
  new_kernel st k s = ((ms ← (ms ← new_bare; map_trampoline st ms); for_ (kernel_sections k) push_sect ms) : M mm _) s.
Proof.
  unfold new_kernel. cbn [kernel_sections for_ MMIO]. unfold push_sect. cbn [fst snd]. unfold mbind, M_bind.
  destruct (new_bare s) as [[s1 ms1]|]; [|done]. done.
Qed.

Lemma run_new_kernel lo st sym s :
  mm_ok lo s → recycled (frame_allocator s) = [] → trampoline_ok st → image_ok sym → (kernel_tables ≤ avail (frame_allocator s))%nat →
  ∃ s' ms tr, new_kernel st sym s = Ok (s', ms) ∧ mm_step lo s [] s' (owned ms) ∧ ident_kernel lo s' ms tr ∧
    areas ms = sect_area <$> kernel_sections sym ∧ tr !! TRAMPOLINE_KEY = Some (trampoline_pte st).
Proof.
  intros Hmm Hnr Hst Him Hav. destruct (bare_kernel lo st s Hmm Hnr Hst Hav) as (s1 & ms1 & Hr1 & Hs1 & Hem & Hi1).
  destruct (push_sects lo (kernel_sections sym) s1 ms1 _ Hi1) as (s2 & ms2 & tr & Hr2 & Hs2 & Hi2 & Ha2 & Hb2).
  { rewrite Hem. by apply image_sects. }
  exists s2, ms2, tr. rewrite new_kernel_sections. run Hr1. split; [exact Hr2|]. split; [by eapply mm_step_trans|].
  rewrite Hem in Ha2. rewrite lookup_singleton_eq in Hb2. done.
Qed.

(** A byte of a section is where it is. *)
Lemma ident_lookup lo s ms tr x va :
  ident_kernel lo s ms tr → sect_area x ∈ areas ms → x.1.1 ≤ va < x.1.2 → 0 ≤ x.1.1 → x.1.2 ≤ 2 ^ 63 →
  tr !! page_key (floor va) = Some (pte_new (floor va) (Z.lor x.2 FLAG_V)).
Proof.
  intros Hi Hin Hva Hlo Hhi. destruct x as [[s0 e] p]. cbn [fst snd] in *.
  pose proof (ms_areas _ _ _ _ (is_inv _ _ _ _ _ _ _ Hi)) as Har. rewrite Forall_forall in Har. specialize (Har _ Hin).
  apply (ar_ptes _ _ Har (floor va, floor va)). apply list_elem_of_fmap. exists (floor va). split; [done|].
  apply elem_of_range. cbn [sect_area ident_area vpn_range l r fst snd]. rewrite ceil_up by lia. unfold floor, PAGE_SIZE. lia.
Qed.

(** ** [mm::init] and [remap_test] *)
Lemma sections_range sym x :
  image_ok sym → x ∈ kernel_sections sym → 0 ≤ x.1.1 ∧ x.1.1 ≤ x.1.2 ≤ 2 ^ 63.
Proof.
  intros [Ho _]. unfold kernel_sections, MEMORY_END in *.
  repeat (intros [->|Hx]%elem_of_cons; [cbn; lia|]; revert Hx). by intros ?%elem_of_nil.
Qed.

Lemma sections_low sym x : image_ok sym → x ∈ kernel_sections sym → ceil x.1.2 ≤ 2 ^ 20.
Proof.
  intros [Ho _]. unfold kernel_sections, MEMORY_END in *.
  repeat (intros [->|Hx]%elem_of_cons; [cbn [fst snd]; rewrite ceil_up by lia; lia|]; revert Hx). by intros ?%elem_of_nil.
Qed.

(** The memory that the machine needs: the frames after the kernel. *)
Record machine_ok (sym : kernel_symbols) (st : Z) (m : gmap Z page) : Prop := {
  mc_image : image_ok sym;
  mc_trampoline : trampoline_ok st;
  mc_frames : ∀ p, ceil (ekernel sym) ≤ p < 0x88000 → ∃ b, m !! p = Some b ∧ length b = 4096%nat;
  mc_room : ceil (ekernel sym) + Z.of_nat kernel_tables ≤ 0x88000;
}.

Section boot.
Context {D : Type} `{BlockDevice D} `{Platform}.
Notation K := (K D).
Implicit Types k : kernel D.

Lemma mm_init_ok k sym :
  frame_allocator (k_mm k) = new → machine_ok sym strampoline (mem (k_mm k)) →
  ∃ s ms tr, mm_init sym k = Ok (set_satp (ms_token ms) (set_kernel_space ms (set_mm s k)), tt) ∧ ident_kernel (ceil (ekernel sym)) s ms tr ∧
    areas ms = sect_area <$> kernel_sections sym ∧ tr !! TRAMPOLINE_KEY = Some (trampoline_pte strampoline) ∧
    avail (frame_allocator s) = (Z.to_nat (0x88000 - ceil (ekernel sym)) - length (frames (page_table ms)))%nat.
Proof.
  intros Hnew [Him Hst Hfr Hroom]. set (lo := ceil (ekernel sym)) in *.
  set (s0 := mkMm (mem (k_mm k)) (mkFrameAllocator lo 0x88000 [])).
  assert (mm_ok lo s0) as Hmm.
  { split; [|done]. split; cbn; [|constructor|constructor]. unfold lo in *. destruct Him as [Ho _].
    unfold MEMORY_END in Ho. rewrite ceil_up in * by lia. unfold kernel_tables in Hroom. lia. }
  destruct (run_new_kernel lo strampoline sym s0 Hmm eq_refl Hst Him) as (s & ms & tr & Hr & Hs & Hi & Ha & Ht).
  { unfold avail. cbn. lia. }
  exists s, ms, tr. split; [|split; [done|split; [done|split; [done|]]]].
  - unfold mm_init. erewrite bind_ok; [|apply (zoom_ok k_mm set_mm); reflexivity]. rewrite Hnew. change (floor MEMORY_END) with 0x88000.
    fold lo. change (init lo 0x88000 new) with (mkFrameAllocator lo 0x88000 []). fold s0.
    erewrite bind_ok; [|apply (zoom_ok k_mm set_mm); exact Hr]. by destruct k.
  - pose proof (step_avail _ _ _ _ _ Hs) as Hav. rewrite (is_owned _ _ _ _ _ _ _ Hi) in Hav. unfold avail in Hav at 2. cbn in Hav. lia.
Qed.

Lemma mid_page_ok k lo tr x :
  ident_kernel lo (k_mm k) (KERNEL_SPACE k) tr → sect_area x ∈ areas (KERNEL_SPACE k) → 0 ≤ x.1.1 < x.1.2 → x.1.2 ≤ 2 ^ 62 →
  mid_page x.1.1 x.1.2 k = Ok (k, pte_new (floor ((x.1.1 + x.1.2) / 2)) (Z.lor x.2 FLAG_V)).
Proof.
  intros Hi Hin Hr Hmax. unfold mid_page. erewrite bind_ok by reflexivity. rewrite wrap64_small by (unfold is_u64; lia).
  erewrite bind_ok.
  2:{ apply (zoom_ok k_mm set_mm). eapply run_translate_mapped; [apply (ms_pt _ _ _ _ (is_inv _ _ _ _ _ _ _ Hi))|].
      eapply ident_lookup; [done|done|lia|lia|lia]. }
  by destruct k.
Qed.

Lemma remap_test_ok k lo tr sym :
  ident_kernel lo (k_mm k) (KERNEL_SPACE k) tr → areas (KERNEL_SPACE k) = sect_area <$> kernel_sections sym → image_ok sym →
  remap_test sym k = Ok (k, tt).
Proof.
  intros Hi Ha Him. pose proof (im_order _ Him) as Ho. unfold MEMORY_END in Ho.
  assert (∀ x, x ∈ kernel_sections sym → sect_area x ∈ areas (KERNEL_SPACE k)) as Hin.
  { intros x Hx. rewrite Ha. by apply list_elem_of_fmap_2. }
  assert (∀ p fl, 0 ≤ p < 2 ^ 44 → 0 ≤ fl < 2 ^ 8 → pte_flags (pte_new p fl) = fl) as Hfl by (intros; by apply pte_flags_new).
  unfold remap_test.
  erewrite bind_ok by (apply (mid_page_ok k lo tr (stext sym, etext sym, Z.lor PERM_R PERM_X)); [done|apply Hin; left|cbn; lia..]).
  erewrite bind_ok by (apply assert_true; unfold pte_writable; by rewrite Hfl by (done || (unfold floor, PAGE_SIZE; cbn; lia))).
  erewrite bind_ok by (apply (mid_page_ok k lo tr (srodata sym, erodata sym, PERM_R)); [done|apply Hin; right; left|cbn; lia..]).
  erewrite bind_ok by (apply assert_true; unfold pte_writable; by rewrite Hfl by (done || (unfold floor, PAGE_SIZE; cbn; lia))).
  erewrite bind_ok by (apply (mid_page_ok k lo tr (sdata sym, edata sym, Z.lor PERM_R PERM_W)); [done|apply Hin; right; right; left|cbn; lia..]).
  apply assert_true. unfold pte_executable. by rewrite Hfl by (done || (unfold floor, PAGE_SIZE; cbn; lia)).
Qed.

Lemma virt_to_phys_ok k lo tr x va :
  ident_kernel lo (k_mm k) (KERNEL_SPACE k) tr → sect_area x ∈ areas (KERNEL_SPACE k) → 0 ≤ x.1.1 ≤ va → va < x.1.2 ≤ 2 ^ 56 →
  0 ≤ x.2 < 2 ^ 8 → virtio_virt_to_phys va k = Ok (k, va).
Proof.
  intros Hi Hin Hr Hmax Hp. unfold virtio_virt_to_phys, kernel_token. erewrite bind_ok by (by erewrite bind_ok by reflexivity).
  pose proof (ms_pt _ _ _ _ (is_inv _ _ _ _ _ _ _ Hi)) as Hpt. pose proof (rep_root_range _ _ _ _ Hpt) as Hroot.
  erewrite bind_ok.
  2:{ apply (zoom_ok k_mm set_mm). unfold ms_token. rewrite translate_va_token by done. eapply run_translate_va; [done|].
      eapply ident_lookup; [done|done|lia|lia|lia]. }
  unfold phys. rewrite pte_ppn_new; [|unfold floor, PAGE_SIZE; lia|apply lor_flags; [done|unfold FLAG_V; lia]].
  replace (floor va * 4096 + va mod 4096) with va by (unfold floor, PAGE_SIZE; lia). by destruct k.
Qed.

(** What is mapped. *)
Lemma ident_keys lo s ms tr sym v w :
  ident_kernel lo s ms tr → areas ms = sect_area <$> kernel_sections sym → image_ok sym → tr !! v = Some w →
  v = TRAMPOLINE_KEY ∨ ∃ x, x ∈ kernel_sections sym ∧ floor x.1.1 ≤ v < ceil x.1.2.
Proof.
  intros Hi Ha Him Hw. destruct (is_exact _ _ _ _ _ _ _ Hi v) as [?|Hv]; [eauto|by left|right]. rewrite Ha in Hv.
  apply elem_of_concat_fmap in Hv as (a & (x & -> & Hx)%list_elem_of_fmap & Hk). exists x. split; [done|].
  pose proof (sections_range sym _ Him Hx) as [Hr0 [Hr1 Hr2]]. pose proof (sections_low sym x Him Hx) as Hlow.
  destruct x as [[s0 e] p]. cbn [fst snd] in *. by apply sect_keys in Hk; [..|lia]; [|unfold floor, PAGE_SIZE; lia].
Qed.

(** C24: the kernel runs at the addresses it was linked for.  For an image laid out as the linker
    script does and memory for its page tables, [mm::init] and [remap_test] return; then
    the table in [satp] is the kernel's;
    every address of a section, of free memory and of the device registers is mapped to
    itself with the section's permissions, the trampoline to its code, and nothing else
    is mapped.  So [virtio_virt_to_phys] is the identity there. *)
Theorem kernel_space_identity k sym :
  frame_allocator (k_mm k) = new → machine_ok sym strampoline (mem (k_mm k)) →
  ∃ k' tr, (mm_init sym;; remap_test sym) k = Ok (k', tt) ∧ k_satp k' = ms_token (KERNEL_SPACE k') ∧
    pt_rep (ceil (ekernel sym)) (k_mm k') (page_table (KERNEL_SPACE k')) tr ∧
    (∀ x va, x ∈ kernel_sections sym → x.1.1 ≤ va < x.1.2 →
       tr !! page_key (floor va) = Some (pte_new (floor va) (Z.lor x.2 FLAG_V)) ∧ virtio_virt_to_phys va k' = Ok (k', va)) ∧
    tr !! TRAMPOLINE_KEY = Some (trampoline_pte strampoline) ∧
    (∀ v w, tr !! v = Some w → v = TRAMPOLINE_KEY ∨ ∃ x, x ∈ kernel_sections sym ∧ floor x.1.1 ≤ v < ceil x.1.2).
Proof.
  intros Hnew Hmc. destruct (mm_init_ok k sym Hnew Hmc) as (s & ms & tr & Hr & Hi & Ha & Ht & _).
  set (k' := set_satp (ms_token ms) (set_kernel_space ms (set_mm s k))) in *. exists k', tr. run Hr. pose proof (mc_image _ _ _ Hmc) as Him.
  split; [by apply (remap_test_ok k' (ceil (ekernel sym)) tr)|]. split; [done|]. split; [apply Hi|]. split; [|split; [done|]].
  - intros x va Hx Hva. pose proof (sections_range sym x Him Hx) as Hxr.
    assert (sect_area x ∈ areas ms) as Hin by (rewrite Ha; by apply list_elem_of_fmap_2).
    assert (0 ≤ x.2 < 2 ^ 8 ∧ x.1.2 ≤ 2 ^ 56) as [Hp Hmax].
    { pose proof (im_order _ Him) as Ho. unfold kernel_sections, MEMORY_END in *. clear -Hx Ho.
      repeat (revert Hx; intros [->|Hx]%elem_of_cons; [cbn; split; [done|lia]|]). by apply elem_of_nil in Hx. }
    split; [eapply ident_lookup; [exact Hi|done|lia|lia|lia]|]. eapply (virt_to_phys_ok k' _ tr x); [exact Hi|done|lia|lia|done].
  - intros v w Hw. by eapply ident_keys; [..|exact Hw].
Qed.
End boot.
