(* ===== verification/Boot.v ===== *)
(** * Start-up, to the first program

    [rust_main] on a machine with memory and a disk that holds a file system: the
    kernel maps itself, opens the disk, lists the files, loads the initial process,
    and [run_tasks] enters it. *)

From Stdlib Require Import String.
From S2P Require Import Prelude Bytes Utf8 Console BlockCache Layout DiskLib DirEntry Efs FsInv Vfs VfsSpec VfsDir EfsSpec FsModel.
From S2P Require Import Address FrameAlloc PageTable UserBuf MemorySet MemSpec ForkSpec Loader.
From S2P Require Import Context Pid Kernel Task Spaces Virtio Manager Processor OsFile Syscall FileSpec Trap KernelSpace.

Section boot.
Context {D : Type} `{BlockDeviceOk D} `{Platform}.
Notation K := (K D).
Implicit Types k : kernel D.

(** ** Memory *)
Lemma boot_spaces k sym :
  PID_ALLOCATOR k = pid_new → frame_allocator (k_mm k) = new → machine_ok sym strampoline (mem (k_mm k)) →
  let lo := ceil (ekernel sym) in
  ∃ s ms tr, let k' := set_satp (ms_token ms) (set_kernel_space ms (set_mm s k)) in
    mm_init sym k = Ok (k', tt) ∧ remap_test sym k' = Ok (k', tt) ∧ kspaces_ok lo k' tr [] ∧
    recycled (frame_allocator s) = [] ∧ 0x88000 ≤ lo + Z.of_nat (avail (frame_allocator s)) + Z.of_nat kernel_tables.
Proof.
  intros Hp Hnew Hmc lo. destruct (mm_init_ok k sym Hnew Hmc) as (s & ms & tr & Hr & Hi & Ha & _ & Hav). fold lo in Hi, Hav.
  pose proof (mc_image _ _ _ Hmc) as Him. exists s, ms, tr. split; [exact Hr|].
  split; [by apply (remap_test_ok _ lo tr)|]. split; [split|split; [apply Hi|]].
  - cbn. rewrite spaces_cons. pose proof (is_inv _ _ _ _ _ _ _ Hi) as Hinv. split; [done|]. split; [|by intros ? _ ?%elem_of_nil].
    split; [apply (rep_owns _ _ _ _ (ms_pt _ _ _ _ Hinv))|constructor|constructor].
  - intros key [w Hw]. destruct (ident_keys _ _ _ _ _ _ _ Hi Ha Him Hw) as [?|(x & Hx & Hk)]; [by right; left|left].
    pose proof (sections_low sym x Him Hx) as Hl. pose proof (sections_range sym x Him Hx) as Hr0.
    unfold floor, PAGE_SIZE in Hk. split; [|lia]. assert (0 ≤ x.1.1 / 4096) by (apply Z.div_pos; lia). lia.
  - cbn. rewrite Hp. apply pid_new_ok.
  - pose proof (shape_frames _ _ _ _ _ _ (is_shape _ _ _ _ _ _ _ Hi)) as Hf. pose proof kernel_tables_room. lia.
Qed.

(** ** The disk *)
Definition apps_listed (names : list (list byte)) : list sbi_call :=
  println (str "/**** APPS ****") ++ concat (println <$> names) ++ println (str "**************/").

Lemma print_names k names :
  for_ names (λ _ app, sbi (println app)) tt k = Ok (set_sbi (k_sbi k ++ concat (println <$> names)) k, tt).
Proof.
  revert k. induction names as [|nm names IH]; intros k; cbn [for_ fmap list_fmap concat].
  { rewrite app_nil_r. by destruct k. }
  erewrite bind_ok by reflexivity. rewrite IH. cbn. by rewrite <-app_assoc.
Qed.

Lemma list_apps_ok fs T a k :
  kfs_ok fs T a k → ∃ c, let k' := set_sbi (k_sbi k ++ apps_listed (entries a).*1) (set_fs c k) in
    list_apps k = Ok (k', tt) ∧ kfs_ok fs T a k'.
Proof.
  intros Hk. unfold list_apps. erewrite bind_ok by reflexivity.
  destruct (fs_call fs T (ls (inode_at fs 0)) a (set_sbi (k_sbi k ++ println (str "/**** APPS ****")) k) (entries a).*1 a Hk) as (c & Hr & Hk').
  { intros s Hs. exists s. split; [|done]. by eapply sim_ls. }
  exists c. cbn zeta. split; [|done]. erewrite bind_ok.
  2:{ unfold root_call, efs_call. erewrite bind_ok by reflexivity. cbn. rewrite (proj1 Hk). exact Hr. }
  run (print_names (set_fs c (set_sbi (k_sbi k ++ println (str "/**** APPS ****")) k)) (entries a).*1).
  unfold sbi, modify, apps_listed. cbn. by rewrite <-!app_assoc.
Qed.

Lemma mount_ok fs T a k d :
  k_fs k = Refine.fresh d → fs_sim fs T a (Refine.disk_of d) →
  ∃ c, (fs ← on_fs Efs.open; _ ← on_fs (root_inode fs); modify (set_efs fs)) k = Ok (set_efs fs (set_fs c k), tt) ∧
    kfs_ok fs T a (set_efs fs (set_fs c k)).
Proof.
  intros Hd Hsim. pose proof (Refine.crun_sim Efs.open _ _ (Refine.R_fresh d)) as Ho.
  rewrite (run_open _ fs T (nodes a) (free a)) in Ho by apply Hsim. destruct Ho as (c1 & Ho & HR1).
  pose proof (Refine.crun_sim (root_inode fs) _ _ HR1) as Hr. erewrite sim_root in Hr by done. destruct Hr as (c2 & Hr & HR2).
  exists c2. erewrite bind_ok by (apply (zoom_ok k_fs set_fs); rewrite Hd; exact Ho).
  erewrite bind_ok by (apply (zoom_ok k_fs set_fs); exact Hr). split; [by destruct k|]. split; [done|]. eauto.
Qed.

(** ** [rust_main] *)
Definition init_name : list byte := str "ch6b_initproc".

Notation hello := (println (str "[kernel] Hello, world!")).

(** A machine that can start: memory, a disk with the file system [a], in it the program
    [elf] of the initial process, and frames for all of it. *)
Record boot_ok (sym : kernel_symbols) (m : gmap Z page) (d : D) (fs : EasyFileSystem) (T : Z) (a : afs)
    (elf_data : list byte) (elf : ElfFile) : Prop := {
  bo_platform : platform_ok;
  bo_machine : machine_ok sym strampoline m;
  bo_disk : fs_sim fs T a (Refine.disk_of d);
  bo_file : ∃ ino ty, dir_lookup (entries a) init_name = Some ino ∧ nodes a !! ino = Some (ty, elf_data);
  bo_small : Z.of_nat (length elf_data) < 2 ^ 32 ∧ Z.of_nat (length elf_data) ≤ 512 * (Z.of_nat loop_fuel - 1);
  bo_elf : elf_new elf_data = Some elf ∧ elf_ok elf_data elf ∧ is_u64 (elf_entry elf);
  bo_queues : Forall (λ n, 0 ≤ n) virtio_queues;
  bo_room : ceil (ekernel sym) + Z.of_nat kernel_tables + foldr Z.add 0 virtio_queues +
    Z.of_nat (9 + 3 * seg_pages (elf_segs elf_data elf)) ≤ 0x88000;
}.

(** The machine after start-up. *)
Record booted (sym : kernel_symbols) (fs : EasyFileSystem) (T : Z) (a : afs) (elf_data : list byte) (elf : ElfFile) k : Prop := {
  bt_space : ∃ trk ms tr f, kspaces_ok (ceil (ekernel sym)) k trk [(ms, tr)] ∧
    tcbs k = {[ 0%nat := mkTcb 0 (cell_new (new_inner f (user_top elf_data elf) (get_top 0) ms None std_fds)) ]} ∧
    program_at elf_data elf strampoline (mem (k_mm k)) tr (user_top elf_data elf) ∧
    tr !! page_key (floor TRAP_CONTEXT) = Some (pte_new f (Z.lor (Z.lor PERM_R PERM_W) FLAG_V)) ∧
    get_cx f (k_mm k) = Ok (k_mm k, start_context elf_data elf (k_satp k) 0);
  bt_satp : k_satp k = ms_token (KERNEL_SPACE k);
  bt_traps : k_stvec k = trap_from_kernel_entry ∧ k_stimer k = true;
  bt_tasks : ready_queue k = [0%nat] ∧ current_ k = None ∧ INITPROC k = Some 0%nat;
  bt_files : kfs_ok fs T a k;
  bt_sbi : k_sbi k = hello ++ [set_timer (wrap64 (time_read 0 + 125000))] ++ apps_listed (entries a).*1;
}.

(** Up to the timer. *)
Definition timer_set k : kernel D :=
  let k := set_stimer true (set_stvec trap_from_kernel_entry k) in
  set_sbi (k_sbi k ++ [set_timer (wrap64 (time_read (k_reads k) + 125000))]) (set_reads (S (k_reads k)) k).

Lemma traps_on k : (set_kernel_trap_entry;; enable_timer_interrupt;; set_next_trigger) k = Ok (timer_set k, tt).
Proof. reflexivity. Qed.

Lemma rust_main_steps sym k :
  rust_main sym k =
    ((sbi hello;; mm_init sym;; remap_test sym;; (set_kernel_trap_entry;; enable_timer_interrupt;; set_next_trigger));;
     (open_root;; list_apps);; add_initproc) k.
Proof.
  unfold rust_main. unfold mbind, M_bind. destruct (sbi hello k) as [[? []]|]; [|done].
  destruct (mm_init sym _) as [[? []]|]; [|done]. destruct (remap_test sym _) as [[? []]|]; [|done].
  destruct (set_kernel_trap_entry _) as [[? []]|]; [|done]. destruct (enable_timer_interrupt _) as [[? []]|]; [|done].
  destruct (set_next_trigger _) as [[? []]|]; [|done]. by destruct (open_root _) as [[? []]|].
Qed.

Lemma kernel_on k sym :
  PID_ALLOCATOR k = pid_new → frame_allocator (k_mm k) = new → machine_ok sym strampoline (mem (k_mm k)) →
  let lo := ceil (ekernel sym) in
  ∃ s ms tr, let k' := timer_set (set_satp (ms_token ms) (set_kernel_space ms (set_mm s (set_sbi (k_sbi k ++ hello) k)))) in
    (sbi hello;; mm_init sym;; remap_test sym;; (set_kernel_trap_entry;; enable_timer_interrupt;; set_next_trigger)) k = Ok (k', tt) ∧
    kspaces_ok lo k' tr [] ∧ recycled (frame_allocator s) = [] ∧
    0x88000 ≤ lo + Z.of_nat (avail (frame_allocator s)) + Z.of_nat kernel_tables.
Proof.
  intros Hp Hnew Hmc lo. destruct (boot_spaces (set_sbi (k_sbi k ++ hello) k) sym Hp Hnew Hmc) as (s & ms & tr & Hr1 & Hr2 & Hsp & Hrest).
  exists s, ms, tr. cbn zeta. split; [|split; [|exact Hrest]].
  - assert (sbi hello k = Ok (set_sbi (k_sbi k ++ hello) k, tt)) as Hr0 by reflexivity. run Hr0. run Hr1. run Hr2. apply traps_on.
  - eapply kspaces_ext; [..|exact Hsp]; reflexivity.
Qed.

Lemma disk_on lo k trk fs T a d :
  kspaces_ok lo k trk [] → recycled (frame_allocator (k_mm k)) = [] → QUEUE_FRAMES k = [] → k_fs k = Refine.fresh d →
  fs_sim fs T a (Refine.disk_of d) → Forall (λ n, 0 ≤ n) virtio_queues →
  foldr Z.add 0 virtio_queues ≤ Z.of_nat (avail (frame_allocator (k_mm k))) →
  ∃ s qf c, let k' := set_sbi (k_sbi k ++ apps_listed (entries a).*1) (set_fs c (set_efs fs (set_queue_frames qf (set_mm s k)))) in
    (open_root;; list_apps) k = Ok (k', tt) ∧ kspaces_ok lo k' trk [] ∧ kfs_ok fs T a k' ∧
    Z.of_nat (avail (frame_allocator s)) + foldr Z.add 0 virtio_queues = Z.of_nat (avail (frame_allocator (k_mm k))).
Proof.
  intros [Hsp Hkeys Hpids] Hrec Hqf Hd Hsim Hq Hav.
  destruct (virtio_new_ok lo k) as (s & qf & Hr & Hs & Hlq & _); [apply Hsp|done|rewrite Hqf; split; [constructor|by intros ? ?%elem_of_nil]|done..|].
  rewrite Hqf in Hr, Hs. cbn [app] in Hr, Hs. pose proof (step_avail _ _ _ _ _ Hs) as Hav'. cbn [length] in Hav'.
  destruct (spaces_step _ _ _ _ _ _ Hsp Hs) as (Hsp' & _ & _); [by intros ? ?%elem_of_nil|].
  destruct (mount_ok fs T a (set_queue_frames qf (set_mm s k)) d Hd Hsim) as (c1 & Hr1 & Hk1).
  destruct (list_apps_ok fs T a _ Hk1) as (c2 & Hr2 & Hk2). cbn zeta in Hr2, Hk2. exists s, qf, c2. cbn zeta. split; [|split; [by split|split; [|lia]]].
  - erewrite bind_ok by (unfold open_root; run Hr; exact Hr1). rewrite Hr2. reflexivity.
  - by apply (kfs_ext _ _ _ _ _ eq_refl eq_refl Hk2).
Qed.

Lemma init_loaded lo k trk fs T a elf_data elf ino ty :
  platform_ok → kspaces_ok lo k trk [] → kfs_ok fs T a k → PID_ALLOCATOR k = pid_new →
  dir_lookup (entries a) init_name = Some ino → nodes a !! ino = Some (ty, elf_data) → Z.of_nat (length elf_data) < 2 ^ 32 →
  Z.of_nat (length elf_data) ≤ 512 * (Z.of_nat loop_fuel - 1) →
  elf_new elf_data = Some elf → elf_ok elf_data elf → is_u64 (elf_entry elf) →
  (9 + 3 * seg_pages (elf_segs elf_data elf) ≤ avail (frame_allocator (k_mm k)))%nat →
  ∃ s ksp pa c o trk' ms tr f,
    let tcb := mkTcb 0 (cell_new (new_inner f (user_top elf_data elf) (get_top 0) ms None std_fds)) in
    let k' := set_queue (ready_queue k ++ [next_tcb k]) (set_initproc (Some (next_tcb k)) (set_mm s (add_tcb tcb
      (set_kernel_space ksp (set_pids pa (set_os_inodes o (set_fs c k))))))) in
    add_initproc k = Ok (k', tt) ∧ kspaces_ok lo k' trk' [(ms, tr)] ∧ kfs_ok fs T a k' ∧ ms_token ksp = ms_token (KERNEL_SPACE k) ∧
    program_at elf_data elf strampoline (mem s) tr (user_top elf_data elf) ∧
    tr !! page_key (floor TRAP_CONTEXT) = Some (pte_new f (Z.lor (Z.lor PERM_R PERM_W) FLAG_V)) ∧
    get_cx f s = Ok (s, start_context elf_data elf (ms_token ksp) 0).
Proof.
  intros Hpl Hks Hkf Hpid Hfile Hnode Hlen Hfuel Helf Hok Hen Hav.
  destruct (load_file_ok fs T a k init_name ino ty elf_data Hkf Hfile Hnode Hlen Hfuel) as (c1 & o1 & c & o & id & Hr1 & Hr2 & Hk2).
  destruct (run_task_new lo (set_os_inodes o (set_fs c k)) trk [] elf_data elf)
    as (pid & pa & s & ksp & trk' & ms & tr & f & Hr3 & Hst & Hks' & _ & Hprog & Htrap & Hcx & _ & _);
    [done|by apply (kspaces_ext lo k)|by cbn; rewrite Hpid|done..|]. cbn zeta in *.
  assert (pid = 0) as -> by (pose proof (sm_alloc _ _ _ _ Hst) as Ha; cbn in Ha; rewrite Hpid in Ha; by injection Ha).
  exists s, ksp, pa, c, o, trk', ms, tr, f. split; [|split; [|split; [|split; [exact (sm_token _ _ _ _ Hst)|done]]]].
  - unfold add_initproc. run Hr1. erewrite bind_ok by reflexivity. run Hr2. run Hr3. reflexivity.
  - by eapply kspaces_ext; [..|exact Hks'].
  - by eapply kfs_ext; [..|exact Hk2].
Qed.

(** What the first two phases do to the other fields. *)
Lemma phases_fields k0 ms s1 fs qf c s2 (names : list sbi_call) :
  k_sbi k0 = [] → k_reads k0 = 0%nat →
  let k1 := timer_set (set_satp (ms_token ms) (set_kernel_space ms (set_mm s1 (set_sbi (k_sbi k0 ++ hello) k0)))) in
  let k2 := set_sbi (k_sbi k1 ++ names) (set_fs c (set_efs fs (set_queue_frames qf (set_mm s2 k1)))) in
  k_satp k2 = ms_token (KERNEL_SPACE k2) ∧ k_mm k1 = s1 ∧ k_mm k2 = s2 ∧
  k_sbi k2 = hello ++ [set_timer (wrap64 (time_read 0 + 125000))] ++ names ∧
  tcbs k2 = tcbs k0 ∧ next_tcb k2 = next_tcb k0 ∧ ready_queue k2 = ready_queue k0 ∧ current_ k2 = current_ k0 ∧
  k_stvec k2 = trap_from_kernel_entry ∧ k_stimer k2 = true ∧ PID_ALLOCATOR k2 = PID_ALLOCATOR k0.
Proof.
  cbn zeta. generalize hello. intros h Es Er. unfold timer_set. cbn. rewrite Es, Er, <-!app_assoc. done.
Qed.

(** The state in which the last phase starts. *)
Record disk_ready (lo : Z) (trk : gmap Z Z) (fs : EasyFileSystem) (T : Z) (a : afs) k : Prop := {
  dr_spaces : kspaces_ok lo k trk [];
  dr_files : kfs_ok fs T a k;
  dr_pids : PID_ALLOCATOR k = pid_new;
  dr_tasks : tcbs k = ∅ ∧ next_tcb k = 0%nat ∧ ready_queue k = [] ∧ current_ k = None;
  dr_traps : k_stvec k = trap_from_kernel_entry ∧ k_stimer k = true;
  dr_satp : k_satp k = ms_token (KERNEL_SPACE k);
  dr_sbi : k_sbi k = hello ++ [set_timer (wrap64 (time_read 0 + 125000))] ++ apps_listed (entries a).*1;
}.

Lemma init_booted sym k trk fs T a elf_data elf ino ty :
  platform_ok → disk_ready (ceil (ekernel sym)) trk fs T a k →
  dir_lookup (entries a) init_name = Some ino → nodes a !! ino = Some (ty, elf_data) → Z.of_nat (length elf_data) < 2 ^ 32 →
  Z.of_nat (length elf_data) ≤ 512 * (Z.of_nat loop_fuel - 1) →
  elf_new elf_data = Some elf → elf_ok elf_data elf → is_u64 (elf_entry elf) →
  (9 + 3 * seg_pages (elf_segs elf_data elf) ≤ avail (frame_allocator (k_mm k)))%nat →
  ∃ k', add_initproc k = Ok (k', tt) ∧ booted sym fs T a elf_data elf k'.
Proof.
  intros Hpl [Hks Hkf Hpid (E1 & E2 & E3 & E4) [E5 E6] Hsatp Hsbi] Hfile Hnode Hlen Hfuel Helf Hok Hen Hav.
  destruct (init_loaded _ k trk fs T a elf_data elf ino ty Hpl Hks Hkf Hpid Hfile Hnode Hlen Hfuel Helf Hok Hen Hav)
    as (s3 & ksp & pa & c3 & o & trk' & ms & tr & f & Hr3 & Hks3 & Hkf3 & Htok & Hprog & Htrap & Hcx).
  cbn zeta in Hr3, Hks3, Hkf3. rewrite E2, E3 in *. eexists. split; [exact Hr3|]. split.
  - exists trk', ms, tr, f. split; [exact Hks3|].
    split; [cbn [tcbs set_queue set_initproc set_mm add_tcb next_tcb set_kernel_space set_pids set_os_inodes set_fs]; by rewrite E1, E2|].
    split; [exact Hprog|]. split; [exact Htrap|]. change (k_satp _) with (k_satp k). rewrite Hsatp, <-Htok. exact Hcx.
  - change (k_satp k = ms_token ksp). by rewrite Htok.
  - exact (conj E5 E6).
  - exact (conj eq_refl (conj E4 eq_refl)).
  - exact Hkf3.
  - exact Hsbi.
Qed.

Lemma run_rust_main sym m d fs T a elf_data elf :
  boot_ok sym m d fs T a elf_data elf →
  ∃ k, rust_main sym (power_on m (Refine.fresh d)) = Ok (k, tt) ∧ booted sym fs T a elf_data elf k.
Proof.
  intros [Hpl Hmc Hdisk (ino & ty & Hfile & Hnode) [Hlen Hfuel] (Helf & Hok & Hen) Hq Hroom].
  destruct (kernel_on (power_on m (Refine.fresh d)) sym eq_refl eq_refl Hmc) as (s1 & ms1 & trk & Hr1 & Hks1 & Hrec & Hav).
  destruct (disk_on _ _ trk fs T a d Hks1 Hrec eq_refl eq_refl Hdisk Hq) as (s2 & qf & c2 & Hr2 & Hks2 & Hkf2 & Hav2);
    [change (k_mm (timer_set _)) with s1; lia|].
  destruct (phases_fields (power_on m (Refine.fresh d)) ms1 s1 fs qf c2 s2 (apps_listed (entries a).*1) eq_refl eq_refl)
    as (Hsatp & Hmm1 & Hmm2 & Hsbi & E1 & E2 & E3 & E4 & E5 & E6 & E7). rewrite Hmm1 in Hav2.
  pose proof (Build_disk_ready _ _ _ _ _ _ Hks2 Hkf2 E7 (conj E1 (conj E2 (conj E3 E4))) (conj E5 E6) Hsatp Hsbi) as Hdr.
  destruct (init_booted sym _ trk fs T a elf_data elf ino ty Hpl Hdr Hfile Hnode Hlen Hfuel Helf Hok Hen) as (k & Hr3 & Hb);
    [rewrite Hmm2; lia|].
  exists k. split; [|done]. rewrite rust_main_steps. run Hr1. run Hr2. exact Hr3.
Qed.

(** ** The first program runs *)
Lemma first_run k pid f top ksp ms fds :
  tcbs k = {[ 0%nat := mkTcb pid (cell_new (new_inner f top ksp ms None fds)) ]} → ready_queue k = [0%nat] →
  ∃ reads begin, let k' := set_stvec TRAMPOLINE (dispatched k 0 0 (new_inner f top ksp ms None fds) reads begin) in
    run_next k = Ok (k', Some (TRAP_CONTEXT, ms_token ms)).
Proof.
  intros Ht Hq. set (i := new_inner f top ksp ms None fds) in *.
  assert (inner_of k 0 = Some i) as Hi by (unfold inner_of; by rewrite Ht, lookup_singleton_eq).
  assert (fetch k = Ok (fetched k 0 0 i, Some 0%nat)) as Hf.
  { pose proof (fetch_spec k) as Hs. rewrite Hq in Hs. cbn [fmap list_fmap] in Hs. unfold stride_of in Hs. rewrite Hi in Hs.
    change (first_min [from_option task_stride 0 (Some i)]) with (Some 0%nat) in Hs.
    destruct Hs as (t & j & Ht0 & Hj & Hf); [|injection Ht0 as <-; by rewrite Hi in Hj; injection Hj as <-].
    constructor; [|constructor]. exists i. split; [done|]. by vm_compute. }
  destruct (dispatch_fetched k 0 0 i Hi Hf) as (reads & begin & Hd). exists reads, begin. cbn zeta.
  set (i' := with_begin_time begin (with_status Running (with_stride (wrap64 (task_stride i + BIG_STRIDE / task_priority i)) i))).
  assert (inner_of (dispatched k 0 0 i reads begin) 0 = Some i') as Hi'.
  { unfold dispatched. apply inner_of_Some. exists pid. unfold put_inner. rewrite Ht, lookup_singleton_eq. cbn. by rewrite lookup_insert_eq. }
  unfold run_next. run Hd. erewrite bind_ok by (by apply read_inner_ok).
  change (task_cx i') with (task_cx i). cbn [task_cx i new_inner resume]. 
  set (kd := set_stvec TRAMPOLINE (dispatched k 0 0 i reads begin)).
  assert (current_user_token kd = Ok (kd, ms_token ms)) as Htk.
  { unfold current_user_token. erewrite bind_ok by reflexivity.
    by rewrite (read_inner_ok kd 0 i' (λ i, ms_token (memory_set i))) by exact Hi'. }
  erewrite bind_ok; [reflexivity|]. unfold trap_return. erewrite bind_ok by reflexivity. by run Htk.
Qed.

(** C4: start-up.  On a machine with a formatted disk that holds the program of the initial
    process, and with memory for it, [rust_main] starts the kernel and [run_tasks]
    enters the program: no assertion fails and nothing is missing.  The kernel's own page
    table is in [satp], the console shows the greeting and the files; the program is in
    its address space, apart from the kernel's, and its context says to start at its entry
    with its stack; traps go to the trampoline. *)
Theorem boots_to_user sym m d fs T a elf_data elf :
  boot_ok sym m d fs T a elf_data elf →
  ∃ k trk ms tr f, (rust_main sym;; run_next) (power_on m (Refine.fresh d)) = Ok (k, Some (TRAP_CONTEXT, ms_token ms)) ∧
    current_ k = Some 0%nat ∧ ready_queue k = [] ∧ INITPROC k = Some 0%nat ∧
    (∃ i, inner_of k 0 = Some i ∧ task_status i = Running ∧ memory_set i = ms ∧ trap_cx_ppn i = f ∧ fd_table i = std_fds) ∧
    kspaces_ok (ceil (ekernel sym)) k trk [(ms, tr)] ∧
    program_at elf_data elf strampoline (mem (k_mm k)) tr (user_top elf_data elf) ∧
    tr !! page_key (floor TRAP_CONTEXT) = Some (pte_new f (Z.lor (Z.lor PERM_R PERM_W) FLAG_V)) ∧
    get_cx f (k_mm k) = Ok (k_mm k, start_context elf_data elf (ms_token (KERNEL_SPACE k)) 0) ∧
    k_satp k = ms_token (KERNEL_SPACE k) ∧ k_stvec k = TRAMPOLINE ∧ k_stimer k = true ∧ kfs_ok fs T a k ∧
    k_sbi k = hello ++ [set_timer (wrap64 (time_read 0 + 125000))] ++ apps_listed (entries a).*1.
Proof.
  intros Hok. destruct (run_rust_main _ _ _ _ _ _ _ _ Hok) as (k & Hr & [(trk & ms & tr & f & Hks & Ht & Hp & Htr & Hcx) Hsatp [Hv Hti] (Hq & Hc & Hi) Hkf Hsbi]).
  destruct (first_run k _ _ _ _ _ _ Ht Hq) as (reads & begin & Hr2). cbn zeta in Hr2. rewrite Hsatp in Hcx.
  eexists _, trk, ms, tr, f. split; [run Hr; exact Hr2|].
  unfold dispatched, put_inner. rewrite Ht, Hq, lookup_singleton_eq. cbn [tcb_pid].
  split; [reflexivity|]. split; [reflexivity|]. split; [exact Hi|]. split.
  { eexists. split; [apply inner_of_Some; exists 0; cbn; by rewrite lookup_insert_eq|done]. }
  split; [by eapply kspaces_ext; [..|exact Hks]|]. split; [exact Hp|]. split; [exact Htr|]. split; [exact Hcx|].
  split; [exact Hsatp|]. split; [reflexivity|]. split; [exact Hti|]. split; [by eapply kfs_ext; [..|exact Hkf]|exact Hsbi].
Qed.
End boot.
