(* ===== verification/ProcTable.v ===== *)
(** * The process table, abstractly

    What the kernel promises about processes, without memory, files and threads: a
    table of processes with their identifier, status, parent and children, the
    ready queue, and the running process.  It changes in six ways ([pstep]): a
    process is dispatched, gives the processor up, changes its priority, creates a
    child, exits, or takes the exit status of a child.

    [tree_ok] is the invariant: the processes form a tree with the initial process
    as its root, every process that has not exited is in the ready queue or
    running, identifiers are in use exactly once.  Every step keeps it. *)

From S2P Require Import Prelude Bytes FrameAlloc Pid BlockCache Kernel.

Record tview := mkT {
  tv_pid : Z; tv_borrowed : bool; tv_status : TaskStatus; tv_parent : option nat; tv_children : list nat; tv_priority : Z;
}.

Record kview := mkV {
  v_pids : PidAllocator; v_tasks : gmap nat tview; v_next : nat; v_queue : list nat; v_current : option nat;
  v_init : option nat;
}.

Definition t_status (s : TaskStatus) (e : tview) : tview :=
  mkT (tv_pid e) (tv_borrowed e) s (tv_parent e) (tv_children e) (tv_priority e).
Definition t_children (l : list nat) (e : tview) : tview :=
  mkT (tv_pid e) (tv_borrowed e) (tv_status e) (tv_parent e) l (tv_priority e).
Definition t_parent (p : option nat) (e : tview) : tview :=
  mkT (tv_pid e) (tv_borrowed e) (tv_status e) p (tv_children e) (tv_priority e).
Definition t_priority (p : Z) (e : tview) : tview :=
  mkT (tv_pid e) (tv_borrowed e) (tv_status e) (tv_parent e) (tv_children e) p.
Definition t_new (pid : Z) (parent : option nat) : tview := mkT pid false Ready parent [] 16.

(** The processes of [l] get the parent [p]. *)
Definition reparent (l : list nat) (p : nat) (m : gmap nat tview) : gmap nat tview :=
  map_imap (λ c e, Some (if decide (c ∈ l) then t_parent (Some p) e else e)) m.

(** What [sys_set_priority] accepts *)
Definition prio_ok (p : Z) : Prop := 2 ≤ p < 2 ^ 63.

(** ** Steps *)
Inductive pact := PDispatch | PSuspend | PPriority | PCreate | PExit | PReap.

Inductive pstep_by : pact → kview → kview → Prop :=
  | p_dispatch pa m n q i idx t e :
      q !! idx = Some t → m !! t = Some e →
      pstep_by PDispatch (mkV pa m n q None i) (mkV pa (<[t := t_status Running e]> m) n (remove_nth idx q) (Some t) i)
  | p_suspend pa m n q i t e :
      m !! t = Some e →
      pstep_by PSuspend (mkV pa m n q (Some t) i) (mkV pa (<[t := t_status Ready e]> m) n (q ++ [t]) None i)
  | p_priority pa m n q i t e p :
      m !! t = Some e → prio_ok p →
      pstep_by PPriority (mkV pa m n q (Some t) i) (mkV pa (<[t := t_priority p e]> m) n q (Some t) i)
  | p_create pa pa' m n q i t e pid :
      m !! t = Some e → pid_alloc pa = (pa', pid) →
      pstep_by PCreate (mkV pa m n q (Some t) i)
        (mkV pa' (<[t := t_children (tv_children e ++ [n]) e]> (<[n := t_new pid (Some t)]> m)) (S n) (q ++ [n]) (Some t) i)
  | p_exit pa m n q i t e ei :
      t ≠ i → m !! t = Some e → m !! i = Some ei →
      pstep_by PExit (mkV pa m n q (Some t) (Some i))
        (mkV pa (<[t := t_children [] (t_status Zombie e)]>
                  (<[i := t_children (tv_children ei ++ tv_children e) ei]> (reparent (tv_children e) i m)))
           n q None (Some i))
  | p_reap pa pa' m n q i t e idx c ec :
      m !! t = Some e → tv_children e !! idx = Some c → m !! c = Some ec → tv_status ec = Zombie →
      pid_dealloc (tv_pid ec) pa = Ok pa' →
      pstep_by PReap (mkV pa m n q (Some t) i)
        (mkV pa' (delete c (<[t := t_children (remove_nth idx (tv_children e)) e]> m)) n q (Some t) i).

Definition pstep (v v' : kview) : Prop := ∃ a, pstep_by a v v'.

(** No step, or one step of the kind [o]. *)
Definition pmay (o : option pact) (v v' : kview) : Prop := v' = v ∨ ∃ a, o = Some a ∧ pstep_by a v v'.

(** ** The invariant *)

(** The identifiers in use are those of the processes, which differ. *)
Record ids_ok (pa : PidAllocator) (m : gmap nat tview) (n : nat) : Prop := {
  ids_alloc : pid_ok pa;
  ids_le : pid_current pa ≤ Z.of_nat n;
  ids_used p : pid_used pa p ↔ ∃ t e, m !! t = Some e ∧ tv_pid e = p;
  ids_inj t e t' e' : m !! t = Some e → m !! t' = Some e' → tv_pid e = tv_pid e' → t = t';
}.

(** The processes are a tree: older ones are closer to the root [i]. *)
Record family_ok (m : gmap nat tview) (i : option nat) : Prop := {
  family_init : ∃ j e, i = Some j ∧ m !! j = Some e ∧ tv_status e ≠ Zombie ∧ tv_parent e = None ∧
    ∀ t, is_Some (m !! t) → (j ≤ t)%nat;
  family_nodup t e : m !! t = Some e → NoDup (tv_children e);
  family_child t e c : m !! t = Some e → c ∈ tv_children e →
    (t < c)%nat ∧ ∃ ec, m !! c = Some ec ∧ tv_parent ec = Some t;
  family_parent t e : m !! t = Some e → i ≠ Some t →
    ∃ p ep, tv_parent e = Some p ∧ m !! p = Some ep ∧ t ∈ tv_children ep;
}.

(** A process is in the ready queue, running, or has exited and left its children to
    the root. *)
Definition task_ok (n : nat) (q : list nat) (cur : option nat) (t : nat) (e : tview) : Prop :=
  tv_borrowed e = false ∧ (t < n)%nat ∧ prio_ok (tv_priority e) ∧
  match tv_status e with
  | Ready => t ∈ q
  | Running => cur = Some t
  | Zombie => tv_children e = []
  | UnInit => False
  end.

Record queues_ok (m : gmap nat tview) (n : nat) (q : list nat) (cur : option nat) : Prop := {
  sched_task t e : m !! t = Some e → task_ok n q cur t e;
  sched_nodup : NoDup q;
  sched_ready t : t ∈ q → ∃ e, m !! t = Some e ∧ tv_status e = Ready;
  sched_current t : cur = Some t → ∃ e, m !! t = Some e ∧ tv_status e = Running;
}.

Record tree_ok (v : kview) : Prop := {
  tree_ids : ids_ok (v_pids v) (v_tasks v) (v_next v);
  tree_family : family_ok (v_tasks v) (v_init v);
  tree_sched : queues_ok (v_tasks v) (v_next v) (v_queue v) (v_current v);
}.

(** ** Steps keep the invariant *)
Lemma elem_of_remove_nth {A} (l : list A) i x y :
  NoDup l → l !! i = Some x → y ∈ remove_nth i l ↔ y ∈ l ∧ y ≠ x.
Proof.
  intros Hnd Hi. unfold remove_nth. rewrite <-(take_drop_middle l i x Hi) in Hnd.
  rewrite <-(take_drop_middle l i x Hi) at 3. apply NoDup_app in Hnd as (_ & Hd & Hnd).
  apply NoDup_cons in Hnd as [Hx _]. rewrite !elem_of_app, elem_of_cons.
  split; [|naive_solver]. intros [Hy|Hy].
  - split; [by left|]. intros ->. apply (Hd x Hy). by left.
  - split; [by right; right|]. by intros ->.
Qed.

Lemma NoDup_remove_nth {A} (l : list A) i : NoDup l → NoDup (remove_nth i l).
Proof.
  intros Hnd. unfold remove_nth. destruct (l !! i) as [x|] eqn:Hi.
  - rewrite <-(take_drop_middle l i x Hi) in Hnd. apply NoDup_app in Hnd as (H1 & Hd & [_ H2]%NoDup_cons).
    apply NoDup_app. split_and!; [done| |done]. intros y Hy Hy'. apply (Hd y Hy). by right.
  - apply lookup_ge_None in Hi. rewrite take_ge, drop_ge by lia. by rewrite app_nil_r.
Qed.

Lemma NoDup_snoc {A} (l : list A) x : NoDup l → x ∉ l → NoDup (l ++ [x]).
Proof.
  intros Hl Hx. apply NoDup_app. split_and!; [done| |apply NoDup_singleton].
  intros y Hy ->%list_elem_of_singleton. done.
Qed.

Lemma lookup_reparent l p m t :
  reparent l p m !! t = (λ e, if decide (t ∈ l) then t_parent (Some p) e else e) <$> m !! t.
Proof. unfold reparent. rewrite map_lookup_imap. by destruct (m !! t). Qed.

(** Takes a lookup in an updated table apart. *)
Ltac look := repeat match goal with
  | H : <[_ := _]> _ !! _ = Some _ |- _ => apply lookup_insert_Some in H as [[<- <-]|[? H]]
  | H : delete _ _ !! _ = Some _ |- _ => apply lookup_delete_Some in H as [? H]
  end.

Section one_task.
Context (m : gmap nat tview) (t : nat) (e e' : tview).
Hypothesis (Ht : m !! t = Some e).

Lemma ids_update pa n : tv_pid e' = tv_pid e → ids_ok pa m n → ids_ok pa (<[t := e']> m) n.
Proof.
  intros He [Hp Hle Hu Hinj]. split; [done..| |].
  - intros p. rewrite Hu. split.
    + intros (u & f & Hf & <-). destruct (decide (u = t)) as [->|].
      * exists t, e'. rewrite lookup_insert_eq. split; [done|]. congruence.
      * exists u, f. by rewrite lookup_insert_ne.
    + intros (u & f & Hf & <-). look; [exists t, e|exists u, f]; by rewrite ?He.
  - intros u f u' f' Hf Hf' Heq. look; [done|..]; rewrite ?He in Heq; eauto.
Qed.

Lemma family_update i :
  tv_parent e' = tv_parent e → tv_children e' = tv_children e → tv_status e' ≠ Zombie →
  family_ok m i → family_ok (<[t := e']> m) i.
Proof.
  intros Hpe Hce Hs [(j & ej & -> & Hj & Hjs & Hjp & Hl) Hnd Hc Hp].
  assert (∀ u f, m !! u = Some f → ∃ f', <[t := e']> m !! u = Some f' ∧ tv_parent f' = tv_parent f ∧
    tv_children f' = tv_children f ∧ (tv_status f ≠ Zombie → tv_status f' ≠ Zombie)) as Hup.
  { intros u f Hf. destruct (decide (u = t)) as [->|]; [|exists f; by rewrite lookup_insert_ne].
    exists e'. rewrite lookup_insert_eq. naive_solver. }
  assert (∀ u f', <[t := e']> m !! u = Some f' → ∃ f, m !! u = Some f ∧ tv_parent f' = tv_parent f ∧
    tv_children f' = tv_children f) as Hdown.
  { intros u f Hf. look; eauto. }
  split.
  - destruct (Hup _ _ Hj) as (f & Hf & Hf1 & _ & Hf2). exists j, f. split_and!; [done..|by apply Hf2|congruence|].
    intros u [f' (f1 & Hu & _)%Hdown]. eauto.
  - intros u f' (f & Hf & _ & ->)%Hdown. eauto.
  - intros u f' c (f & Hf & _ & ->)%Hdown Hin. destruct (Hc _ _ _ Hf Hin) as (? & ec & Hec & Hpc). split; [done|].
    destruct (Hup _ _ Hec) as (ec' & ? & Heq & _). exists ec'. by rewrite Heq.
  - intros u f' (f & Hf & -> & _)%Hdown Hi. destruct (Hp _ _ Hf Hi) as (p & ep & Hfp & Hep & Hin).
    destruct (Hup _ _ Hep) as (ep' & ? & _ & Heq & _). exists p, ep'. by rewrite Heq.
Qed.
End one_task.

(** A process enters or leaves the queue or the processor. *)
Lemma sched_update m n q cur q' cur' t e e' :
  m !! t = Some e → queues_ok m n q cur → task_ok n q' cur' t e' → NoDup q' →
  (∀ u, u ≠ t → u ∈ q' ↔ u ∈ q) → (t ∈ q' → tv_status e' = Ready) →
  (∀ u, u ≠ t → cur' = Some u ↔ cur = Some u) → (cur' = Some t → tv_status e' = Running) →
  queues_ok (<[t := e']> m) n q' cur'.
Proof.
  intros Ht [Hok Hnd Hr Hc] He' Hnd' Hq Hqt Hcu Hct. split; [| done | |].
  - intros u f Hf. look; [done|]. destruct (Hok _ _ Hf) as (? & ? & ? & Hm). split_and!; [done..|].
    destruct (tv_status f); [done|by apply Hq|by apply Hcu|done].
  - intros u Hu. destruct (decide (u = t)) as [->|]; [rewrite lookup_insert_eq|rewrite lookup_insert_ne by done]; [naive_solver|].
    apply Hr. by apply Hq.
  - intros u Hu. destruct (decide (u = t)) as [->|]; [rewrite lookup_insert_eq|rewrite lookup_insert_ne by done]; [naive_solver|].
    apply Hc. by apply Hcu.
Qed.

Section steps.
Context (pa : PidAllocator) (m : gmap nat tview) (n : nat) (q : list nat).

Lemma dispatch_tree_ok i idx t e :
  tree_ok (mkV pa m n q None i) → q !! idx = Some t → m !! t = Some e →
  tree_ok (mkV pa (<[t := t_status Running e]> m) n (remove_nth idx q) (Some t) i).
Proof.
  intros [Hids Hfam Hs] Hidx He. pose proof (sched_nodup _ _ _ _ Hs) as Hnd. cbn in *.
  destruct (sched_task _ _ _ _ Hs _ _ He) as (? & ? & ? & _).
  split; cbn; [by eapply ids_update|by eapply family_update|]. eapply sched_update; try done.
  - by apply NoDup_remove_nth.
  - intros u Hu. rewrite elem_of_remove_nth by done. naive_solver.
  - intros Hin. eapply elem_of_remove_nth in Hin; [|done..]. naive_solver.
  - naive_solver.
Qed.

Lemma suspend_tree_ok i t e :
  tree_ok (mkV pa m n q (Some t) i) → m !! t = Some e →
  tree_ok (mkV pa (<[t := t_status Ready e]> m) n (q ++ [t]) None i).
Proof.
  intros [Hids Hfam Hs] He. pose proof (sched_nodup _ _ _ _ Hs) as Hnd. cbn in *.
  destruct (sched_task _ _ _ _ Hs _ _ He) as (? & ? & ? & _).
  assert (t ∉ q) as Hn.
  { intros (f & Hf & Hr)%(sched_ready _ _ _ _ Hs). destruct (sched_current _ _ _ _ Hs t eq_refl) as (f' & Hf' & Hr'). congruence. }
  split; cbn; [by eapply ids_update|by eapply family_update|]. eapply sched_update; try done.
  - split_and!; [done..|]. cbn. apply elem_of_app. right. by apply list_elem_of_singleton.
  - by apply NoDup_snoc.
  - intros u Hu. rewrite elem_of_app, list_elem_of_singleton. naive_solver.
  - naive_solver.
Qed.

Lemma priority_tree_ok i t e p :
  tree_ok (mkV pa m n q (Some t) i) → m !! t = Some e → prio_ok p →
  tree_ok (mkV pa (<[t := t_priority p e]> m) n q (Some t) i).
Proof.
  intros [Hids Hfam Hs] He Hp. pose proof (sched_nodup _ _ _ _ Hs) as Hnd. cbn in *.
  destruct (sched_current _ _ _ _ Hs t eq_refl) as (f & Hf & Hr). simplify_eq.
  destruct (sched_task _ _ _ _ Hs _ _ He) as (? & ? & ? & Hm). rewrite Hr in Hm.
  split; cbn; [by eapply ids_update|eapply family_update; cbn; try done; congruence|].
  eapply sched_update; try done.
  - split_and!; [done..|]. cbn. by rewrite Hr.
  - intros (f & Hf' & Hr')%(sched_ready _ _ _ _ Hs). congruence.
Qed.

(** A child is made. *)
Section create.
Context (i : option nat) (t : nat) (e : tview) (pa' : PidAllocator) (pid : Z).
Hypothesis (Hok : tree_ok (mkV pa m n q (Some t) i)).
Hypothesis (He : m !! t = Some e).

Definition created : gmap nat tview := <[t := t_children (tv_children e ++ [n]) e]> (<[n := t_new pid (Some t)]> m).

Lemma below_next u f : m !! u = Some f → (u < n)%nat.
Proof. intros Hf. by destruct (sched_task _ _ _ _ (tree_sched _ Hok) _ _ Hf) as (_ & ? & _). Qed.

Lemma created_child : created !! n = Some (t_new pid (Some t)).
Proof.
  pose proof (below_next _ _ He). unfold created. rewrite lookup_insert_ne by lia. by rewrite lookup_insert_eq.
Qed.

(** What was there is there, and has its children and perhaps one more. *)
Lemma created_old u f : m !! u = Some f → ∃ f', created !! u = Some f' ∧ tv_pid f' = tv_pid f ∧
  tv_parent f' = tv_parent f ∧ tv_status f' = tv_status f ∧ ∀ c, c ∈ tv_children f → c ∈ tv_children f'.
Proof.
  intros Hf. unfold created. destruct (decide (u = t)) as [->|].
  - rewrite lookup_insert_eq. eexists. split; [done|]. simplify_eq. cbn. split_and!; try done.
    intros c ?. apply elem_of_app. by left.
  - apply below_next in Hf as Hlt. rewrite !lookup_insert_ne by lia. eauto 10.
Qed.

Lemma create_ids : pid_alloc pa = (pa', pid) → Z.of_nat (S n) < 2 ^ 64 → ids_ok pa' created (S n).
Proof.
  intros Ha Hn. pose proof (tree_ids _ Hok) as Hs. cbn in Hs. destruct Hs as [Hp Hle Hu Hinj].
  pose proof (pid_alloc_spec pa Hp ltac:(lia)) as Hspec. rewrite Ha in Hspec. destruct Hspec as (Hp' & Hfresh & Hle' & Hused).
  split; [done|lia| |].
  - intros p. rewrite Hused, Hu. split.
    + intros [->|(u & f & Hf & <-)]; [exists n; eexists; split; [apply created_child|done]|].
      destruct (created_old _ _ Hf) as (f' & ? & ? & _). eauto.
    + intros (u & f & Hf & <-). unfold created in Hf. look; [right; eauto|by left|right; eauto].
  - assert (∀ u f, m !! u = Some f → tv_pid f ≠ pid) as Hne.
    { intros u f Hf <-. apply Hfresh, Hu. eauto. }
    intros u f u' f' Hf Hf' Heq. unfold created in Hf, Hf'. look; cbn in Heq; try done; try (by eapply Hinj);
      exfalso; by eapply Hne.
Qed.

Lemma create_family : family_ok created i.
Proof.
  pose proof (tree_family _ Hok) as Hs. cbn in Hs. destruct Hs as [(j & ej & Hij & Hj & Hjs & Hjp & Hl) Hnd Hc Hpar]. split.
  - destruct (created_old _ _ Hj) as (f & Hf & _ & Hfp & Hfs & _).
    exists j, f. split_and!; [done..|congruence|congruence|]. intros u [f' Hf']. unfold created in Hf'.
    look; [apply Hl; eauto| |apply Hl; eauto]. apply below_next in Hj. lia.
  - intros u f Hf. unfold created in Hf. look; cbn; [|apply NoDup_nil_2|by eapply Hnd].
    apply NoDup_snoc; [by eapply Hnd|]. intros Hin. destruct (Hc _ _ _ He Hin) as (_ & ec & Hec%below_next & _). lia.
  - assert (∀ u f c, m !! u = Some f → c ∈ tv_children f →
      (u < c)%nat ∧ ∃ ec, created !! c = Some ec ∧ tv_parent ec = Some u) as Hold.
    { intros u f c Hf Hin. destruct (Hc _ _ _ Hf Hin) as (? & ec & Hec & Hpc).
      destruct (created_old _ _ Hec) as (ec' & ? & _ & Heq & _). split; [done|]. exists ec'. by rewrite Heq. }
    intros u f c Hf Hin. unfold created in Hf. look; cbn in Hin; [|by apply elem_of_nil in Hin|by eapply Hold].
    apply elem_of_app in Hin as [Hin| ->%list_elem_of_singleton]; [by eapply Hold|].
    split; [by eapply below_next|]. eexists. by split; [apply created_child|].
  - assert (∀ u f, m !! u = Some f → i ≠ Some u →
      ∃ p ep, tv_parent f = Some p ∧ created !! p = Some ep ∧ u ∈ tv_children ep) as Hold.
    { intros u f Hf Hne. destruct (Hpar _ _ Hf Hne) as (p & ep & ? & Hep & Hin).
      destruct (created_old _ _ Hep) as (ep' & ? & _ & _ & _ & Hsub). eauto 10. }
    intros u f Hf Hne. unfold created in Hf. look; [exact (Hold t e He Hne)| |by eapply Hold]. exists t. unfold created.
    rewrite lookup_insert_eq. eexists. split_and!; [done..|]. cbn. apply elem_of_app. right. by left.
Qed.

Lemma create_sched : queues_ok created (S n) (q ++ [n]) (Some t).
Proof.
  pose proof (tree_sched _ Hok) as Hs. cbn in Hs. destruct Hs as [Hold Hq Hr Hcur]. split.
  - intros u f Hf. unfold created in Hf. destruct (Hcur t eq_refl) as (e1 & He1 & Hrun). assert (e1 = e) as -> by congruence.
    assert (∀ u f, m !! u = Some f → task_ok (S n) (q ++ [n]) (Some t) u f) as Hok'.
    { intros w g Hg. destruct (Hold _ _ Hg) as (? & ? & ? & Hm). split_and!; try done; [lia|].
      destruct (tv_status g); try done. apply elem_of_app. by left. }
    look; [|split_and!; cbn; try done; [lia|apply elem_of_app; right; by left]|by apply Hok'].
    destruct (Hok' _ _ He) as (? & ? & ? & Hm). split_and!; try done. cbn. by rewrite Hrun.
  - apply NoDup_snoc; [done|]. intros (f & Hf%below_next & _)%Hr. lia.
  - intros u [Hin| ->%list_elem_of_singleton]%elem_of_app.
    + destruct (Hr _ Hin) as (f & Hf & Hs). destruct (created_old _ _ Hf) as (f' & ? & _ & _ & Heq & _).
      exists f'. by rewrite Heq.
    + eexists. by split; [apply created_child|].
  - intros u Hu. destruct (Hcur u Hu) as (f & Hf & Hs). destruct (created_old _ _ Hf) as (f' & ? & _ & _ & Heq & _).
    exists f'. by rewrite Heq.
Qed.
End create.

(** A process exits. *)
Section exit.
Context (i t : nat) (e ei : tview).
Hypothesis (Hok : tree_ok (mkV pa m n q (Some t) (Some i))).
Hypothesis (Hti : t ≠ i) (He : m !! t = Some e) (Hei : m !! i = Some ei).

Definition exited : gmap nat tview :=
  <[t := t_children [] (t_status Zombie e)]>
    (<[i := t_children (tv_children ei ++ tv_children e) ei]> (reparent (tv_children e) i m)).

Lemma child_of_t c : c ∈ tv_children e → (t < c)%nat ∧ (i < c)%nat ∧ ∃ ec, m !! c = Some ec ∧ tv_parent ec = Some t.
Proof.
  intros Hin. pose proof (tree_family _ Hok) as Hs. cbn in Hs. destruct Hs as [(j & ej & [= <-] & _ & _ & _ & Hl) _ Hc _].
  destruct (Hc _ _ _ He Hin) as (? & ec & ? & ?). pose proof (Hl t ltac:(eauto)). split_and!; [done|lia|]. eauto.
Qed.

(** Lookups in the table afterwards. *)
Lemma exited_lookup u : exited !! u =
  if decide (u = t) then Some (t_children [] (t_status Zombie e))
  else if decide (u = i) then Some (t_children (tv_children ei ++ tv_children e) ei)
  else (λ f, if decide (u ∈ tv_children e) then t_parent (Some i) f else f) <$> m !! u.
Proof.
  unfold exited. destruct (decide (u = t)) as [->|]; [by rewrite lookup_insert_eq|]. rewrite lookup_insert_ne by done.
  destruct (decide (u = i)) as [->|]; [by rewrite lookup_insert_eq|]. rewrite lookup_insert_ne by done.
  apply lookup_reparent.
Qed.

Lemma exited_old u f : m !! u = Some f → ∃ f', exited !! u = Some f' ∧ tv_pid f' = tv_pid f ∧
  tv_parent f' = (if decide (u ∈ tv_children e) then Some i else tv_parent f) ∧
  (u ≠ t → tv_status f' = tv_status f ∧ ∀ c, c ∈ tv_children f → c ∈ tv_children f').
Proof.
  intros Hf. rewrite exited_lookup. destruct (decide (u = t)) as [->|].
  { eexists. split; [done|]. simplify_eq. cbn. rewrite decide_False by (intros Hin%child_of_t; lia). done. }
  destruct (decide (u = i)) as [->|].
  { eexists. split; [done|]. simplify_eq. cbn. rewrite decide_False by (intros Hin%child_of_t; lia). split_and!; try done.
    intros _. split; [done|]. intros c ?. apply elem_of_app. by left. }
  rewrite Hf. eexists. split; [done|]. by case_decide.
Qed.

Lemma exited_inv u f' : exited !! u = Some f' → ∃ f, m !! u = Some f ∧ tv_pid f' = tv_pid f ∧
  tv_borrowed f' = tv_borrowed f ∧ tv_priority f' = tv_priority f ∧
  (u ≠ t → tv_status f' = tv_status f) ∧ (u = t → f' = t_children [] (t_status Zombie e)) ∧
  (u ≠ t → u ≠ i → tv_children f' = tv_children f).
Proof.
  rewrite exited_lookup. case_decide as Hut; [intros [= <-]; subst; naive_solver|].
  case_decide as Hui; [intros [= <-]; subst; naive_solver|].
  intros (f & Hf & ->)%fmap_Some. exists f. split; [done|]. by case_decide; split_and!.
Qed.

Lemma exit_ids : ids_ok pa exited n.
Proof.
  pose proof (tree_ids _ Hok) as Hs. cbn in Hs. destruct Hs as [Hp Hle Hu Hinj]. split; [done..| |].
  - intros p. rewrite Hu. split.
    + intros (u & f & Hf & <-). destruct (exited_old _ _ Hf) as (f' & ? & ? & _). eauto.
    + intros (u & f' & Hf' & <-). destruct (exited_inv _ _ Hf') as (f & ? & ? & _). eauto.
  - intros u f' u' g' (f & Hf & -> & _)%exited_inv (g & Hg & -> & _)%exited_inv. by eapply Hinj.
Qed.

Lemma exit_family : family_ok exited (Some i).
Proof.
  pose proof (tree_family _ Hok) as Hs. cbn in Hs.
  destruct Hs as [(j & ej & [= <-] & Hj & Hjs & Hjp & Hl) Hnd Hc Hpar]. assert (ej = ei) as -> by congruence. split.
  - exists i. rewrite exited_lookup, decide_False, decide_True by done. eexists. split_and!; [done..|].
    intros u [f' (f & Hf & _)%exited_inv]. eauto.
  - intros u f' Hf'. rewrite exited_lookup in Hf'. case_decide; [injection Hf' as <-; apply NoDup_nil_2|].
    case_decide; [|apply fmap_Some in Hf' as (f & Hf & ->); apply Hnd in Hf; by case_decide].
    injection Hf' as <-. cbn. apply NoDup_app. split_and!; [by eapply Hnd| |by eapply Hnd].
    intros c (_ & ec & ? & ?)%(Hc _ _ _ Hei) (_ & _ & ec' & ? & ?)%child_of_t. congruence.
  - assert (∀ u f c, m !! u = Some f → u ≠ t → c ∈ tv_children f →
      (u < c)%nat ∧ ∃ ec, exited !! c = Some ec ∧ tv_parent ec = Some u) as Hold.
    { intros u f c Hf Hut Hin. destruct (Hc _ _ _ Hf Hin) as (? & ec & Hec & Hpc). split; [done|].
      destruct (exited_old _ _ Hec) as (ec' & ? & _ & Heq & _). exists ec'. split; [done|]. rewrite Heq, decide_False; [done|].
      intros (_ & _ & ? & ? & ?)%child_of_t. congruence. }
    intros u f' c Hf' Hin. destruct (exited_inv _ _ Hf') as (f & Hf & _ & _ & _ & _ & Ht & Hch).
    destruct (decide (u = t)) as [->|]; [rewrite Ht in Hin by done; by apply elem_of_nil in Hin|].
    destruct (decide (u = i)) as [->|]; [|rewrite Hch in Hin by done; by eapply Hold].
    rewrite exited_lookup, decide_False, decide_True in Hf' by done. injection Hf' as <-. cbn in Hin.
    apply elem_of_app in Hin as [Hin|Hin]; [by apply (Hold i ei)|]. destruct (child_of_t _ Hin) as (? & ? & ec & Hec & _).
    split; [done|]. destruct (exited_old _ _ Hec) as (ec' & ? & _ & Heq & _). exists ec'. by rewrite Heq, decide_True.
  - intros u f' Hf' Hui. destruct (exited_inv _ _ Hf') as (f & Hf & _).
    destruct (exited_old _ _ Hf) as (f1 & Hf1 & _ & Hp1 & _). assert (f1 = f') as -> by congruence. rewrite Hp1.
    case_decide as Hin.
    + exists i. rewrite exited_lookup, decide_False, decide_True by done. eexists. split_and!; [done..|]. cbn. apply elem_of_app. by right.
    + destruct (Hpar _ _ Hf Hui) as (p & ep & Hp & Hep & Hinp). exists p.
      destruct (exited_old _ _ Hep) as (ep' & ? & _ & _ & Hsub). exists ep'. split_and!; [done..|].
      apply Hsub; [|done]. intros ->. congruence.
Qed.

Lemma exit_sched : queues_ok exited n q None.
Proof.
  pose proof (tree_sched _ Hok) as Hs. cbn in Hs. destruct Hs as [Hold Hq Hr Hcur].
  destruct (Hcur t eq_refl) as (e1 & He1 & Hrun). assert (e1 = e) as -> by congruence. split; [|done| |done].
  - intros u f' Hf'. destruct (exited_inv _ _ Hf') as (f & Hf & _ & Hb & Hpr & Hst & Ht & Hch).
    destruct (Hold _ _ Hf) as (? & ? & ? & Hm). split_and!; [congruence|done|congruence|].
    destruct (decide (u = t)) as [->|]; [by rewrite Ht|]. rewrite Hst by done.
    destruct (tv_status f) eqn:Hsf; [done..|congruence|]. destruct (decide (u = i)) as [->|]; [|by rewrite Hch].
    pose proof (family_init _ _ (tree_family _ Hok)) as (j & ej & Hj & Hej & Hz & _). cbn in Hj, Hej. congruence.
  - intros u Hu. destruct (Hr _ Hu) as (f & Hf & Hs). destruct (exited_old _ _ Hf) as (f' & ? & _ & _ & Hst).
    exists f'. split; [done|]. rewrite (proj1 (Hst ltac:(intros ->; congruence))). done.
Qed.
End exit.

(** A child that has exited is taken out of the table. *)
Section reap.
Context (i : option nat) (t idx c : nat) (e ec : tview).
Hypothesis (Hok : tree_ok (mkV pa m n q (Some t) i)).
Hypothesis (He : m !! t = Some e) (Hidx : tv_children e !! idx = Some c) (Hec : m !! c = Some ec).
Hypothesis (Hz : tv_status ec = Zombie).

Definition reaped : gmap nat tview := delete c (<[t := t_children (remove_nth idx (tv_children e)) e]> m).

Lemma reap_child : (t < c)%nat ∧ tv_parent ec = Some t ∧ tv_children ec = [].
Proof.
  destruct (family_child _ _ (tree_family _ Hok) _ _ c He) as (? & ec' & ? & ?); [by eapply list_elem_of_lookup_2|].
  destruct (sched_task _ _ _ _ (tree_sched _ Hok) _ _ Hec) as (_ & _ & _ & Hm). rewrite Hz in Hm.
  cbn in *. assert (ec' = ec) as -> by congruence. done.
Qed.

Lemma reaped_lookup u : reaped !! u =
  if decide (u = c) then None else if decide (u = t) then Some (t_children (remove_nth idx (tv_children e)) e) else m !! u.
Proof.
  unfold reaped. case_decide; [subst; by rewrite lookup_delete_eq|]. rewrite lookup_delete_ne by done.
  case_decide; [subst; by rewrite lookup_insert_eq|by rewrite lookup_insert_ne].
Qed.

Lemma reaped_old u f : m !! u = Some f → u ≠ c → ∃ f', reaped !! u = Some f' ∧ tv_pid f' = tv_pid f ∧
  tv_borrowed f' = tv_borrowed f ∧ tv_priority f' = tv_priority f ∧ tv_status f' = tv_status f ∧
  tv_parent f' = tv_parent f ∧ ∀ d, d ∈ tv_children f' ↔ d ∈ tv_children f ∧ d ≠ c.
Proof.
  intros Hf Huc. rewrite reaped_lookup, decide_False by done.
  pose proof (family_nodup _ _ (tree_family _ Hok) _ _ He) as Hnd. case_decide as Hut.
  - subst. eexists. split; [done|]. assert (f = e) as -> by congruence. cbn. split_and!; try done. intros d. by apply elem_of_remove_nth.
  - exists f. split_and!; try done. intros d. split; [|naive_solver]. intros Hd. split; [done|]. intros ->.
    destruct (family_child _ _ (tree_family _ Hok) _ _ c Hf Hd) as (_ & ec' & ? & ?). destruct reap_child as (_ & ? & _).
    cbn in *. congruence.
Qed.

Lemma reaped_inv u f' : reaped !! u = Some f' → u ≠ c ∧ ∃ f, m !! u = Some f.
Proof. rewrite reaped_lookup. repeat case_decide; naive_solver. Qed.

Lemma reap_ids pa' : pid_dealloc (tv_pid ec) pa = Ok pa' → ids_ok pa' reaped n.
Proof.
  intros Hd. pose proof (tree_ids _ Hok) as Hs. cbn in Hs. destruct Hs as [Hp Hle Hu Hinj].
  assert (pid_used pa (tv_pid ec)) as Hused by (apply Hu; eauto).
  pose proof (pid_dealloc_spec pa (tv_pid ec) Hp ltac:(destruct Hused; lia)) as Hspec. rewrite decide_True in Hspec by done.
  destruct Hspec as (pa1 & Hd1 & Hp1 & Hu1). assert (pa1 = pa') as -> by congruence. split; [done| | |].
  - unfold pid_dealloc in Hd. unfold assert_ in Hd. repeat case_match; try done. by injection Hd as <-.
  - intros p. rewrite Hu1, Hu. split.
    + intros (Hne & u & f & Hf & <-). destruct (reaped_old u f Hf) as (f' & ? & ? & _); [|eauto]. intros ->. congruence.
    + intros (u & f' & Hf' & <-). destruct (reaped_inv _ _ Hf') as (Hne & f & Hf).
      destruct (reaped_old _ _ Hf Hne) as (f1 & ? & Hpid & _). assert (f1 = f') as -> by congruence. rewrite Hpid.
      split; [|eauto]. intros Heq. apply Hne. by eapply Hinj.
  - intros u f' u' g' Hf' Hg'. destruct (reaped_inv _ _ Hf') as (Hne & f & Hf). destruct (reaped_inv _ _ Hg') as (Hne' & g & Hg).
    destruct (reaped_old _ _ Hf Hne) as (f1 & ? & Hpid & _). destruct (reaped_old _ _ Hg Hne') as (g1 & ? & Hpid' & _).
    simplify_eq. rewrite Hpid, Hpid'. by apply Hinj.
Qed.

Lemma reap_family : family_ok reaped i.
Proof.
  pose proof (tree_family _ Hok) as Hs. cbn in Hs. destruct Hs as [(j & ej & Hij & Hj & Hjs & Hjp & Hl) Hnd Hc Hpar].
  destruct reap_child as (Htc & Hpc & Hcc). split.
  - destruct (reaped_old _ _ Hj) as (f & Hf & _ & _ & _ & Hfs & Hfp & _); [intros ->; congruence|].
    exists j, f. split_and!; [done..|congruence|congruence|]. intros u [f' (_ & f1 & ?)%reaped_inv]. eauto.
  - intros u f' Hf'. rewrite reaped_lookup in Hf'. repeat case_decide; [done| |by eapply Hnd]. injection Hf' as <-.
    apply NoDup_remove_nth. by eapply Hnd.
  - intros u f' d Hf' Hd. destruct (reaped_inv _ _ Hf') as (Hne & f & Hf).
    destruct (reaped_old _ _ Hf Hne) as (f1 & ? & _ & _ & _ & _ & _ & Hch). assert (f1 = f') as -> by congruence.
    apply Hch in Hd as [Hd Hdc]. destruct (Hc _ _ _ Hf Hd) as (? & ed & Hed & Hpd). split; [done|].
    destruct (reaped_old _ _ Hed Hdc) as (ed' & ? & _ & _ & _ & _ & Heq & _). exists ed'. by rewrite Heq.
  - intros u f' Hf' Hui. destruct (reaped_inv _ _ Hf') as (Hne & f & Hf).
    destruct (reaped_old _ _ Hf Hne) as (f1 & ? & _ & _ & _ & _ & Hfp & _). assert (f1 = f') as -> by congruence.
    destruct (Hpar _ _ Hf Hui) as (p & ep & Hp & Hep & Hin). assert (p ≠ c) as Hpne.
    { intros ->. assert (ep = ec) as -> by congruence. rewrite Hcc in Hin. by apply elem_of_nil in Hin. }
    destruct (reaped_old _ _ Hep Hpne) as (ep' & ? & _ & _ & _ & _ & _ & Hch). exists p, ep'. rewrite Hfp, Hch. done.
Qed.

Lemma reap_sched : queues_ok reaped n q (Some t).
Proof.
  pose proof (tree_sched _ Hok) as Hs. cbn in Hs. destruct Hs as [Hold Hq Hr Hcur].
  assert (∀ u f, m !! u = Some f → tv_status f ≠ Zombie → ∃ f', reaped !! u = Some f' ∧ tv_status f' = tv_status f) as Hst.
  { intros u f Hf Hnz. destruct (reaped_old _ _ Hf) as (f' & ? & _ & _ & _ & ? & _); [intros ->; congruence|]. eauto. }
  split; [|done| |].
  - intros u f' Hf'. destruct (reaped_inv _ _ Hf') as (Hne & f & Hf).
    destruct (reaped_old _ _ Hf Hne) as (f1 & ? & _ & Hb & Hpr & Hs1 & _ & Hch). assert (f1 = f') as -> by congruence.
    destruct (Hold _ _ Hf) as (? & ? & ? & Hm). split_and!; [congruence|done|congruence|]. rewrite Hs1.
    destruct (tv_status f); [done..|]. destruct (tv_children f') as [|d l]; [done|].
    assert (d ∈ tv_children f) as Hd by (apply Hch; by left). rewrite Hm in Hd. by apply elem_of_nil in Hd.
  - intros u Hu. destruct (Hr _ Hu) as (f & Hf & Hs). destruct (Hst _ _ Hf) as (f1 & ? & Heq); [congruence|]. exists f1. by rewrite Heq.
  - intros u Hu. destruct (Hcur _ Hu) as (f & Hf & Hs). destruct (Hst _ _ Hf) as (f1 & ? & Heq); [congruence|]. exists f1. by rewrite Heq.
Qed.
End reap.
End steps.

Lemma pstep_tree_ok v v' : tree_ok v → pstep v v' → Z.of_nat (v_next v') < 2 ^ 64 → tree_ok v'.
Proof.
  intros Hok [a Hstep] Hn. destruct Hstep.
  - by eapply dispatch_tree_ok.
  - by eapply suspend_tree_ok.
  - by eapply priority_tree_ok.
  - split; [by eapply create_ids|by eapply create_family|by eapply create_sched].
  - split; [by eapply exit_ids|by eapply exit_family|by eapply exit_sched].
  - split; [by eapply reap_ids|by eapply reap_family|by eapply reap_sched].
Qed.

(** The handles of later processes are larger. *)
Lemma pstep_next v v' : pstep v v' → (v_next v ≤ v_next v')%nat.
Proof. intros [a Hs]. destruct Hs; cbn; lia. Qed.

Lemma psteps_next v v' : rtc pstep v v' → (v_next v ≤ v_next v')%nat.
Proof. induction 1 as [|v1 v2 v3 H%pstep_next _ IH]; lia. Qed.

Lemma psteps_tree_ok v v' : tree_ok v → rtc pstep v v' → Z.of_nat (v_next v') < 2 ^ 64 → tree_ok v'.
Proof.
  intros Hok Hsteps Hn. induction Hsteps as [|v1 v2 v3 Hs Hss IH]; [done|]. apply IH; [|done].
  apply psteps_next in Hss. eapply pstep_tree_ok; [done..|]. lia.
Qed.

Lemma pmay_psteps o v v' : pmay o v v' → rtc pstep v v'.
Proof. intros [->|(a & _ & Hs)]; [done|]. apply rtc_once. by exists a. Qed.

(** The tree after start-up: the initial process alone, ready to run. *)
Lemma init_tree_ok pa pid t :
  pid_alloc pid_new = (pa, pid) → tree_ok (mkV pa {[ t := t_new pid None ]} (S t) [t] None (Some t)).
Proof.
  intros Ha. destruct pid_new_ok as [Hok Hnone]. pose proof (pid_alloc_spec pid_new Hok ltac:(cbn; lia)) as Hspec.
  rewrite Ha in Hspec. destruct Hspec as (Hp & _ & Hle & Hu). change (pid_current pid_new) with 0 in Hle. split; split; cbn.
  - done.
  - lia.
  - intros p. rewrite Hu. split.
    + intros [->|Hp0]; [|by apply Hnone in Hp0]. exists t, (t_new pid None). by rewrite lookup_singleton_eq.
    + intros (u & e & [<- <-]%lookup_singleton_Some & <-). by left.
  - by intros u e u' e' [<- <-]%lookup_singleton_Some [<- <-]%lookup_singleton_Some _.
  - exists t, (t_new pid None). rewrite lookup_singleton_eq. split_and!; try done.
    by intros u [e [<- <-]%lookup_singleton_Some].
  - intros u e [<- <-]%lookup_singleton_Some. apply NoDup_nil_2.
  - intros u e c [<- <-]%lookup_singleton_Some Hc. by apply elem_of_nil in Hc.
  - intros u e [<- <-]%lookup_singleton_Some Hne. done.
  - intros u e [<- <-]%lookup_singleton_Some. split_and!; cbn; [done|lia|done|by left].
  - apply NoDup_singleton.
  - intros u ->%list_elem_of_singleton. exists (t_new pid None). by rewrite lookup_singleton_eq.
  - done.
Qed.
