(* ===== verification/KernelInv.v ===== *)
(** * The kernel implements the process table

    [view] forgets everything of the kernel's state but the process table
    ([ProcTable]).  Every step of the kernel is a sequence of steps of the table,
    most of them none at all ([quiet]). *)

From S2P Require Import Prelude Bytes BlockCache Layout DirEntry Efs Vfs Address FrameAlloc PageTable UserBuf MemorySet.
From S2P Require Import Context Pid Kernel Task Manager Processor OsFile Syscall Trap ProcTable.

Definition tview_of (pid : Z) (b : bool) (i : TaskControlBlockInner) : tview :=
  mkT pid b (task_status i) (parent i) (children i) (task_priority i).

Definition tview_tcb (tcb : TaskControlBlock) : tview :=
  tview_of (tcb_pid tcb) (borrowed (inner tcb)) (value (inner tcb)).

Definition v_put (t : nat) (e : tview) (v : kview) : kview :=
  mkV (v_pids v) (<[t := e]> (v_tasks v)) (v_next v) (v_queue v) (v_current v) (v_init v).

Lemma v_put_put t e e' v : v_put t e (v_put t e' v) = v_put t e v.
Proof. unfold v_put. cbn. by rewrite insert_insert_eq. Qed.

Lemma v_put_id t e v : v_tasks v !! t = Some e → v_put t e v = v.
Proof. intros Ht. unfold v_put. rewrite insert_id by done. by destruct v. Qed.

Section view.
Context {D : Type} `{BlockDevice D} `{Platform}.
Notation K := (K D).
Implicit Types k : kernel D.

Definition view k : kview :=
  mkV (PID_ALLOCATOR k) (tview_tcb <$> tcbs k) (next_tcb k) (ready_queue k) (current_ k) (INITPROC k).

(** From a state with view [v], when [m] returns, [Q] holds of the result and the view. *)
Definition pwp {A} (m : K A) (v : kview) (Q : A → kview → Prop) : Prop :=
  ∀ k k' a, view k = v → m k = Ok (k', a) → Q a (view k').

(** [m] does not touch the process table. *)
Definition quiet {A} (m : K A) : Prop := ∀ v, pwp m v (λ _ v', v' = v).

Lemma pwp_ret {A} (a : A) v (Q : A → kview → Prop) : Q a v → pwp (mret a) v Q.
Proof. by intros HQ k k' a' <- [= <- <-]. Qed.

Lemma pwp_throw {A} (e : fault) v (Q : A → kview → Prop) : pwp (mthrow e) v Q.
Proof. by intros k k' a' <-. Qed.

Lemma pwp_bind {A B} (m : K A) (f : A → K B) v Q : pwp m v (λ a v', pwp (f a) v' Q) → pwp (m ≫= f) v Q.
Proof. intros Hm k k' b Hv (k1 & a & Hk1 & Hf)%bind_ok_inv. by eapply (Hm _ _ _ Hv Hk1). Qed.

Lemma pwp_mono {A} (m : K A) v (Q Q' : A → kview → Prop) : pwp m v Q → (∀ a v', Q a v' → Q' a v') → pwp m v Q'.
Proof. intros Hm HQ k k' a Hv Hk. eauto. Qed.

Lemma pwp_quiet {A} (m : K A) v (Q : A → kview → Prop) : quiet m → (∀ a, Q a v) → pwp m v Q.
Proof. intros Hm HQ. eapply pwp_mono; [apply Hm|]. cbn. by intros a v' ->. Qed.

Lemma quiet_ret {A} (a : A) : quiet (mret a).
Proof. intros v. by apply pwp_ret. Qed.

Lemma quiet_throw {A} (e : fault) : quiet (mthrow e : K A).
Proof. intros v. apply pwp_throw. Qed.

Lemma quiet_bind {A B} (m : K A) (f : A → K B) : quiet m → (∀ a, quiet (f a)) → quiet (m ≫= f).
Proof. intros Hm Hf v. apply pwp_bind, pwp_quiet; [done|]. intros a. apply Hf. Qed.

Lemma quiet_zoom {T A} (part : kernel D → T) set (m : M T A) :
  (∀ t k, view (set t k) = view k) → quiet (zoom part set m : K A).
Proof. intros Hset v k k' a <- (t & _ & ->)%zoom_inv. apply Hset. Qed.

Lemma quiet_gets {A} (f : kernel D → A) : quiet (gets f).
Proof. by intros v k k' a <- [= <- <-]. Qed.

Lemma quiet_modify (f : kernel D → kernel D) : (∀ k, view (f k) = view k) → quiet (modify f).
Proof. intros Hf v k k' a <- [= <- <-]. apply Hf. Qed.

Lemma quiet_res {A} (r : res A) : quiet (on_res r : K A).
Proof. intros v k k' a <-. unfold on_res. destruct r; [|done]. by intros [= <- <-]. Qed.

Lemma quiet_for {A X} (l : list X) (f : A → X → K A) s : (∀ s x, quiet (f s x)) → quiet (for_ l f s).
Proof.
  intros Hf. revert s. induction l as [|x l IH]; intros s; cbn; [apply quiet_ret|]. by apply quiet_bind.
Qed.

Lemma quiet_on_mm {A} (m : M mm A) : quiet (on_mm m : K A).
Proof. by apply quiet_zoom. Qed.
Lemma quiet_on_fs {A} (p : prog A) : quiet (on_fs p : K A).
Proof. by apply quiet_zoom. Qed.
Lemma quiet_get : quiet (get : K _).
Proof. by intros v k k' a <- [= <- <-]. Qed.
Lemma quiet_unwrap {A} (o : option A) : quiet (unwrap o : K A).
Proof. destruct o; [apply quiet_ret|apply quiet_throw]. Qed.
Lemma quiet_assert b : quiet (assert_ b : K unit).
Proof. destruct b; [apply quiet_ret|apply quiet_throw]. Qed.
Lemma quiet_index {A} (l : list A) i : quiet (index l i : K A).
Proof. unfold index. repeat case_match; first [apply quiet_ret|apply quiet_throw]. Qed.
Lemma quiet_set_index {A} (l : list A) i a : quiet (set_index l i a : K _).
Proof. unfold set_index. repeat case_match; first [apply quiet_ret|apply quiet_throw]. Qed.
Lemma quiet_slice {A} (l : list A) i j : quiet (slice l i j : K _).
Proof. unfold slice. repeat case_match; first [apply quiet_ret|apply quiet_throw]. Qed.
Lemma quiet_checked_div a b : quiet (checked_div a b : K _).
Proof. unfold checked_div. repeat case_match; first [apply quiet_ret|apply quiet_throw]. Qed.

(** ** Control blocks *)
Lemma view_tcb k t tcb : tcbs k !! t = Some tcb → v_tasks (view k) !! t = Some (tview_tcb tcb).
Proof. intros Ht. cbn. by rewrite lookup_fmap, Ht. Qed.

Lemma view_put k t tcb : view (set_tcbs (<[t := tcb]> (tcbs k)) k) = v_put t (tview_tcb tcb) (view k).
Proof. unfold view, v_put. cbn. by rewrite fmap_insert. Qed.

Lemma pwp_tcb_of t v (Q : TaskControlBlock → kview → Prop) :
  (∀ tcb, v_tasks v !! t = Some (tview_tcb tcb) → Q tcb v) → pwp (tcb_of t) v Q.
Proof.
  intros HQ k k' tcb <-. unfold tcb_of, mbind, M_bind. cbn. destruct (tcbs k !! t) as [tcb'|] eqn:Ht; [|done].
  intros [= <- <-]. apply HQ. by apply view_tcb.
Qed.

Lemma pwp_borrow t v (Q : TaskControlBlockInner → kview → Prop) :
  (∀ i pid, v_tasks v !! t = Some (tview_of pid false i) → Q i (v_put t (tview_of pid true i) v)) → pwp (borrow t) v Q.
Proof.
  intros HQ. apply pwp_bind, pwp_tcb_of. intros [pid [i b]] Htcb. apply pwp_bind.
  destruct b; cbn; [by intros k k' a _|]. intros k k' [c i'] Hv [= <- <- <-]. apply pwp_bind.
  intros k1 k' a Hv1 [= <- <-]. apply pwp_ret. rewrite view_put, Hv1, Hv. by apply (HQ i pid).
Qed.

Lemma pwp_put_cell t i b v (Q : unit → kview → Prop) :
  (∀ e, v_tasks v !! t = Some e → Q tt (v_put t (tview_of (tv_pid e) b i) v)) →
  pwp (tcb ← tcb_of t; put_tcb t (mkTcb (tcb_pid tcb) (mkCell i b))) v Q.
Proof.
  intros HQ. apply pwp_bind, pwp_tcb_of. intros tcb Htcb k k' a Hv [= <- <-]. rewrite view_put, Hv. by apply (HQ _ Htcb).
Qed.

Lemma pwp_release t i v (Q : unit → kview → Prop) :
  (∀ e, v_tasks v !! t = Some e → Q tt (v_put t (tview_of (tv_pid e) false i) v)) → pwp (release t i) v Q.
Proof. apply pwp_put_cell. Qed.

Lemma pwp_write_inner t i v (Q : unit → kview → Prop) :
  (∀ e, v_tasks v !! t = Some e → Q tt (v_put t (tview_of (tv_pid e) true i) v)) → pwp (write_inner t i) v Q.
Proof. apply pwp_put_cell. Qed.

Lemma pwp_with_inner {A} t (f : TaskControlBlockInner → TaskControlBlockInner * A) v (Q : A → kview → Prop) :
  (∀ i pid, v_tasks v !! t = Some (tview_of pid false i) → Q (f i).2 (v_put t (tview_of pid false (f i).1) v)) →
  pwp (with_inner t f) v Q.
Proof.
  intros HQ. apply pwp_bind, pwp_borrow. intros i pid Ht. specialize (HQ i pid Ht). destruct (f i) as [i' a]. cbn in HQ.
  apply pwp_bind, pwp_release. intros e. cbn. rewrite lookup_insert_eq. intros [= <-]. apply pwp_ret.
  by rewrite v_put_put.
Qed.

Lemma pwp_read_inner {A} t (f : TaskControlBlockInner → A) v (Q : A → kview → Prop) :
  (∀ i pid, v_tasks v !! t = Some (tview_of pid false i) → Q (f i) v) → pwp (read_inner t f) v Q.
Proof.
  intros HQ. apply pwp_with_inner. intros i pid Ht. cbn. rewrite v_put_id by done. by apply (HQ i pid).
Qed.

Lemma quiet_tcb_of t : quiet (tcb_of t : K _).
Proof. intros v. by apply pwp_tcb_of. Qed.

Lemma quiet_read_inner {A} t (f : TaskControlBlockInner → A) : quiet (read_inner t f : K A).
Proof. intros v. by apply pwp_read_inner. Qed.

(** The parts of a control block that the view shows stay. *)
Definition same_view (i i' : TaskControlBlockInner) : Prop := ∀ pid b, tview_of pid b i' = tview_of pid b i.

Lemma quiet_with_inner {A} t (f : TaskControlBlockInner → TaskControlBlockInner * A) :
  (∀ i, same_view i (f i).1) → quiet (with_inner t f : K A).
Proof. intros Hf v. apply pwp_with_inner. intros i pid Ht. rewrite Hf. by apply v_put_id. Qed.

(** An access to [t] that does something quiet in between. *)
Lemma quiet_scope {A B} t (m : TaskControlBlockInner → K A) (g : TaskControlBlockInner → A → TaskControlBlockInner)
    (h : A → K B) :
  (∀ i, quiet (m i)) → (∀ i a, same_view i (g i a)) → (∀ a, quiet (h a)) →
  quiet (i ← borrow t; a ← m i; release t (g i a);; h a).
Proof.
  intros Hm Hg Hh v. apply pwp_bind, pwp_borrow. intros i pid Ht. apply pwp_bind, pwp_quiet; [done|]. intros a.
  apply pwp_bind, pwp_release. cbn. rewrite lookup_insert_eq. intros e [= <-]. rewrite Hg, v_put_put. cbn.
  rewrite v_put_id by done. apply Hh.
Qed.
End view.

(** ** What does not touch the process table *)
Create HintDb quiet.
#[export] Hint Resolve quiet_ret quiet_throw quiet_on_mm quiet_on_fs quiet_get quiet_gets quiet_unwrap quiet_assert
  quiet_index quiet_set_index quiet_slice quiet_checked_div quiet_res quiet_tcb_of quiet_read_inner : quiet.

Ltac quiet := repeat first
  [ progress eauto with quiet
  | apply quiet_modify; intros ?; done
  | apply quiet_bind; [|intros ?]
  | apply quiet_for; intros ? ?
  | apply quiet_with_inner; intros ?; done
  | apply quiet_zoom; intros ? ?; done
  | match goal with |- quiet (match ?x with _ => _ end) => destruct x end ].

Section quiet.
Context {D : Type} `{BlockDevice D} `{Platform}.
Notation K := (K D).

Lemma quiet_on_kernel_space {A} (f : MemorySet → M mm (MemorySet * A)) : quiet (on_kernel_space f : K A).
Proof. unfold on_kernel_space. quiet. Qed.
Hint Resolve quiet_on_kernel_space : quiet.

Lemma quiet_kernel_stack_new pid : quiet (kernel_stack_new pid : K _).
Proof. unfold kernel_stack_new. quiet. Qed.
Lemma quiet_drop_kernel_stack pid : quiet (drop_kernel_stack pid : K _).
Proof. unfold drop_kernel_stack. quiet. Qed.
Lemma quiet_trap_cx_page_of ms : quiet (trap_cx_page_of ms : K _).
Proof. unfold trap_cx_page_of. quiet. Qed.
Lemma quiet_init_trap_cx ppn entry sp top : quiet (init_trap_cx ppn entry sp top : K _).
Proof. unfold init_trap_cx, kernel_token. quiet. Qed.
Hint Resolve quiet_kernel_stack_new quiet_drop_kernel_stack quiet_trap_cx_page_of quiet_init_trap_cx : quiet.

Lemma quiet_the_task : quiet (the_task : K _).
Proof. unfold the_task, current_task. quiet. Qed.
Hint Resolve quiet_the_task : quiet.
Lemma quiet_get_time_us : quiet (get_time_us : K _).
Proof. unfold get_time_us, get_time. quiet. Qed.
Lemma quiet_set_next_trigger : quiet (set_next_trigger : K _).
Proof. unfold set_next_trigger, get_time. quiet. Qed.
Lemma quiet_current_user_token : quiet (current_user_token : K _).
Proof. unfold current_user_token. quiet. Qed.
Lemma quiet_current_trap_cx : quiet (current_trap_cx : K _).
Proof. unfold current_trap_cx. quiet. Qed.
Lemma quiet_current_begin_time : quiet (current_begin_time : K _).
Proof. unfold current_begin_time. quiet. Qed.
Lemma quiet_current_syscall_times : quiet (current_syscall_times : K _).
Proof. unfold current_syscall_times. quiet. Qed.
Hint Resolve quiet_get_time_us quiet_set_next_trigger quiet_current_user_token quiet_current_trap_cx
  quiet_current_begin_time quiet_current_syscall_times : quiet.

(** Accesses to the current task that change what the view does not show. *)
Lemma quiet_update_current_syscall_times id : quiet (update_current_syscall_times id : K _).
Proof.
  unfold update_current_syscall_times. apply quiet_bind; [quiet|]. intros t v.
  apply pwp_bind, pwp_borrow. intros i pid Ht. apply pwp_bind, pwp_quiet; [quiet|]. intros n.
  apply pwp_bind, pwp_quiet; [quiet|]. intros times. apply pwp_release. cbn. rewrite lookup_insert_eq.
  intros e [= <-]. rewrite v_put_put. by apply v_put_id.
Qed.

Lemma quiet_current_ms (f : MemorySet → M mm (MemorySet * Z)) :
  quiet (task ← the_task; task_inner ← borrow task; '(ms, r) ← on_mm (f (memory_set task_inner));
         release task (with_memory_set ms task_inner);; mret r : K _).
Proof.
  apply quiet_bind; [quiet|]. intros t v. apply pwp_bind, pwp_borrow. intros i pid Ht.
  apply pwp_bind, pwp_quiet; [quiet|]. intros [ms r]. apply pwp_bind, pwp_release. cbn. rewrite lookup_insert_eq.
  intros e [= <-]. apply pwp_ret. rewrite v_put_put. by apply v_put_id.
Qed.

Lemma quiet_exec t elf_data : quiet (exec t elf_data : K _).
Proof.
  unfold exec. apply quiet_bind; [quiet|]. intros [[ms user_sp] entry]. apply quiet_bind; [quiet|]. intros ppn v.
  apply pwp_bind, pwp_borrow. intros i pid Ht. apply pwp_bind, pwp_quiet; [quiet|]. intros _.
  apply pwp_bind, pwp_quiet; [quiet|]. intros tcb. apply pwp_bind, pwp_quiet; [quiet|]. intros _.
  apply pwp_release. cbn. rewrite lookup_insert_eq. intros e [= <-]. rewrite v_put_put. by apply v_put_id.
Qed.
Hint Resolve quiet_update_current_syscall_times quiet_exec : quiet.

(** Files *)
Lemma quiet_efs_call {A} (f : EasyFileSystem → prog A) : quiet (efs_call f : K A).
Proof. unfold efs_call. quiet. Qed.
Hint Resolve quiet_efs_call : quiet.
Lemma quiet_root_call {A} (f : EasyFileSystem → Inode → prog A) : quiet (root_call f : K A).
Proof. unfold root_call. quiet. Qed.
Lemma quiet_get_os_inode id : quiet (get_os_inode id : K _).
Proof. unfold get_os_inode. quiet. Qed.
Hint Resolve quiet_root_call quiet_get_os_inode : quiet.
Lemma quiet_set_offset id off : quiet (set_offset id off : K _).
Proof. unfold set_offset. quiet. Qed.
Lemma quiet_os_inode_new r w i : quiet (os_inode_new r w i : K _).
Proof. unfold os_inode_new. quiet. Qed.
Hint Resolve quiet_set_offset quiet_os_inode_new : quiet.

Lemma quiet_read_all_loop fuel id buffer l : quiet (read_all_loop fuel id buffer l : K _).
Proof. revert buffer l. induction fuel as [|fuel IH]; intros; cbn; quiet. Qed.
Lemma quiet_open_file name flags : quiet (open_file name flags : K _).
Proof. unfold open_file. quiet. Qed.
Lemma quiet_inode_read id buffers n : quiet (inode_read id buffers n : K _).
Proof. revert n. induction buffers as [|sl l IH]; intros; cbn; quiet. Qed.
Lemma quiet_inode_write id buffers n : quiet (inode_write id buffers n : K _).
Proof. revert n. induction buffers as [|sl l IH]; intros; cbn; quiet. Qed.
Hint Resolve quiet_read_all_loop quiet_open_file quiet_inode_read quiet_inode_write : quiet.
Lemma quiet_file_write f buffers : quiet (file_write f buffers : K _).
Proof. unfold file_write, stdout_write. quiet. Qed.
Lemma quiet_copy_to_user dsts src : quiet (copy_to_user dsts src : K _).
Proof. unfold copy_to_user. quiet. Qed.
Lemma quiet_file_info f : quiet (file_ino f : K _) ∧ quiet (file_mode f : K _) ∧ quiet (file_block_id f : K _) ∧
  quiet (file_block_offset f : K _).
Proof. unfold file_ino, file_mode, file_block_id, file_block_offset. split_and!; quiet. Qed.
End quiet.
#[export] Hint Resolve quiet_on_kernel_space quiet_kernel_stack_new quiet_drop_kernel_stack quiet_trap_cx_page_of
  quiet_init_trap_cx quiet_the_task quiet_get_time_us quiet_set_next_trigger quiet_current_user_token quiet_current_trap_cx
  quiet_current_begin_time quiet_current_syscall_times quiet_update_current_syscall_times quiet_exec
  quiet_efs_call quiet_root_call quiet_get_os_inode quiet_set_offset quiet_os_inode_new quiet_read_all_loop quiet_open_file
  quiet_inode_read quiet_inode_write quiet_file_write quiet_copy_to_user : quiet.
