(* ===== verification/KernelRefine.v ===== *)
(** * Every step of the kernel is made of steps of the process table

    The operations that change the process table, one after the other; then
    [trap_may] and [run_next_may]: a step of the kernel from a state whose view satisfies
    [tree_ok] is a [pstep] or none, of the kind that the call or the cause of the trap says. *)

From S2P Require Import Prelude Bytes BlockCache Layout DirEntry Efs Vfs Address FrameAlloc PageTable UserBuf MemorySet.
From S2P Require Import Context Pid Kernel Task Manager Processor OsFile Syscall Trap ProcTable KernelInv.

Definition v_with_queue (q : list nat) (v : kview) : kview :=
  mkV (v_pids v) (v_tasks v) (v_next v) q (v_current v) (v_init v).
Definition v_with_current (c : option nat) (v : kview) : kview :=
  mkV (v_pids v) (v_tasks v) (v_next v) (v_queue v) c (v_init v).
Definition v_with_pids (pa : PidAllocator) (v : kview) : kview :=
  mkV pa (v_tasks v) (v_next v) (v_queue v) (v_current v) (v_init v).

(** References that the table holds to a process *)
Definition vrefs (v : kview) (t : nat) : nat :=
  count t (v_queue v) + count t (option_list (v_current v)) + count t (option_list (v_init v)) +
  sum_list ((λ e, count t (tv_children e.2)) <$> map_to_list (v_tasks v)).

Lemma count_pos t l : t ∈ l → (0 < count t l)%nat.
Proof.
  intros Hin. unfold count. destruct (filter (λ u, u = t) l) as [|u r] eqn:Hf; [|cbn; lia].
  assert (t ∈ filter (λ u, u = t) l) as Ht by (by apply list_elem_of_filter). rewrite Hf in Ht. by apply elem_of_nil in Ht.
Qed.

Lemma vrefs_child v t p e : v_tasks v !! p = Some e → t ∈ tv_children e → vrefs v t ≠ 0%nat.
Proof.
  intros Hp Ht. unfold vrefs. apply elem_of_map_to_list in Hp.
  apply list_elem_of_lookup_1 in Hp as [n Hn].
  assert (0 < sum_list ((λ e, count t (tv_children e.2)) <$> map_to_list (v_tasks v)))%nat; [|lia].
  eapply Nat.lt_le_trans; [apply (count_pos t (tv_children e)); done|].
  revert n Hn. induction (map_to_list (v_tasks v)) as [|[u f] l IH]; intros [|n] Hn; [done..| |].
  - injection Hn as -> ->. cbn. lia.
  - specialize (IH n Hn). cbn. lia.
Qed.

Section refine.
Context {D : Type} `{BlockDevice D} `{Platform}.
Notation K := (K D).
Implicit Types (k : kernel D) (v : kview).

Lemma strong_refs_view k t : strong_refs k t = vrefs (view k) t.
Proof.
  unfold strong_refs, vrefs. cbn. f_equal. f_equal. rewrite map_to_list_fmap, <-list_fmap_compose.
  apply list_fmap_ext. intros _ [u tcb] _. done.
Qed.

(** ** Rules for the parts of the view *)
Lemma pwp_modify (f : kernel D → kernel D) (g : kview → kview) v (Q : unit → kview → Prop) :
  (∀ k, view (f k) = g (view k)) → Q tt (g v) → pwp (modify f) v Q.
Proof. intros Hf HQ k k' [] <- [= <-]. by rewrite Hf. Qed.

Lemma pwp_gets {A} (f : kernel D → A) (g : kview → A) v (Q : A → kview → Prop) :
  (∀ k, f k = g (view k)) → Q (g v) v → pwp (gets f) v Q.
Proof. intros Hf HQ k k' a <- [= <- <-]. by rewrite Hf. Qed.

Lemma pwp_get v (Q : kernel D → kview → Prop) : (∀ k, view k = v → Q k v) → pwp get v Q.
Proof. intros HQ k k' a <- [= <- <-]. by apply HQ. Qed.

Lemma pwp_unwrap {A} (o : option A) v (Q : A → kview → Prop) : (∀ a, o = Some a → Q a v) → pwp (unwrap o : K A) v Q.
Proof. intros HQ. destruct o; [apply pwp_ret; auto|apply pwp_throw]. Qed.

Lemma pwp_assert b v (Q : unit → kview → Prop) : (b = true → Q tt v) → pwp (assert_ b : K _) v Q.
Proof. intros HQ. destruct b; [apply pwp_ret; auto|apply pwp_throw]. Qed.

Lemma pwp_index {A} (l : list A) i v (Q : A → kview → Prop) :
  (∀ a, l !! Z.to_nat i = Some a → Q a v) → pwp (index l i : K A) v Q.
Proof.
  intros HQ. unfold index. case_match; [|apply pwp_throw]. destruct (l !! Z.to_nat i); [apply pwp_ret; auto|apply pwp_throw].
Qed.

Lemma pwp_res {A} (r : res A) v (Q : A → kview → Prop) : (∀ a, r = Ok a → Q a v) → pwp (on_res r : K A) v Q.
Proof. intros HQ k k' a <-. unfold on_res. destruct r; [|done]. intros [= <- <-]. by apply HQ. Qed.

Lemma pwp_the_task v (Q : nat → kview → Prop) : (∀ t, v_current v = Some t → Q t v) → pwp (the_task : K _) v Q.
Proof. intros HQ. apply pwp_bind, (pwp_gets _ v_current); [done|]. by apply pwp_unwrap. Qed.

Lemma pwp_take_current {A} (f : nat → K A) v Q :
  (∀ t, v_current v = Some t → pwp (f t) (v_with_current None v) Q) →
  pwp (c ← take_current_task; task ← unwrap c; f task) v Q.
Proof.
  intros HQ. apply pwp_bind. apply pwp_bind, (pwp_gets _ v_current); [done|].
  apply pwp_bind, (pwp_modify _ (v_with_current None)); [done|]. apply pwp_ret, pwp_bind, pwp_unwrap. auto.
Qed.

Lemma pwp_add_task t v (Q : unit → kview → Prop) :
  Q tt (v_with_queue (v_queue v ++ [t]) v) → pwp (add_task t : K _) v Q.
Proof. intros HQ. by apply (pwp_modify _ (λ v, v_with_queue (v_queue v ++ [t]) v)). Qed.

(** ** The scheduler and the processor *)
Lemma quiet_fetch_loop l st : quiet (for_ l fetch_body st : K _).
Proof. apply quiet_for. intros [[idx res] min_stride] t. unfold fetch_body. quiet. Qed.

Lemma update_stride_view i i' : update_stride i = Ok i' → same_view i i'.
Proof. unfold update_stride, checked_div. case_match; [done|]. by intros [= <-]. Qed.

Lemma pwp_fetch v (Q : option nat → kview → Prop) :
  (∀ idx t, v_queue v !! idx = Some t → Q (Some t) (v_with_queue (remove_nth idx (v_queue v)) v)) →
  pwp (fetch_task : K _) v Q.
Proof.
  intros HQ. apply pwp_bind, (pwp_gets _ v_queue); [done|]. apply pwp_bind, pwp_quiet; [apply quiet_fetch_loop|].
  intros [[_ idx] _]. apply pwp_bind, pwp_index. rewrite Nat2Z.id. intros t Ht. apply pwp_bind, pwp_borrow.
  intros i pid Hi. apply pwp_bind, pwp_res. intros i' Hu%update_stride_view. apply pwp_bind, pwp_release. cbn.
  rewrite lookup_insert_eq. intros e [= <-]. rewrite v_put_put, Hu. cbn. rewrite v_put_id by done.
  apply pwp_bind, (pwp_modify _ (v_with_queue (remove_nth idx (v_queue v)))); [done|]. by apply pwp_ret, HQ.
Qed.

Lemma pwp_dispatch v : v_current v = None → pwp (dispatch : K _) v (λ _ v', pstep_by PDispatch v v').
Proof.
  intros Hc. apply pwp_bind, pwp_fetch. intros idx t Ht. apply pwp_bind, pwp_borrow. intros i pid Hi. cbn in Hi.
  apply pwp_bind, (pwp_mono _ _ (λ i' v', v' = v_put t (tview_of pid true i) (v_with_queue (remove_nth idx (v_queue v)) v) ∧
    same_view (with_status Running i) i')).
  { case_match; [apply pwp_bind, pwp_quiet; [quiet|]; intros us|]; by apply pwp_ret. }
  cbn. intros i' v' [-> Hi']. apply pwp_bind, pwp_release. cbn. rewrite lookup_insert_eq. intros e [= <-]. rewrite v_put_put, Hi'.
  apply pwp_bind, (pwp_modify _ (v_with_current (Some t))); [done|]. apply pwp_ret. destruct v. cbn in *. subst.
  by apply (p_dispatch _ _ _ _ _ idx t (tview_of pid false i)).
Qed.

Lemma pwp_suspend there v : pwp (suspend_current there : K _) v (λ _ v', pstep_by PSuspend v v').
Proof.
  apply pwp_take_current. intros t Hc. apply pwp_bind, pwp_with_inner. intros i pid Hi. apply pwp_add_task.
  destruct v. cbn in *. subst. by apply (p_suspend _ _ _ _ _ t (tview_of pid false i)).
Qed.

(** ** Exit *)

(** The children go to the initial process. *)
Lemma pwp_reparent initproc l i0 v (Q : TaskControlBlockInner → kview → Prop) :
  (∀ i' m', m' = reparent l initproc (v_tasks v) → (∀ c, c ∈ l → is_Some (v_tasks v !! c)) →
     i' = with_children (children i0 ++ l) i0 →
     Q i' (mkV (v_pids v) m' (v_next v) (v_queue v) (v_current v) (v_init v))) →
  pwp (for_ l (λ initproc_inner child,
         with_inner child (λ i, (with_parent (Some initproc) i, tt));;
         mret (with_children (children initproc_inner ++ [child]) initproc_inner)) i0 : K _) v Q.
Proof.
  revert i0 v Q. induction l as [|c l IH]; intros i0 v Q HQ.
  - apply pwp_ret. replace v with (mkV (v_pids v) (v_tasks v) (v_next v) (v_queue v) (v_current v) (v_init v)) by (by destruct v).
    apply HQ; [|intros c Hc; by apply elem_of_nil in Hc|rewrite app_nil_r; by destruct i0].
    apply map_eq. intros u. rewrite lookup_reparent. destruct (v_tasks v !! u); cbn; [|done].
    rewrite decide_False; [done|]. apply not_elem_of_nil.
  - cbn [for_]. apply pwp_bind. apply pwp_bind, pwp_with_inner. intros i pid Hc. apply pwp_ret, IH. cbn.
    intros i' m' -> Hin ->. apply HQ.
    + apply map_eq. intros u. rewrite !lookup_reparent. destruct (decide (u = c)) as [->|Hne].
      * rewrite lookup_insert_eq, Hc. cbn. destruct (decide (c ∈ c :: l)) as [|Hn]; [by case_decide|by destruct Hn; left].
      * rewrite lookup_insert_ne by done. destruct (v_tasks v !! u); cbn; [|done].
        apply f_equal, decide_ext. rewrite elem_of_cons. naive_solver.
    + intros d [->|Hd]%elem_of_cons; [eauto|]. specialize (Hin d Hd). apply lookup_insert_is_Some' in Hin as [<-|]; [eauto|done].
    + cbn. by rewrite <-app_assoc.
Qed.

(** Dropping one of several references does nothing. *)
Lemma pwp_drop_arc_shared t v (Q : unit → kview → Prop) :
  vrefs v t ≠ 0%nat → Q tt v → pwp (drop_arc t : K _) v Q.
Proof.
  intros Hr HQ. apply pwp_bind, pwp_quiet; [quiet|]. intros m. apply pwp_bind, pwp_get. intros k Hk.
  rewrite bool_decide_false by (by rewrite strong_refs_view, Hk). by apply pwp_ret.
Qed.

Lemma lookup_reparent_locked m t i l u e e' :
  u ≠ t → u ≠ i → reparent l i (<[i := e']> (<[t := e]> m)) !! u = reparent l i m !! u.
Proof. intros. rewrite !lookup_reparent, !lookup_insert_ne by done. done. Qed.

Lemma pwp_exit code v : tree_ok v → pwp (exit_current code : K _) v (λ _ v', pstep_by PExit v v').
Proof.
  intros Hok. apply pwp_take_current. intros t Hc. apply pwp_bind, pwp_borrow. intros it pid Ht. cbn in Ht.
  apply pwp_bind, (pwp_gets _ v_init); [done|]. cbn. apply pwp_bind.
  destruct (v_init v) as [i|] eqn:Hi; [|apply pwp_throw]. apply pwp_ret, pwp_bind, pwp_borrow. intros ii pid' Hii. cbn in Hii.
  apply lookup_insert_Some in Hii as [[_ [=]]|[Hti Hii]]. apply pwp_bind, pwp_reparent. cbn.
  intros i' m' -> Hch ->. apply pwp_bind, pwp_release. cbn. intros e He. apply pwp_bind, pwp_quiet; [quiet|]. intros ms.
  apply pwp_bind, pwp_release. cbn. intros e' He'.
  assert (tv_pid e = pid') as ->.
  { rewrite lookup_reparent, lookup_insert_eq in He. injection He as <-. by case_decide. }
  assert (tv_pid e' = pid) as ->.
  { rewrite lookup_insert_ne, lookup_reparent, lookup_insert_ne, lookup_insert_eq in He' by done. injection He' as <-. by case_decide. }
  replace (v_put _ _ _) with (mkV (v_pids v) (exited (v_tasks v) i t (tview_of pid false it) (tview_of pid' false ii))
    (v_next v) (v_queue v) None (Some i)).
  - destruct v as [pa m n q c j]. cbn in *. subst. apply pwp_drop_arc_shared; [|by apply p_exit].
    destruct (family_parent _ _ (exit_family pa m n q i t _ _ Hok Hti Ht Hii) t (t_children [] (t_status Zombie (tview_of pid false it))))
      as (p & ep & _ & Hp & Hin); [by rewrite exited_lookup, decide_True|congruence|]. by eapply vrefs_child.
  - unfold v_put. cbn. rewrite Hi. f_equal. unfold exited. cbn. apply map_eq. intros u.
    destruct (decide (u = t)) as [->|]; [by rewrite !lookup_insert_eq|]. rewrite !(lookup_insert_ne _ t) by done.
    destruct (decide (u = i)) as [->|]; [by rewrite !lookup_insert_eq|]. rewrite !(lookup_insert_ne _ i) by done.
    by rewrite lookup_reparent_locked.
Qed.

(** ** Creation *)
Lemma pwp_pid_alloc v (Q : Z → kview → Prop) :
  (∀ pa pid, pid_alloc (v_pids v) = (pa, pid) → Q pid (v_with_pids pa v)) → pwp (k_pid_alloc : K _) v Q.
Proof.
  intros HQ. apply pwp_bind, (pwp_gets _ v_pids); [done|]. destruct (pid_alloc (v_pids v)) as [pa pid] eqn:Ha.
  apply pwp_bind, (pwp_modify _ (v_with_pids pa)); [done|]. by apply pwp_ret, HQ.
Qed.

Lemma pwp_arc_new pid i v (Q : nat → kview → Prop) :
  Q (v_next v) (mkV (v_pids v) (<[v_next v := tview_of pid false i]> (v_tasks v)) (S (v_next v)) (v_queue v) (v_current v) (v_init v)) →
  pwp (arc_new pid i : K _) v Q.
Proof.
  intros HQ. apply pwp_bind, (pwp_gets _ v_next); [done|].
  apply pwp_bind, (pwp_modify _ (λ v, mkV (v_pids v) (<[v_next v := tview_of pid false i]> (v_tasks v)) (S (v_next v))
    (v_queue v) (v_current v) (v_init v))); [|by apply pwp_ret].
  intros k. unfold view. cbn. by rewrite fmap_insert.
Qed.

(** A new child of the current process, which is not in the ready queue yet. *)
Definition v_created (t : nat) (e : tview) (pa : PidAllocator) (pid : Z) (v : kview) : kview :=
  mkV pa (created (v_tasks v) (v_next v) t e pid) (S (v_next v)) (v_queue v) (v_current v) (v_init v).

(** The result of making a child: its handle, and the table with it. *)
Definition makes_child (t : nat) (v : kview) (child : nat) (v' : kview) : Prop :=
  ∃ e pa pid, child = v_next v ∧ v_tasks v !! t = Some e ∧ pid_alloc (v_pids v) = (pa, pid) ∧ v' = v_created t e pa pid v.

Lemma created_again (m : gmap nat tview) n t e pid e1 :
  n ≠ t → m !! t = Some e →
  <[t := t_children (tv_children e ++ [n]) e]> (<[n := t_new pid (Some t)]> (<[t := e1]> m)) = created m n t e pid
  ∧ <[t := t_children (tv_children e ++ [n]) e]> (<[t := e1]> (<[n := t_new pid (Some t)]> m)) = created m n t e pid.
Proof.
  intros Hne Ht. unfold created. rewrite (insert_insert_ne _ n t) by done. by rewrite !insert_insert_eq.
Qed.

Lemma pwp_fork t v : tree_ok v → pwp (fork t : K _) v (makes_child t v).
Proof.
  intros Hok. apply pwp_bind, pwp_borrow. intros i pid Ht.
  assert (v_next v ≠ t) as Hne by (destruct (sched_task _ _ _ _ (tree_sched _ Hok) _ _ Ht) as (_ & ? & _); lia).
  apply pwp_bind, pwp_quiet; [quiet|]. intros ms. apply pwp_bind, pwp_quiet; [quiet|]. intros ppn.
  apply pwp_bind, pwp_pid_alloc. cbn. intros pa pid' Ha. apply pwp_bind, pwp_quiet; [quiet|]. intros _.
  apply pwp_bind, pwp_quiet; [quiet|]. intros fds. apply pwp_bind, pwp_arc_new. cbn.
  apply pwp_bind, pwp_quiet; [quiet|]. intros ppn'. apply pwp_bind, pwp_quiet; [quiet|]. intros cx.
  apply pwp_bind, pwp_quiet; [quiet|]. intros _. apply pwp_bind, pwp_release. cbn.
  rewrite lookup_insert_ne, lookup_insert_eq by done. intros e [= <-]. apply pwp_ret. cbn.
  exists (tview_of pid false i), pa, pid'. split_and!; [done..|]. unfold v_put, v_created. cbn. f_equal.
  by apply (created_again _ _ t (tview_of pid false i) pid').
Qed.

Lemma pwp_spawn t elf_data v : tree_ok v → v_current v = Some t → pwp (spawn t elf_data : K _) v (makes_child t v).
Proof.
  intros Hok Hc. destruct (sched_current _ _ _ _ (tree_sched _ Hok) t Hc) as (et & Het & _).
  assert (v_next v ≠ t) as Hne by (destruct (sched_task _ _ _ _ (tree_sched _ Hok) _ _ Het) as (_ & ? & _); lia).
  apply pwp_bind, pwp_pid_alloc. cbn. intros pa pid' Ha. apply pwp_bind, pwp_quiet; [quiet|]. intros _.
  apply pwp_bind, pwp_quiet; [quiet|]. intros [[ms user_sp] entry]. apply pwp_bind, pwp_quiet; [quiet|]. intros ppn.
  apply pwp_bind, pwp_arc_new. cbn. apply pwp_bind, pwp_borrow. cbn. intros i pid Ht. rewrite lookup_insert_ne in Ht by done.
  apply pwp_bind, pwp_quiet; [quiet|]. intros _. apply pwp_bind, pwp_release. cbn.
  rewrite lookup_insert_eq. intros e [= <-]. apply pwp_ret. cbn.
  exists (tview_of pid false i), pa, pid'. split_and!; [done..|]. unfold v_put, v_created. cbn. f_equal.
  by apply (created_again _ _ t (tview_of pid false i) pid').
Qed.

(** The child enters the queue. *)
Lemma makes_child_step t v child v' :
  v_current v = Some t → makes_child t v child v' → pstep_by PCreate v (v_with_queue (v_queue v' ++ [child]) v').
Proof.
  intros Hc (e & pa & pid & -> & Ht & Ha & ->). destruct v. cbn in *. subst. by apply p_create.
Qed.

Lemma quiet_clear_a0 t : quiet (clear_a0 t : K _).
Proof. unfold clear_a0. quiet. Qed.

(** The rest of [sys_fork] and [sys_spawn] *)
Lemma pwp_start_child t v child v' (Q : Z → kview → Prop) :
  v_current v = Some t → makes_child t v child v' → (∀ r v'', pstep_by PCreate v v'' → Q r v'') →
  pwp (tcb ← tcb_of child; clear_a0 child;; add_task child;; mret (to_isize (tcb_pid tcb)) : K _) v' Q.
Proof.
  intros Hc Hm HQ. apply pwp_bind, pwp_quiet; [quiet|]. intros tcb. apply pwp_bind, pwp_quiet; [apply quiet_clear_a0|].
  intros _. apply pwp_bind, pwp_add_task. apply pwp_ret, HQ. by eapply makes_child_step.
Qed.

Lemma pwp_sys_fork v : tree_ok v → pwp (sys_fork : K _) v (λ _ v', pstep_by PCreate v v').
Proof.
  intros Hok. apply pwp_bind, pwp_the_task. intros t Hc. apply pwp_bind. eapply pwp_mono; [by apply pwp_fork|].
  intros child v' Hm. by eapply pwp_start_child.
Qed.

Lemma pwp_sys_spawn path v : tree_ok v → pwp (sys_spawn path : K _) v (λ _ v', pmay (Some PCreate) v v').
Proof.
  intros Hok. do 3 (apply pwp_bind, pwp_quiet; [quiet|]; intros ?). case_match; [|by apply pwp_ret; left].
  apply pwp_bind, pwp_quiet; [unfold read_all; quiet|]. intros data. apply pwp_bind, pwp_the_task. intros t Hc.
  apply pwp_bind. eapply pwp_mono; [by apply pwp_spawn|]. intros child v' Hm. eapply pwp_start_child; [done..|].
  intros r v'' ?. right. by exists PCreate.
Qed.

(** ** Waiting for a child *)
Lemma quiet_pid_matches pid p : quiet (pid_matches pid p : K _).
Proof. unfold pid_matches. quiet. Qed.
Lemma quiet_any_child pid l : quiet (any_child pid l : K _).
Proof.
  induction l as [|p l IH]; cbn; [apply quiet_ret|]. apply quiet_bind; [apply quiet_pid_matches|]. intros []; [apply quiet_ret|done].
Qed.

Lemma pwp_find_zombie pid l n v (Q : option (nat * nat) → kview → Prop) :
  Q None v →
  (∀ idx c e, l !! idx = Some c → v_tasks v !! c = Some e → tv_status e = Zombie → Q (Some (n + idx, c)%nat) v) →
  pwp (find_zombie pid l n : K _) v Q.
Proof.
  revert n. induction l as [|p l IH]; intros n HN HS; cbn; [by apply pwp_ret|].
  apply pwp_bind, pwp_read_inner. intros i pid' Hp.
  assert (pwp (find_zombie pid l (S n) : K _) v Q) as Hrest.
  { apply IH; [done|]. intros idx c e Hc He Hz. specialize (HS (S idx) c e Hc He Hz). by rewrite Nat.add_succ_r in HS. }
  destruct (is_zombie i) eqn:Hz; [|by apply pwp_bind, pwp_ret].
  apply pwp_bind, pwp_quiet; [apply quiet_pid_matches|]. intros [|]; [|done]. apply pwp_ret.
  specialize (HS 0%nat p _ eq_refl Hp). rewrite Nat.add_0_r in HS. apply HS. by apply bool_decide_eq_true in Hz.
Qed.

(** The last reference to a process without children is dropped. *)
Lemma pwp_drop_arc_last c e v (Q : unit → kview → Prop) :
  vrefs v c = 0%nat → v_tasks v !! c = Some e → tv_children e = [] →
  (∀ pa, pid_dealloc (tv_pid e) (v_pids v) = Ok pa →
     Q tt (mkV pa (delete c (v_tasks v)) (v_next v) (v_queue v) (v_current v) (v_init v))) →
  pwp (drop_arc c : K _) v Q.
Proof.
  intros Hr He Hch HQ. apply pwp_bind, pwp_quiet; [quiet|]. intros m. apply pwp_bind, pwp_get. intros k Hk.
  rewrite bool_decide_true by (by rewrite strong_refs_view, Hk). apply pwp_bind, pwp_tcb_of. intros tcb Htcb.
  rewrite He in Htcb. injection Htcb as ->. apply pwp_bind, (pwp_modify _ (λ v, mkV (v_pids v) (delete c (v_tasks v)) (v_next v)
    (v_queue v) (v_current v) (v_init v))); [intros k1; unfold view; cbn; by rewrite fmap_delete|].
  apply pwp_bind. apply pwp_bind, (pwp_gets _ v_pids); [done|]. cbn. apply pwp_bind, pwp_res. intros pa Hpa.
  apply (pwp_modify _ (v_with_pids pa)); [done|]. apply pwp_bind, pwp_quiet; [quiet|]. intros _.
  apply pwp_bind, pwp_quiet; [quiet|]. intros _. cbn in Hch. rewrite Hch. apply pwp_ret. by apply HQ.
Qed.

Lemma pwp_sys_waitpid pid ptr v : tree_ok v → pwp (sys_waitpid pid ptr : K _) v (λ _ v', pmay (Some PReap) v v').
Proof.
  intros Hok. apply pwp_bind, pwp_the_task. intros t Hc. apply pwp_bind, pwp_borrow. intros i ptid Ht.
  assert (∀ r, pwp (release t i;; mret r : K Z) (v_put t (tview_of ptid true i) v) (λ _ v', pmay (Some PReap) v v')) as Hback.
  { intros r. apply pwp_bind, pwp_release. cbn. rewrite lookup_insert_eq. intros e [= <-]. apply pwp_ret.
    rewrite v_put_put. cbn. left. by rewrite v_put_id. }
  apply pwp_bind, pwp_quiet; [apply quiet_any_child|]. intros []; [|apply Hback]. cbn [negb].
  apply pwp_bind, pwp_find_zombie; [apply Hback|]. cbn. intros idx c e Hidx He Hz.
  destruct v as [pa m n q cur i0]. cbn in *. subst.
  assert (t < c)%nat as Htc by (by eapply (family_child _ _ (tree_family _ Hok) _ _ c Ht), list_elem_of_lookup_2).
  rewrite lookup_insert_ne in He by lia.
  destruct (reap_child pa m n q i0 t idx c _ e Hok Ht Hidx He Hz) as (_ & _ & Hce).
  apply pwp_bind, pwp_write_inner. cbn. rewrite lookup_insert_eq. intros et [= <-]. rewrite v_put_put. cbn.
  apply pwp_bind, pwp_get. intros k Hk. apply pwp_bind, pwp_assert. intros Hrefs%bool_decide_eq_true.
  rewrite strong_refs_view, Hk in Hrefs. do 4 (apply pwp_bind, pwp_quiet; [quiet|]; intros ?).
  apply pwp_bind, (pwp_drop_arc_last c e); [lia|cbn; by rewrite lookup_insert_ne by lia|done|]. cbn. intros pa' Hpa.
  apply pwp_bind, pwp_release. cbn. rewrite lookup_delete_ne, lookup_insert_eq by lia. intros et [= <-]. apply pwp_ret.
  right. exists PReap. split; [done|]. unfold v_put. cbn. rewrite <-delete_insert_ne by lia. rewrite insert_insert_eq.
  by apply (p_reap _ _ _ _ _ _ t (tview_of ptid false i) idx c e).
Qed.

(** ** System calls and traps

    [m] changes the table by one step of the kind [o], or not at all. *)
Definition becomes {A} (o : option pact) (m : K A) v : Prop := pwp m v (λ _ v', pmay o v v').

Lemma becomes_quiet {A} o (m : K A) v : quiet m → becomes o m v.
Proof. intros Hm. apply pwp_quiet; [done|]. intros _. by left. Qed.

Lemma becomes_bind_quiet {A B} o (m : K A) (f : A → K B) v : quiet m → (∀ a, becomes o (f a) v) → becomes o (m ≫= f) v.
Proof. intros Hm Hf. by apply pwp_bind, pwp_quiet. Qed.

Lemma becomes_bind {A B} o (m : K A) (f : A → K B) v : becomes o m v → (∀ a, quiet (f a)) → becomes o (m ≫= f) v.
Proof.
  intros Hm Hf. apply pwp_bind. eapply pwp_mono; [exact Hm|]. intros a v' Hv'. by apply pwp_quiet.
Qed.

Lemma becomes_once {A} a (m : K A) v : pwp m v (λ _ v', pstep_by a v v') → becomes (Some a) m v.
Proof. intros Hm. eapply pwp_mono; [done|]. intros b v' Hv'. right. by exists a. Qed.

Lemma becomes_returns o (m : K Z) v : becomes o m v → becomes o (returns m) v.
Proof. intros Hm. apply becomes_bind; [done|]. intros z. apply quiet_ret. Qed.

Lemma becomes_stdin_poll buffers v : becomes (Some PSuspend) (stdin_poll buffers : K _) v.
Proof.
  unfold stdin_poll. apply becomes_bind_quiet; [quiet|]. intros n. apply becomes_bind_quiet; [quiet|]. intros _.
  case_match; [|apply becomes_quiet; quiet]. apply becomes_bind; [apply becomes_once, pwp_suspend|intros; apply quiet_ret].
Qed.

Lemma becomes_sys_read fd buf len v : becomes (Some PSuspend) (sys_read fd buf len : K _) v.
Proof.
  unfold sys_read. do 3 (apply becomes_bind_quiet; [quiet|]; intros ?). case_match; [|apply becomes_quiet; quiet].
  apply becomes_bind_quiet; [quiet|]. intros bufs. apply becomes_bind; [|intros []; quiet].
  destruct f; cbn; [|apply becomes_quiet; quiet..]. unfold stdin_read. apply becomes_bind_quiet; [quiet|]. intros _. apply becomes_stdin_poll.
Qed.

Lemma quiet_sys_write fd buf len : quiet (sys_write fd buf len : K _).
Proof. unfold sys_write. quiet. Qed.

Lemma quiet_sys_open path flags : quiet (sys_open path flags : K _).
Proof.
  unfold sys_open. do 5 (apply quiet_bind; [quiet|]; intros ?). case_match; [|quiet]. intros v.
  apply pwp_bind, pwp_borrow. intros i pid Ht. destruct (alloc_fd i) as [i' fd] eqn:Hfd.
  assert (same_view i i') as Hsame by (unfold alloc_fd in Hfd; repeat case_match; by simplify_eq).
  apply pwp_bind, pwp_quiet; [quiet|]. intros fds. apply pwp_bind, pwp_release. cbn. rewrite lookup_insert_eq.
  intros e [= <-]. apply pwp_ret. rewrite v_put_put. cbn. change (tview_of pid false (with_fd_table fds i')) with (tview_of pid false i').
  rewrite Hsame. by apply v_put_id.
Qed.

Lemma quiet_sys_close fd : quiet (sys_close fd : K _).
Proof. unfold sys_close. apply quiet_bind; [quiet|]. intros t. apply quiet_with_inner. intros i. by case_match. Qed.

Lemma quiet_sys_fstat fd st : quiet (sys_fstat fd st : K _).
Proof.
  unfold sys_fstat. do 2 (apply quiet_bind; [quiet|]; intros ?).
  apply (quiet_scope _ _ (λ i _, i)); [|done|intros; apply quiet_ret]. intros i.
  destruct (fd_lookup i fd) as [f|]; [|quiet]. destruct (quiet_file_info f) as (? & ? & ? & ?). quiet.
Qed.

Lemma becomes_sys_set_priority prio v : prio < 2 ^ 63 → becomes (Some PPriority) (sys_set_priority prio : K _) v.
Proof.
  intros Hp. unfold sys_set_priority. destruct (Z.leb_spec 2 prio); [|apply becomes_quiet; quiet].
  apply becomes_bind; [|intros; apply quiet_ret]. apply becomes_once. apply pwp_bind, pwp_the_task. intros t Hc.
  apply pwp_with_inner. intros i pid Ht. cbn. rewrite wrap64_small by (unfold is_u64; lia). destruct v. cbn in *. subst.
  by apply (p_priority _ _ _ _ _ t (tview_of pid false i)).
Qed.

Lemma quiet_sys_exec path : quiet (sys_exec path : K _).
Proof. unfold sys_exec, read_all. quiet. Qed.

Lemma quiet_sys_mmap start len port : quiet (sys_mmap start len port : K _).
Proof.
  unfold sys_mmap. case_match; [|quiet]. apply quiet_bind; [quiet|]. intros perm.
  apply quiet_bind; [apply quiet_current_ms|]. intros r. case_match; quiet.
Qed.

Lemma to_isize_lt z : z < 2 ^ 64 → to_isize z < 2 ^ 63.
Proof. unfold to_isize. intros. destruct (Z.ltb_spec z (2 ^ 63)); lia. Qed.

(** The step a system call may make. *)
Definition syscall_act (id : Z) : option pact :=
  if id =? SYSCALL_READ then Some PSuspend
  else if id =? SYSCALL_EXIT then Some PExit
  else if id =? SYSCALL_YIELD then Some PSuspend
  else if id =? SYSCALL_FORK then Some PCreate
  else if id =? SYSCALL_WAITPID then Some PReap
  else if id =? SYSCALL_SET_PRIORITY then Some PPriority
  else if id =? SYSCALL_SPAWN then Some PCreate
  else None.

Lemma becomes_syscall id args v : tree_ok v → arg args 0 < 2 ^ 64 → becomes (syscall_act id) (syscall id args : K _) v.
Proof.
  intros Hok Ha. apply becomes_bind_quiet; [quiet|]. intros _.
  repeat (case_match; [match goal with E : (id =? _) = true |- _ => apply Z.eqb_eq in E; subst id end; first
    [ apply becomes_returns, becomes_quiet;
      first [apply quiet_sys_write|apply quiet_sys_open|apply quiet_sys_close|apply quiet_sys_fstat|apply quiet_sys_exec|
        apply quiet_sys_mmap|apply quiet_current_ms|
        unfold sys_linkat, sys_unlinkat, link_file, unlink_file, sys_getpid, sys_get_time, sys_task_info; quiet; fail]
    | apply becomes_sys_read
    | apply becomes_bind; [by apply becomes_once, pwp_exit|intros; apply quiet_ret]
    | apply becomes_bind; [apply becomes_once, pwp_suspend|intros; apply quiet_ret]
    | by apply becomes_returns, becomes_once, pwp_sys_fork
    | by apply becomes_returns, pwp_sys_waitpid
    | by apply becomes_returns, pwp_sys_spawn
    | by apply becomes_returns, becomes_sys_set_priority, to_isize_lt ]|]).
  apply becomes_quiet, quiet_throw.
Qed.

Lemma pwp_on_mm {A} (m : M mm A) v (Q : A → kview → Prop) :
  (∀ s s' a, m s = Ok (s', a) → Q a v) → pwp (on_mm m : K A) v Q.
Proof. intros HQ k k' a <- (s' & Hm & ->)%zoom_inv. by eapply HQ. Qed.

Lemma quiet_finish_syscall r : quiet (finish_syscall r : K _).
Proof. unfold finish_syscall. quiet. Qed.
Lemma quiet_trap_return : quiet (trap_return : K _).
Proof. unfold trap_return. quiet. Qed.
Hint Resolve quiet_finish_syscall quiet_trap_return : quiet.

(** Registers hold 64 bits. *)
Lemma get_cx_regs ppn s s' cx i : get_cx ppn s = Ok (s', cx) → arg (x cx) i < 2 ^ 64.
Proof.
  intros Hcx. unfold get_cx in Hcx. inv_run. unfold arg, cx_of_words. cbn [Context.x].
  match goal with |- nth _ (take _ (le_words _ _ ?p)) _ < _ =>
    pose proof (Forall_take _ 32 _ (le_words_fit 8 CX_WORDS p)) as Hfit end.
  destruct (nth_in_or_default i (take 32 (le_words 8 CX_WORDS x0)) 0) as [Hin| ->]; [|lia].
  rewrite Forall_forall in Hfit. apply list_elem_of_In, Hfit in Hin. unfold fits in Hin. lia.
Qed.

(** The call that the handler sees is the one in the user's registers. *)
Lemma saved_call ppn u cx s s1 s2 cx' :
  set_cx ppn (saved u cx) s = Ok (s1, tt) → get_cx ppn s1 = Ok (s2, cx') → arg (x cx') 17 = wrap64 (arg (ur_x u) 17).
Proof.
  intros Hset Hget. unfold set_cx in Hset. apply bind_ok_inv in Hset as (s' & p & Hr & Hw).
  destruct (mem s !! ppn) as [p'|] eqn:Hp; [|unfold read_page, mbind, M_bind, gets in Hr; by rewrite Hp in Hr].
  rewrite (read_page_ok _ _ _ Hp) in Hr. injection Hr as <- <-.
  rewrite (write_page_ok ppn p') in Hw by done. injection Hw as <-.
  erewrite get_cx_ok in Hget by (cbn; apply lookup_insert_eq). injection Hget as _ <-.
  change CX_WORDS with (length (cx_words (saved u cx))). rewrite le_words_bytes_mod. done.
Qed.

Lemma read_inner_inv {A} t (f : TaskControlBlockInner → A) k k' a :
  read_inner t f k = Ok (k', a) → ∃ i, inner_of k t = Some i ∧ k' = k ∧ a = f i.
Proof.
  intros Hr. destruct (inner_of k t) as [i|] eqn:Hi.
  - rewrite (read_inner_ok k t i f Hi) in Hr. injection Hr as <- <-. eauto.
  - exfalso. unfold inner_of in Hi. unfold read_inner, with_inner, borrow in Hr.
    apply bind_ok_inv in Hr as (k1 & i & Hr & _). apply bind_ok_inv in Hr as (k2 & tcb & Ht & Hr).
    unfold tcb_of in Ht. unfold mbind, M_bind, gets in Ht. destruct (tcbs k !! t) as [tcb'|]; [|done]. injection Ht as <- <-.
    apply bind_ok_inv in Hr as (k3 & [c j] & Hx & _). cbn in Hi. unfold exclusive_access in Hx. by destruct (borrowed (inner tcb')).
Qed.

Lemma current_trap_cx_inv k k' ppn :
  current_trap_cx k = Ok (k', ppn) → k' = k ∧ ∃ t i, current_ k = Some t ∧ inner_of k t = Some i ∧ ppn = trap_cx_ppn i.
Proof.
  intros (k1 & t & Ht & (i & Hi & -> & ->)%read_inner_inv)%bind_ok_inv.
  unfold the_task, mbind, M_bind, current_task, gets in Ht. destruct (current_ k) as [u|] eqn:Hc; [|done]. injection Ht as <- <-. eauto 6.
Qed.

(** The step a trap may make. *)
Definition trap_act (cause : Cause) (u : user_regs) : option pact :=
  match cause with
  | UserEnvCall => syscall_act (wrap64 (arg (ur_x u) 17))
  | SupervisorTimer => Some PSuspend
  | OtherCause => None
  | _ => Some PExit
  end.

Lemma becomes_fault cause u stval v :
  tree_ok v → cause ≠ UserEnvCall → becomes (trap_act cause u) (trap_handler cause stval : K _) v.
Proof.
  intros Hok Hne. unfold trap_handler. apply becomes_bind_quiet; [quiet|]. intros _.
  destruct cause; [done|..];
    try (apply becomes_bind_quiet; [quiet|]; intros ppn; apply becomes_bind_quiet; [quiet|]; intros cx;
         apply becomes_bind_quiet; [quiet|]; intros _;
         apply becomes_bind; [by apply becomes_once, pwp_exit|intros; apply quiet_ret]).
  - apply becomes_bind_quiet; [quiet|]. intros _. apply becomes_bind; [by apply becomes_once, pwp_exit|intros; apply quiet_ret].
  - apply becomes_bind_quiet; [quiet|]. intros _.
    apply becomes_bind; [by apply becomes_once, pwp_suspend|intros; apply quiet_ret].
  - apply becomes_quiet, quiet_throw.
Qed.

Lemma becomes_ecall u k k' r :
  tree_ok (view k) → trap UserEnvCall u k = Ok (k', r) → pmay (trap_act UserEnvCall u) (view k) (view k').
Proof.
  intros Hok (k1 & ppn & [-> (t & i & Hc & Hi & ->)]%current_trap_cx_inv & Hr)%bind_ok_inv.
  apply bind_ok_inv in Hr as (k1 & cx & (s1 & Hg & ->)%zoom_inv & Hr). apply bind_ok_inv in Hr as (k2 & [] & (s2 & Hs & ->)%zoom_inv & Hr).
  apply bind_ok_inv in Hr as (k3 & [] & [= <-] & Hr).
  apply bind_ok_inv in Hr as (k4 & ppn & [-> (t' & i' & Hc' & Hi' & ->)]%current_trap_cx_inv & Hr).
  change (current_ k = Some t') in Hc'. change (inner_of k t' = Some i') in Hi'. assert (t' = t) as -> by congruence.
  assert (i' = i) as -> by congruence. apply bind_ok_inv in Hr as (k5 & cx' & (s3 & Hg' & ->)%zoom_inv & Hr).
  pose proof (saved_call _ _ _ _ _ _ _ Hs Hg') as Hid. cbn [trap_act]. rewrite <-Hid.
  revert Hr. set (k5 := set_mm s3 _). change (view k) with (view k5). change (tree_ok (view k5)) in Hok. intros Hr.
  match type of Hr with ?m _ = _ => enough (becomes (syscall_act (arg (x cx') 17)) m (view k5)) as Hb; [by eapply Hb|] end.
  apply becomes_bind_quiet; [quiet|]. intros _. apply becomes_bind; [|intros []; quiet].
  apply becomes_syscall; [done|]. by apply (get_cx_regs _ _ _ _ 10 Hg').
Qed.

Lemma trap_may cause u k k' r : tree_ok (view k) → trap cause u k = Ok (k', r) → pmay (trap_act cause u) (view k) (view k').
Proof.
  intros Hok Hr. destruct (decide (cause = UserEnvCall)) as [->|Hne]; [by eapply becomes_ecall|].
  assert (becomes (trap_act cause u) (trap cause u : K _) (view k)) as Ht; [|by eapply Ht].
  do 3 (apply becomes_bind_quiet; [quiet|]; intros ?). by apply becomes_fault.
Qed.

Lemma becomes_resume th v : becomes (Some PSuspend) (resume th : K _) v.
Proof.
  destruct th; cbn; [apply becomes_quiet; quiet..|]. apply becomes_bind; [apply becomes_stdin_poll|]. intros []; quiet.
Qed.

Lemma run_next_may k k' r : current_ k = None → run_next k = Ok (k', r) →
  ∃ v, pstep_by PDispatch (view k) v ∧ pmay (Some PSuspend) v (view k').
Proof.
  intros Hc Hr. enough (pwp (run_next : K _) (view k) (λ _ v', ∃ v, pstep_by PDispatch (view k) v ∧ pmay (Some PSuspend) v v')) as Hp by (by eapply Hp).
  apply pwp_bind. eapply pwp_mono; [by apply pwp_dispatch|]. intros [t|] v' Hv'; [|apply pwp_ret; exists v'; split; [done|by left]].
  apply pwp_bind, pwp_quiet; [quiet|]. intros th. eapply pwp_mono; [apply becomes_resume|]. intros o v'' Hv''. by exists v'.
Qed.

Lemma user_store_view va b k k' : user_store va b k = Ok (k', tt) → view k' = view k.
Proof.
  intros Hr. assert (quiet (user_store va b : K _)) as Hq by (unfold user_store; quiet). exact (Hq (view k) k k' tt eq_refl Hr).
Qed.

(** A step of the kernel, from a state whose processes are a tree. *)
Lemma kstep_becomes k k' : tree_ok (view k) → kstep k k' → rtc pstep (view k) (view k').
Proof.
  intros Hok Hstep. destruct Hstep as [k k' r Hc Hrun|k k' va b _ Hrun|k k' cause u r _ Hrun].
  - destruct (run_next_may k k' r Hc Hrun) as (v & Hd & Hs%pmay_psteps). eapply rtc_l; [by exists PDispatch|done].
  - by rewrite (user_store_view va b k k' Hrun).
  - by eapply pmay_psteps, trap_may.
Qed.
End refine.
