(* ===== verification/KernelSpec.v ===== *)
(** * What holds of the kernel at all times

    From start-up on, whatever the user programs do, the processes form a tree, the
    scheduler always finds a task, and the kernel behaves as the abstract process
    table does.  The initial process is the exception: the kernel panics when it
    exits. *)

From S2P Require Import Prelude Bytes BlockCache Layout DirEntry Efs Vfs Address FrameAlloc PageTable UserBuf MemorySet.
From S2P Require Import Context Pid Kernel Task Virtio Manager Processor OsFile Syscall Trap ProcTable KernelInv KernelRefine.

Section spec.
Context {D : Type} `{BlockDevice D} `{Platform}.
Notation K := (K D).
Implicit Types (k : kernel D) (v : kview).

(** ** Start-up *)
Lemma pwp_task_new elf_data v (Q : nat → kview → Prop) :
  (∀ pa pid, pid_alloc (v_pids v) = (pa, pid) →
     Q (v_next v) (mkV pa (<[v_next v := t_new pid None]> (v_tasks v)) (S (v_next v)) (v_queue v) (v_current v) (v_init v))) →
  pwp (task_new elf_data : K _) v Q.
Proof.
  intros HQ. apply pwp_bind, pwp_quiet; [quiet|]. intros [[ms user_sp] entry]. apply pwp_bind, pwp_quiet; [quiet|]. intros ppn.
  apply pwp_bind, pwp_pid_alloc. intros pa pid Ha. apply pwp_bind, pwp_quiet; [quiet|]. intros _.
  apply pwp_bind, pwp_arc_new. cbn. apply pwp_bind, pwp_quiet; [quiet|]. intros ppn'.
  apply pwp_bind, pwp_quiet; [quiet|]. intros _. apply pwp_ret. by apply HQ.
Qed.

Lemma quiet_mm_init sym : quiet (mm_init sym : K _).
Proof. unfold mm_init. quiet. Qed.
Lemma quiet_remap_test sym : quiet (remap_test sym : K _).
Proof. unfold remap_test, mid_page. quiet. Qed.
Lemma quiet_open_root : quiet (open_root : K _).
Proof. unfold open_root, virtio_new, virtio_dma_alloc, dma_page. quiet. Qed.

Lemma boot_tree sym mem d k :
  rust_main sym (power_on mem d) = Ok (k, tt) → tree_ok (view k) ∧ current_ k = None.
Proof.
  intros Hk. enough (pwp (rust_main sym : K _) (mkV pid_new ∅ 0 [] None None) (λ _ v', tree_ok v' ∧ v_current v' = None)) as Hpwp.
  { apply (Hpwp (power_on mem d) k tt); [|done]. unfold view. cbn. by rewrite fmap_empty. }
  apply pwp_bind, pwp_quiet; [quiet|]. intros _. apply pwp_bind, pwp_quiet; [apply quiet_mm_init|]. intros _. apply pwp_bind, pwp_quiet; [apply quiet_remap_test|]. intros _.
  do 3 (apply pwp_bind, pwp_quiet; [quiet|]; intros _). apply pwp_bind, pwp_quiet; [apply quiet_open_root|]. intros _.
  apply pwp_bind, pwp_quiet; [unfold list_apps; quiet|]. intros _. apply pwp_bind, pwp_quiet; [quiet|]. intros r.
  apply pwp_bind, pwp_quiet; [quiet|]. intros id. apply pwp_bind, pwp_quiet; [unfold read_all; quiet|]. intros data.
  apply pwp_bind, pwp_task_new. cbn. intros pa pid Ha.
  apply pwp_bind, (pwp_modify _ (λ v, mkV (v_pids v) (v_tasks v) (v_next v) (v_queue v) (v_current v) (Some 0%nat))); [done|].
  apply pwp_add_task. split; [|done]. by apply init_tree_ok.
Qed.

(** ** Runs

    Handles are not reused, and identifiers are below the number of processes ever made:
    runs that make fewer than 2^64 of them. *)
Definition krun : kernel D → kernel D → Prop := rtc (λ k k', kstep k k' ∧ Z.of_nat (next_tcb k') < 2 ^ 64).

Lemma krun_refines k k' : tree_ok (view k) → krun k k' → rtc pstep (view k) (view k') ∧ tree_ok (view k').
Proof.
  intros Hok Hrun. induction Hrun as [k|k1 k2 k3 [Hs Hn] _ IH]; [done|]. pose proof (kstep_becomes _ _ Hok Hs) as Hp.
  destruct IH as [Hp' Hok']; [by eapply psteps_tree_ok|]. split; [by etrans|done].
Qed.

(** ** The scheduler finds a task *)
Lemma tree_inner k t e : tree_ok (view k) → v_tasks (view k) !! t = Some e →
  ∃ i, inner_of k t = Some i ∧ task_priority i = tv_priority e.
Proof.
  intros Hok He. destruct (sched_task _ _ _ _ (tree_sched _ Hok) _ _ He) as (Hb & _). cbn in He.
  rewrite lookup_fmap in He. apply fmap_Some in He as ([pid [i b]] & Htcb & ->). cbn in Hb. subst b.
  exists i. split; [|done]. apply inner_of_Some. eauto.
Qed.

Lemma fetch_loop_total k l : ∀ n res m,
  (∀ t, t ∈ l → is_Some (inner_of k t)) →
  ∃ res' m', for_ l fetch_body (n, res, m) k = Ok (k, ((n + length l)%nat, res', m')) ∧
    (res' = res ∨ n ≤ res' < n + length l)%nat.
Proof.
  induction l as [|t l IH]; intros n res m Hl; cbn [for_].
  { exists res, m. rewrite Nat.add_0_r. split; [done|by left]. }
  destruct (Hl t ltac:(by left)) as [i Hi]. rewrite (bind_ok _ _ _ _ _ (fetch_body_ok k t i _ _ _ Hi)).
  assert (∀ u, u ∈ l → is_Some (inner_of k u)) as Hl' by (intros; apply Hl; by right).
  destruct (task_stride i <? m).
  - destruct (IH (S n) n (task_stride i) Hl') as (r & m' & Hr & Hin). exists r, m'.
    replace (n + length (t :: l))%nat with (S n + length l)%nat by (cbn; lia). split; [done|lia].
  - destruct (IH (S n) res m Hl') as (r & m' & Hr & Hin). exists r, m'.
    replace (n + length (t :: l))%nat with (S n + length l)%nat by (cbn; lia). split; [done|lia].
Qed.

Lemma fetch_total k :
  tree_ok (view k) → current_ k = None →
  ∃ n t i, ready_queue k !! n = Some t ∧ inner_of k t = Some i ∧ fetch k = Ok (fetched k n t i, Some t).
Proof.
  intros Hok Hc. pose proof (tree_sched _ Hok) as [Htask _ Hready _].
  assert (∀ t, t ∈ ready_queue k → ∃ i, inner_of k t = Some i ∧ 2 ≤ task_priority i) as Hq.
  { intros t (e & He & _)%Hready. destruct (tree_inner _ _ _ Hok He) as (i & Hi & Hp). exists i. split; [done|].
    destruct (Htask _ _ He) as (_ & _ & [? _] & _). lia. }
  destruct (fetch_loop_total k (ready_queue k) 0 0 (2 ^ 64 - 1)) as (n & m & Hr & Hn).
  { intros t (i & ? & _)%Hq. eauto. }
  assert (n < length (ready_queue k))%nat as Hlt.
  { destruct Hn as [->|?]; [|lia]. destruct (family_init _ _ (tree_family _ Hok)) as (j & e & _ & He & Hz & _).
    destruct (Htask _ _ He) as (_ & _ & _ & Hm). cbn [view v_queue v_current] in Hm. rewrite Hc in Hm.
    destruct (tv_status e); [done| |done..]. by destruct (ready_queue k); [apply elem_of_nil in Hm|cbn; lia]. }
  destruct (lookup_lt_is_Some_2 (ready_queue k) n Hlt) as [t Ht].
  destruct (Hq t (list_elem_of_lookup_2 _ _ _ Ht)) as (i & Hi & Hp).
  exists n, t, i. split_and!; [done..|]. unfold fetch. erewrite bind_ok by done. change 0xffff_ffff_ffff_ffff with (2 ^ 64 - 1).
  run Hr. apply fetch_take; [done..|lia].
Qed.

(** [dispatch] after [fetch] *)
Lemma dispatch_total k :
  tree_ok (view k) → current_ k = None →
  ∃ k' t, dispatch k = Ok (k', Some t) ∧ t ∈ ready_queue k ∧ current_ k' = Some t.
Proof.
  intros Hok Hc. destruct (fetch_total k Hok Hc) as (n & t & i & Ht & Hi & Hf).
  destruct (dispatch_fetched k n t i Hi Hf) as (r & b & Hd). do 2 eexists. split; [exact Hd|].
  split; [by eapply list_elem_of_lookup_2|done].
Qed.

(** ** The initial process *)
Lemma init_exit k t code :
  current_ k = Some t → INITPROC k = Some t → is_Some (inner_of k t) → exit_current code k = Err AlreadyBorrowed.
Proof.
  intros Hc Hi [i Ht]. unfold exit_current. erewrite bind_ok by reflexivity. cbn [take_current_task]. rewrite Hc.
  erewrite bind_ok by reflexivity. assert (inner_of (set_current None k) t = Some i) as Ht' by done.
  run (borrow_ok _ _ _ Ht'). apply inner_of_Some in Ht' as [pid Htc]. cbn in Htc.
  assert (INITPROC (lock t (set_current None k)) = Some t) as Hi' by (unfold lock; cbn; by rewrite Htc).
  erewrite bind_ok by reflexivity. rewrite Hi'. erewrite bind_ok by reflexivity. apply bind_err.
  unfold borrow. erewrite bind_ok; [|apply tcb_of_ok; unfold lock; cbn; rewrite Htc; cbn; by rewrite lookup_insert_eq]. done.
Qed.

(** ** Theorems *)

(** C2: the kernel implements the process table.  In every state [k] that is reached after start-up,
    whatever user programs do, each step of the kernel from [k] is simulated by the abstract process
    table, from the view of [k] to the view of the next state: an iteration of [run_tasks] dispatches one process, which may at
    once give the processor up again (when it waits for input); a store of the user changes nothing;
    a trap makes at most one step, of the kind that its cause, or the number of the system call
    in register [a7], says ([trap_act]).  So the run as a whole is a run of the table. *)
Theorem kernel_refines_table sym mem d k0 k :
  rust_main sym (power_on mem d) = Ok (k0, tt) → krun k0 k →
  (∀ k' r, current_ k = None → run_next k = Ok (k', r) →
     ∃ v, pstep_by PDispatch (view k) v ∧ pmay (Some PSuspend) v (view k')) ∧
  (∀ k' va b, user_store va b k = Ok (k', tt) → view k' = view k) ∧
  (∀ k' cause u r, trap cause u k = Ok (k', r) → pmay (trap_act cause u) (view k) (view k')) ∧
  rtc pstep (view k0) (view k).
Proof.
  intros [Hok _]%boot_tree Hrun. destruct (krun_refines k0 k Hok Hrun) as [Hsteps Hk].
  split_and!; [by intros; eapply run_next_may|by intros; eapply user_store_view|by intros; eapply trap_may|done].
Qed.

(** C3: processes form a tree, at all times: the initial process is its root and never a
    zombie; every other process is a child of exactly the process it names as its
    parent; a process that has not exited is in the ready queue or running, and none is
    twice; zombies have no children; identifiers are unique and exactly those in use
    are allocated; no control block stays borrowed. *)
Theorem process_tree sym mem d k0 k :
  rust_main sym (power_on mem d) = Ok (k0, tt) → krun k0 k → tree_ok (view k).
Proof. intros [Hok _]%boot_tree Hrun. by apply (krun_refines k0). Qed.

(** C30: the scheduler always finds a task.  Whenever the loop of [run_tasks] is at its head,
    in any run from start-up, [dispatch] returns a task of the ready queue, which becomes
    the current one: the queue is never empty, and neither a borrowed control block
    nor a priority of zero stops it. *)
Theorem scheduler_finds_task sym mem d k0 k :
  rust_main sym (power_on mem d) = Ok (k0, tt) → krun k0 k → current_ k = None →
  ∃ k' t, dispatch k = Ok (k', Some t) ∧ t ∈ ready_queue k ∧ current_ k' = Some t.
Proof. intros [Hok _]%boot_tree Hrun Hc. apply dispatch_total; [by apply (krun_refines k0)|done]. Qed.

(** C38: the initial process must not exit.  When it does, in any run from start-up,
    whether by [sys_exit] or by a fault, the kernel panics: its control block is
    borrowed a second time, to take over its own children. *)
Theorem init_exit_panics sym mem d k0 k t code :
  rust_main sym (power_on mem d) = Ok (k0, tt) → krun k0 k → current_ k = Some t → INITPROC k = Some t →
  sys_exit code k = Err AlreadyBorrowed.
Proof.
  intros [Hok _]%boot_tree Hrun Hc Hi. apply bind_err. apply (init_exit k t); [done..|].
  destruct (krun_refines k0 k Hok Hrun) as [_ Hok']. destruct (sched_current _ _ _ _ (tree_sched _ Hok') t Hc) as (e & He & _).
  destruct (tree_inner _ _ _ Hok' He) as (i & ? & _). eauto.
Qed.
End spec.
