(* ===== verification/KernelDemo.v ===== *)
(** * A machine that starts

    A disk with an initial program, a small memory and a kernel image: the kernel
    starts on it, dispatches the program, and serves its system calls. *)

From Stdlib Require Import String.
From S2P Require Import Prelude Bytes BlockCache Layout DirEntry Efs Vfs Address FrameAlloc PageTable UserBuf MemorySet.
From S2P Require Import Context Pid Kernel Task Manager Processor OsFile Syscall Trap MemType ProcTable KernelInv KernelRefine KernelSpec.

(** ** A disk in memory *)
Record RamDisk := mkRamDisk { ram : gmap Z block }.

#[export] Instance RamDisk_device : BlockDevice RamDisk := {|
  read_block d i := match ram d !! i with Some b => Ok b | None => Err OutOfBounds end;
  write_block d i b := match ram d !! i with Some _ => Ok (mkRamDisk (<[i := b]> (ram d))) | None => Err OutOfBounds end;
|}.

Definition blank : RamDisk :=
  mkRamDisk (list_to_map ((λ i, (i, replicate 512 Byte.x00)) <$> range 0 1100)).

(** The disk is formatted and gets the initial program. *)
Definition program : list byte := [Byte.x13; Byte.x00; Byte.x00; Byte.x00].

Definition make_disk : prog unit :=
  fs ← Efs.create 1100 1;
  r ← Vfs.create fs (inode_at fs 0) (String.list_byte_of_string "ch6b_initproc");
  ino ← unwrap r;
  n ← Vfs.write_at fs ino 0 program;
  block_cache_sync_all.

Definition demo_disk : RamDisk :=
  match Cache.crun make_disk (Cache.mkState [] blank false) with Ok (s, _) => Cache.dev s | Err _ => blank end.

(** ** The machine *)
Definition demo_header : ProgramHeader := mkPh (Some true) 0x10000 0x1000 0 4 true true true.

#[export] Instance demo_platform : Platform := {|
  strampoline := 0x80200000;
  elf_new bs := Some (mkElf [0x7f; 0x45; 0x4c; 0x46] [Some demo_header] 0x10000);
  trap_handler_entry := 0x80201000;
  trap_return_entry := 0x80201100;
  trap_from_kernel_entry := 0x80201200;
  sstatus_user := 0;
  time_read n := 1000000 * Z.of_nat (S n);
  console_getchar n := if Nat.even n then 0 else 0x61;
  task_info_bytes st times time := replicate 2016 Byte.x00;
  cause_debug c := [];
  virtio_queues := [2];
  loop_fuel := 64;
|}.

Definition demo_symbols : kernel_symbols :=
  mkSymbols 0x80200000 0x80202000 0x80202000 0x80203000 0x80203000 0x80204000 0x80204000 0x80206000 0x87f80000.

Definition demo_memory : gmap Z page :=
  list_to_map ((λ i, (i, zero_page)) <$> range 0x87f80 0x88000).

(** ** A run *)
Inductive action := Dispatch | Store (va : Z) (b : byte) | TrapInto (cause : Cause) (u : user_regs).

Definition perform (a : action) : K RamDisk unit :=
  c ← gets current_;
  match a, c with
  | Dispatch, None => _ ← run_next; mret tt
  | Store va b, Some _ => user_store va b
  | TrapInto cause u, Some _ => _ ← trap cause u; mret tt
  | _, _ => mthrow Panicked
  end.

(** The states of a run, the last one first. *)
Fixpoint trace (l : list action) (past : list (kernel RamDisk)) : option (list (kernel RamDisk)) :=
  match l, past with
  | [], _ => Some past
  | a :: l, k :: _ =>
      match perform a k with
      | Ok (k', _) => if Z.of_nat (next_tcb k') <? 2 ^ 64 then trace l (k' :: past) else None
      | Err _ => None
      end
  | _, [] => None
  end.

Lemma perform_kstep a k k' : perform a k = Ok (k', tt) → kstep k k'.
Proof.
  unfold perform. erewrite bind_ok by reflexivity. destruct a, (current_ k) as [t|] eqn:Hc; try done.
  - intros (k1 & r & Hr & [= <-])%bind_ok_inv. by eapply step_dispatch.
  - intros Hr. eapply step_store; [by rewrite Hc|done].
  - intros (k1 & r & Hr & [= <-])%bind_ok_inv. eapply step_trap; [by rewrite Hc|done].
Qed.

Lemma trace_krun k0 l past ks :
  trace l past = Some ks → Forall (krun k0) past → Forall (krun k0) ks.
Proof.
  revert past. induction l as [|a l IH]; intros past Ht Hp; [by injection Ht as <-|].
  destruct past as [|k past]; [done|]. cbn in Ht. destruct (perform a k) as [[k' []]|] eqn:Hk; [|done].
  destruct (Z.ltb_spec (Z.of_nat (next_tcb k')) (2 ^ 64)) as [Hn|]; [|done]. apply (IH _ Ht).
  apply Forall_cons. split; [|done]. apply Forall_cons in Hp as [Hk0 _]. eapply rtc_r; [done|].
  split; [by eapply perform_kstep|done].
Qed.

(** A system call, with the registers that matter. *)
Definition ecall (id a0 a1 : Z) : action :=
  TrapInto UserEnvCall (mkRegs (<[17%nat := id]> (<[11%nat := a1]> (<[10%nat := a0]> (replicate 32 0)))) 0 0x10000 0).

(** The initial process forks and gives the processor up; the child exits with 7; its
    parent waits for it, with room for the exit code in its own memory. *)
Definition demo_script : list action :=
  [Dispatch; ecall SYSCALL_FORK 0 0; ecall SYSCALL_YIELD 0 0; Dispatch; ecall SYSCALL_EXIT 7 0; Dispatch;
   ecall SYSCALL_WAITPID (2 ^ 64 - 1) 0x10800].

Definition demo_boot : res (kernel RamDisk * unit) :=
  rust_main demo_symbols (power_on demo_memory (Cache.mkState [] demo_disk false)).

Definition trace_from (r : res (kernel RamDisk * unit)) (l : list action) : option (list (kernel RamDisk)) :=
  match r with Ok (k, _) => trace l [k] | Err _ => None end.

Definition demo_trace : option (list (kernel RamDisk)) := trace_from demo_boot demo_script.

(** What is looked at: the initial process, the current one, the ready queue, the status of the processes. *)
Definition summary (k : kernel RamDisk) : option nat * option nat * list nat * list (nat * TaskStatus) :=
  (INITPROC k, current_ k, ready_queue k, (λ e, (e.1, task_status (value (inner e.2)))) <$> map_to_list (tcbs k)).

(** The result register of process [t], and the byte at its address [va]. *)
Definition result_of (k : kernel RamDisk) (t : nat) (va : Z) : res (Z * byte) :=
  let m := ppn ← read_inner t trap_cx_ppn;
    cx ← on_mm (get_cx ppn);
    token ← read_inner t (λ i, ms_token (memory_set i));
    o ← on_mm (translate (floor va) (from_token token));
    pte ← unwrap o;
    p ← on_mm (read_page (pte_ppn pte));
    b ← index p (page_offset va);
    mret (arg (x cx) 10, b) in
  match m k with Ok (_, r) => Ok r | Err e => Err e end.

(** In the end, process 0 has the identifier of its child as the result of [waitpid], and the
    exit code in its memory. *)
Lemma demo_summaries :
  option_map (λ ks : list (kernel RamDisk), (List.map summary ks, (λ k, result_of k 0 0x10800) <$> head ks)) demo_trace =
  Some ([(Some 0, Some 0, [], [(0, Running)]);
         (Some 0, Some 0, [], [(1, Zombie); (0, Running)]);
         (Some 0, None, [0], [(1, Zombie); (0, Ready)]);
         (Some 0, Some 1, [0], [(1, Running); (0, Ready)]);
         (Some 0, None, [1; 0], [(1, Ready); (0, Ready)]);
         (Some 0, Some 0, [1], [(1, Ready); (0, Running)]);
         (Some 0, Some 0, [], [(0, Running)]);
         (Some 0, None, [0], [(0, Ready)])]%nat, Some (Ok (1, Byte.x07))).
Proof. vm_compute. reflexivity. Qed.

(** The machine starts, and a state with the [n]-th summary is reached. *)
Lemma demo_reached n sm :
  (fst <$> option_map (λ ks : list (kernel RamDisk), (List.map summary ks, (λ k, result_of k 0 0x10800) <$> head ks)) demo_trace)
    ≫= (λ l, l !! n) = Some sm →
  ∃ k0 k, rust_main demo_symbols (power_on demo_memory (Cache.mkState [] demo_disk false)) = Ok (k0, tt) ∧
    krun k0 k ∧ summary k = sm.
Proof.
  destruct demo_trace as [ks|] eqn:Ht; [|done]. cbn. intros Hn. unfold demo_trace, trace_from in Ht.
  destruct demo_boot as [[k0 []]|] eqn:Hb; [|done]. apply (trace_krun k0) in Ht; [|apply Forall_singleton; apply rtc_refl].
  rewrite list_lookup_fmap in Hn. apply fmap_Some in Hn as (k & Hk & ->). exists k0, k.
  split_and!; [done| |done]. by apply (proj1 (Forall_lookup _ _) Ht n).
Qed.

(** The last action of a trace leads from the state before to the last one. *)
Lemma trace_last l a k : ∀ past ks,
  trace (l ++ [a]) (k :: past) = Some ks → ∃ k1 k2 ks', ks = k2 :: k1 :: ks' ∧ perform a k1 = Ok (k2, tt).
Proof.
  revert k. induction l as [|b l IH]; intros k past ks Ht; cbn in Ht; destruct (perform _ k) as [[k' []]|] eqn:Hk; try done.
  - destruct (Z.of_nat (next_tcb k') <? 2 ^ 64); [|done]. injection Ht as <-. eauto 6.
  - destruct (Z.of_nat (next_tcb k') <? 2 ^ 64); [|done]. by eapply IH.
Qed.

(** The registers of the parent when it waits. *)
Definition wait_regs : user_regs :=
  mkRegs (<[17%nat := SYSCALL_WAITPID]> (<[11%nat := 0x10800]> (<[10%nat := 2 ^ 64 - 1]> (replicate 32 0)))) 0 0x10000 0.

Lemma demo_wait :
  ∃ k0 k k' r, rust_main demo_symbols (power_on demo_memory (Cache.mkState [] demo_disk false)) = Ok (k0, tt) ∧ krun k0 k ∧
    trap UserEnvCall wait_regs k = Ok (k', r) ∧
    summary k = (Some 0, Some 0, [], [(1, Zombie); (0, Running)])%nat ∧ summary k' = (Some 0, Some 0, [], [(0, Running)])%nat.
Proof.
  pose proof demo_summaries as Hsum. destruct demo_trace as [ks|] eqn:Ht; [|done]. cbn [option_map] in Hsum. injection Hsum as Hsum _.
  unfold demo_trace, trace_from in Ht. destruct demo_boot as [[k0 []]|] eqn:Hb; [|done].
  change demo_script with (take 6 demo_script ++ [TrapInto UserEnvCall wait_regs]) in Ht.
  destruct (trace_last _ _ _ _ _ Ht) as (k & k' & ks' & -> & Hp). apply (trace_krun k0) in Ht; [|apply Forall_singleton, rtc_refl].
  pose proof (f_equal (lookup 0%nat) Hsum) as Hk'. apply (inj Some) in Hk'. apply (f_equal (lookup 1%nat)), (inj Some) in Hsum. apply Forall_cons in Ht as [_ [Hrun _]%Forall_cons].
  unfold perform in Hp. erewrite bind_ok in Hp by reflexivity. destruct (current_ k) eqn:Hc; [|done].
  apply bind_ok_inv in Hp as (k1 & r & Hr & [= ->]). exists k0, k, k', r.
  split; [exact Hb|]. split; [exact Hrun|]. split; [exact Hr|]. split; [exact Hsum|exact Hk'].
Qed.

(** The parent's [waitpid] takes the child out of the table. *)
Lemma kernel_refines_table_witness :
  ∃ k k' : kernel RamDisk, summary k = (Some 0, Some 0, [], [(1, Zombie); (0, Running)])%nat ∧
    pstep_by PReap (view k) (view k').
Proof.
  destruct demo_wait as (k0 & k & k' & r & Hb & Hrun & Hr & Hk & Hk'). exists k, k'. split; [exact Hk|].
  destruct (kernel_refines_table demo_symbols demo_memory _ k0 k Hb Hrun) as (_ & _ & Htrap & _).
  destruct (Htrap k' UserEnvCall wait_regs r Hr) as [Hsame|(a & [= <-] & Hs)]; [|exact Hs]. exfalso.
  apply (f_equal (λ v, base.size (v_tasks v))) in Hsame. cbn in Hsame. rewrite !map_size_fmap in Hsame.
  apply (f_equal (λ s : option nat * option nat * list nat * list (nat * TaskStatus), length s.2)) in Hk, Hk'.
  cbn in Hk, Hk'. rewrite length_fmap in Hk, Hk'. rewrite !length_map_to_list in *. congruence.
Defined.

Lemma process_tree_witness :
  ∃ k : kernel RamDisk, summary k = (Some 0, Some 0, [], [(1, Zombie); (0, Running)])%nat ∧ tree_ok (view k).
Proof.
  destruct (demo_reached 1 (Some 0, Some 0, [], [(1, Zombie); (0, Running)])%nat) as (k0 & k & Hb & Hrun & Hs).
  - rewrite demo_summaries. reflexivity.
  - exists k. split; [exact Hs|]. exact (process_tree demo_symbols demo_memory _ k0 k Hb Hrun).
Defined.

Lemma demo_memory_pages : map_Forall (λ _ p, length p = 4096%nat) demo_memory.
Proof. intros p pg (q & [= _ ->] & _)%elem_of_list_to_map_2%list_elem_of_fmap. apply length_replicate. Qed.

Lemma memory_keeps_shape_witness :
  ∃ k : kernel RamDisk, summary k = (Some 0, Some 0, [], [(1, Zombie); (0, Running)])%nat ∧ typed (dom demo_memory) k.
Proof.
  destruct (demo_reached 1 (Some 0, Some 0, [], [(1, Zombie); (0, Running)])%nat) as (k0 & k & Hb & Hrun & Hs).
  - rewrite demo_summaries. reflexivity.
  - exists k. split; [exact Hs|].
    assert (0 ≤ ceil (ekernel demo_symbols) ≤ floor MEMORY_END) as He by (vm_compute; split; congruence).
    assert (rtc kstep k0 k) as Hrun' by (eapply rtc_subrel; [|exact Hrun]; intros k1 k2 [? _]; assumption).
    exact (memory_keeps_shape demo_symbols demo_memory _ k0 k demo_memory_pages He Hb Hrun').
Defined.

Lemma scheduler_finds_task_witness :
  ∃ (k k' : kernel RamDisk) t, summary k = (Some 0, None, [1; 0], [(1, Ready); (0, Ready)])%nat ∧ dispatch k = Ok (k', Some t).
Proof.
  destruct (demo_reached 4 (Some 0, None, [1; 0], [(1, Ready); (0, Ready)])%nat) as (k0 & k & Hb & Hrun & Hs).
  - rewrite demo_summaries. reflexivity.
  - destruct (scheduler_finds_task demo_symbols demo_memory _ k0 k Hb Hrun) as (k' & t & Hd & _).
    + injection Hs as _ Hc _ _. exact Hc.
    + exists k, k', t. split; [exact Hs|exact Hd].
Defined.

Lemma init_exit_panics_witness :
  ∃ k : kernel RamDisk, summary k = (Some 0, Some 0, [], [(0, Running)])%nat ∧ sys_exit 0 k = Err AlreadyBorrowed.
Proof.
  destruct (demo_reached 6 (Some 0, Some 0, [], [(0, Running)])%nat) as (k0 & k & Hb & Hrun & Hs).
  - rewrite demo_summaries. reflexivity.
  - exists k. split; [exact Hs|]. apply (init_exit_panics demo_symbols demo_memory _ k0 k 0%nat 0 Hb Hrun).
    + injection Hs as _ Hc _ _. exact Hc.
    + injection Hs as Hi _ _ _. exact Hi.
Defined.
