(* ===== verification/FileDemo.v ===== *)
(** * A process with an open file

    A kernel state over a formatted disk: its process has one page of memory, at
    0x5000, and the descriptor 0 of a file that holds three bytes. *)

From S2P Require Import Prelude Bytes BlockCache Layout DiskLib DiskInode FileData DirEntry Efs FsInv Vfs VfsSpec VfsDir EfsSpec BlockFile FsModel.
From S2P Require Import Address FrameAlloc PageTable UserBuf MemorySet Context Pid Kernel OsFile UserMem Syscall FileSpec KernelDemo.

Local Ltac Zify.zify_post_hook ::= Z.to_euclidean_division_equations.

Definition demo_fs : EasyFileSystem := created 1100 1.
Definition demo_tr : gmap Z Z := {[ 5 := demo_pte ]}.

(** The cache after the calls of [demo_calls]: file 1, called [b], holds 0, [h], [i]. *)
Lemma demo_cache : ∃ (c : Cache.state BlockFile) s, Refine.R c s ∧ fs_sim demo_fs 1100 demo_state s.
Proof.
  destruct (format_sim demo_file 1100 1 demo_calls demo_state demo_answers demo_create_ok demo_blocks) as (s & Hr & Hsim);
    [by vm_compute|].
  pose proof (Refine.crun_sim (fs ← Efs.create 1100 1; execs fs demo_calls) _ _ (Refine.R_fresh demo_file)) as Hp.
  rewrite Hr in Hp. destruct Hp as (c & _ & HR). eauto.
Qed.

Definition demo_inner (pt : PageTable) : TaskControlBlockInner :=
  mkInner 0 0 InTimer Running 0 [] 16 0 (mkMemorySet pt []) None [] 0 [Some (OSInodeRef 0)].

Definition demo_kernel (c : Cache.state BlockFile) (s : mm) (pt : PageTable) : kernel BlockFile :=
  mkKernel s (mkMemorySet pt []) pid_new {[ 0%nat := mkTcb 0 (mkCell (demo_inner pt) false) ]} 1 [] (Some 0%nat) (Some 0%nat)
    [mkOSInode false true 2 (inode_at demo_fs 1)] c demo_fs [] 0 0 0 [] 0 false.

Lemma demo_process :
  ∃ (k : kernel BlockFile) t i, kfs_ok demo_fs 1100 demo_state k ∧ user_file k t i 0x80400 demo_tr 0 0 ∧
    user_data k demo_tr 0x5000 [Byte.x68; Byte.x69] ∧ open_at demo_fs k 0 false true 2 1.
Proof.
  destruct demo_cache as (c & s & HR & Hsim). destruct demo_user_memory as (m & pt & Hrep & Hb).
  exists (demo_kernel c m pt), 0%nat, (demo_inner pt). split; [split; [done|eauto]|]. split; [by split|]. split; [|done].
  unfold user_data. change (range _ _) with [0x5000 + 0; 0x5000 + 1].
  repeat constructor; apply Hb; (lia || reflexivity).
Qed.

Lemma demo_node : nodes demo_state !! 1 = Some (Layout.File, [Byte.x00; Byte.x68; Byte.x69]).
Proof. by vm_compute. Qed.

Lemma sys_write_writes_witness :
  ∃ (k k' : kernel BlockFile), sys_write 0 0x5000 2 k = Ok (k', 2) ∧
    kfs_ok demo_fs 1100 (with_bytes 1 Layout.File [Byte.x00; Byte.x68; Byte.x69] [Byte.x00; Byte.x68; Byte.x68; Byte.x69] demo_state) k'.
Proof.
  destruct demo_process as (k & t & i & Hk & Huf & Hu & Ho). exists k.
  destruct (sys_write_writes demo_fs 1100 demo_state k t i 0x80400 demo_tr 0 0 false true 2 1 Layout.File
    [Byte.x00; Byte.x68; Byte.x69] 0x5000 [Byte.x68; Byte.x69]) as (c & k' & Hr & _ & Hk' & _).
  - exact Hk.
  - exact Huf.
  - exact Hu.
  - lia.
  - cbn. lia.
  - exact Ho.
  - lia.
  - exact demo_node.
  - lia.
  - cbn. unfold MAX_SIZE. lia.
  - cbn. lia.
  - split; [cbn; unfold MAX_SIZE; lia|]. vm_compute. lia.
  - exists k'. split; [exact Hr|exact Hk'].
Defined.

Lemma sys_read_reads_witness :
  ∃ (k k' : kernel BlockFile), sys_read 0 0x5000 2 k = Ok (k', Returned 1) ∧
    bytes_at (mem (k_mm k')) [0x80777000] [Byte.x69].
Proof.
  destruct demo_process as (k & t & i & Hk & Huf & Hu & Ho). exists k.
  destruct (sys_read_reads demo_fs 1100 demo_state k t i 0x80400 demo_tr 0 0 false true 2 1 Layout.File
    [Byte.x00; Byte.x68; Byte.x69] 0x5000 [Byte.x68; Byte.x69]) as (k' & Hr & _ & _ & _ & _ & Hst & _).
  - exact Hk.
  - exact Huf.
  - exact Hu.
  - lia.
  - cbn. lia.
  - change (phys_of demo_tr <$> _) with [0x80777000; 0x80777001]. repeat constructor; set_solver.
  - exact Ho.
  - lia.
  - exact demo_node.
  - cbn. lia.
  - cbn. lia.
  - exists k'. split; [exact Hr|exact Hst].
Defined.

Lemma read_all_whole_file_witness :
  ∃ (k k' : kernel BlockFile), (r ← open_file [Byte.x62] RDONLY; id ← unwrap r; read_all id) k =
    Ok (k', [Byte.x00; Byte.x68; Byte.x69]).
Proof.
  destruct demo_process as (k & t & i & Hk & _). exists k.
  destruct (read_all_whole_file demo_fs 1100 demo_state k [Byte.x62] 1 Layout.File [Byte.x00; Byte.x68; Byte.x69]) as (k' & Hr & _).
  - exact Hk.
  - vm_compute. reflexivity.
  - exact demo_node.
  - cbn. lia.
  - cbn. lia.
  - exists k'. exact Hr.
Defined.
