(* ===== verification/BootDemo.v ===== *)
(** * A disk to start from

    The machine of [KernelDemo] with a disk that was formatted and got the initial
    program through the file system. *)

From S2P Require Import Prelude Bytes Console BlockCache Layout DiskLib DirEntry Efs FsInv Vfs VfsSpec VfsDir EfsSpec BlockFile FsModel.
From S2P Require Import Address FrameAlloc PageTable UserBuf MemorySet ForkSpec Loader Context Pid Kernel Task Spaces Trap.
From S2P Require Import FileSpec KernelSpace Boot KernelDemo FileDemo.

(** The program is also there under the name that its own first byte spells. *)
Definition short_name : list byte := [Byte.x13].

Definition boot_calls : list call := [CCreate init_name; CWrite 1 0 program; CCreate short_name; CWrite 2 0 program].

Definition boot_answers : list answer := [AInode (Some (inode_at demo_fs 1)); ANum 4; AInode (Some (inode_at demo_fs 2)); ANum 4].

Definition boot_state : afs :=
  match asteps demo_fs (formatted 1100 1) boot_calls with Some (a, _) => a | None => formatted 1100 1 end.

Definition boot_elf : ElfFile := mkElf [0x7f; 0x45; 0x4c; 0x46] [Some demo_header] 0x10000.

Lemma boot_disk : ∃ d : BlockFile, fs_sim demo_fs 1100 boot_state (Refine.disk_of d).
Proof.
  destruct (format_sim demo_file 1100 1 boot_calls boot_state boot_answers demo_create_ok demo_blocks) as (s & Hr & Hsim);
    [by vm_compute|].
  destruct (through_cache_sync _ _ _ _ Hr) as (c & _ & Hd); [by destruct Hsim as [(F & _ & Hh & _) _]|].
  exists (Cache.dev c). by rewrite (sim_disk_of _ _ _ _ _ Hsim Hd) in Hsim.
Qed.

Lemma demo_machine : machine_ok demo_symbols strampoline demo_memory.
Proof.
  split.
  - split; [|repeat constructor]; vm_compute; repeat split; congruence.
  - split; vm_compute; [reflexivity|split; congruence].
  - change (ceil (ekernel demo_symbols)) with 0x87f80. intros p Hp. exists zero_page. split; [|done].
    apply elem_of_list_to_map_1; [|apply list_elem_of_fmap; exists p; split; [done|by apply elem_of_range]].
    rewrite <-list_fmap_compose. apply NoDup_fmap_2; [intros ? ?; done|apply NoDup_seqZ].
  - by vm_compute.
Qed.

Lemma demo_boot_ok : ∃ d : BlockFile, boot_ok demo_symbols demo_memory d demo_fs 1100 boot_state program boot_elf.
Proof.
  destruct boot_disk as [d Hd]. exists d. split.
  - split; [split; vm_compute; [reflexivity|split; congruence]|by vm_compute..].
  - exact demo_machine.
  - exact Hd.
  - exists 1, Layout.File. by vm_compute.
  - by vm_compute.
  - split; [reflexivity|]. split; [|by vm_compute]. split; [reflexivity|by vm_compute| |].
    + apply Forall_singleton. vm_compute. repeat split; congruence.
    + vm_compute. repeat split; congruence.
  - repeat constructor. by vm_compute.
  - by vm_compute.
Qed.

Lemma boots_to_user_witness :
  ∃ (d : BlockFile) k ms tr, (rust_main demo_symbols;; run_next) (power_on demo_memory (Refine.fresh d)) =
      Ok (k, Some (TRAP_CONTEXT, ms_token ms)) ∧ current_ k = Some 0%nat ∧ user_byte (mem (k_mm k)) tr 0x10000 = Some Byte.x13.
Proof.
  destruct demo_boot_ok as [d Hd]. exists d.
  destruct (boots_to_user demo_symbols demo_memory d demo_fs 1100 boot_state program boot_elf Hd)
    as (k & trk & ms & tr & f & Hr & Hc & _ & _ & _ & _ & [Hseg _ _ _ _] & _).
  exists k, ms, tr. split; [exact Hr|]. split; [exact Hc|].
  destruct (Hseg demo_header 0x10000) as [_ Hb]; [by left|reflexivity|reflexivity|vm_compute; split; congruence|exact Hb].
Defined.

Lemma kernel_space_identity_witness :
  ∃ (k' : kernel BlockFile) (tr : gmap Z Z), (mm_init demo_symbols;; remap_test demo_symbols) (power_on demo_memory (Refine.fresh demo_file)) = Ok (k', tt) ∧
    tr !! page_key 0x80200 = Some (pte_new 0x80200 11) ∧ tr !! TRAMPOLINE_KEY = Some (trampoline_pte 0x80200000).
Proof.
  destruct (kernel_space_identity (power_on demo_memory (Refine.fresh demo_file)) demo_symbols eq_refl demo_machine)
    as (k' & tr & Hr & _ & _ & Hid & Ht & _).
  exists k', tr. split; [exact Hr|]. split; [|exact Ht].
  destruct (Hid (0x80200000, 0x80202000, Z.lor PERM_R PERM_X) 0x80200000) as [Hp _]; [by left|cbn; lia|exact Hp].
Defined.
