(* ===== verification/ProcDemo.v ===== *)
(** * A process to start from

    The machine of [BootDemo] with the kernel's memory set up and one process made from the
    initial program. *)

From S2P Require Import Prelude Bytes Console BlockCache Layout DirEntry Efs FsInv Vfs VfsSpec VfsDir EfsSpec BlockFile FsModel Address FrameAlloc PageTable UserBuf MemorySet.
From S2P Require Import MemSpec ForkSpec AddrSpace Loader Context Pid Kernel Task Spaces Processor OsFile Virtio Syscall FileSpec ProcSpec Trap KernelSpace Boot KernelDemo FileDemo BootDemo.

(** A process that runs alone and can be copied. *)
Record alone (lo : Z) (k : kernel BlockFile) (trk : gmap Z Z) (i : TaskControlBlockInner) (tr : gmap Z Z) (ta : MapArea) (cx : TrapContext) : Prop := {
  al_spaces : kspaces_ok lo k trk [(memory_set i, tr)];
  al_current : current_ k = Some 0%nat;
  al_process : process_at k 0 i tr ta cx;
  al_fork : fork_ok (k_mm k) (memory_set i) strampoline;
  al_room : (9 + 3 * npages (areas (memory_set i)) ≤ avail (frame_allocator (k_mm k)))%nat;
  al_pid : pid_current (PID_ALLOCATOR k) < MAX_PID;
  al_next : tcbs k !! next_tcb k = None;
  al_children : children i = [];
}.

Lemma demo_platform_ok : platform_ok.
Proof. destruct demo_boot_ok as [d Hd]. apply Hd. Qed.

Lemma npages_keys l : npages l = length (concat (area_keys <$> l)).
Proof.
  unfold npages. induction l as [|a l IH]; [done|]. cbn [fmap list_fmap concat]. rewrite !length_app. unfold area_keys at 1.
  rewrite length_fmap. f_equal. exact IH.
Qed.

Lemma make_alone lo (k : kernel BlockFile) trk elf_data elf :
  kspaces_ok lo k trk [] → PID_ALLOCATOR k = pid_new → tcbs k = ∅ → next_tcb k = 0%nat →
  elf_new elf_data = Some elf → elf_ok elf_data elf → is_u64 (elf_entry elf) →
  (18 + 6 * seg_pages (elf_segs elf_data elf) ≤ avail (frame_allocator (k_mm k)))%nat →
  ∃ (k' : kernel BlockFile) trk' i tr ta cx, alone lo k' trk' i tr ta cx ∧ tcbs k' !! 0%nat = Some (mkTcb 0 (mkCell i false)) ∧
    k_efs k' = k_efs k ∧ k_fs k' = k_fs k ∧
    program_at elf_data elf strampoline (mem (k_mm k')) tr (user_top elf_data elf) ∧
    program_space lo strampoline elf_data elf (k_mm k') (memory_set i) tr ∧
    npages (areas (memory_set i)) = seg_pages (elf_segs elf_data elf).
Proof.
  intros Hks Hp Ht Hn Helf Hok Hen Hav. pose proof demo_platform_ok as Hpl.
  destruct (run_task_new _ k trk [] elf_data elf Hpl Hks) as
    (pid & pa & s & ksp & trk' & ms & tr & f & _ & Hst & Hks2 & _ & Hprog & _ & Hcx & Htr & Hps & Hav2); [by rewrite Hp|done|done|done|lia|].
  cbn zeta in Hst, Hks2. pose proof (sm_alloc _ _ _ _ Hst) as Hpa. rewrite Hp in Hpa. injection Hpa as Hpid <-.
  destruct (program_areas _ _ _ _ _ _ _ Hok Hps) as (Hty & Hkeys & Htk & ta & Hta & Htv & Hperm).
  assert (npages (areas ms) = seg_pages (elf_segs elf_data elf)) as Hnp.
  { unfold seg_pages. rewrite <-Hkeys. apply npages_keys. }
  match type of Hks2 with kspaces_ok _ ?k2 _ _ => exists (set_current (Some 0%nat) k2) end.
  exists trk', (new_inner f (user_top elf_data elf) (get_top 0) ms None std_fds), tr, ta. eexists. split; [split|].
  - eapply kspaces_ext; [..|exact Hks2]; reflexivity.
  - reflexivity.
  - split; [apply inner_of_Some; exists 0; cbn; by rewrite Hn, lookup_insert_eq|done|exact Htr|exact Hcx].
  - split; [done|done|apply Hpl|]. cbn. rewrite Hnp. lia.
  - cbn. rewrite Hnp. lia.
  - change (PID_ALLOCATOR (set_current _ _)) with pa. by rewrite <-Hpid.
  - cbn. by rewrite Hn, Ht.
  - reflexivity.
  - split; [cbn; by rewrite Hn, lookup_insert_eq|]. done.
Qed.

(** The initial program on the kernel with its disk. *)
Lemma demo_alone : ∃ lo (k : kernel BlockFile) trk i tr ta cx,
  alone lo k trk i tr ta cx ∧ tcbs k !! 0%nat = Some (mkTcb 0 (mkCell i false)) ∧ kfs_ok demo_fs 1100 boot_state k ∧
  user_string k tr 0x10000 short_name ∧ (9 + 3 * seg_pages (elf_segs program boot_elf) ≤ avail (frame_allocator (k_mm k)))%nat.
Proof.
  destruct demo_boot_ok as [d [Hpl Hmc Hdisk _ _ (Helf & Hok & Hen) Hq _]]. exists (ceil (ekernel demo_symbols)).
  destruct (kernel_on (power_on demo_memory (Refine.fresh d)) demo_symbols eq_refl eq_refl Hmc) as (s1 & ms1 & trk & _ & Hks & Hrec & Hav).
  destruct (disk_on _ _ trk demo_fs 1100 boot_state d Hks Hrec eq_refl eq_refl Hdisk Hq) as (s2 & qf & c2 & _ & Hks2 & Hkf2 & Hav2).
  { change (k_mm (timer_set _)) with s1. change (foldr Z.add 0 virtio_queues) with 2.
    change (ceil (ekernel demo_symbols)) with 0x87f80 in Hav. change (Z.of_nat kernel_tables) with 71 in Hav. lia. }
  match type of Hks2 with kspaces_ok _ ?k _ _ =>
    destruct (make_alone _ k trk program boot_elf Hks2 eq_refl eq_refl eq_refl Helf Hok Hen) as (k' & trk' & i & tr & ta & cx & Hal & Ht & He & Hf & Hp & Hps & Hnp) end.
  { change (k_mm (timer_set _)) with s1 in Hav2. change (foldr Z.add 0 virtio_queues) with 2 in Hav2.
    change (ceil (ekernel demo_symbols)) with 0x87f80 in Hav. change (Z.of_nat kernel_tables) with 71 in Hav.
    assert (seg_pages (elf_segs program boot_elf) = 4%nat) as Hsp by by vm_compute.
    rewrite Hsp. change (k_mm (set_sbi _ _)) with s2. lia. }
  exists k', trk', i, tr, ta, cx. split; [exact Hal|]. split; [exact Ht|]. split; [by apply (kfs_ext _ _ _ _ _ He Hf)|].
  split; [|rewrite <-Hnp; apply Hal]. destruct Hp as [Hseg _ _ _ _]. split.
  - cbn [str_at short_name]. split; [|split; [done|]].
    + destruct (Hseg demo_header 0x10000) as [_ Hb]; [by left|reflexivity|reflexivity|vm_compute; split; congruence|exact Hb].
    + destruct (Hseg demo_header 0x10001) as [_ Hb]; [by left|reflexivity|reflexivity|vm_compute; split; congruence|exact Hb].
  - repeat constructor.
  - vm_compute. repeat split; try congruence. lia.
  - eapply (program_no_page_zero (ceil (ekernel demo_symbols)) program boot_elf); [by vm_compute|exact Hpl|by vm_compute|exact Hok|exact Hps].
Qed.

Lemma demo_program_file : program_file boot_state short_name program boot_elf.
Proof.
  split; [exists 2, Layout.File; by vm_compute|by vm_compute|]. destruct demo_boot_ok as [d Hd]. apply Hd.
Qed.

Lemma sys_fork_splits_witness :
  ∃ (k k' : kernel BlockFile) pid g cx, sys_fork k = Ok (k', pid) ∧ ready_queue k' = ready_queue k ++ [next_tcb k] ∧
    get_cx g (k_mm k') = Ok (k_mm k', set_x 10 0 cx).
Proof.
  destruct demo_alone as (lo & k & trk & i & tr & ta & cx & [Hks Hc Hp Hf Hroom Hpid Hnext _] & _).
  destruct (sys_fork_splits lo k trk [] 0 i tr ta cx demo_platform_ok Hks Hc Hp Hf Hroom Hpid Hnext)
    as (k' & trk' & pid & ms & trn & g & Hr & _ & _ & _ & _ & Hq & _ & _ & _ & Hcx & _).
  exists k, k', pid, g, (with_kernel_sp (get_top pid) cx). split; [exact Hr|]. split; [exact Hq|exact Hcx].
Defined.

Lemma sys_spawn_starts_witness :
  ∃ (k k' : kernel BlockFile) pid tr, sys_spawn 0x10000 k = Ok (k', pid) ∧ ready_queue k' = ready_queue k ++ [next_tcb k] ∧
    user_byte (mem (k_mm k')) tr 0x10000 = Some Byte.x13.
Proof.
  destruct demo_alone as (lo & k & trk & i & tr & ta & cx & [Hks Hc [Hi _ _ _] _ _ Hpid Hnext _] & _ & Hkf & Hstr & Hav).
  destruct (sys_spawn_starts lo demo_fs 1100 boot_state k trk [] 0 i tr 0x10000 short_name program boot_elf
    demo_platform_ok Hks Hkf Hc Hi Hnext Hpid Hstr demo_program_file Hav) as (k' & trk' & pid & ms & tr' & f & Hr & _ & _ & _ & _ & Hq & _ & _ & [Hseg _ _ _ _] & _).
  exists k, k', pid, tr'. split; [exact Hr|]. split; [exact Hq|].
  destruct (Hseg demo_header 0x10000) as [_ Hb]; [by left|reflexivity|reflexivity|vm_compute; split; congruence|exact Hb].
Defined.


(** Its parent, the initial process. *)
Definition demo_parent : TaskControlBlockInner :=
  with_children [0%nat] (new_inner 0 0 0 (mkMemorySet (mkPageTable 0 []) []) None []).

Definition with_init (k : kernel BlockFile) : kernel BlockFile :=
  set_initproc (Some (next_tcb k)) (add_tcb (mkTcb 1 (cell_new demo_parent)) k).

Lemma sys_exit_frees_witness :
  ∃ (k k' : kernel BlockFile) i, sys_exit 7 k = Ok (k', Switched) ∧ inner_of k' 0 = Some i ∧ exit_code i = 7 ∧ task_status i = Zombie.
Proof.
  destruct demo_alone as (lo & k & trk & i & tr & ta & cx & [Hks Hc [Hi _ _ _] _ _ _ Hnext Hch] & Ht & _).
  assert (0%nat ≠ next_tcb k) as Hne by congruence.
  assert (inner_of (with_init k) 0 = Some i) as Hi' by (apply inner_of_Some; exists 0; cbn; by rewrite lookup_insert_ne).
  assert (inner_of (with_init k) (next_tcb k) = Some demo_parent) as Hp by (apply inner_of_Some; exists 1; cbn; by rewrite lookup_insert_eq).
  destruct (sys_exit_frees lo (with_init k) trk [] 0 i tr (next_tcb k) demo_parent (next_tcb k) demo_parent 7)
    as (k' & Hr & Hz & _).
  - by apply (kspaces_ext lo k).
  - exact Hc.
  - reflexivity.
  - exact Hne.
  - exact Hi'.
  - exact Hp.
  - rewrite Hch. constructor.
  - by apply not_eq_sym.
  - exact Hp.
  - by left.
  - exists (with_init k), k'. eexists. split; [exact Hr|]. split; [exact Hz|done].
Defined.
