(* ===== verification/ReapDemo.v ===== *)
(** * A child to wait for

    A kernel state in which process 1, a child of process 0, has exited with code 5. *)

From S2P Require Import Prelude Bytes BlockCache Layout Bitmap Efs Vfs BlockFile Address FrameAlloc PageTable UserBuf MemorySet.
From S2P Require Import MemSpec ForkSpec AddrSpace Context Pid Kernel Task Spaces Syscall ReapSpec KernelDemo.

(** A space with one area is made beside others. *)
Lemma space_with_area lo s L a :
  spaces_ok lo s L → area_fresh ∅ a → (1 + area_need a ≤ avail (frame_allocator s))%nat →
  ∃ s' ms fs, let a' := with_frames (zip (area_pages a) fs) a in
    spaces_ok lo s' ((ms, map_pages a (zip (area_pages a) fs) ∅) :: L) ∧ areas ms = [a'] ∧ length fs = length (area_pages a) ∧
    (avail (frame_allocator s) ≤ avail (frame_allocator s') + (1 + area_need a))%nat.
Proof.
  intros Hsp Hfr Hav. destruct (run_new_bare lo s (so_mm _ _ _ Hsp)) as (s1 & ms1 & _ & Hi1 & Hem & Hl1 & Hs1); [lia|].
  destruct (spaces_new _ _ _ _ _ _ Hsp Hs1 Hi1) as [Hsp1 _].
  pose proof (step_avail _ _ _ _ _ Hs1) as Ha1. unfold owned in Ha1. rewrite Hem in Ha1. cbn in Ha1. rewrite app_nil_r in Ha1.
  destruct (run_push lo s1 ms1 ∅ a None Hi1 Hfr) as (s2 & pt & fs & _ & Hl & Hs2 & Hi2 & _ & [Hg _] & _); [lia|done|].
  rewrite Hem in Hi2, Hs2. cbn [app] in Hi2, Hs2. destruct (spaces_change _ _ _ _ _ _ _ _ Hsp1 Hs2 Hi2) as [Hsp2 _].
  eexists s2, _, fs. cbn zeta. split; [exact Hsp2|]. split; [done|]. split; [done|].
  pose proof (step_avail _ _ _ _ _ Hs2) as Ha2. unfold owned in Ha2. rewrite Hem in Ha2. cbn [areas page_table fmap list_fmap concat] in Ha2.
  destruct (zip_area_pages a fs Hl) as [_ H2]. unfold area_frames in Ha2. cbn [with_frames data_frames] in Ha2.
  rewrite H2, !app_nil_r, length_app in Ha2. unfold area_need in *. lia.
Qed.

(** One page of the parent, two of the child's kernel stack. *)
Definition parent_area : MapArea := mkArea (mkRange 5 6) [] Framed (Z.lor (Z.lor PERM_R PERM_W) PERM_U).
Definition stack_pages_area : MapArea := mkArea (mkRange (2 ^ 52 - 6) (2 ^ 52 - 4)) [] Framed (Z.lor PERM_R PERM_W).

Definition parent_inner (ms : MemorySet) : TaskControlBlockInner :=
  with_children [1%nat] (new_inner 0 0 0 ms None []).
Definition child_inner (ms : MemorySet) : TaskControlBlockInner :=
  with_exit_code 5 (with_status Zombie (new_inner 0 0 0 ms (Some 0%nat) [])).

Definition waiting (s : mm) (ksp parent child : MemorySet) : kernel RamDisk :=
  mkKernel s ksp (mkPidAllocator 2 [])
    (<[0%nat := mkTcb 0 (mkCell (parent_inner parent) false)]> {[ 1%nat := mkTcb 1 (mkCell (child_inner child) false) ]}) 2 []
    (Some 0%nat) (Some 0%nat) [] (Cache.mkState [] blank false) (mkEfs (mkBitmap 0 0) (mkBitmap 0 0) 0 0) [] 0 0 0 [] 0 false.

Lemma demo_waiting : ∃ s ksp trk parent tru child trc fs fs',
  kspaces_ok 0x80400 (waiting s ksp parent child) trk [(parent, tru); (child, trc)] ∧
  areas parent = [with_frames (zip [5] fs) parent_area] ∧ areas ksp = [with_frames (zip [2 ^ 52 - 6; 2 ^ 52 - 5] fs') stack_pages_area].
Proof.
  assert (mm_ok 0x80400 (demo_mm 0x80400 0x80440)) as Hmm by (apply demo_mm_ok; lia).
  assert (avail (frame_allocator (demo_mm 0x80400 0x80440)) = 64%nat) as Ha0 by (rewrite demo_mm_avail; lia).
  assert (spaces_ok 0x80400 (demo_mm 0x80400 0x80440) []) as Hsp0 by (split; [exact Hmm|constructor|constructor]).
  destruct (run_new_bare 0x80400 _ Hmm) as (s1 & child & _ & Hi1 & Hem & Hl1 & Hs1); [rewrite Ha0; lia|].
  destruct (spaces_new _ _ _ _ _ _ Hsp0 Hs1 Hi1) as [Hsp1 _].
  pose proof (step_avail _ _ _ _ _ Hs1) as Ha1. unfold owned in Ha1. rewrite Hem in Ha1. cbn [length concat fmap list_fmap] in Ha1. rewrite app_nil_r, Ha0 in Ha1.
  destruct (space_with_area 0x80400 s1 _ parent_area Hsp1) as (s2 & parent & fs & Hsp2 & Hpar & Hf2 & Ha2);
    [split; by vm_compute|change (area_need parent_area) with 3%nat; lia|]. change (area_need parent_area) with 3%nat in Ha2.
  destruct (space_with_area 0x80400 s2 _ stack_pages_area Hsp2) as (s3 & ksp & fs' & Hsp3 & Hks & Hf3 & _);
    [split; by vm_compute|change (area_need stack_pages_area) with 6%nat; lia|].
  eexists s3, ksp, _, parent, _, child, ∅, fs, fs'. split; [|split; [exact Hpar|exact Hks]]. split; [exact Hsp3| |split; cbn; [lia|constructor|constructor]].
  intros key Hk. right; right. exists 1. split; [split; [cbn; lia|apply not_elem_of_nil]|].
  destruct (decide (key ∈ area_keys stack_pages_area)) as [Hin|Hni].
  - change (area_keys stack_pages_area) with [2 ^ 27 - 6; 2 ^ 27 - 5] in Hin. rewrite !elem_of_cons, elem_of_nil in Hin. unfold stack_key. lia.
  - rewrite lookup_other_page in Hk by done. by destruct Hk.
Qed.

Lemma sys_waitpid_reaps_witness :
  ∃ (k k' : kernel RamDisk) tru, sys_waitpid (-1) 0x5008 k = Ok (k', 1) ∧ tcbs k' !! 1%nat = None ∧ user_byte (mem (k_mm k')) tru 0x5008 = Some Byte.x05.
Proof.
  destruct demo_waiting as (s & ksp & trk & parent & tru & child & trc & fs & fs' & Hks & Hpar & Hksp).
  destruct (sys_waitpid_reaps 0x80400 (waiting s ksp parent child) trk [] 0 0 (parent_inner parent) tru 1 1 (child_inner child) trc 0 (-1) 0x5008
    (with_frames (zip [5] fs) parent_area) 0 (with_frames (zip [2 ^ 52 - 6; 2 ^ 52 - 5] fs') stack_pages_area))
    as (k' & trk' & Hr & Ht & Hb & _).
  - exact Hks.
  - lia.
  - reflexivity.
  - reflexivity.
  - intros d ->%list_elem_of_singleton. split; [done|by eexists].
  - reflexivity.
  - reflexivity.
  - reflexivity.
  - reflexivity.
  - reflexivity.
  - intros j d Hj. lia.
  - reflexivity.
  - split; [cbn; lia|apply not_elem_of_nil].
  - unfold MAX_PID. lia.
  - split; [cbn; rewrite Hksp; reflexivity|reflexivity|reflexivity].
  - cbn. rewrite Hpar. by left.
  - reflexivity.
  - by left.
  - by vm_compute.
  - exists (waiting s ksp parent child), k', tru. split; [exact Hr|]. split; [by rewrite Ht|]. apply (Hb 0%nat). reflexivity.
Defined.
